(** * genSTARK: the FRI low-degree prover and verifier, and the STARK driver

    A shallow embedding of
    - [src/unnamed/part_001]: the compiled [LowDegreeProver.js]
      (module [LowDegreeProverJs]),
    - [src/unnamed/part_000]: the earlier [LowDegreeProver.ts]
      (module [LowDegreeProverTs]),
    - [src/lib/components/TraceBuilder.ts]: the [Stark] class and
      [validateSecurityOptions] (module [Stark]),
    followed by the properties of the specification that were checked
    against them.

    Conventions.
    - A JS [bigint] is a [Z]; a JS [number] that counts or indexes is a
      [nat]; a number that may be negative is a [Z].
    - A [Buffer] is its sequence of bytes.
    - A JS array read out of range yields [undefined]: [l !! i = None].
    - A call that may throw returns an [Outcome]; a loop whose bound is not
      syntactic takes fuel and may be [Unfinished].
    - The finite field, the hash, the Merkle tree and the query index
      generator are libraries outside the repository: they are the
      interfaces [FiniteField], [Hash], [Merkle] and [QueryIndexGenerator]. *)

From Stdlib Require Import ZArith Lia List String Ascii.
From stdpp Require Import base decidable option list numbers gmap strings pretty.

(** ** Errors and outcomes *)

(** The messages of the [StarkError]s the modelled code throws. *)
Inductive Message : Type :=
| LinearCombinationMerkleFailed
| LinearCombinationCorrectnessFailed
| ColumnMerkleFailed (depth : nat)
| PolynomialMerkleFailed (depth : nat)
| Degree4Mismatch (depth : nat)
| RemainderDegreeTooLarge
| RemainderRootMismatch
| RemainderNotValid (maxDegreePlus1 : nat)
| EvaluationMerkleFailed
| LowDegreeVerificationFailed
| TransitionConstraintFailed (step : nat)
| BoundaryConstraintFailed (step : nat)
| LinearCombinationInconsistent (step : nat).

(** [new StarkError(message)], [new StarkError(message, cause)], the errors
    the JS runtime raises, and the errors a library throws (a library knows
    no [StarkError]). *)
Inductive Error : Type :=
| StarkError (message : Message)
| StarkErrorFrom (message : Message) (cause : Error)
| TypeError (message : string)
| RangeError
| LibraryError (message : string).

Inductive Outcome (A : Type) : Type :=
| Return (a : A)
| Throw (e : Error)
| Unfinished.
Arguments Return {A} a.
Arguments Throw {A} e.
Arguments Unfinished {A}.

#[global] Instance Outcome_ret : MRet Outcome := @Return.
#[global] Instance Outcome_bind : MBind Outcome := fun A B f m =>
  match m with
  | Return a => f a
  | Throw e => Throw e
  | Unfinished => Unfinished
  end.

(** [error instanceof StarkError] *)
Definition isStarkError (e : Error) : bool :=
  match e with StarkError _ | StarkErrorFrom _ _ => true | _ => false end.

(** [throw new StarkError(message)] *)
Definition throwStark {A} (message : Message) : Outcome A :=
  Throw (StarkError message).

(** [if (!ok) throw new StarkError(message)] *)
Definition assertStark (ok : bool) (message : Message) : Outcome unit :=
  if ok then Return tt else throwStark message.

(** The outcome of a library call that returns or throws. *)
Definition called {A} (result : string + A) : Outcome A :=
  match result with
  | inl message => Throw (LibraryError message)
  | inr a => Return a
  end.

(** ** JavaScript arrays and sets *)

(** [array[index] = value] on an array that may have holes: writing past the
    end extends the array, the slots in between stay empty. *)
Definition arraySet {A} (array : list (option A)) (index : nat) (value : A)
  : list (option A) :=
  if decide (index < length array) then <[index := Some value]> array
  else array ++ replicate (index - length array) None ++ [Some value].

(** [new Array(count)]: a [RangeError] for a negative count. *)
Definition newArray {A} (count : Z) : Outcome (list (option A)) :=
  if decide (count < 0)%Z then Throw RangeError
  else Return (replicate (Z.to_nat count) None).

(** [array.indexOf(x)], [None] for -1. *)
Fixpoint indexOf (array : list nat) (x : nat) : option nat :=
  match array with
  | [] => None
  | y :: rest => if decide (y = x) then Some 0 else S <$> indexOf rest x
  end.

(** A [Set<number>] keeps its members in insertion order; [Array.from]
    lists them in that order. The model is that list. *)
Definition setAdd (set : list nat) (x : nat) : list nat :=
  if decide (x ∈ set) then set else set ++ [x].

(** The list of first occurrences, the mathematical reading of
    "deduplicated, in insertion order". *)
Fixpoint firstOccurrences (l : list nat) : list nat :=
  match l with
  | [] => []
  | x :: rest => x :: filter (fun y => y ≠ x) (firstOccurrences rest)
  end.

(** ** Vectors, matrices and buffers *)

Abbreviation Buffer := (list Z) (only parsing).
Abbreviation Vector := (list Z) (only parsing).
Abbreviation Matrix := (list (list Z)) (only parsing).

Definition rowCount (m : Matrix) : nat := length m.
Definition colCount (m : Matrix) : nat :=
  match m with [] => 0 | row :: _ => length row end.

(** [vector.getValue(index)]; an index outside the vector is a [TypeError]
    in the model (the JS vector hands out [undefined], which no field
    operation accepts). *)
Definition getValue (v : Vector) (index : nat) : Outcome Z :=
  match v !! index with
  | Some x => Return x
  | None => Throw (TypeError "undefined is not a field element")
  end.

(** Modelled from the spec: the field library's [transposeVector(v, columns,
    step)] (spec 4.4: "rows are (L[i], L[i+N/4], L[i+N/2], L[i+3N/4])";
    "transposing the cached powers of g stride 4^(k+1)"): only every
    [step]-th value is used, and entry (i, j) is the value at index
    [(i + j * rowCount) * step]. *)
Definition transposeVector (v : Vector) (columns step : nat) : Matrix :=
  let rows := length v / step / columns in
  map (fun i => map (fun j => nth ((i + j * rows) * step) v 0%Z) (seq 0 columns))
      (seq 0 rows).

(** Modelled from the spec: the field library's [transposeMatrix]. *)
Definition transposeMatrix (m : Matrix) : Matrix :=
  map (fun j => map (fun row => nth j row 0%Z) m) (seq 0 (colCount m)).

(** Modelled from the spec: the field library's [joinMatrixRows] (spec 4.4:
    "concatenation of rows in original order"). *)
Definition joinMatrixRows (m : Matrix) : Vector := concat m.

(** ** The libraries the provers are built on *)

(** The finite field ([this.field]); the batch operations work row by row,
    so the interface has the operation on one row. *)
Class FiniteField : Type := {
  elementSize : nat;
  fmul : Z -> Z -> Z;                               (* field.mul *)
  fexp : Z -> nat -> Z;                             (* field.exp *)
  prng : Buffer -> Z;                               (* field.prng(seed) *)
  prngMany : Buffer -> nat -> list Z;               (* field.prng(seed, count) *)
  combine : list Z -> list Z -> Z;                  (* field.combine *)
  interpolateQuartic : list Z -> list Z -> list Z;  (* a row of interpolateQuarticBatch *)
  evalQuartic : list Z -> Z -> Z;                   (* a row of evalQuarticBatch *)
  interpolate : list Z -> list Z -> list Z;         (* field.interpolate *)
  evalPolyAt : list Z -> Z -> Z;                    (* field.evalPolyAt *)
  vectorToBuffer : Vector -> Buffer;                (* vector.toBuffer() *)
  matrixToBuffer : Matrix -> Buffer;                (* matrix.toBuffer() *)
  bigIntAt : Buffer -> nat -> nat -> Z;             (* utils: the value readBigInt assembles *)
  buffersToBigInts : list Buffer -> list Z;         (* utils: buffersToBigInts *)
}.

(** Modelled from the spec: [utils.readBigInt(buffer, offset, elementSize)],
    which is not among the sources (spec 3: "fixed-width little-endian byte
    encoding of size es"). It assembles the value from the [elementSize] bytes
    at [offset] with the readers of [Buffer], and these raise a [RangeError]
    when the bytes do not all lie in the buffer; [bigIntAt] is the value of
    bytes that do. *)
Definition readBigInt `{FiniteField} (buffer : Buffer) (offset size : nat) : Outcome Z :=
  if decide (offset + size ≤ length buffer) then Return (bigIntAt buffer offset size)
  else Throw RangeError.

(** [for (let x of xs) result.push(f(x))], where [f(x)] may throw. *)
Fixpoint forEach {A B} (f : A -> Outcome B) (xs : list A) : Outcome (list B) :=
  match xs with
  | [] => Return []
  | x :: rest =>
    y ← f x;
    result ← forEach f rest;
    Return (y :: result)
  end.

(** The hash ([this.hash]). *)
Class Hash : Type := {
  digest : Buffer -> Buffer;
  digestValues : Buffer -> nat -> list Buffer;
}.

(** A batch Merkle proof, as [@guildofweavers/merkle] declares it. *)
Record BatchMerkleProof : Type := {
  values : list Buffer;
  nodes : list Buffer;
  proofDepth : nat;
}.

(** [@guildofweavers/merkle]'s [MerkleTree]; [verifyBatch] returns a boolean
    or throws. *)
Class Merkle : Type := {
  MerkleTree : Type;
  create : list Buffer -> MerkleTree;
  root : MerkleTree -> Buffer;
  proveBatch : MerkleTree -> list nat -> BatchMerkleProof;
  verifyBatch : Buffer -> list nat -> BatchMerkleProof -> string + bool;
}.

(** [QueryIndexGenerator]; an [extensionFactor] of 0 also stands for an
    absent one (both are falsy). *)
Class QueryIndexGenerator : Type := {
  extensionFactor : nat;
  getExeIndexes : Buffer -> nat -> list nat;
  getFriIndexes : Buffer -> nat -> list nat;
}.

(** Modelled from the spec: the field library's [getPowerSeries(seed, n)]
    (spec 4.5: "Build the domain {w^i} of size R"). *)
Definition getPowerSeries `{FiniteField} (seed : Z) (n : nat) : Vector :=
  map (fexp seed) (seq 0 n).

(** Modelled from the spec: [interpolateQuarticBatch] (spec 4.4: "Interpolate
    each row of polyValues against its 4 x-coordinates"): one polynomial per
    row of the x matrix; a missing row of y values is a [TypeError]. *)
Fixpoint interpolateQuarticBatch `{FiniteField} (xs ys : Matrix)
  : Outcome (list (list Z)) :=
  match xs with
  | [] => Return []
  | xrow :: xs' =>
    match ys with
    | [] => Throw (TypeError "undefined row of y values")
    | yrow :: ys' =>
      polys ← interpolateQuarticBatch xs' ys';
      Return (interpolateQuartic xrow yrow :: polys)
    end
  end.

(** Modelled from the spec: [evalQuarticBatch] (spec 4.4: "Evaluate all row
    polynomials at specialX to obtain a column"). *)
Definition evalQuarticBatch `{FiniteField} (polys : list (list Z)) (x : Z) : Vector :=
  map (fun poly => evalQuartic poly x) polys.

(** Modelled from the spec: the matrix method [rowsToBuffers(positions)]
    (spec 4.4: "the proof's values field is replaced with the un-hashed
    4-element rows"); a position outside the matrix is a [TypeError]. *)
Fixpoint rowsToBuffers `{FiniteField} (m : Matrix) (positions : list nat)
  : Outcome (list Buffer) :=
  match positions with
  | [] => Return []
  | position :: rest =>
    match m !! position with
    | None => Throw (TypeError "undefined row")
    | Some row =>
      buffers ← rowsToBuffers m rest;
      Return (vectorToBuffer row :: buffers)
    end
  end.

(** Modelled from the spec: [utils.rehashMerkleProofValues(proof, hash)]
    (spec 4.6: "Re-hash the column proof's raw rows"): a new proof object
    whose values are the digests of the given one's. *)
Definition rehashMerkleProofValues `{Hash} (proof : BatchMerkleProof)
  : BatchMerkleProof :=
  {| values := map digest (values proof);
     nodes := nodes proof;
     proofDepth := proofDepth proof |}.

(** ** Rows of a column: arithmetic on [columnLength / 4]

    [rowLength = columnLength / 4] is a JS number and a fraction when 4 does
    not divide the column length. [%] and [/] on numbers are exact here, so
    the quantities the code derives from it are computed on numerators:
    [position % rowLength = ((4 * position) mod columnLength) / 4] and
    [position / rowLength = (4 * position) / columnLength]. *)

(** [Math.floor(position % rowLength)]. (JS yields [NaN] for an empty column;
    the model is meant for [columnLength > 0].) *)
Definition floorModRow (position columnLength : nat) : nat :=
  (4 * position) mod columnLength / 4.

(** [position % rowLength] as a member of an array of integers: [None] when it
    is a fraction or [NaN], which [indexOf] does not find. *)
Definition modRow (position columnLength : nat) : option nat :=
  let r := (4 * position) mod columnLength in
  if decide (columnLength ≠ 0 ∧ r mod 4 = 0) then Some (r / 4) else None.

(** [Math.floor(position / rowLength)] *)
Definition floorDivRow (position columnLength : nat) : nat :=
  (4 * position) / columnLength.

(** ** src/unnamed/part_001: LowDegreeProver.js *)

Definition MAX_REMAINDER_LENGTH : nat := 256.

(** [Math.log2(MAX_REMAINDER_LENGTH) / 2] *)
Definition REMAINDER_SLOTS : Z := Z.log2 (Z.of_nat MAX_REMAINDER_LENGTH) / 2.

(** [Math.ceil(Math.log2(valueCount) / 2)]: the ceiling of half the base-2
    logarithm is the ceiling of half its ceiling. (For [valueCount = 0] JS
    yields [-Infinity]; the model yields 0, and [getComponentCount] is
    negative either way.) *)
Definition ceilHalfLog2 (valueCount : nat) : Z :=
  (Z.log2_up (Z.of_nat valueCount) + 1) / 2.

Record FriComponent : Type := {
  columnRoot : Buffer;
  columnProof : BatchMerkleProof;
  polyProof : BatchMerkleProof;
}.

Module LowDegreeProverJs.

Record LowDegreeProof : Type := {
  lcRoot : Buffer;
  lcProof : BatchMerkleProof;
  components : list (option FriComponent);
  remainder : list Z;
}.

Definition getComponentCount (valueCount : nat) : Z :=
  let result := ceilHalfLog2 valueCount in
  let result := (result - REMAINDER_SLOTS)%Z in
  Z.min result 0.

Definition getAugmentedPositions (positions : list nat) (columnLength : nat)
  : list nat :=
  fold_left (fun result position => setAdd result (floorModRow position columnLength))
            positions [].

Section Prover.
Context `{field : FiniteField} `{hash : Hash} `{merkle : Merkle}
        `{idxGenerator : QueryIndexGenerator}.

(** [this.polyRowSize] *)
Definition polyRowSize : nat := elementSize * 4.

(** The loop of [getRootOfUnityDegree], with [result] as accumulator. *)
Fixpoint getRootOfUnityDegreeFrom (fuel : nat) (rootOfUnity : Z) (result : nat)
  : Outcome nat :=
  if decide (rootOfUnity = 1%Z) then Return result
  else match fuel with
       | 0 => Unfinished
       | S fuel' =>
         getRootOfUnityDegreeFrom fuel' (fmul rootOfUnity rootOfUnity) (result * 2)
       end.

Definition getRootOfUnityDegree (fuel : nat) (rootOfUnity : Z) : Outcome nat :=
  getRootOfUnityDegreeFrom fuel rootOfUnity 1.

Definition parsePolyValues (buffers : list Buffer) : Outcome Matrix :=
  forEach (fun buffer =>
             forEach (fun i => readBigInt buffer (i * elementSize) elementSize) (seq 0 4))
          buffers.

(** [buffers[augmentedPositions.indexOf(position % rowLength)]], [None] for
    [undefined]: [indexOf] fails, or the proof has too few values. *)
Definition columnBuffer (buffers : list Buffer) (augmentedPositions : list nat)
    (columnLength position : nat) : option Buffer :=
  match modRow position columnLength with
  | Some r =>
    match indexOf augmentedPositions r with
    | Some idx => buffers !! idx
    | None => None
    end
  | None => None
  end.

(** One turn of the loop of [parseColumnValues]; reading from [undefined] is
    a [TypeError]. *)
Definition parseColumnValue (buffers : list Buffer) (augmentedPositions : list nat)
    (columnLength position : nat) : Outcome Z :=
  match columnBuffer buffers augmentedPositions columnLength position with
  | Some buffer =>
    let offset := floorDivRow position columnLength * elementSize in
    readBigInt buffer offset elementSize
  | None => Throw (TypeError "cannot read from undefined")
  end.

Fixpoint parseColumnValues (buffers : list Buffer) (positions augmentedPositions : list nat)
    (columnLength : nat) : Outcome (list Z) :=
  match positions with
  | [] => Return []
  | position :: rest =>
    value ← parseColumnValue buffers augmentedPositions columnLength position;
    result ← parseColumnValues buffers rest augmentedPositions columnLength;
    Return (value :: result)
  end.

(** The positions [verifyRemainder] keeps. *)
Definition remainderPositions (n : nat) : list nat :=
  filter (fun i => extensionFactor = 0 ∨ i mod extensionFactor ≠ 0) (seq 0 n).

(** The first loop of [verifyRemainder]: the points to interpolate.
    [positions[i]] is [undefined] past the kept positions, and no vector has a
    value there. *)
Fixpoint remainderPoints (domain remainder : Vector) (positions : list nat)
    (count : nat) {struct count} : Outcome (list Z * list Z) :=
  match count with
  | 0 => Return ([], [])
  | S count' =>
    match positions with
    | [] => Throw (TypeError "undefined is not a field element")
    | p :: rest =>
      x ← getValue domain p;
      y ← getValue remainder p;
      '(xs, ys) ← remainderPoints domain remainder rest count';
      Return (x :: xs, y :: ys)
    end
  end.

(** The second loop of [verifyRemainder], over the positions that are left. *)
Fixpoint checkRemainder (poly : list Z) (domain remainder : Vector)
    (maxDegreePlus1 : nat) (positions : list nat) : Outcome unit :=
  match positions with
  | [] => Return tt
  | p :: rest =>
    x ← getValue domain p;
    y ← getValue remainder p;
    if decide (evalPolyAt poly x ≠ y)
    then throwStark (RemainderNotValid maxDegreePlus1)
    else checkRemainder poly domain remainder maxDegreePlus1 rest
  end.

Definition verifyRemainder (remainder : Vector) (maxDegreePlus1 : nat)
    (rootOfUnity : Z) : Outcome unit :=
  (* exclude points which should be skipped during evaluation *)
  let positions := remainderPositions (length remainder) in
  (* pick a subset of points from the remainder and interpolate them *)
  let domain := getPowerSeries rootOfUnity (length remainder) in
  '(xs, ys) ← remainderPoints domain remainder positions maxDegreePlus1;
  let poly := interpolate xs ys in
  (* check that polynomial evaluates correctly for all other points *)
  checkRemainder poly domain remainder maxDegreePlus1 (drop maxDegreePlus1 positions).

(** The part of [fri] between the remainder test and the recursive call: the
    column of evaluations at the pseudo-random x coordinate. *)
Definition friColumn (pTree : MerkleTree) (polyValues : Matrix) (depth : nat)
    (domain : Vector) : Outcome Vector :=
  let xs := transposeVector domain 4 (4 ^ depth) in
  polys ← interpolateQuarticBatch xs polyValues;
  let specialX := prng (root pTree) in
  Return (evalQuarticBatch polys specialX).

(** The part of [fri] after the recursive call: the proof component. *)
Definition friComponent (pTree cTree : MerkleTree) (polyValues newPolyValues : Matrix)
    (column : Vector) : Outcome FriComponent :=
  let positions := getFriIndexes (root cTree) (length column) in
  let augmentedPositions := getAugmentedPositions positions (length column) in
  columnValues ← rowsToBuffers newPolyValues augmentedPositions;
  let columnProof := proveBatch cTree augmentedPositions in
  let columnProof := {| values := columnValues; nodes := nodes columnProof;
                        proofDepth := proofDepth columnProof |} in
  polyValues' ← rowsToBuffers polyValues positions;
  let polyProof := proveBatch pTree positions in
  let polyProof := {| values := polyValues'; nodes := nodes polyProof;
                      proofDepth := proofDepth polyProof |} in
  Return {| columnRoot := root cTree; columnProof := columnProof;
            polyProof := polyProof |}.

(** [fri]; the recursion is bounded by [fuel], and [prove] supplies enough
    (theorem [fri_finishes]). *)
Fixpoint fri (fuel : nat) (pTree : MerkleTree) (polyValues : Matrix)
    (maxDegreePlus1 depth : nat) (domain : Vector) (result : LowDegreeProof)
  : Outcome LowDegreeProof :=
  if decide (rowCount polyValues * colCount polyValues ≤ MAX_REMAINDER_LENGTH) then
    (* use the polynomial values directly as proof *)
    g ← getValue domain 1;
    let rootOfUnity := fexp g (4 ^ depth) in
    let tValues := transposeMatrix polyValues in
    let remainder := joinMatrixRows tValues in
    _ ← verifyRemainder remainder maxDegreePlus1 rootOfUnity;
    Return {| lcRoot := lcRoot result; lcProof := lcProof result;
              components := components result; remainder := remainder |}
  else
    match fuel with
    | 0 => Unfinished
    | S fuel' =>
      column ← friColumn pTree polyValues depth domain;
      (* break the column in a polynomial value matrix for the next layer *)
      let newPolyValues := transposeVector column 4 1 in
      (* put the resulting matrix into a Merkle tree *)
      let rowHashes := digestValues (matrixToBuffer newPolyValues) polyRowSize in
      let cTree := create rowHashes in
      (* recursively build all other components *)
      result ← fri fuel' cTree newPolyValues (maxDegreePlus1 / 4) (depth + 1) domain result;
      component ← friComponent pTree cTree polyValues newPolyValues column;
      Return {| lcRoot := lcRoot result; lcProof := lcProof result;
                components := arraySet (components result) depth component;
                remainder := remainder result |}
    end.

Definition prove (cEvaluations domain : Vector) (maxDegreePlus1 : nat)
  : Outcome LowDegreeProof :=
  (* transpose the evaluations into a matrix with 4 columns *)
  let polyValues := transposeVector cEvaluations 4 1 in
  (* hash each row and put the result into a Merkle tree *)
  let polyHashes := digestValues (matrixToBuffer polyValues) polyRowSize in
  let pTree := create polyHashes in
  (* build Merkle proofs but swap out hashed values for the un-hashed ones *)
  let exeQueryPositions := getExeIndexes (root pTree) (length domain) in
  let lcPositions := getAugmentedPositions exeQueryPositions (length cEvaluations) in
  let lcProof := proveBatch pTree lcPositions in
  lcValues ← rowsToBuffers polyValues lcPositions;
  let lcProof := {| values := lcValues; nodes := nodes lcProof;
                    proofDepth := proofDepth lcProof |} in
  (* create a proof object to pass it to the fri() method *)
  let componentCount := getComponentCount (length cEvaluations) in
  components ← newArray componentCount;
  let proof := {| lcRoot := root pTree; lcProof := lcProof;
                  components := components; remainder := [] |} in
  (* build and return FRI proof *)
  fri (rowCount polyValues) pTree polyValues maxDegreePlus1 0 domain proof.

(** The variables the loop of [verify] updates. *)
Record VerifierState : Type := {
  pRoot : Buffer;
  rootOfUnity : Z;
  maxDegreePlus1 : nat;
  columnLength : nat;
}.

(** [quarticRootsOfUnity]; the divisions are [bigint] divisions. *)
Definition quarticRootsOfUnity (rootOfUnity : Z) (columnLength : nat) : list Z :=
  [1%Z;
   fexp rootOfUnity (columnLength / 4);
   fexp rootOfUnity (columnLength / 2);
   fexp rootOfUnity (columnLength * 3 / 4)].

(** The x coordinates of the row polynomial queried at [position]. *)
Definition rowXs (quartic : list Z) (rootOfUnity : Z) (position : nat) : list Z :=
  let xe := fexp rootOfUnity position in
  map (fun q => fmul q xe) quartic.

(** The loop that compares the evaluations with the column values;
    [columnValues[i]] is [undefined] past the end of the array, and differs
    from every evaluation. *)
Fixpoint checkEvaluations (depth : nat) (pEvaluations : list Z)
    (columnValues : list Z) : Outcome unit :=
  match pEvaluations with
  | [] => Return tt
  | evaluation :: pEvaluations' =>
    if decide (head columnValues = Some evaluation)
    then checkEvaluations depth pEvaluations' (tail columnValues)
    else throwStark (Degree4Mismatch depth)
  end.

(** The evaluations of the row polynomials at the pseudo-random x. *)
Definition rowEvaluations (quartic : list Z) (st : VerifierState)
    (positions : list nat) (polyValues : Matrix) : Outcome (list Z) :=
  (* build a set of x coordinates for each row polynomial *)
  let xs := map (rowXs quartic (rootOfUnity st)) positions in
  (* calculate the pseudo-random x coordinate *)
  let specialX := prng (pRoot st) in
  (* interpolate x and y values into row polynomials *)
  polys ← interpolateQuarticBatch xs polyValues;
  Return (evalQuarticBatch polys specialX).

(** The body of the loop of [verify], up to the update of the variables. *)
Definition verifyComponent (quartic : list Z) (depth : nat) (st : VerifierState)
    (component : FriComponent) : Outcome unit :=
  (* calculate pseudo-random indexes for column and poly values *)
  let positions := getFriIndexes (columnRoot component) (columnLength st) in
  let augmentedPositions := getAugmentedPositions positions (columnLength st) in
  (* verify Merkle proof for the column *)
  columnValues ← parseColumnValues (values (columnProof component)) positions
                   augmentedPositions (columnLength st);
  let columnProof := rehashMerkleProofValues (columnProof component) in
  ok ← called (verifyBatch (columnRoot component) augmentedPositions columnProof);
  _ ← assertStark ok (ColumnMerkleFailed depth);
  (* verify Merkle proof for polynomials *)
  polyValues ← parsePolyValues (values (polyProof component));
  let polyProof := rehashMerkleProofValues (polyProof component) in
  ok ← called (verifyBatch (pRoot st) positions polyProof);
  _ ← assertStark ok (PolynomialMerkleFailed depth);
  pEvaluations ← rowEvaluations quartic st positions polyValues;
  checkEvaluations depth pEvaluations columnValues.

(** "update constants to check the next component" *)
Definition nextState (st : VerifierState) (component : FriComponent) : VerifierState :=
  {| pRoot := columnRoot component;
     rootOfUnity := fexp (rootOfUnity st) 4;
     maxDegreePlus1 := maxDegreePlus1 st / 4;
     columnLength := columnLength st / 4 |}.

(** The loop over [proof.components], from [depth] on; a hole in the array
    cannot be destructured. *)
Fixpoint verifyComponents (quartic : list Z) (depth : nat) (st : VerifierState)
    (components : list (option FriComponent)) : Outcome VerifierState :=
  match components with
  | [] => Return st
  | None :: _ => Throw (TypeError "cannot destructure undefined")
  | Some component :: rest =>
    _ ← verifyComponent quartic depth st component;
    verifyComponents quartic (depth + 1) (nextState st component) rest
  end.

(** The loop that compares [lcValues] with [lcChecks]. *)
Fixpoint checkLinearCombination (lcValues lcChecks : list Z) : Outcome unit :=
  match lcValues with
  | [] => Return tt
  | value :: lcValues' =>
    if decide (head lcChecks = Some value)
    then checkLinearCombination lcValues' (tail lcChecks)
    else throwStark LinearCombinationCorrectnessFailed
  end.

(** Step 3 of [verify]: the remainder. *)
Definition verifyLastLayer (st : VerifierState) (remainder : list Z) : Outcome bool :=
  _ ← assertStark (bool_decide (maxDegreePlus1 st ≤ length remainder))
        RemainderDegreeTooLarge;
  (* check that Merkle root matches up *)
  let polyValues := transposeVector remainder 4 1 in
  let polyHashes := digestValues (matrixToBuffer polyValues) polyRowSize in
  let cTree := create polyHashes in
  _ ← assertStark (bool_decide (root cTree = pRoot st)) RemainderRootMismatch;
  _ ← verifyRemainder remainder (maxDegreePlus1 st) (rootOfUnity st);
  Return true.

(** [verify]; [thisRootOfUnity] is [this.rootOfUnity], and [fuel] bounds the
    loop of [getRootOfUnityDegree]. *)
Definition verify (fuel : nat) (thisRootOfUnity : Z) (proof : LowDegreeProof)
    (lcValues : list Z) (exeQueryPositions : list nat) (maxDegreePlus1 : nat)
  : Outcome bool :=
  let rootOfUnity := thisRootOfUnity in
  columnLength ← getRootOfUnityDegree fuel rootOfUnity;
  let quartic := quarticRootsOfUnity rootOfUnity columnLength in
  (* 1 ----- check correctness of linear combination *)
  let lcProof := lcProof proof in
  let lcPositions := getAugmentedPositions exeQueryPositions columnLength in
  lcChecks ← parseColumnValues (values lcProof) exeQueryPositions lcPositions columnLength;
  let lcProof := rehashMerkleProofValues lcProof in
  ok ← called (verifyBatch (lcRoot proof) lcPositions lcProof);
  _ ← assertStark ok LinearCombinationMerkleFailed;
  _ ← checkLinearCombination lcValues lcChecks;
  (* 2 ----- verify the recursive components of the FRI proof *)
  let st := {| pRoot := lcRoot proof; rootOfUnity := rootOfUnity;
               maxDegreePlus1 := maxDegreePlus1; columnLength := columnLength / 4 |} in
  st ← verifyComponents quartic 0 st (components proof);
  (* 3 ----- verify the remainder of the FRI proof *)
  verifyLastLayer st (remainder proof).

End Prover.
End LowDegreeProverJs.

(** ** src/unnamed/part_000: LowDegreeProver.ts (the earlier prover) *)

Module LowDegreeProverTs.

Record LowDegreeProof : Type := {
  components : list (option FriComponent);
  remainder : list Buffer;
}.

(** [verify] writes to the proof object it is given: its code runs in a
    state, the proof, that survives a throw. *)
Definition Stateful (A : Type) : Type :=
  LowDegreeProof -> Outcome A * LowDegreeProof.

#[global] Instance Stateful_ret : MRet Stateful := fun A a proof => (Return a, proof).
#[global] Instance Stateful_bind : MBind Stateful := fun A B f m proof =>
  match m proof with
  | (Return a, proof') => f a proof'
  | (Throw e, proof') => (Throw e, proof')
  | (Unfinished, proof') => (Unfinished, proof')
  end.

(** A computation that does not touch the proof. *)
Definition lift {A} (m : Outcome A) : Stateful A := fun proof => (m, proof).

(** The proof object as it is now. *)
Definition getProof : Stateful LowDegreeProof := fun proof => (Return proof, proof).

(** [proof.components[depth]]; a hole cannot be destructured. *)
Definition readComponent (depth : nat) : Stateful FriComponent := fun proof =>
  match components proof !! depth with
  | Some (Some component) => (Return component, proof)
  | _ => (Throw (TypeError "cannot destructure undefined"), proof)
  end.

(** [columnProof.values = newValues], on the component at [depth]. *)
Definition writeColumnProofValues (depth : nat) (newValues : list Buffer)
  : Stateful unit := fun proof =>
  (Return tt,
   {| components :=
        alter (fmap (fun c =>
                 {| columnRoot := columnRoot c;
                    columnProof := {| values := newValues;
                                      nodes := nodes (columnProof c);
                                      proofDepth := proofDepth (columnProof c) |};
                    polyProof := polyProof c |}))
              depth (components proof);
      remainder := remainder proof |}).

(** [polyProof.values = newValues], on the component at [depth]. *)
Definition writePolyProofValues (depth : nat) (newValues : list Buffer)
  : Stateful unit := fun proof =>
  (Return tt,
   {| components :=
        alter (fmap (fun c =>
                 {| columnRoot := columnRoot c;
                    columnProof := columnProof c;
                    polyProof := {| values := newValues;
                                    nodes := nodes (polyProof c);
                                    proofDepth := proofDepth (polyProof c) |} |}))
              depth (components proof);
      remainder := remainder proof |}).

(** [getAugmentedPositions(positions, rowLength)]; every call passes a column
    length divided by 4, and [rowLength4] is that column length. *)
Definition getAugmentedPositions (positions : list nat) (rowLength4 : nat)
  : list nat :=
  fold_left (fun result position => setAdd result (floorModRow position rowLength4))
            positions [].

(** [splitBuffer]: [new Array(elementCount)] is a [RangeError] unless the
    count is a whole number. *)
Definition splitBuffer (buffer : Buffer) (elementSize : nat) : Outcome (list Buffer) :=
  if decide (elementSize ≠ 0 ∧ length buffer mod elementSize = 0) then
    let elementCount := length buffer / elementSize in
    Return (map (fun i => take elementSize (drop (i * elementSize) buffer))
                (seq 0 elementCount))
  else Throw RangeError.

Section Prover.
Context `{field : FiniteField} `{hash : Hash} `{merkle : Merkle}
        `{idxGenerator : QueryIndexGenerator}.

(** [computeRootOfUnityDegree]: the same loop as [getRootOfUnityDegree]. *)
Definition computeRootOfUnityDegree : nat -> Z -> Outcome nat :=
  LowDegreeProverJs.getRootOfUnityDegree.

(** [parsePolyValues(buffers, elementSize)]: as in the compiled version. *)
Definition parsePolyValues : list Buffer -> Outcome Matrix :=
  LowDegreeProverJs.parsePolyValues.

(** [parseColumnValues(buffers, positions, augmentedPositions, rowLength,
    elementSize)], with [rowLength4 / 4] for [rowLength]: as in the compiled
    version, which divides by 4 itself. *)
Definition parseColumnValues (buffers : list Buffer) (positions augmentedPositions : list nat)
    (rowLength4 : nat) : Outcome (list Z) :=
  LowDegreeProverJs.parseColumnValues buffers positions augmentedPositions rowLength4.

(** [rowsToBuffers(matrix, positions, field)]; [vectors[position]] is
    [undefined] outside the matrix. *)
Fixpoint rowsToBuffers (matrix : Matrix) (positions : list nat) : Outcome (list Buffer) :=
  match positions with
  | [] => Return []
  | position :: rest =>
    match matrix !! position with
    | None => Throw (TypeError "undefined row")
    | Some vector =>
      result ← rowsToBuffers matrix rest;
      Return (vectorToBuffer vector :: result)
    end
  end.

Definition hashBuffers (values : list Buffer) : list Buffer := map digest values.

(** [verifyRemainder]: line by line the method of the compiled version. *)
Definition verifyRemainder : Vector -> nat -> Z -> Outcome unit :=
  LowDegreeProverJs.verifyRemainder.

(** The part of [fri] after the recursive call: the proof component. *)
Definition friComponent (lTree cTree : MerkleTree) (values newValues : Matrix)
    (column : Vector) : Outcome FriComponent :=
  let positions := getFriIndexes (root cTree) (length column) in
  let augmentedPositions := getAugmentedPositions positions (length column) in
  (* build merkle proofs but swap out hashed values for the un-hashed ones *)
  let columnProof := proveBatch cTree augmentedPositions in
  columnValues ← rowsToBuffers newValues augmentedPositions;
  let columnProof := {| values := columnValues; nodes := nodes columnProof;
                        proofDepth := proofDepth columnProof |} in
  let polyProof := proveBatch lTree positions in
  polyValues ← rowsToBuffers values positions;
  let polyProof := {| values := polyValues; nodes := nodes polyProof;
                      proofDepth := proofDepth polyProof |} in
  Return {| columnRoot := root cTree; columnProof := columnProof;
            polyProof := polyProof |}.

(** [fri]; the recursion is bounded by [fuel], and [prove] supplies enough. *)
Fixpoint fri (fuel : nat) (lTree : MerkleTree) (values : Matrix)
    (maxDegreePlus1 depth : nat) (domain : Vector) (result : LowDegreeProof)
  : Outcome LowDegreeProof :=
  if decide (rowCount values ≤ 64) then
    (* use the polynomial directly as proof *)
    g ← getValue domain 1;
    let rootOfUnity := fexp g (4 ^ depth) in
    let tValues := transposeMatrix values in
    let remainder := joinMatrixRows tValues in
    _ ← verifyRemainder remainder maxDegreePlus1 rootOfUnity;
    buffers ← splitBuffer (vectorToBuffer remainder) elementSize;
    Return {| components := components result; remainder := buffers |}
  else
    match fuel with
    | 0 => Unfinished
    | S fuel' =>
      (* build polynomials from each row of the values matrix, and evaluate
         each of them at a pseudo-random x coordinate *)
      column ← LowDegreeProverJs.friColumn lTree values depth domain;
      (* break the column in 4 sets of values for the next level *)
      let newValues := transposeVector column 4 1 in
      (* put the resulting column into a merkle tree *)
      let rowHashes := digestValues (matrixToBuffer newValues) (4 * elementSize) in
      let cTree := create rowHashes in
      (* recursively build all other components *)
      result ← fri fuel' cTree newValues (maxDegreePlus1 / 4) (depth + 1) domain result;
      component ← friComponent lTree cTree values newValues column;
      Return {| components := arraySet (components result) depth component;
                remainder := remainder result |}
    end.

Definition prove (lTree : MerkleTree) (values : Matrix) (domain : Vector)
    (maxDegreePlus1 : nat) : Outcome LowDegreeProof :=
  let valueCount := colCount values * rowCount values in
  let componentCount := Z.min (ceilHalfLog2 valueCount - 4) 0 in
  components ← newArray componentCount;
  let result := {| components := components; remainder := [] |} in
  fri (rowCount values) lTree values maxDegreePlus1 0 domain result.

(** The variables the loop of [verify] updates. *)
Record VerifierState : Type := {
  lRoot : Buffer;
  rootOfUnity : Z;
  maxDegreePlus1 : nat;
  rouDegree : nat;
}.

(** The loop that compares the evaluations of the row polynomials with the
    column values; [columnValues[i]] is [undefined] past the end. *)
Fixpoint checkEvaluations (depth : nat) (specialX : Z) (polyVectors : list (list Z))
    (columnValues : list Z) : Outcome unit :=
  match polyVectors with
  | [] => Return tt
  | poly :: polyVectors' =>
    if decide (head columnValues = Some (evalPolyAt poly specialX))
    then checkEvaluations depth specialX polyVectors' (tail columnValues)
    else throwStark (Degree4Mismatch depth)
  end.

(** The body of the loop of [verify], up to the update of the variables. *)
Definition verifyComponent (quartic : list Z) (depth : nat) (st : VerifierState)
  : Stateful unit :=
  component ← readComponent depth;
  (* calculate the pseudo-randomly sampled y indices *)
  let columnLength := rouDegree st / 4 in
  let positions := getFriIndexes (columnRoot component) columnLength in
  let augmentedPositions := getAugmentedPositions positions columnLength in
  (* verify Merkle proof for the column *)
  columnValues ← lift (parseColumnValues (values (columnProof component)) positions
                         augmentedPositions columnLength);
  _ ← writeColumnProofValues depth (hashBuffers (values (columnProof component)));
  component ← readComponent depth;
  ok ← lift (called (verifyBatch (columnRoot component) augmentedPositions
                       (columnProof component)));
  _ ← lift (assertStark ok (ColumnMerkleFailed depth));
  (* verify Merkle proof for polynomials *)
  ys ← lift (parsePolyValues (values (polyProof component)));
  _ ← writePolyProofValues depth (hashBuffers (values (polyProof component)));
  component ← readComponent depth;
  ok ← lift (called (verifyBatch (lRoot st) positions (polyProof component)));
  _ ← lift (assertStark ok (PolynomialMerkleFailed depth));
  (* the x coordinates on the row of each sampled y coordinate *)
  let xs := map (LowDegreeProverJs.rowXs quartic (rootOfUnity st)) positions in
  (* calculate the pseudo-random x coordinate *)
  let specialX := prng (lRoot st) in
  polys ← lift (interpolateQuarticBatch xs ys);
  lift (checkEvaluations depth specialX polys columnValues).

(** "update constants to check the next component" *)
Definition nextState (st : VerifierState) (component : FriComponent) : VerifierState :=
  {| lRoot := columnRoot component;
     rootOfUnity := fexp (rootOfUnity st) 4;
     maxDegreePlus1 := maxDegreePlus1 st / 4;
     rouDegree := rouDegree st / 4 |}.

(** The loop over [proof.components]: [count] components are left, from
    [depth] on. *)
Fixpoint verifyComponents (quartic : list Z) (count depth : nat) (st : VerifierState)
  : Stateful VerifierState :=
  match count with
  | 0 => mret st
  | S count' =>
    _ ← verifyComponent quartic depth st;
    component ← readComponent depth;
    verifyComponents quartic count' (depth + 1) (nextState st component)
  end.

(** Step 2 of [verify]: the remainder. *)
Definition verifyLastLayer (st : VerifierState) (remainder : list Buffer) : Outcome bool :=
  _ ← assertStark (bool_decide (maxDegreePlus1 st ≤ length remainder))
        RemainderDegreeTooLarge;
  let remainder := buffersToBigInts remainder in
  (* check that Merkle root matches up *)
  let rMatrix := transposeVector remainder 4 1 in
  let rHashes := digestValues (matrixToBuffer rMatrix) (4 * elementSize) in
  let cTree := create rHashes in
  _ ← assertStark (bool_decide (root cTree = lRoot st)) RemainderRootMismatch;
  _ ← verifyRemainder remainder (maxDegreePlus1 st) (rootOfUnity st);
  Return true.

(** [verify]; [fuel] bounds the loop of [computeRootOfUnityDegree]. The
    result comes with the proof object as the call leaves it. *)
Definition verify (fuel : nat) (lRoot : Buffer) (maxDegreePlus1 : nat)
    (rootOfUnity : Z) : Stateful bool :=
  rouDegree ← lift (computeRootOfUnityDegree fuel rootOfUnity);
  let quartic := LowDegreeProverJs.quarticRootsOfUnity rootOfUnity rouDegree in
  (* 1 ----- verify the recursive components of the proof *)
  let st := {| lRoot := lRoot; rootOfUnity := rootOfUnity;
               maxDegreePlus1 := maxDegreePlus1; rouDegree := rouDegree |} in
  proof ← getProof;
  st ← verifyComponents quartic (length (components proof)) 0 st;
  (* 2 ----- verify the remainder of the proof *)
  proof ← getProof;
  lift (verifyLastLayer st (remainder proof)).

End Prover.
End LowDegreeProverTs.

(** ** src/lib/components/TraceBuilder.ts: the Stark class *)

(** A JS [number] as the options object may hold it; a finite number that is
    not an integer is given by its floor. *)
Inductive Number : Type :=
| Int (z : Z)
| NonInt (floor : Z)
| NaN
| PosInfinity
| NegInfinity.

(** [x < z] and [x > z] for an integer [z]. *)
Definition ltNum (x : Number) (z : Z) : bool :=
  match x with
  | Int y => bool_decide (y < z)%Z
  | NonInt y => bool_decide (y < z)%Z
  | NegInfinity => true
  | NaN | PosInfinity => false
  end.

Definition gtNum (x : Number) (z : Z) : bool :=
  match x with
  | Int y => bool_decide (y > z)%Z
  | NonInt y => bool_decide (y >= z)%Z
  | PosInfinity => true
  | NaN | NegInfinity => false
  end.

(** [Number.isInteger(x)] *)
Definition isInteger (x : Number) : bool :=
  match x with Int _ => true | _ => false end.

(** The truthiness of a number: 0 and [NaN] are falsy. *)
Definition truthy (x : Number) : bool :=
  match x with Int 0 | NaN => false | _ => true end.

(** [value || fallback] for an optional number. *)
Definition orDefault (value : option Number) (fallback : Number) : Number :=
  match value with
  | Some x => if truthy x then x else fallback
  | None => fallback
  end.

(** Modelled from the spec: [utils.isPowerOf2] ("extensionFactor: power of 2");
    it is only called on integers. *)
Definition isPowerOf2 (x : Number) : bool :=
  match x with
  | Int z => bool_decide (0 < z /\ z = 2 ^ Z.log2 z)%Z
  | _ => false
  end.

Module Stark.

Definition DEFAULT_EXE_SPOT_CHECKS : Z := 80.
Definition DEFAULT_FRI_SPOT_CHECKS : Z := 40.
Definition MAX_EXTENSION_FACTOR : Z := 32.
Definition MAX_EXE_SPOT_CHECK_COUNT : Z := 128.
Definition MAX_FRI_SPOT_CHECK_COUNT : Z := 64.
Definition HASH_ALGORITHMS : list string := ["sha256"; "blake2s256"]%string.

(** [Partial<SecurityOptions>]: every field may be absent. *)
Record PartialSecurityOptions : Type := {
  optExtensionFactor : option Number;
  optExeSpotCheckCount : option Number;
  optFriSpotCheckCount : option Number;
  optHashAlgorithm : option string;
}.

Record SecurityOptions : Type := {
  extensionFactor : Number;
  exeSpotCheckCount : Number;
  friSpotCheckCount : Number;
  hashAlgorithm : string;
}.

(** The messages of the [TypeError]s of [validateSecurityOptions]. *)
Definition extensionFactorRange : string :=
  "Extension factor must be an integer between 2 and 32".
Definition extensionFactorPower : string :=
  "Extension factor must be a power of 2".
Definition extensionFactorDegree : string :=
  "Extension factor must be at least 2x greater than the transition constraint degree".
Definition exeSampleSize : string :=
  "Execution sample size must be an integer between 1 and 128".
Definition friSampleSize : string :=
  "FRI sample size must be an integer between 1 and 64".
Definition hashNotSupported (hashAlgorithm : string) : string :=
  "Hash algorithm " +:+ hashAlgorithm +:+ " is not supported".

(** [options ? options.field : undefined] *)
Definition optionField {A} (options : option PartialSecurityOptions)
    (get : PartialSecurityOptions -> option A) : option A :=
  match options with
  | Some o => get o
  | None => None
  end.

(** The first block of [validateSecurityOptions]: the extension factor. A
    constraint degree is a positive integer, and [2**Math.ceil(Math.log2(n))]
    is the least power of 2 that is at least [n]. *)
Definition validateExtensionFactor (extensionFactor : option Number)
    (maxConstraintDegree : positive) : Outcome Number :=
  match extensionFactor with
  | None => Return (Int (2 ^ Z.log2_up (Z.pos maxConstraintDegree * 2)))
  | Some extensionFactor =>
    if ltNum extensionFactor 2 || gtNum extensionFactor MAX_EXTENSION_FACTOR
       || negb (isInteger extensionFactor)
    then Throw (TypeError extensionFactorRange)
    else if negb (isPowerOf2 extensionFactor)
    then Throw (TypeError extensionFactorPower)
    else if ltNum extensionFactor (2 * Z.pos maxConstraintDegree)
    then Throw (TypeError extensionFactorDegree)
    else Return extensionFactor
  end.

(** The second and third blocks: [const count = (options ? options.count :
    undefined) || DEFAULT; if (count < 1 || count > MAX ||
    !Number.isInteger(count)) throw new TypeError(message)]. *)
Definition validateSpotCheckCount (count : option Number) (fallback max : Z)
    (message : string) : Outcome Number :=
  let count := orDefault count (Int fallback) in
  if ltNum count 1 || gtNum count max || negb (isInteger count)
  then Throw (TypeError message)
  else Return count.

(** The last block: the hash function. *)
Definition validateHashAlgorithm (hashAlgorithm : option string) : Outcome string :=
  let hashAlgorithm :=
    match hashAlgorithm with
    | Some name => if decide (name = ""%string) then "sha256"%string else name
    | None => "sha256"%string
    end in
  if negb (bool_decide (hashAlgorithm ∈ HASH_ALGORITHMS))
  then Throw (TypeError (hashNotSupported hashAlgorithm))
  else Return hashAlgorithm.

Definition validateSecurityOptions (options : option PartialSecurityOptions)
    (maxConstraintDegree : positive) : Outcome SecurityOptions :=
  (* extension factor *)
  extensionFactor ←
    validateExtensionFactor (optionField options optExtensionFactor) maxConstraintDegree;
  (* execution trace spot checks *)
  exeSpotCheckCount ←
    validateSpotCheckCount (optionField options optExeSpotCheckCount)
      DEFAULT_EXE_SPOT_CHECKS MAX_EXE_SPOT_CHECK_COUNT exeSampleSize;
  (* low degree evaluation spot checks *)
  friSpotCheckCount ←
    validateSpotCheckCount (optionField options optFriSpotCheckCount)
      DEFAULT_FRI_SPOT_CHECKS MAX_FRI_SPOT_CHECK_COUNT friSampleSize;
  (* hash function *)
  hashAlgorithm ← validateHashAlgorithm (optionField options optHashAlgorithm);
  Return {| extensionFactor := extensionFactor;
            exeSpotCheckCount := exeSpotCheckCount;
            friSpotCheckCount := friSpotCheckCount;
            hashAlgorithm := hashAlgorithm |}.

(** An integer field of the validated options, as a count. *)
Definition toCount (x : Number) : nat :=
  match x with Int z => Z.to_nat z | _ => 0 end.

Record Assertion : Type := {
  step : nat;
  register : nat;
  value : Z;
}.

Record EvaluationProof : Type := {
  eRoot : Buffer;
  eValues : list Buffer;
  eNodes : list Buffer;
  eDepth : nat;
  bpc : nat;
}.

Record DegreeProof : Type := {
  dRoot : Buffer;
  lcProof : BatchMerkleProof;
  ldProof : LowDegreeProverTs.LowDegreeProof;
}.

Record StarkProof : Type := {
  evaluations : EvaluationProof;
  degree : DegreeProof;
}.

(** What [Stark] takes from the parsed AIR script and from the components
    that are not among the sources: the script's configuration, the
    constraint evaluators, the serializer and the index generator of
    [utils]. *)
Class Air : Type := {
  configSteps : nat;                                  (* config.steps *)
  mutableRegisterCount : nat;
  constraintCount : nat;
  maxConstraintDegree : positive;
  constantCount : nat;                                (* readonlyRegisters.length *)
  getRootOfUnity : nat -> Z;                          (* field.getRootOfUnity *)
  boundaryCount : list Assertion -> nat;              (* bPoly.count *)
  boundaryEvaluateAt : list Assertion -> nat -> Z -> list Z -> Z -> list Z;
                                                      (* bPoly.evaluateAt *)
  zeroEvaluateAt : nat -> Z -> Z -> Z;                (* zPoly.evaluateAt *)
  constantValueAt : nat -> Z -> nat -> Z -> Z;        (* kRegisters[j].getValueAt *)
  evaluateOne : list Z -> list Z -> list Z -> list Z; (* constraintEvaluator.evaluateOne *)
  parseEvaluations : Buffer -> nat -> list Z * list Z * list Z;
  getPseudorandomIndexes : Buffer -> nat -> nat -> nat -> list nat;
  hashFunction : Buffer -> Buffer;                    (* getHashFunction(algorithm) *)
}.

(** The fields of a [Stark] object that [prove] and [verify] read. *)
Record StarkObject : Type := {
  thisExtensionFactor : nat;
  thisExeSpotCheckCount : nat;
  thisFriSpotCheckCount : nat;
  thisHashAlgorithm : string;
}.

(** The constructor, after the script is parsed: the security options are
    validated, and no object exists when they are refused. *)
Definition construct `{Air} (options : option PartialSecurityOptions)
  : Outcome StarkObject :=
  vOptions ← validateSecurityOptions options maxConstraintDegree;
  Return {| thisExtensionFactor := toCount (extensionFactor vOptions);
            thisExeSpotCheckCount := toCount (exeSpotCheckCount vOptions);
            thisFriSpotCheckCount := toCount (friSpotCheckCount vOptions);
            thisHashAlgorithm := hashAlgorithm vOptions |}.

(** [getAugmentedPositions]; [skip] is [this.extensionFactor]. *)
Definition getAugmentedPositions (skip : nat) (positions : list nat)
    (evaluationDomainSize : nat) : list nat :=
  fold_left (fun augmentedPositionSet position =>
               setAdd (setAdd augmentedPositionSet position)
                      ((position + skip) mod evaluationDomainSize))
            positions [].

(** [getLinearCombinationDegree] *)
Definition getLinearCombinationDegree `{Air} (this : StarkObject)
    (evaluationDomainSize : nat) : nat :=
  let steps := evaluationDomainSize / thisExtensionFactor this in
  steps * Nat.max (Pos.to_nat maxConstraintDegree - 1) 1.

(** Step 9 of [prove]: the spot checks of the evaluation tree. An entry of
    [eValues] is [undefined] ([None]) when its position is outside the
    merged evaluations. *)
Definition spotCheckEvaluations `{Air} (this : StarkObject) (eTreeRoot : Buffer)
    (mergedEvaluations : list Buffer) : list nat * list nat * list (option Buffer) :=
  let evaluationDomainSize := length mergedEvaluations in
  let spotCheckCount :=
    Nat.min (thisExeSpotCheckCount this)
            (evaluationDomainSize - evaluationDomainSize / thisExtensionFactor this) in
  let positions := getPseudorandomIndexes eTreeRoot spotCheckCount evaluationDomainSize
                     (thisExtensionFactor this) in
  let augmentedPositions :=
    getAugmentedPositions (thisExtensionFactor this) positions evaluationDomainSize in
  let eValues := map (fun position => mergedEvaluations !! position) augmentedPositions in
  (positions, augmentedPositions, eValues).

(** The three maps step 3 of [verify] fills. *)
Record DecodedEvaluations : Type := {
  pEvaluations : gmap nat (list Z);
  bEvaluations : gmap nat (list Z);
  dEvaluations : gmap nat (list Z);
}.

(** Step 3 of [verify]: the loop over [proof.evaluations.values]. When the
    proof has more values than there are augmented positions, [position] is
    [undefined]: the entry is stored under a key no lookup uses, and the
    model leaves it out. *)
Fixpoint decodeEvaluations `{Air} (bCount : nat) (values : list Buffer)
    (augmentedPositions : list nat) (maps : DecodedEvaluations) : DecodedEvaluations :=
  match values with
  | [] => maps
  | mergedEvaluations :: values' =>
    let '(p, b, d) := parseEvaluations mergedEvaluations bCount in
    let maps' :=
      match augmentedPositions with
      | position :: _ =>
        {| pEvaluations := <[position := p]> (pEvaluations maps);
           bEvaluations := <[position := b]> (bEvaluations maps);
           dEvaluations := <[position := d]> (dEvaluations maps) |}
      | [] => maps
      end in
    decodeEvaluations bCount values' (tail augmentedPositions) maps'
  end.

(** [try { if (!MerkleTree.verifyBatch(...)) throw new StarkError(message) }
    catch (error) { if (error instanceof StarkError === false) throw new
    StarkError(message, error) }]: the catch clause lets a [StarkError]
    pass. *)
Definition tryVerifyBatch (check : string + bool) (message : Message) : Outcome unit :=
  match (ok ← called check; assertStark ok message) with
  | Return _ => Return tt
  | Throw error =>
    if isStarkError error then Return tt
    else Throw (StarkErrorFrom message error)
  | Unfinished => Unfinished
  end.

(** The loop of step 5 of [verify] that fills [lEvaluations]. *)
Fixpoint linearCombinationValues (positions : list nat) (values : list Z)
    (lEvaluations : gmap nat Z) : gmap nat Z :=
  match positions, values with
  | position :: positions', value :: values' =>
    linearCombinationValues positions' values' (<[position := value]> lEvaluations)
  | _, _ => lEvaluations
  end.

(** [for (j ...) if (checks[j] !== values[j]) throw new StarkError(message)];
    [values[j]] is [undefined] past the end. *)
Fixpoint checkValues (checks values : list Z) (message : Message) : Outcome unit :=
  match checks with
  | [] => Return tt
  | check :: checks' =>
    if decide (head values = Some check)
    then checkValues checks' (tail values) message
    else throwStark message
  end.

(** [a!] where [a] is the result of a [Map.get]: using [undefined] as an
    array of field elements is a [TypeError]. *)
Definition defined {A} (value : option A) : Outcome A :=
  match value with
  | Some a => Return a
  | None => Throw (TypeError "undefined is not iterable")
  end.

Section Verifier.
Context `{air : Air} `{field : FiniteField} `{hash : Hash} `{merkle : Merkle}
        `{idxGenerator : QueryIndexGenerator}.

(** The transition check of step 7: [qValues[j]] against
    [field.mul(zValue, dValues[j])] for [j < constraintCount]; a missing
    [dValues[j]] fails inside [field.mul]. *)
Fixpoint checkTransition (step : nat) (zValue : Z) (qValues dValues : list Z)
    (count : nat) {struct count} : Outcome unit :=
  match count with
  | 0 => Return tt
  | S count' =>
    match dValues with
    | [] => Throw (TypeError "undefined is not a field element")
    | dValue :: dValues' =>
      if decide (head qValues = Some (fmul zValue dValue))
      then checkTransition step zValue (tail qValues) dValues' count'
      else throwStark (TransitionConstraintFailed step)
    end
  end.

(** The body of the loop of step 7 of [verify]. *)
Definition verifyStep (this : StarkObject) (assertions : list Assertion)
    (totalSteps evaluationDomainSize lCombinationDegree : nat) (G2 : Z)
    (maps : DecodedEvaluations) (lEvaluations : gmap nat Z) (lCoefficients : list Z)
    (step : nat) : Outcome unit :=
  let x := fexp G2 step in
  pValues ← defined (pEvaluations maps !! step);
  bValues ← defined (bEvaluations maps !! step);
  dValues ← defined (dEvaluations maps !! step);
  let zValue := zeroEvaluateAt totalSteps G2 x in
  (* build an array of constant values for the current step *)
  let kValues := map (fun j => constantValueAt totalSteps G2 j x) (seq 0 constantCount) in
  (* check transition *)
  npValues ← defined
    (pEvaluations maps !! ((step + thisExtensionFactor this) mod evaluationDomainSize));
  let qValues := evaluateOne pValues npValues kValues in
  _ ← checkTransition step zValue qValues dValues constraintCount;
  (* check boundary constraints *)
  let bChecks := boundaryEvaluateAt assertions totalSteps G2 pValues x in
  _ ← checkValues bChecks bValues (BoundaryConstraintFailed step);
  (* check correctness of the linear combination *)
  let lcValues :=
    if decide (totalSteps < lCombinationDegree) then
      let power := fexp x (lCombinationDegree - totalSteps) in
      let pbValues := pValues ++ bValues in
      let pbValues2 := map (fun v => (v * power)%Z) pbValues in
      pbValues2 ++ pbValues ++ dValues
    else
      let power := fexp x (totalSteps - 1) in
      let dValues2 := map (fun v => (v * power)%Z) dValues in
      pValues ++ bValues ++ dValues2 in
  let lCheck := combine lcValues lCoefficients in
  if decide (lEvaluations !! step = Some lCheck) then Return tt
  else throwStark (LinearCombinationInconsistent step).

Fixpoint verifySteps (this : StarkObject) (assertions : list Assertion)
    (totalSteps evaluationDomainSize lCombinationDegree : nat) (G2 : Z)
    (maps : DecodedEvaluations) (lEvaluations : gmap nat Z) (lCoefficients : list Z)
    (positions : list nat) : Outcome unit :=
  match positions with
  | [] => Return tt
  | step :: positions' =>
    _ ← verifyStep this assertions totalSteps evaluationDomainSize lCombinationDegree
          G2 maps lEvaluations lCoefficients step;
    verifySteps this assertions totalSteps evaluationDomainSize lCombinationDegree
      G2 maps lEvaluations lCoefficients positions'
  end.

(** [verify]. [fuel] bounds the loop inside the low-degree verifier, whose
    writes to [proof.degree.ldProof] no later step reads. *)
Definition verify (fuel : nat) (this : StarkObject) (assertions : list Assertion)
    (proof : StarkProof) (iterations : nat) : Outcome bool :=
  let eRoot := eRoot (evaluations proof) in
  (* 0 ----- validate parameters *)
  if decide (length assertions < 1)
  then Throw (TypeError "At least one assertion must be provided")
  else
  (* 1 ----- set up evaluation context *)
  let totalSteps := configSteps * iterations in
  let evaluationDomainSize := totalSteps * thisExtensionFactor this in
  let G2 := getRootOfUnity evaluationDomainSize in
  let bCount := boundaryCount assertions in
  (* 2 ----- compute positions for evaluation spot-checks *)
  let spotCheckCount :=
    Nat.min (thisExeSpotCheckCount this)
            (evaluationDomainSize - evaluationDomainSize / thisExtensionFactor this) in
  let positions := getPseudorandomIndexes eRoot spotCheckCount evaluationDomainSize
                     (thisExtensionFactor this) in
  let augmentedPositions :=
    getAugmentedPositions (thisExtensionFactor this) positions evaluationDomainSize in
  (* 3 ----- decode evaluation spot-checks *)
  let maps := decodeEvaluations bCount (eValues (evaluations proof)) augmentedPositions
                {| pEvaluations := ∅; bEvaluations := ∅; dEvaluations := ∅ |} in
  let hashedEvaluations := map hashFunction (eValues (evaluations proof)) in
  (* 4 ----- verify merkle proof for evaluation tree *)
  let eProof := {| values := hashedEvaluations;
                   nodes := eNodes (evaluations proof);
                   proofDepth := eDepth (evaluations proof) |} in
  _ ← tryVerifyBatch (verifyBatch eRoot augmentedPositions eProof) EvaluationMerkleFailed;
  (* 5 ----- verify linear combination proof *)
  _ ← tryVerifyBatch (verifyBatch (dRoot (degree proof)) positions (lcProof (degree proof)))
        LinearCombinationMerkleFailed;
  let lEvaluationValues := buffersToBigInts (values (lcProof (degree proof))) in
  let lEvaluations := linearCombinationValues positions lEvaluationValues ∅ in
  (* 6 ----- verify low-degree proof *)
  let lCombinationDegree := getLinearCombinationDegree this evaluationDomainSize in
  _ ← match fst (LowDegreeProverTs.verify fuel (dRoot (degree proof)) lCombinationDegree G2
                   (ldProof (degree proof))) with
      | Return _ => Return tt
      | Throw error => Throw (StarkErrorFrom LowDegreeVerificationFailed error)
      | Unfinished => Unfinished
      end;
  let lPolyCount := constraintCount + 2 * (mutableRegisterCount + bCount) in
  let lCoefficients := prngMany eRoot lPolyCount in
  (* 7 ----- verify transition and boundary constraints *)
  _ ← verifySteps this assertions totalSteps evaluationDomainSize lCombinationDegree
        G2 maps lEvaluations lCoefficients positions;
  Return true.

End Verifier.
End Stark.

(** ** A concrete backend

    The prime field of order 12289 (it has roots of unity of order 4096), a
    small hash, a Merkle commitment that opens by listing its leaves, and an
    index generator; they instantiate the four interfaces, so that the
    provers and verifiers above can be run. *)

Module Example.
#[local] Open Scope Z_scope.

Definition modulus : Z := 12289.

Definition mul (a b : Z) : Z := (a * b) mod modulus.

(** [x ^ e mod modulus] by squaring. *)
Fixpoint expPos (x : Z) (e : positive) : Z :=
  match e with
  | xH => x mod modulus
  | xO e' => let y := expPos x e' in (y * y) mod modulus
  | xI e' => let y := expPos x e' in (x * ((y * y) mod modulus)) mod modulus
  end.

Definition exp (x : Z) (e : nat) : Z :=
  match N.of_nat e with
  | N0 => 1
  | Npos e' => expPos x e'
  end.

Definition inv (a : Z) : Z := expPos a 12287.

(** Horner evaluation of a polynomial given by its coefficients, lowest
    degree first. *)
Fixpoint evalPoly (poly : list Z) (x : Z) : Z :=
  match poly with
  | [] => 0
  | c :: rest => (c + x * evalPoly rest x) mod modulus
  end.

(** The coefficients of [carry + (X - a) * poly]. *)
Fixpoint shiftSub (a carry : Z) (poly : list Z) : list Z :=
  match poly with
  | [] => [carry mod modulus]
  | c :: rest => ((carry - a * c) mod modulus) :: shiftSub a c rest
  end.

(** The divided differences [(y - y0) / (x - x0)]. *)
Definition dividedDifferences (x0 y0 : Z) (xs ys : list Z) : list Z :=
  zip_with (fun x y => ((y - y0) * inv (x - x0)) mod modulus) xs ys.

(** Newton interpolation: the polynomial through [(x0, y0)] and the other
    points is [y0 + (X - x0) * r], with [r] the polynomial through the
    divided differences at the other points. *)
Fixpoint newton (xs ys : list Z) : list Z :=
  match xs, ys with
  | x0 :: xs', y0 :: ys' =>
    shiftSub x0 y0 (newton xs' (dividedDifferences x0 y0 xs' ys'))
  | _, _ => []
  end.

(** The values of the field. *)
Definition inField (x : Z) : Prop := 0 <= x < modulus.

(** The quotient of a polynomial by [X - x0] (synthetic division). *)
Fixpoint quotient (x0 : Z) (poly : list Z) : list Z :=
  match poly with
  | [] => []
  | _ :: rest =>
    match rest with
    | [] => []
    | _ :: _ => evalPoly rest x0 :: quotient x0 rest
    end
  end.

(** [check] holds of the [count] integers from [start] on. *)
Fixpoint holdsFrom (check : Z -> bool) (count : nat) (start : Z) : bool :=
  match count with
  | O => true
  | S count' => check start && holdsFrom check count' (start + 1)
  end.

(** Two bytes per field element, little-endian. *)
Definition elementBytes (x : Z) : list Z := [x mod 256; (x / 256) mod 256].

Definition toBuffer (v : Vector) : Buffer := flat_map elementBytes v.

Fixpoint readLittleEndian (buffer : Buffer) (offset size : nat) : Z :=
  match size with
  | O => 0
  | S size' => nth offset buffer 0 + 256 * readLittleEndian buffer (S offset) size'
  end.

Definition seedValue (seed : Buffer) : Z :=
  fold_left (fun acc byte => (acc * 257 + byte + 1) mod modulus) seed 7.

Definition linearCombination (vs cs : list Z) : Z :=
  fold_left (fun acc term => (acc + term) mod modulus) (zip_with Z.mul vs cs) 0.

#[global] Instance field : FiniteField := {|
  elementSize := 2%nat;
  fmul := mul;
  fexp := exp;
  prng := seedValue;
  prngMany := fun seed count => map (fun i => seedValue (Z.of_nat i :: seed)) (seq 0%nat count);
  combine := linearCombination;
  interpolateQuartic := newton;
  evalQuartic := evalPoly;
  interpolate := newton;
  evalPolyAt := evalPoly;
  vectorToBuffer := toBuffer;
  matrixToBuffer := fun m => flat_map toBuffer m;
  bigIntAt := readLittleEndian;
  buffersToBigInts := map (fun buffer => readLittleEndian buffer 0%nat 2%nat);
|}.

(** An 8-byte digest: as long as a row of 4 values, as a 32-byte digest is
    for a field of 8-byte elements. *)
Definition smallDigest (buffer : Buffer) : Buffer :=
  let h := fold_left (fun acc byte => (acc * 31 + byte + 1) mod 2 ^ 64) buffer 5381 in
  [h mod 256; (h / 2 ^ 8) mod 256; (h / 2 ^ 16) mod 256; (h / 2 ^ 24) mod 256;
   (h / 2 ^ 32) mod 256; (h / 2 ^ 40) mod 256; (h / 2 ^ 48) mod 256; (h / 2 ^ 56) mod 256].

(** The rows of [rowSize] bytes of a buffer of [count] rows. *)
Fixpoint chunks (count rowSize : nat) (buffer : Buffer) : list Buffer :=
  match count with
  | O => []
  | S count' => take rowSize buffer :: chunks count' rowSize (drop rowSize buffer)
  end.

#[global] Instance hash : Hash := {|
  digest := smallDigest;
  digestValues := fun buffer rowSize =>
    map smallDigest (chunks (length buffer / rowSize)%nat rowSize buffer);
|}.

(** A commitment to a list of leaves by the digest of their concatenation;
    a proof lists all the leaves. *)
#[global] Instance merkle : Merkle := {|
  MerkleTree := list Buffer;
  create := fun leaves => leaves;
  root := fun leaves => smallDigest (concat leaves);
  proveBatch := fun leaves positions =>
    {| values := map (fun p => nth p leaves []) positions;
       nodes := leaves;
       proofDepth := Nat.log2 (length leaves) |};
  verifyBatch := fun commitment positions proof =>
    inr (bool_decide (smallDigest (concat (nodes proof)) = commitment
                      /\ values proof = map (fun p => nth p (nodes proof) []) positions));
|}.

(** Six positions spread from a seed; none for an empty column. *)
Definition spread (stride : nat) (seed : Buffer) (n : nat) : list nat :=
  match n with
  | O => []
  | S _ => map (fun i => (Z.to_nat (seedValue seed) + stride * i) mod n)%nat (seq 0%nat 6%nat)
  end.

#[global] Instance idxGenerator : QueryIndexGenerator := {|
  extensionFactor := 4%nat;
  getExeIndexes := spread 5%nat;
  getFriIndexes := spread 17%nat;
|}.

(** A one-register AIR of 8 steps; the query positions are the first odd
    multiples of the extension factor plus one, none of them a multiple of
    the extension factor. *)
#[global] Instance air : Stark.Air := {|
  Stark.configSteps := 8%nat;
  Stark.mutableRegisterCount := 1%nat;
  Stark.constraintCount := 1%nat;
  Stark.maxConstraintDegree := 1%positive;
  Stark.constantCount := 0%nat;
  Stark.getRootOfUnity := fun size => exp 11 (Z.to_nat (12288 / Z.of_nat size));
  Stark.boundaryCount := fun assertions => length assertions;
  Stark.boundaryEvaluateAt := fun assertions steps G2 pValues x =>
    map (fun a => mul (nth (Stark.register a) pValues 0 - Stark.value a)
                      (inv (x - exp G2 (Stark.step a)))) assertions;
  Stark.zeroEvaluateAt := fun steps G2 x => (exp x steps - 1) mod modulus;
  Stark.constantValueAt := fun steps G2 j x => 0;
  Stark.evaluateOne := fun pValues npValues kValues =>
    [(nth 0%nat npValues 0 - 2 * nth 0%nat pValues 0) mod modulus];
  Stark.parseEvaluations := fun buffer bCount =>
    ([readLittleEndian buffer 0%nat 2%nat],
     map (fun j => readLittleEndian buffer (2 + 2 * j)%nat 2%nat) (seq 0%nat bCount),
     [readLittleEndian buffer (2 + 2 * bCount)%nat 2%nat]);
  Stark.getPseudorandomIndexes := fun seed count size factor =>
    map (fun i => (i * factor + 1) mod size)%nat (seq 0%nat count);
  Stark.hashFunction := smallDigest;
|}.

(** A root of unity of order 512: 11 generates the multiplicative group. *)
Definition g512 : Z := exp 11 24%nat.

(** The evaluation domain of 512 points. *)
Definition domain512 : Vector := getPowerSeries g512 512%nat.

(** The evaluations of the polynomial 1 + 2 X + ... + 16 X^15 on it. *)
Definition polynomial16 : list Z := map Z.of_nat (seq 1%nat 16%nat).
Definition evaluations512 : Vector := map (evalPoly polynomial16) domain512.

(** The matrix of the evaluations, and its tree. *)
Definition values512 : Matrix := transposeVector evaluations512 4 1.
Definition tree512 : list Buffer :=
  digestValues (matrixToBuffer values512) LowDegreeProverJs.polyRowSize.

Definition emptyProofJs : LowDegreeProverJs.LowDegreeProof :=
  {| LowDegreeProverJs.lcRoot := [];
     LowDegreeProverJs.lcProof := {| values := []; nodes := []; proofDepth := 0 |};
     LowDegreeProverJs.components := [];
     LowDegreeProverJs.remainder := [] |}.

Definition emptyProofTs : LowDegreeProverTs.LowDegreeProof :=
  {| LowDegreeProverTs.components := []; LowDegreeProverTs.remainder := [] |}.

(** The value a run returned. *)
Definition returned {A} (fallback : A) (run : Outcome A) : A :=
  match run with
  | Return a => a
  | _ => fallback
  end.

(** The proof the compiled prover builds for the evaluations, with the
    positions and values of the linear combination the verifier is given. *)
Definition proofJs512 : LowDegreeProverJs.LowDegreeProof :=
  returned emptyProofJs (LowDegreeProverJs.prove evaluations512 domain512 16%nat).
Definition exePositions512 : list nat :=
  getExeIndexes (LowDegreeProverJs.lcRoot proofJs512) 512%nat.
Definition lcValues512 : list Z :=
  map (fun p => nth p evaluations512 0) exePositions512.

(** The proof the earlier prover builds for them. *)
Definition proofTs512 : LowDegreeProverTs.LowDegreeProof :=
  returned emptyProofTs
    (LowDegreeProverTs.prove (create tree512) values512 domain512 16%nat).

(** A column of 16 values, the matrix it folds into with the tree of its rows,
    and the component [fri] builds for it below a matrix of 16 rows. *)
Definition column16 : Vector := map Z.of_nat (seq 1%nat 16%nat).
Definition rows16 : Matrix := transposeVector column16 4 1.
Definition tree16 : list Buffer :=
  digestValues (matrixToBuffer rows16) LowDegreeProverJs.polyRowSize.
Definition values64 : Matrix := transposeVector (map Z.of_nat (seq 1%nat 64%nat)) 4 1.
Definition emptyComponent : FriComponent :=
  {| columnRoot := [];
     columnProof := {| values := []; nodes := []; proofDepth := 0 |};
     polyProof := {| values := []; nodes := []; proofDepth := 0 |} |}.
Definition component16 : FriComponent :=
  returned emptyComponent
    (LowDegreeProverJs.friComponent (create []) (create tree16) values64 rows16 column16).

(** A root of unity of order 8, and the values of the polynomial 3 + 5 X on
    its powers. *)
Definition w8 : Z := exp 11 1536%nat.
Definition line : list Z := [3; 5].
Definition remainder8 : Vector := map (evalPoly line) (getPowerSeries w8 8%nat).

(** A [Stark] object with an extension factor of 4, and a proof for it that
    wraps the proof of the earlier prover. *)
Definition starkObject : Stark.StarkObject :=
  {| Stark.thisExtensionFactor := 4%nat;
     Stark.thisExeSpotCheckCount := 2%nat;
     Stark.thisFriSpotCheckCount := 2%nat;
     Stark.thisHashAlgorithm := "sha256" |}.
Definition starkProof : Stark.StarkProof :=
  {| Stark.evaluations :=
       {| Stark.eRoot := []; Stark.eValues := []; Stark.eNodes := [];
          Stark.eDepth := 0%nat; Stark.bpc := 0%nat |};
     Stark.degree :=
       {| Stark.dRoot := root (create tree512);
          Stark.lcProof := {| values := []; nodes := []; proofDepth := 0%nat |};
          Stark.ldProof := proofTs512 |} |}.
(** A [Stark] object with an extension factor of 2 and 3 spot checks, and
    merged evaluations of 8 points: point [b] holds the value [b]. *)
Definition starkObject2 : Stark.StarkObject :=
  {| Stark.thisExtensionFactor := 2%nat;
     Stark.thisExeSpotCheckCount := 3%nat;
     Stark.thisFriSpotCheckCount := 2%nat;
     Stark.thisHashAlgorithm := "sha256" |}.
Definition merged8 : list Buffer := map (fun b => [Z.of_nat b; 0]) (seq 0%nat 8%nat).
Definition assertion : Stark.Assertion :=
  {| Stark.step := 0%nat; Stark.register := 0%nat; Stark.value := 1 |}.

End Example.

(** ** The specification's words, for the properties that are compared with the
    code *)

(** C8 as the specification states it: the options it says are accepted. *)
Definition specAcceptsOptions (o : Stark.PartialSecurityOptions) : Prop :=
  (Stark.optExtensionFactor o = None
   \/ exists k : Z, (0 <= k /\ 2 <= 2 ^ k <= 32)%Z
                    /\ Stark.optExtensionFactor o = Some (Int (2 ^ k)))
  /\ (Stark.optExeSpotCheckCount o = None
      \/ exists z : Z, (1 <= z <= 128)%Z /\ Stark.optExeSpotCheckCount o = Some (Int z))
  /\ (Stark.optFriSpotCheckCount o = None
      \/ exists z : Z, (1 <= z <= 64)%Z /\ Stark.optFriSpotCheckCount o = Some (Int z))
  /\ (Stark.optHashAlgorithm o = None
      \/ Stark.optHashAlgorithm o = Some "sha256"%string
      \/ Stark.optHashAlgorithm o = Some "blake2s256"%string).

(** What the code accepts: an extension factor must also be at least twice
    the constraint degree, and a falsy count or name stands for an absent
    one. *)
Definition acceptsExtensionFactor (degree : positive) (x : option Number) : Prop :=
  x = None
  \/ exists k : Z, (0 <= k /\ 2 <= 2 ^ k <= 32 /\ 2 * Z.pos degree <= 2 ^ k)%Z
                   /\ x = Some (Int (2 ^ k)).

Definition acceptsCount (max : Z) (x : option Number) : Prop :=
  x = None \/ x = Some (Int 0) \/ x = Some NaN
  \/ exists z : Z, (1 <= z <= max)%Z /\ x = Some (Int z).

Definition acceptsHashAlgorithm (x : option string) : Prop :=
  x = None \/ x = Some ""%string
  \/ x = Some "sha256"%string \/ x = Some "blake2s256"%string.

Definition acceptsOptions (degree : positive) (options : option Stark.PartialSecurityOptions)
  : Prop :=
  acceptsExtensionFactor degree (Stark.optionField options Stark.optExtensionFactor)
  /\ acceptsCount 128 (Stark.optionField options Stark.optExeSpotCheckCount)
  /\ acceptsCount 64 (Stark.optionField options Stark.optFriSpotCheckCount)
  /\ acceptsHashAlgorithm (Stark.optionField options Stark.optHashAlgorithm).

(** The options object a successful validation returns. *)
Definition validatedOptions (degree : positive) (options : option Stark.PartialSecurityOptions)
  : Stark.SecurityOptions :=
  {| Stark.extensionFactor :=
       default (Int (2 ^ Z.log2_up (Z.pos degree * 2)))
               (Stark.optionField options Stark.optExtensionFactor);
     Stark.exeSpotCheckCount :=
       match Stark.optionField options Stark.optExeSpotCheckCount with
       | Some (Int z) => if decide (z = 0%Z) then Int 80 else Int z
       | _ => Int 80
       end;
     Stark.friSpotCheckCount :=
       match Stark.optionField options Stark.optFriSpotCheckCount with
       | Some (Int z) => if decide (z = 0%Z) then Int 40 else Int z
       | _ => Int 40
       end;
     Stark.hashAlgorithm :=
       match Stark.optionField options Stark.optHashAlgorithm with
       | Some name => if decide (name = ""%string) then "sha256"%string else name
       | None => "sha256"%string
       end |}.

(** C4 as the specification states it: the ceiling of [d / 4^k]. *)
Definition ceilingBound (d k : nat) : nat := (d + 4 ^ k - 1) / 4 ^ k.

(** ** The layers of a run of [fri] *)

(** The array [fri] leaves behind when it writes the components [comps] of
    the depths from [depth] on: the deepest component is written first. *)
Fixpoint placeComponents (array : list (option FriComponent)) (depth : nat)
    (comps : list FriComponent) : list (option FriComponent) :=
  match comps with
  | [] => array
  | c :: comps' => arraySet (placeComponents array (depth + 1) comps') depth c
  end.

Section Layers.
Context `{field : FiniteField} `{hash : Hash} `{merkle : Merkle}
        `{idxGenerator : QueryIndexGenerator}.

(** The tree of the column of a layer. *)
Definition columnTree (column : Vector) : MerkleTree :=
  create (digestValues (matrixToBuffer (transposeVector column 4 1))
                       LowDegreeProverJs.polyRowSize).

(** [friLayers stop domain depth pTree polyValues comps lastValues]: called
    at [depth] on [polyValues], [fri] folds once per component of [comps] and
    stops at the matrix [lastValues]; [stop] is the test it stops by. *)
Inductive friLayers (stop : Matrix -> Prop) (domain : Vector)
  : nat -> MerkleTree -> Matrix -> list FriComponent -> Matrix -> Prop :=
| friLayers_stop depth pTree polyValues :
    stop polyValues ->
    friLayers stop domain depth pTree polyValues [] polyValues
| friLayers_fold depth pTree polyValues column component comps lastValues :
    ~ stop polyValues ->
    LowDegreeProverJs.friColumn pTree polyValues depth domain = Return column ->
    LowDegreeProverJs.friComponent pTree (columnTree column) polyValues
      (transposeVector column 4 1) column = Return component ->
    friLayers stop domain (depth + 1) (columnTree column) (transposeVector column 4 1)
      comps lastValues ->
    friLayers stop domain depth pTree polyValues (component :: comps) lastValues.

(** The test of the compiled prover, and of the earlier one. *)
Definition stopJs (polyValues : Matrix) : Prop :=
  rowCount polyValues * colCount polyValues <= MAX_REMAINDER_LENGTH.
Definition stopTs (values : Matrix) : Prop := rowCount values <= 64.

(** The states the loop of the verifier of the compiled prover runs through,
    with the component each of them is used on. *)
Fixpoint verifierStates (st : LowDegreeProverJs.VerifierState) (comps : list FriComponent)
  : list (LowDegreeProverJs.VerifierState * FriComponent) :=
  match comps with
  | [] => []
  | c :: comps' => (st, c) :: verifierStates (LowDegreeProverJs.nextState st c) comps'
  end.

End Layers.

(** ** The proof object of the earlier verifier, observed *)

(** The values of the column proof of the component at [depth]. *)
Definition columnProofValues (depth : nat) (proof : LowDegreeProverTs.LowDegreeProof)
  : option (list Buffer) :=
  match LowDegreeProverTs.components proof !! depth with
  | Some (Some c) => Some (values (columnProof c))
  | _ => None
  end.

(** The column roots of the components, holes included. *)
Definition columnRoots (proof : LowDegreeProverTs.LowDegreeProof) : list (option Buffer) :=
  fmap (M := option) columnRoot <$> LowDegreeProverTs.components proof.

(** The components from [depth] on. *)
Definition componentsFrom (depth : nat) (proof : LowDegreeProverTs.LowDegreeProof)
  : list (option FriComponent) :=
  drop depth (LowDegreeProverTs.components proof).

(** A computation that leaves the observation [obs] of the proof alone. *)
Definition keeps {A X : Type} (obs : LowDegreeProverTs.LowDegreeProof -> X)
    (m : LowDegreeProverTs.Stateful A) : Prop :=
  forall proof, obs (m proof).2 = obs proof.

(** A computation of the earlier verifier, which runs in a state, that does
    not run out of fuel. *)
Definition finishesTs {A} (m : LowDegreeProverTs.Stateful A) : Prop :=
  forall proof, (m proof).1 <> Unfinished.

(** A computation that does not throw the error of the fold check. *)
Definition noMismatch {A : Type} (m : Outcome A) : Prop :=
  forall k, m <> Throw (StarkError (Degree4Mismatch k)).

(** A matrix of 4 columns and [2^n] values, with a domain to match at
    [depth]. *)
Definition layerShape (domain : Vector) (depth n : nat) (polyValues : Matrix) : Prop :=
  Forall (fun row => length row = 4) polyValues
  /\ 4 * rowCount polyValues = 2 ^ n
  /\ length domain = 2 ^ n * 4 ^ depth.

Section Contracts.
Context `{field : FiniteField} `{hash : Hash} `{merkle : Merkle}
        `{idxGenerator : QueryIndexGenerator}.

(** [k] squarings take [r] to 1: [r] is a root of unity of order a power of
    two, at most [2^k]. *)
Definition squaresToOne (k : nat) (r : Z) : Prop :=
  Nat.iter k (fun x => fmul x x) r = 1%Z.

(** The contract of the field library's interpolation: through the values of
    a polynomial with no more coefficients than there are points, at
    distinct points of the field, it gives a polynomial with the same
    values. *)
Definition interpolationContract (inField : Z -> Prop) : Prop :=
  forall (q xs : list Z), length q <= length xs -> NoDup xs -> Forall inField xs ->
  forall x, evalPolyAt (interpolate xs (map (evalPolyAt q) xs)) x = evalPolyAt q x.

(** The states the loop of the earlier verifier runs through. *)
Fixpoint verifierStatesTs (st : LowDegreeProverTs.VerifierState) (comps : list FriComponent)
  : list (LowDegreeProverTs.VerifierState * FriComponent) :=
  match comps with
  | [] => []
  | c :: comps' => (st, c) :: verifierStatesTs (LowDegreeProverTs.nextState st c) comps'
  end.

(** What the fold check of a proof of the prover relies on: the powers of the
    root of unity [g] follow the laws of exponents, field elements (the values
    [inField] holds of) are read back from the buffer of a row as they were
    written, the two ways to evaluate a row polynomial agree, and the indexes
    of the queries lie in the column. *)
Definition foldContract (inField : Z -> Prop) (g : Z) : Prop :=
  fexp g 1 = g
  /\ (forall a b, fmul (fexp g a) (fexp g b) = fexp g (a + b))
  /\ (forall a b, fexp (fexp g a) b = fexp g (a * b))
  /\ (forall a, fmul 1 (fexp g a) = fexp g a)
  /\ (forall poly x, inField (evalQuartic poly x))
  /\ (forall xs ys x,
        evalPolyAt (interpolateQuartic xs ys) x = evalQuartic (interpolateQuartic xs ys) x)
  /\ (forall row j x, length row = 4 -> Forall inField row -> row !! j = Some x ->
        readBigInt (vectorToBuffer row) (j * elementSize) elementSize = Return x)
  /\ (forall root n, Forall (fun p => p < n) (getFriIndexes root n)).

(** The fold check holds for a component at a state of the compiled
    verifier: the column values are read, and the evaluations of the row
    polynomials at the pseudo-random x are those values, position by
    position. *)
Definition foldHolds (quartic : list Z) (st : LowDegreeProverJs.VerifierState)
    (c : FriComponent) : Prop :=
  let positions := getFriIndexes (columnRoot c) (LowDegreeProverJs.columnLength st) in
  let augmentedPositions :=
    LowDegreeProverJs.getAugmentedPositions positions (LowDegreeProverJs.columnLength st) in
  exists columnValues polyValues,
    LowDegreeProverJs.parseColumnValues (values (columnProof c)) positions
      augmentedPositions (LowDegreeProverJs.columnLength st) = Return columnValues
    /\ LowDegreeProverJs.parsePolyValues (values (polyProof c)) = Return polyValues
    /\ LowDegreeProverJs.rowEvaluations quartic st positions polyValues
       = Return columnValues.

(** The same at a state of the earlier verifier. *)
Definition foldHoldsTs (quartic : list Z) (st : LowDegreeProverTs.VerifierState)
    (c : FriComponent) : Prop :=
  let columnLength := LowDegreeProverTs.rouDegree st / 4 in
  let positions := getFriIndexes (columnRoot c) columnLength in
  let augmentedPositions := LowDegreeProverTs.getAugmentedPositions positions columnLength in
  exists columnValues ys polys,
    LowDegreeProverTs.parseColumnValues (values (columnProof c)) positions
      augmentedPositions columnLength = Return columnValues
    /\ LowDegreeProverTs.parsePolyValues (values (polyProof c)) = Return ys
    /\ interpolateQuarticBatch
         (map (LowDegreeProverJs.rowXs quartic (LowDegreeProverTs.rootOfUnity st)) positions)
         ys = Return polys
    /\ map (fun poly => evalPolyAt poly (prng (LowDegreeProverTs.lRoot st))) polys
       = columnValues.

End Contracts.

(** ** Errors a computation can end in *)

(** A computation that throws nothing but errors among [allowed]. *)
Definition throwsOnly {A : Type} (allowed : Error -> Prop) (m : Outcome A) : Prop :=
  forall e, m = Throw e -> allowed e.

(** The messages of the [StarkError]s of [LowDegreeProver.verify] on a proof
    of [depth] components and the linear combination values [lcValues]. *)
Definition verifyMessage (depth : nat) (lcValues : list Z) (message : Message) : bool :=
  match message with
  | LinearCombinationMerkleFailed | RemainderDegreeTooLarge | RemainderRootMismatch
  | RemainderNotValid _ => true
  | LinearCombinationCorrectnessFailed =>
    match lcValues with [] => false | _ :: _ => true end
  | ColumnMerkleFailed k | PolynomialMerkleFailed k | Degree4Mismatch k =>
    bool_decide (k < depth)
  | _ => false
  end.

(** ** Options given in full *)

(** The options object that gives each field of validated options. *)
Definition givenOptions (v : Stark.SecurityOptions) : option Stark.PartialSecurityOptions :=
  Some {| Stark.optExtensionFactor := Some (Stark.extensionFactor v);
          Stark.optExeSpotCheckCount := Some (Stark.exeSpotCheckCount v);
          Stark.optFriSpotCheckCount := Some (Stark.friSpotCheckCount v);
          Stark.optHashAlgorithm := Some (Stark.hashAlgorithm v) |}.

(** ** src/lib/components/TraceBuilder.ts: the inputs of [Stark.prove] *)

(** A JS value as [prove] may be handed one for its inputs: a [bigint], an
    array, or anything else ([undefined], a number, a string, an object). *)
Inductive JsValue : Type :=
| JsBigInt (z : Z)
| JsArray (items : list JsValue)
| JsOther.

Module StarkInputs.

Definition inputsNotArray : string := "Inputs parameter must be an array".
Definition rowNotArray (rowNumber : nat) : string :=
  "Input row " +:+ pretty rowNumber +:+ " is not an array".
Definition rowLength (registerCount : nat) : string :=
  "Input row must have exactly " +:+ pretty registerCount +:+ " elements".
Definition notBigInt (rowNumber i : nat) : string :=
  "Input " +:+ pretty rowNumber +:+ " for register $r" +:+ pretty i +:+ " is not a BigInt".

(** One turn of the loop of [copyInputRow]: [target[i].push(row[i])], for a
    [row[i]] that is a [bigint]; a [target] with no array at [i] is a
    [TypeError] of the runtime. *)
Definition copyInputValue (row : list JsValue) (rowNumber i : nat)
    (target : list (list Z)) : Outcome (list (list Z)) :=
  match row !! i with
  | Some (JsBigInt value) =>
    match target !! i with
    | Some _ => Return (alter (fun column => column ++ [value]) i target)
    | None => Throw (TypeError "cannot read push of undefined")
    end
  | _ => Throw (TypeError (notBigInt rowNumber i))
  end.

Fixpoint copyInputValues (row : list JsValue) (rowNumber : nat) (registers : list nat)
    (target : list (list Z)) : Outcome (list (list Z)) :=
  match registers with
  | [] => Return target
  | i :: rest =>
    target ← copyInputValue row rowNumber i target;
    copyInputValues row rowNumber rest target
  end.

(** [copyInputRow(row, target, registerCount, rowNumber)]; the result is
    [target] after the call. *)
Definition copyInputRow (row : JsValue) (target : list (list Z))
    (registerCount rowNumber : nat) : Outcome (list (list Z)) :=
  match row with
  | JsArray items =>
    if decide (length items ≠ registerCount)
    then Throw (TypeError (rowLength registerCount))
    else copyInputValues items rowNumber (seq 0 registerCount) target
  | _ => Throw (TypeError (rowNotArray rowNumber))
  end.

(** The loop of [normalizeInputs] over the rows, from row [i]. *)
Fixpoint copyInputRows (rows : list JsValue) (i : nat) (normalized : list (list Z))
    (registerCount : nat) : Outcome (list (list Z)) :=
  match rows with
  | [] => Return normalized
  | row :: rest =>
    normalized ← copyInputRow row normalized registerCount i;
    copyInputRows rest (S i) normalized registerCount
  end.

(** [normalizeInputs(inputs, registerCount)] *)
Definition normalizeInputs (inputs : JsValue) (registerCount : nat)
  : Outcome (list (list Z)) :=
  match inputs with
  | JsArray rows =>
    (* initialize normalized inputs array *)
    let normalized := replicate registerCount [] in
    match rows with
    | JsBigInt _ :: _ => copyInputRow inputs normalized registerCount 0
    | _ => copyInputRows rows 0 normalized registerCount
    end
  | _ => Throw (TypeError inputsNotArray)
  end.

End StarkInputs.

(** ** src/lib/components/TraceBuilder.ts: the class ExecutionTraceBuilder *)

Module ExecutionTraceBuilder.

(** What [validateAssertions] throws: the [TypeError] of reading the length
    of [trace[0]] when the trace has no register, an [Error] for an assertion
    outside the trace, a [StarkError] for one the trace contradicts. *)
Inductive AssertionError : Type :=
| NoRegister
| RegisterOutside (register : nat)
| StepOutside (step : nat)
| TraceConflict (step register : nat).

(** [error instanceof StarkError] *)
Definition isStarkError (e : AssertionError) : bool :=
  match e with TraceConflict _ _ => true | _ => false end.

(** [trace[register][step]], [None] for [undefined]. *)
Definition traceValue (trace : list (list Z)) (register step : nat) : option Z :=
  match trace !! register with
  | Some row => row !! step
  | None => None
  end.

(** The body of the loop of [validateAssertions]; [None] when the assertion
    passes. *)
Definition validateAssertion (trace : list (list Z)) (registers steps : nat)
    (a : Stark.Assertion) : option AssertionError :=
  (* make sure register references are correct *)
  if decide (registers <= Stark.register a) then Some (RegisterOutside (Stark.register a))
  (* make sure steps are correct *)
  else if decide (steps <= Stark.step a) then Some (StepOutside (Stark.step a))
  (* make sure assertions don't contradict execution trace *)
  else if decide (traceValue trace (Stark.register a) (Stark.step a)
                  ≠ Some (Stark.value a))
  then Some (TraceConflict (Stark.step a) (Stark.register a))
  else None.

Fixpoint validateEach (trace : list (list Z)) (registers steps : nat)
    (assertions : list Stark.Assertion) : option AssertionError :=
  match assertions with
  | [] => None
  | a :: rest =>
    match validateAssertion trace registers steps a with
    | Some e => Some e
    | None => validateEach trace registers steps rest
    end
  end.

(** [validateAssertions(trace, assertions)]: the error it throws, [None]
    when it returns. *)
Definition validateAssertions (trace : list (list Z)) (assertions : list Stark.Assertion)
  : option AssertionError :=
  let registers := length trace in
  match trace with
  | [] => Some NoRegister
  | row :: _ =>
    let steps := length row in
    validateEach trace registers steps assertions
  end.

End ExecutionTraceBuilder.

(** ** src/unnamed/part_001: the class BoundaryConstraints *)

(** The field operations [BoundaryConstraints] uses beyond those of the
    low-degree prover. *)
Class PolyField : Type := {
  fneg : Z -> Z;                                    (* field.neg *)
  fone : Z;                                         (* field.one *)
  fsub : Z -> Z -> Z;                               (* field.sub *)
  fdiv : Z -> Z -> Z;                               (* field.div *)
  mulPolys : list Z -> list Z -> list Z;            (* field.mulPolys *)
}.

Module BoundaryConstraints.

(** An entry of [rData]. *)
Record RegisterData : Type := {
  xs : list Z;
  ys : list Z;
  zPoly : list Z;
}.

(** An entry of [this.polys]. *)
Record RegisterPolys : Type := {
  iPoly : list Z;
  thisZPoly : list Z;
}.

Section Constraints.
Context `{field : FiniteField} `{polyField : PolyField}.

(** [let data = rData.get(register); if (data) { ... } else { ...;
    rData.set(register, data) }] on a [Map], which keeps its keys in the
    order they were set: the entry of the register is changed in place, and
    a new register is put at the end. *)
Fixpoint addPoint (rData : list (nat * RegisterData)) (register : nat) (x value : Z)
    (zPoly : list Z) : list (nat * RegisterData) :=
  match rData with
  | [] => [(register, {| xs := [x]; ys := [value]; zPoly := zPoly |})]
  | (r, data) :: rest =>
    if decide (r = register)
    then (r, {| xs := BoundaryConstraints.xs data ++ [x];
                ys := BoundaryConstraints.ys data ++ [value];
                zPoly := mulPolys (BoundaryConstraints.zPoly data) zPoly |}) :: rest
    else (r, data) :: addPoint rest register x value zPoly
  end.

(** The x coordinate of an assertion. *)
Definition assertionX (rootOfUnity : Z) (extensionFactor : nat) (c : Stark.Assertion) : Z :=
  fexp rootOfUnity (Stark.step c * extensionFactor).

(** The first loop of the constructor: combine constraints for each
    register. *)
Definition combine (rootOfUnity : Z) (extensionFactor : nat)
    (assertions : list Stark.Assertion) : list (nat * RegisterData) :=
  fold_left (fun rData c =>
               let x := assertionX rootOfUnity extensionFactor c in
               let zPoly := [fneg x; fone] in
               addPoint rData (Stark.register c) x (Stark.value c) zPoly)
            assertions [].

(** The constructor: [this.polys]. *)
Definition construct (assertions : list Stark.Assertion) (rootOfUnity : Z)
    (extensionFactor : nat) : list (nat * RegisterPolys) :=
  map (fun entry : nat * RegisterData =>
         let (register, data) := entry in
         (register, {| iPoly := interpolate (xs data) (ys data);
                       thisZPoly := zPoly data |}))
      (combine rootOfUnity extensionFactor assertions).

(** [get count()] *)
Definition count (polys : list (nat * RegisterPolys)) : nat := length polys.

(** [evaluateAt(pEvaluations, x)]; a register with no value among
    [pEvaluations] hands [undefined] to [field.sub], which the runtime
    refuses with a [TypeError]. *)
Fixpoint evaluateAt (polys : list (nat * RegisterPolys)) (pEvaluations : list Z) (x : Z)
  : Outcome (list Z) :=
  match polys with
  | [] => Return []
  | (register, c) :: rest =>
    let z := evalPolyAt (thisZPoly c) x in
    let i := evalPolyAt (iPoly c) x in
    p ← getValue pEvaluations register;
    (* B(x) = (P(x) - I(x)) / Z(x) *)
    let b := fdiv (fsub p i) z in
    bEvaluations ← evaluateAt rest pEvaluations x;
    Return (b :: bEvaluations)
  end.

End Constraints.
End BoundaryConstraints.

(** ** src/unnamed/part_001: the helper of the point multiplication example *)

Module PointMulExample.

(** The digits of [value.toString(2)] for a positive [value], the most
    significant first. *)
Fixpoint binaryDigits (p : positive) : list ascii :=
  match p with
  | xH => ["1"%char]
  | xO q => binaryDigits q ++ ["0"%char]
  | xI q => binaryDigits q ++ ["1"%char]
  end.

(** [value.toString(2)] for a [bigint], as the list of its characters. *)
Definition toString2 (value : Z) : list ascii :=
  match value with
  | Z0 => ["0"%char]
  | Zpos p => binaryDigits p
  | Zneg p => "-"%char :: binaryDigits p
  end.

(** [s.padStart(targetLength, pad)] for a one-character [pad]. *)
Definition padStart (s : list ascii) (targetLength : nat) (pad : ascii) : list ascii :=
  replicate (targetLength - length s) pad ++ s.

(** [BigInt(b)] for a string [b] of one character: the value of a decimal
    digit (the characters of codes 48 to 57), and [None] for the
    [SyntaxError] of a character that is no numeral (of the characters
    [toString] writes, the sign). *)
Definition bigIntOfChar (b : ascii) : option Z :=
  let code := Z.of_nat (nat_of_ascii b) in
  if decide (48 <= code <= 57)%Z then Some (code - 48)%Z else None.

(** [toBits(value)]; [None] when it throws the [SyntaxError]. *)
Definition toBits (value : Z) : option (list Z) :=
  let bits := padStart (toString2 value) 256 "0"%char in
  mapM bigIntOfChar (reverse bits).

End PointMulExample.

(** ** src/bin/examples/rescue/utils.js *)

(** The field of the example, [new PrimeField(2n ** 64n - 21n * 2n ** 30n +
    1n)]: the operations the file calls. [field.exp] takes a [bigint] for its
    exponent, which may be negative. *)
Class RescueField : Type := {
  radd : Z -> Z -> Z;                               (* field.add *)
  rmul : Z -> Z -> Z;                               (* field.mul *)
  rexp : Z -> Z -> Z;                               (* field.exp *)
}.

Module RescueUtils.

Definition alpha : Z := 3.
Definition invAlpha : Z := -6148914683720324437.
Definition registers : nat := 2.
Definition rounds : nat := 32.

(** MDS matrix *)
Definition mds : list (list Z) :=
  [[18446744051160973310; 18446744051160973301];
   [4; 13]]%Z.

Definition initialConstants : list Z := [1908230773479027697; 11775995824954138427]%Z.
Definition constantsConstant : list Z := [17002767073604012844; 4907993559994152336]%Z.
Definition constantsMatrix : list (list Z) :=
  [[18345613653544031596; 8765075832563166921];
   [10398013025088720944; 5494050611496560306]]%Z.

Section Rescue.
Context `{rescueField : RescueField}.

(** [vadd(a, b)]; [b[i]] is [undefined] past the end of [b], and
    [field.add] does not take it. *)
Fixpoint vadd (a b : list Z) : Outcome (list Z) :=
  match a with
  | [] => Return []
  | x :: a' =>
    match b with
    | [] => Throw (TypeError "Cannot mix BigInt and other types")
    | y :: b' =>
      result ← vadd a' b';
      Return (radd x y :: result)
    end
  end.

(** The inner loop of [mmul]: [s = field.add(s, field.mul(a[i][j], b[j]))]. *)
Fixpoint rowSum (row b : list Z) (s : Z) : Outcome Z :=
  match row with
  | [] => Return s
  | x :: row' =>
    match b with
    | [] => Throw (TypeError "Cannot mix BigInt and other types")
    | y :: b' => rowSum row' b' (radd s (rmul x y))
    end
  end.

(** [mmul(a, b)] *)
Fixpoint mmul (a : list (list Z)) (b : list Z) : Outcome (list Z) :=
  match a with
  | [] => Return []
  | row :: a' =>
    s ← rowSum row b 0%Z;
    result ← mmul a' b;
    Return (s :: result)
  end.

(** [for (let i = 0; i < registers; i++) state[i] = field.exp(state[i],
    exponent)], from register [i] on with [count] registers left. *)
Fixpoint expRegisters (state : list Z) (exponent : Z) (i count : nat)
  : Outcome (list Z) :=
  match count with
  | 0 => Return state
  | S count' =>
    match state !! i with
    | Some x => expRegisters (<[i := rexp x exponent]> state) exponent (S i) count'
    | None => Throw (TypeError "Cannot mix BigInt and other types")
    end
  end.

(** [unrolledKeys[k]]; the elements of [undefined] cannot be read. *)
Definition keyAt (unrolledKeys : list (list Z)) (k : nat) : Outcome (list Z) :=
  match unrolledKeys !! k with
  | Some key => Return key
  | None => Throw (TypeError "Cannot read properties of undefined")
  end.

(** The body of the loop of [unrollConstants]; the result is pushed at the
    end of [result]. *)
Definition unrollRound (keyState keyInjection : list Z) (result : list (list Z))
  : Outcome (list Z * list Z * list (list Z)) :=
  (* round r, step 1 *)
  keyState ← expRegisters keyState invAlpha 0 registers;
  product ← mmul constantsMatrix keyInjection;
  keyInjection ← vadd product constantsConstant;
  product ← mmul mds keyState;
  keyState ← vadd product keyInjection;
  let result := result ++ [keyState] in
  (* round r, step 2 *)
  keyState ← expRegisters keyState alpha 0 registers;
  product ← mmul constantsMatrix keyInjection;
  keyInjection ← vadd product constantsConstant;
  product ← mmul mds keyState;
  keyState ← vadd product keyInjection;
  Return (keyState, keyInjection, result ++ [keyState]).

(** The loop of [unrollConstants], with [count] rounds left. *)
Fixpoint unrollRounds (count : nat) (keyState keyInjection : list Z)
    (result : list (list Z)) : Outcome (list (list Z)) :=
  match count with
  | 0 => Return result
  | S count' =>
    '(keyState, keyInjection, result) ← unrollRound keyState keyInjection result;
    unrollRounds count' keyState keyInjection result
  end.

(** [unrollConstants()]; the loop runs for [r = 0 .. rounds]. *)
Definition unrollConstants : Outcome (list (list Z)) :=
  (* initial state *)
  let keyState := replicate registers 0%Z in
  let keyInjection := initialConstants in
  keyState ← vadd keyState keyInjection;
  let result := [keyState] in
  (* record key state for each round *)
  unrollRounds (S rounds) keyState keyInjection result.

(** [state[i] = inputs[i]] for each input: the inputs overwrite the start of
    the state, and extend it when there are more of them. *)
Definition copyInputs (state inputs : list Z) : list Z :=
  inputs ++ drop (length inputs) state.

(** The body of the loop of [sponge], on the keys [k] and [k + 1]. *)
Definition spongeRound (unrolledKeys : list (list Z)) (k : nat) (state : list Z)
    (trace : list (list Z)) : Outcome (list Z * list (list Z)) :=
  (* round r, step 1 *)
  state ← expRegisters state invAlpha 0 registers;
  product ← mmul mds state;
  key ← keyAt unrolledKeys k;
  state ← vadd product key;
  let trace := trace ++ [state] in
  (* round r, step 2 *)
  state ← expRegisters state alpha 0 registers;
  product ← mmul mds state;
  key ← keyAt unrolledKeys (k + 1);
  state ← vadd product key;
  Return (state, trace ++ [state]).

(** The loop of [sponge], with [count] rounds left. *)
Fixpoint spongeRounds (unrolledKeys : list (list Z)) (count k : nat) (state : list Z)
    (trace : list (list Z)) : Outcome (list Z * list (list Z)) :=
  match count with
  | 0 => Return (state, trace)
  | S count' =>
    '(state, trace) ← spongeRound unrolledKeys k state trace;
    spongeRounds unrolledKeys count' (k + 2) state trace
  end.

(** [sponge(inputs, unrolledKeys)]: the hash and the trace. An entry of the
    hash is [undefined] ([None]) where the state has no value. *)
Definition sponge (inputs : list Z) (unrolledKeys : list (list Z))
  : Outcome (list (option Z) * list (list Z)) :=
  (* copy inputs to state *)
  let state := copyInputs (replicate registers 0%Z) inputs in
  let trace := [state] in
  (* run through block cipher rounds *)
  key ← keyAt unrolledKeys 0;
  state ← vadd state key;
  let trace := trace ++ [state] in
  '(state, trace) ← spongeRounds unrolledKeys rounds 1 state trace;
  (* build and return output *)
  let output := map (fun i => state !! i) (seq 0 (length inputs)) in
  Return (output, trace).

End Rescue.
End RescueUtils.

(** A prime field to run the rescue example on: the integers modulo
    [2^64 - 21 * 2^30 + 1], with powers by repeated squaring and negative
    exponents as powers of the inverse. *)
Module RescueExample.

Definition modulus : Z := (2 ^ 64 - 21 * 2 ^ 30 + 1)%Z.

Fixpoint power (x : Z) (e : positive) : Z :=
  match e with
  | xH => (x mod modulus)%Z
  | xO e' => let y := power x e' in ((y * y) mod modulus)%Z
  | xI e' => let y := power x e' in ((y * y * x) mod modulus)%Z
  end.

Definition exp (x e : Z) : Z :=
  match e with
  | Z0 => 1%Z
  | Zpos p => power x p
  | Zneg p => power (power x (Z.to_pos (modulus - 2))) p
  end.

#[global] Instance rescueField : RescueField := {|
  radd := fun a b => ((a + b) mod modulus)%Z;
  rmul := fun a b => ((a * b) mod modulus)%Z;
  rexp := exp;
|}.

(** [keyConstants], the keys the module unrolls when it is loaded. *)
Definition keyConstants : list (list Z) :=
  match RescueUtils.unrollConstants with
  | Return keys => keys
  | _ => []
  end.

End RescueExample.

(** ** Inputs, row by row and register by register *)

(** A row of inputs as an array of [bigint]s. *)
Definition bigintRow (row : list Z) : JsValue := JsArray (map JsBigInt row).

(** The rows of inputs read register by register: entry [i] of register [r]
    is entry [r] of row [i]. *)
Definition registerColumns (registerCount : nat) (rows : list (list Z)) : list (list Z) :=
  map (fun r => map (fun row => nth r row 0%Z) rows) (seq 0 registerCount).

(** The [bigint] a value holds. *)
Definition bigintOf (v : JsValue) : Z :=
  match v with JsBigInt z => z | _ => 0%Z end.

(** ** Boundary constraints *)

(** The product of polynomials the constructor of [BoundaryConstraints]
    builds: the first factor, multiplied by each further one in turn. *)
Definition polyProduct `{PolyField} (factors : list (list Z)) : list Z :=
  match factors with
  | [] => []
  | first :: rest => fold_left mulPolys rest first
  end.

(** ** Bits *)

(** The number a list of bits stands for, the least significant first. *)
Definition bitsValue (bits : list Z) : Z :=
  fold_right (fun bit rest => bit + 2 * rest)%Z 0%Z bits.

(** ** The libraries behind the Merkle proofs *)

Section MerkleContract.
Context `{field : FiniteField} `{hash : Hash} `{merkle : Merkle}
        `{idxGenerator : QueryIndexGenerator}.

(** What the prover and the verifier rely on beside the fold check: the
    hashes of a matrix of 4 columns are those of its rows, a batch proof for
    positions inside the tree holds the leaves at the positions and is
    verified against the root of the tree, and the indexes of the queries of
    the linear combination lie in the domain. *)
Definition merkleContract : Prop :=
  (forall m : Matrix,
     Forall (fun row => length row = 4) m ->
     digestValues (matrixToBuffer m) LowDegreeProverJs.polyRowSize
     = map (fun row => digest (vectorToBuffer row)) m)
  /\ (forall (leaves : list Buffer) (positions : list nat),
        Forall (fun p => p < length leaves) positions ->
        values (proveBatch (create leaves) positions)
        = map (fun p => nth p leaves []) positions
        /\ verifyBatch (root (create leaves)) positions
             (proveBatch (create leaves) positions) = inr true)
  /\ (forall seed n, Forall (fun p => p < n) (getExeIndexes seed n)).

(** The tree of a matrix of values. *)
Definition valuesTree (polyValues : Matrix) : MerkleTree :=
  create (digestValues (matrixToBuffer polyValues) LowDegreeProverJs.polyRowSize).

End MerkleContract.

Section BufferContract.
Context `{field : FiniteField}.

(** What the remainder of the earlier prover relies on: a vector is written
    with [elementSize] bytes per element, and field elements (the values
    [inField] holds of) are read back from the buffers the bytes are cut
    into. *)
Definition bufferContract (inField : Z -> Prop) : Prop :=
  0 < elementSize
  /\ (forall v : Vector, length (vectorToBuffer v) = length v * elementSize)
  /\ (forall (v : Vector) (buffers : list Buffer),
        Forall inField v ->
        LowDegreeProverTs.splitBuffer (vectorToBuffer v) elementSize = Return buffers ->
        buffersToBigInts buffers = v).

End BufferContract.

(** ** The errors of [Stark.verify] *)

(** The errors of the checks of step 7. *)
Definition stepError (e : Error) : Prop :=
  match e with
  | TypeError _ => True
  | StarkError (TransitionConstraintFailed _)
  | StarkError (BoundaryConstraintFailed _)
  | StarkError (LinearCombinationInconsistent _) => True
  | _ => False
  end.

(** ** The rescue example *)

(** A state of the sponge: one value per register. *)
Definition isState (state : list Z) : Prop := length state = RescueUtils.registers.

(** * Properties *)

(** ** Outcomes *)

Lemma bind_Return {A B} (m : Outcome A) (f : A -> Outcome B) (b : B) :
  m ≫= f = Return b <-> exists a, m = Return a /\ f a = Return b.
Proof.
  destruct m; simpl; split; try (intros [? [? ?]]); try discriminate; eauto.
  congruence.
Qed.

Lemma bind_Throw {A B} (m : Outcome A) (f : A -> Outcome B) (e : Error) :
  m ≫= f = Throw e <-> m = Throw e \/ exists a, m = Return a /\ f a = Throw e.
Proof.
  destruct m; simpl; split; intros H.
  - right; eauto.
  - destruct H as [H | [? [H1 H2]]]; [discriminate | congruence].
  - injection H as ->; left; reflexivity.
  - destruct H as [H | [? [H1 H2]]]; [injection H as -> | discriminate]; reflexivity.
  - discriminate.
  - destruct H as [H | [? [H1 H2]]]; discriminate.
Qed.

Lemma bind_Unfinished {A B} (m : Outcome A) (f : A -> Outcome B) :
  m ≫= f = Unfinished <-> m = Unfinished \/ exists a, m = Return a /\ f a = Unfinished.
Proof.
  destruct m; simpl; split; intros H.
  - right; eauto.
  - destruct H as [H | [? [H1 H2]]]; [discriminate | congruence].
  - discriminate.
  - destruct H as [H | [? [H1 H2]]]; discriminate.
  - left; reflexivity.
  - reflexivity.
Qed.

Lemma assertStark_Return (ok : bool) (message : Message) :
  assertStark ok message = Return tt <-> ok = true.
Proof. destruct ok; simpl; unfold throwStark; split; congruence. Qed.

Lemma assertStark_Throw (ok : bool) (message : Message) (e : Error) :
  assertStark ok message = Throw e <-> ok = false /\ e = StarkError message.
Proof.
  destruct ok; simpl; unfold throwStark; split; try intros [? ?]; try congruence.
  intros H; injection H as <-; auto.
Qed.

Lemma assertStark_finishes (ok : bool) (message : Message) :
  assertStark ok message <> Unfinished.
Proof. destruct ok; discriminate. Qed.

Lemma throwsOnly_bind {A B} (allowed : Error -> Prop) (m : Outcome A)
    (f : A -> Outcome B) :
  throwsOnly allowed m -> (forall a, m = Return a -> throwsOnly allowed (f a)) ->
  throwsOnly allowed (m ≫= f).
Proof.
  intros Hm Hf e. destruct m as [a|e'|]; cbn [mbind Outcome_bind].
  - apply Hf. reflexivity.
  - intros [= <-]. apply Hm. reflexivity.
  - discriminate.
Qed.

Lemma throwsOnly_Return {A} (allowed : Error -> Prop) (a : A) :
  throwsOnly allowed (Return a).
Proof. intros e. discriminate. Qed.

(** Inverts hypotheses of the form [m ≫= f = Return b]. *)
Ltac invert_bind :=
  repeat match goal with
  | H : _ ≫= _ = Return _ |- _ =>
    apply bind_Return in H; destruct H as [? [? H]]
  | H : assertStark _ _ = Return _ |- _ =>
    apply assertStark_Return in H
  | H : Return _ = Return _ |- _ => injection H as H
  | x : unit |- _ => destruct x
  end.

(** The model writes [map]; stdpp's lemmas are about [fmap]. *)
Ltac map_to_fmap :=
  repeat match goal with
  | |- context [map ?f ?l] => change (map f l) with (f <$> l)
  | H : context [map ?f ?l] |- _ => change (map f l) with (f <$> l) in H
  end.

(** ** Sets in insertion order *)

Lemma firstOccurrences_filter (P : nat -> Prop) `{forall x, Decision (P x)} (l : list nat) :
  firstOccurrences (filter P l) = filter P (firstOccurrences l).
Proof.
  induction l as [|x l IH]; [reflexivity|].
  rewrite filter_cons. simpl. rewrite filter_cons.
  destruct (decide (P x)) as [HP|HP]; simpl; rewrite IH.
  - f_equal. rewrite !list_filter_filter. apply list_filter_iff.
    intros y; simpl; tauto.
  - rewrite list_filter_filter. apply list_filter_iff.
    intros y; simpl; split; [|tauto]. intros Hy; split; [assumption|].
    intros ->; contradiction.
Qed.

Lemma fold_setAdd (l acc : list nat) :
  fold_left setAdd l acc = acc ++ firstOccurrences (filter (fun x => x ∉ acc) l).
Proof.
  revert acc; induction l as [|x l IH]; intros acc; simpl.
  - rewrite app_nil_r; reflexivity.
  - rewrite filter_cons. unfold setAdd at 2.
    destruct (decide (x ∈ acc)) as [Hin|Hin].
    + rewrite decide_False by tauto. apply IH.
    + rewrite decide_True by assumption. rewrite IH. simpl.
      rewrite <- app_assoc. simpl. do 2 f_equal.
      rewrite <- firstOccurrences_filter, list_filter_filter.
      f_equal. apply list_filter_iff. intros y.
      rewrite not_elem_of_app, list_elem_of_singleton. tauto.
Qed.

Lemma fold_setAdd_map {A} (f : A -> nat) (l : list A) (acc : list nat) :
  fold_left (fun result x => setAdd result (f x)) l acc = fold_left setAdd (map f l) acc.
Proof. revert acc; induction l as [|x l IH]; intros acc; simpl; auto. Qed.

Lemma filter_all {A} (P : A -> Prop) `{forall x, Decision (P x)} (l : list A) :
  (forall x, P x) -> filter P l = l.
Proof.
  intros HP; induction l as [|x l IH]; [reflexivity|].
  rewrite filter_cons_True by apply HP. f_equal; assumption.
Qed.

Lemma arrayFrom_set (l : list nat) :
  fold_left setAdd l [] = firstOccurrences l.
Proof.
  rewrite fold_setAdd. simpl. f_equal.
  apply filter_all. intros x. apply not_elem_of_nil.
Qed.

Lemma elem_of_firstOccurrences (l : list nat) (x : nat) :
  x ∈ firstOccurrences l <-> x ∈ l.
Proof.
  induction l as [|y l IH]; simpl; [reflexivity|].
  rewrite !elem_of_cons, list_elem_of_filter, IH.
  destruct (decide (x = y)); tauto.
Qed.

Lemma NoDup_firstOccurrences (l : list nat) : NoDup (firstOccurrences l).
Proof.
  induction l as [|y l IH]; simpl; constructor.
  - rewrite list_elem_of_filter. tauto.
  - apply NoDup_filter; assumption.
Qed.

Lemma indexOf_Some (l : list nat) (x i : nat) :
  indexOf l x = Some i -> l !! i = Some x.
Proof.
  revert i; induction l as [|y l IH]; intros i; simpl; [discriminate|].
  destruct (decide (y = x)) as [->|Hne].
  - intros [= <-]; reflexivity.
  - destruct (indexOf l x) as [j|]; simpl; [|discriminate].
    intros [= <-]. simpl. auto.
Qed.

Lemma indexOf_NoDup (l : list nat) (x i : nat) :
  NoDup l -> l !! i = Some x -> indexOf l x = Some i.
Proof.
  intros Hnd; revert i; induction Hnd as [|y l Hy Hnd IH]; intros i; [discriminate|].
  destruct i as [|i]; simpl.
  - intros [= ->]. rewrite decide_True; reflexivity.
  - intros Hi. rewrite decide_False.
    + rewrite (IH _ Hi); reflexivity.
    + intros ->. apply Hy. eapply list_elem_of_lookup_2; eassumption.
Qed.

Lemma indexOf_elem_of (l : list nat) (x : nat) :
  x ∈ l -> exists i, indexOf l x = Some i.
Proof.
  induction l as [|y l IH]; [intros H; inversion H|].
  simpl. destruct (decide (y = x)); [eauto|].
  rewrite elem_of_cons. intros [->|Hin]; [congruence|].
  destruct (IH Hin) as [i ->]. simpl; eauto.
Qed.

(** ** Rows of a column *)

Lemma floorModRow_divisible (position columnLength : nat) :
  0 < columnLength -> (4 | columnLength) ->
  floorModRow position columnLength = position mod (columnLength / 4).
Proof.
  intros Hpos [k ->]. unfold floorModRow.
  rewrite Nat.div_mul by lia.
  replace (4 * position) with (position * 4) by lia.
  rewrite Nat.Div0.mul_mod_distr_r, Nat.div_mul by lia. reflexivity.
Qed.

Lemma modRow_divisible (position columnLength : nat) :
  0 < columnLength -> (4 | columnLength) ->
  modRow position columnLength = Some (position mod (columnLength / 4)).
Proof.
  intros Hpos [k ->]. unfold modRow.
  rewrite Nat.div_mul by lia.
  replace (4 * position) with (position * 4) by lia.
  rewrite Nat.Div0.mul_mod_distr_r.
  rewrite decide_True.
  - rewrite Nat.div_mul by lia. reflexivity.
  - split; [lia|]. apply Nat.Div0.mod_mul.
Qed.

Lemma floorDivRow_divisible (position columnLength : nat) :
  0 < columnLength -> (4 | columnLength) ->
  floorDivRow position columnLength = position / (columnLength / 4).
Proof.
  intros Hpos [k ->]. unfold floorDivRow.
  rewrite Nat.div_mul by lia.
  replace (4 * position) with (position * 4) by lia.
  rewrite Nat.Div0.div_mul_cancel_r by lia. reflexivity.
Qed.

Lemma getAugmentedPositions_firstOccurrences (positions : list nat) (columnLength : nat) :
  LowDegreeProverJs.getAugmentedPositions positions columnLength
  = firstOccurrences (map (fun p => floorModRow p columnLength) positions).
Proof.
  unfold LowDegreeProverJs.getAugmentedPositions.
  rewrite (fold_setAdd_map (fun p => floorModRow p columnLength)).
  apply arrayFrom_set.
Qed.

(** ** Reads from buffers *)

Lemma forEach_Return {A B} (f : A -> Outcome B) (xs : list A) (ys : list B) :
  forEach f xs = Return ys <-> Forall2 (fun x y => f x = Return y) xs ys.
Proof.
  revert ys; induction xs as [|x xs IH]; intros ys; cbn [forEach].
  - split; [intros [= <-]; constructor|intros Hall; inversion Hall; reflexivity].
  - rewrite bind_Return. split.
    + intros (y & Hy & Hrest). apply bind_Return in Hrest as (rest & Hrest & [= <-]).
      constructor; [exact Hy|]. apply IH. exact Hrest.
    + intros Hall. inversion Hall as [|x' y xs' rest Hy Hrest]; subst.
      exists y. split; [exact Hy|]. apply bind_Return. exists rest.
      split; [apply IH; exact Hrest|reflexivity].
Qed.

Lemma forEach_map {A B} (f : A -> Outcome B) (g : A -> B) (xs : list A) :
  (forall x, x ∈ xs -> f x = Return (g x)) -> forEach f xs = Return (map g xs).
Proof.
  intros Hall. apply forEach_Return. induction xs as [|x xs IH]; [constructor|].
  cbn [map]. constructor; [apply Hall; left|]. apply IH. intros y Hy. apply Hall. right. exact Hy.
Qed.

Lemma forEach_Throw {A B} (f : A -> Outcome B) (xs : list A) (e : Error) :
  forEach f xs = Throw e -> exists x, x ∈ xs /\ f x = Throw e.
Proof.
  induction xs as [|x xs IH]; cbn [forEach]; [discriminate|].
  rewrite bind_Throw. intros [Hx|(y & _ & Hrest)].
  - exists x. split; [left|exact Hx].
  - apply bind_Throw in Hrest as [Hrest|(rest & _ & Hrest)]; [|discriminate].
    destruct (IH Hrest) as (x' & Hin & Hx'). exists x'. split; [right|]; assumption.
Qed.

Lemma forEach_finishes {A B} (f : A -> Outcome B) (xs : list A) :
  (forall x, f x <> Unfinished) -> forEach f xs <> Unfinished.
Proof.
  intros Hf. induction xs as [|x xs IH]; cbn [forEach]; [discriminate|].
  rewrite bind_Unfinished. intros [Hx|(y & _ & Hrest)]; [exact (Hf x Hx)|].
  apply bind_Unfinished in Hrest as [Hrest|(rest & _ & Hrest)]; [exact (IH Hrest)|discriminate].
Qed.

Lemma forEach_length {A B} (f : A -> Outcome B) (xs : list A) (ys : list B) :
  forEach f xs = Return ys -> length ys = length xs.
Proof. intros Hrun. apply forEach_Return in Hrun. symmetry. exact (Forall2_length _ _ _ Hrun). Qed.

Section Reads.
Context `{field : FiniteField}.

Lemma readBigInt_Return (buffer : Buffer) (offset size : nat) (value : Z) :
  readBigInt buffer offset size = Return value
  <-> offset + size <= length buffer /\ value = bigIntAt buffer offset size.
Proof.
  unfold readBigInt. destruct (decide _) as [Hin|Hout].
  - split; [intros [= <-]; auto|intros [_ ->]; reflexivity].
  - split; [discriminate|intros [Hin _]; contradiction].
Qed.

Lemma readBigInt_Throw (buffer : Buffer) (offset size : nat) (e : Error) :
  readBigInt buffer offset size = Throw e
  <-> length buffer < offset + size /\ e = RangeError.
Proof.
  unfold readBigInt. destruct (decide _) as [Hin|Hout].
  - split; [discriminate|intros [Hout _]; lia].
  - split; [intros [= <-]; split; [lia|reflexivity]|intros [_ ->]; reflexivity].
Qed.

Lemma readBigInt_finishes (buffer : Buffer) (offset size : nat) :
  readBigInt buffer offset size <> Unfinished.
Proof. unfold readBigInt. destruct (decide _); discriminate. Qed.

(** A row of 4 values is read from a buffer of at least [4 * elementSize]
    bytes, and from no shorter one. *)
Lemma parsePolyRow_Return (buffer : Buffer) (row : list Z) :
  forEach (fun i => readBigInt buffer (i * elementSize) elementSize) (seq 0 4) = Return row
  <-> 4 * elementSize <= length buffer
      /\ row = map (fun i => bigIntAt buffer (i * elementSize) elementSize) (seq 0 4).
Proof.
  split.
  - intros Hrow. cbn [seq forEach] in Hrow.
    apply bind_Return in Hrow as (v0 & H0 & Hrow).
    apply bind_Return in Hrow as (r1 & Hrow & [= <-]).
    apply bind_Return in Hrow as (v1 & H1 & Hrow).
    apply bind_Return in Hrow as (r2 & Hrow & [= <-]).
    apply bind_Return in Hrow as (v2 & H2 & Hrow).
    apply bind_Return in Hrow as (r3 & Hrow & [= <-]).
    apply bind_Return in Hrow as (v3 & H3 & Hrow).
    apply bind_Return in Hrow as (r4 & [= <-] & [= <-]).
    apply readBigInt_Return in H0 as [_ ->], H1 as [_ ->], H2 as [_ ->], H3 as [H3 ->].
    split; [lia|reflexivity].
  - intros [Hlength ->]. apply forEach_map. intros i Hi.
    apply elem_of_seq in Hi. apply readBigInt_Return. split; [nia|reflexivity].
Qed.

Lemma parsePolyValues_Return (buffers : list Buffer) (polyValues : Matrix) :
  LowDegreeProverJs.parsePolyValues buffers = Return polyValues
  <-> Forall (fun buffer => 4 * elementSize <= length buffer) buffers
      /\ polyValues
         = map (fun buffer =>
                  map (fun i => bigIntAt buffer (i * elementSize) elementSize) (seq 0 4))
               buffers.
Proof.
  unfold LowDegreeProverJs.parsePolyValues. rewrite forEach_Return.
  revert polyValues; induction buffers as [|buffer buffers IH]; intros polyValues.
  - split.
    + intros Hall. inversion Hall. split; [constructor|reflexivity].
    + intros [_ ->]. constructor.
  - split.
    + intros Hall. inversion Hall as [|b row bs rows Hrow Hrest]; subst.
      apply parsePolyRow_Return in Hrow as [Hlength ->].
      apply IH in Hrest as [Hlengths ->]. split; [constructor; assumption|reflexivity].
    + intros [Hlengths ->]. apply Forall_cons in Hlengths as [Hlength Hlengths].
      cbn [map]. constructor.
      * apply parsePolyRow_Return. split; [exact Hlength|reflexivity].
      * apply IH. split; [exact Hlengths|reflexivity].
Qed.

(** The only error of the parsers' reads is the [RangeError] of a read past
    the end of a buffer. *)
Lemma parsePolyValues_Throw (buffers : list Buffer) (e : Error) :
  LowDegreeProverJs.parsePolyValues buffers = Throw e ->
  e = RangeError /\ exists buffer, buffer ∈ buffers /\ length buffer < 4 * elementSize.
Proof.
  unfold LowDegreeProverJs.parsePolyValues. intros Hthrow.
  apply forEach_Throw in Hthrow as (buffer & Hin & Hthrow).
  apply forEach_Throw in Hthrow as (i & Hi & Hthrow).
  apply readBigInt_Throw in Hthrow as [Hshort ->]. apply elem_of_seq in Hi.
  split; [reflexivity|]. exists buffer. split; [exact Hin|nia].
Qed.

Lemma parsePolyValues_finishes (buffers : list Buffer) :
  LowDegreeProverJs.parsePolyValues buffers <> Unfinished.
Proof.
  unfold LowDegreeProverJs.parsePolyValues.
  apply forEach_finishes. intros buffer. apply forEach_finishes. intros i.
  apply readBigInt_finishes.
Qed.

End Reads.

(** ** Runs of [fri] *)

Lemma placeComponents_extends (array : list (option FriComponent)) (depth : nat)
    (c : FriComponent) (comps : list FriComponent) :
  length array <= depth ->
  placeComponents array depth (c :: comps)
  = array ++ replicate (depth - length array) None ++ map Some (c :: comps).
Proof.
  revert depth c; induction comps as [|c' comps IH]; intros depth c Hlen.
  - simpl. unfold arraySet. rewrite decide_False by lia. reflexivity.
  - change (placeComponents array depth (c :: c' :: comps))
      with (arraySet (placeComponents array (depth + 1) (c' :: comps)) depth c).
    rewrite IH by lia. unfold arraySet.
    replace (depth + 1 - length array) with (S (depth - length array)) by lia.
    rewrite replicate_S_end, <- !app_assoc.
    rewrite decide_True
      by (rewrite !length_app, length_replicate; simpl; lia).
    rewrite insert_app_r_alt by lia.
    rewrite insert_app_r_alt by (rewrite length_replicate; lia).
    rewrite length_replicate.
    replace (depth - length array - (depth - length array)) with 0 by lia.
    reflexivity.
Qed.

Lemma placeComponents_empty (comps : list FriComponent) :
  placeComponents [] 0 comps = map Some comps.
Proof.
  destruct comps as [|c comps]; [reflexivity|].
  rewrite placeComponents_extends by (simpl; lia). reflexivity.
Qed.

Lemma length_transposeVector (v : Vector) (columns step : nat) :
  rowCount (transposeVector v columns step) = length v / step / columns.
Proof. unfold rowCount, transposeVector. rewrite length_map, length_seq. reflexivity. Qed.

Lemma transposeVector_rows (v : Vector) (columns step : nat) :
  Forall (fun row => length row = columns) (transposeVector v columns step).
Proof.
  unfold transposeVector. apply Forall_forall. intros row Hrow.
  apply list_elem_of_fmap in Hrow as [i [-> _]].
  rewrite length_map, length_seq. reflexivity.
Qed.

Lemma transposeVector_lookup (v : Vector) (columns step i : nat) :
  i < length v / step / columns ->
  transposeVector v columns step !! i
  = Some (map (fun j => nth ((i + j * (length v / step / columns)) * step) v 0%Z)
              (seq 0 columns)).
Proof.
  intros Hi. unfold transposeVector. map_to_fmap.
  rewrite list_lookup_fmap, lookup_seq_lt by assumption. reflexivity.
Qed.

Lemma colCount_rows (m : Matrix) (columns : nat) :
  Forall (fun row => length row = columns) m -> m <> [] -> colCount m = columns.
Proof. intros Hrows Hne. destruct m as [|row m]; [contradiction|]. inversion Hrows; auto. Qed.

Section FriRuns.
Context `{field : FiniteField} `{hash : Hash} `{merkle : Merkle}
        `{idxGenerator : QueryIndexGenerator}.

Lemma getValue_Return (v : Vector) (i : nat) (x : Z) :
  getValue v i = Return x <-> v !! i = Some x.
Proof. unfold getValue. destruct (v !! i); split; congruence. Qed.

Lemma getValue_finishes (v : Vector) (i : nat) : getValue v i <> Unfinished.
Proof. unfold getValue. destruct (v !! i); discriminate. Qed.

Lemma interpolateQuarticBatch_Return (xs ys : Matrix) (polys : list (list Z)) :
  interpolateQuarticBatch xs ys = Return polys ->
  length xs <= length ys
  /\ polys = zip_with interpolateQuartic xs ys /\ length polys = length xs.
Proof.
  revert ys polys; induction xs as [|x xs IH]; intros ys polys; simpl.
  - intros [= <-]. repeat split. lia.
  - destruct ys as [|y ys]; [discriminate|]. intros Hbind. invert_bind. subst polys.
    match goal with H : interpolateQuarticBatch _ _ = _ |- _ =>
      destruct (IH _ _ H) as [Hle [-> Hlen]] end.
    simpl. repeat split; [lia|congruence].
Qed.

Lemma interpolateQuarticBatch_finishes (xs ys : Matrix) :
  interpolateQuarticBatch xs ys <> Unfinished.
Proof.
  revert ys; induction xs as [|x xs IH]; intros ys; simpl; [discriminate|].
  destruct ys as [|y ys]; [discriminate|].
  specialize (IH ys). destruct (interpolateQuarticBatch xs ys); simpl; congruence.
Qed.

Lemma interpolateQuarticBatch_enough (xs ys : Matrix) :
  length xs <= length ys ->
  interpolateQuarticBatch xs ys = Return (zip_with interpolateQuartic xs ys).
Proof.
  revert ys; induction xs as [|x xs IH]; intros ys Hlen; simpl; [reflexivity|].
  destruct ys as [|y ys]; [simpl in Hlen; lia|].
  rewrite IH by (simpl in Hlen; lia). reflexivity.
Qed.

Lemma rowsToBuffers_finishes (m : Matrix) (positions : list nat) :
  rowsToBuffers m positions <> Unfinished.
Proof.
  induction positions as [|p positions IH]; simpl; [discriminate|].
  destruct (m !! p); [|discriminate].
  destruct (rowsToBuffers m positions); simpl; congruence.
Qed.

Lemma remainderPoints_finishes (domain remainder : Vector) (positions : list nat)
    (count : nat) :
  LowDegreeProverJs.remainderPoints domain remainder positions count <> Unfinished.
Proof.
  revert positions; induction count as [|count IH]; intros positions; simpl;
    [discriminate|].
  destruct positions as [|p positions]; [discriminate|].
  unfold getValue. destruct (domain !! p); simpl; [|discriminate].
  destruct (remainder !! p); simpl; [|discriminate].
  specialize (IH positions).
  destruct (LowDegreeProverJs.remainderPoints domain remainder positions count)
    as [[xs ys]| |]; simpl; congruence.
Qed.

Lemma checkRemainder_finishes (poly : list Z) (domain remainder : Vector)
    (d : nat) (positions : list nat) :
  LowDegreeProverJs.checkRemainder poly domain remainder d positions <> Unfinished.
Proof.
  induction positions as [|p positions IH]; simpl; [discriminate|].
  unfold getValue. destruct (domain !! p); simpl; [|discriminate].
  destruct (remainder !! p); simpl; [|discriminate].
  destruct (decide _); [discriminate|assumption].
Qed.

Lemma verifyRemainder_finishes (remainder : Vector) (d : nat) (rootOfUnity : Z) :
  LowDegreeProverJs.verifyRemainder remainder d rootOfUnity <> Unfinished.
Proof.
  unfold LowDegreeProverJs.verifyRemainder.
  pose proof (remainderPoints_finishes
                (getPowerSeries rootOfUnity (length remainder)) remainder
                (LowDegreeProverJs.remainderPositions (length remainder)) d) as Hpoints.
  destruct (LowDegreeProverJs.remainderPoints _ _ _ _) as [[xs ys]| |]; simpl;
    [|discriminate|congruence].
  apply checkRemainder_finishes.
Qed.

Lemma friColumn_Return (pTree : MerkleTree) (polyValues : Matrix) (depth : nat)
    (domain column : Vector) :
  LowDegreeProverJs.friColumn pTree polyValues depth domain = Return column ->
  let xs := transposeVector domain 4 (4 ^ depth) in
  rowCount xs <= rowCount polyValues
  /\ column = map (fun poly => evalQuartic poly (prng (root pTree)))
                  (zip_with interpolateQuartic xs polyValues)
  /\ length column = rowCount xs.
Proof.
  unfold LowDegreeProverJs.friColumn. intros Hbind. invert_bind. subst column.
  match goal with H : interpolateQuarticBatch _ _ = _ |- _ =>
    apply interpolateQuarticBatch_Return in H as [Hle [-> Hlen]] end.
  unfold evalQuarticBatch. rewrite length_map. repeat split; assumption.
Qed.

Lemma friColumn_finishes (pTree : MerkleTree) (polyValues : Matrix) (depth : nat)
    (domain : Vector) :
  LowDegreeProverJs.friColumn pTree polyValues depth domain <> Unfinished.
Proof.
  unfold LowDegreeProverJs.friColumn.
  pose proof (interpolateQuarticBatch_finishes
                (transposeVector domain 4 (4 ^ depth)) polyValues).
  destruct (interpolateQuarticBatch _ _); simpl; congruence.
Qed.

Lemma friComponent_finishes (pTree cTree : MerkleTree) (polyValues newPolyValues : Matrix)
    (column : Vector) :
  LowDegreeProverJs.friComponent pTree cTree polyValues newPolyValues column <> Unfinished.
Proof.
  unfold LowDegreeProverJs.friComponent.
  match goal with |- context [rowsToBuffers newPolyValues ?ps] =>
    pose proof (rowsToBuffers_finishes newPolyValues ps);
    destruct (rowsToBuffers newPolyValues ps) end; simpl; [|discriminate|congruence].
  match goal with |- context [rowsToBuffers polyValues ?ps] =>
    pose proof (rowsToBuffers_finishes polyValues ps);
    destruct (rowsToBuffers polyValues ps) end; simpl; congruence.
Qed.

(** What a run of the compiled [fri] that returns has done. *)
Lemma fri_layers_js (fuel : nat) (domain : Vector) :
  forall pTree polyValues d depth result result',
  LowDegreeProverJs.fri fuel pTree polyValues d depth domain result = Return result' ->
  exists comps lastValues g,
    friLayers stopJs domain depth pTree polyValues comps lastValues
    /\ domain !! 1 = Some g
    /\ LowDegreeProverJs.remainder result' = joinMatrixRows (transposeMatrix lastValues)
    /\ LowDegreeProverJs.verifyRemainder (LowDegreeProverJs.remainder result')
         (d / 4 ^ length comps) (fexp g (4 ^ (depth + length comps))) = Return tt
    /\ LowDegreeProverJs.components result'
       = placeComponents (LowDegreeProverJs.components result) depth comps
    /\ LowDegreeProverJs.lcRoot result' = LowDegreeProverJs.lcRoot result
    /\ LowDegreeProverJs.lcProof result' = LowDegreeProverJs.lcProof result.
Proof.
  induction fuel as [|fuel IH]; intros pTree polyValues d depth result result';
    simpl; destruct (decide _) as [Hstop|Hfold]; try discriminate.
  - intros Hbind. invert_bind. subst result'.
    exists [], polyValues. eexists. split; [constructor; exact Hstop|].
    split; [apply getValue_Return; eassumption|].
    change (length (@nil FriComponent)) with 0.
    rewrite Nat.pow_0_r, Nat.div_1_r, Nat.add_0_r. repeat split; assumption.
  - intros Hbind. invert_bind. subst result'.
    exists [], polyValues. eexists. split; [constructor; exact Hstop|].
    split; [apply getValue_Return; eassumption|].
    change (length (@nil FriComponent)) with 0.
    rewrite Nat.pow_0_r, Nat.div_1_r, Nat.add_0_r. repeat split; assumption.
  - intros Hbind. invert_bind. subst result'. simpl.
    match goal with H : LowDegreeProverJs.fri _ _ _ _ _ _ _ = _ |- _ =>
      apply IH in H as (comps & lastValues & g & Hlayers & Hg & Hrem & Hcheck
                          & Hcomps & Hroot & Hproof) end.
    match goal with Hc : LowDegreeProverJs.friComponent _ _ _ _ _ = Return ?c |- _ =>
      exists (c :: comps), lastValues, g end.
    split; [econstructor; eassumption|]. split; [assumption|].
    split; [assumption|]. split.
    + simpl length. rewrite Nat.pow_succ_r', <- Nat.Div0.div_div.
      replace (depth + S (length comps)) with (depth + 1 + length comps) by lia.
      exact Hcheck.
    + simpl. rewrite Hcomps. repeat split; assumption.
Qed.

Lemma rowCount_folded (pTree : MerkleTree) (polyValues : Matrix) (depth : nat)
    (domain column : Vector) :
  LowDegreeProverJs.friColumn pTree polyValues depth domain = Return column ->
  rowCount (transposeVector column 4 1) <= rowCount polyValues / 4.
Proof.
  intros Hcolumn. apply friColumn_Return in Hcolumn as (Hle & _ & Hlen).
  rewrite length_transposeVector, Nat.div_1_r, Hlen.
  apply Nat.Div0.div_le_mono. exact Hle.
Qed.

(** The fuel [prove] gives the compiled [fri] is enough. *)
Lemma fri_finishes_js (fuel : nat) (domain : Vector) :
  forall pTree polyValues d depth result,
  rowCount polyValues <= fuel ->
  LowDegreeProverJs.fri fuel pTree polyValues d depth domain result <> Unfinished.
Proof.
  induction fuel as [|fuel IH]; intros pTree polyValues d depth result Hfuel;
    simpl; destruct (decide _) as [Hstop|Hfold].
  1, 3: pose proof (getValue_finishes domain 1);
        destruct (getValue domain 1); simpl; try congruence;
        match goal with |- context [LowDegreeProverJs.verifyRemainder ?r ?d ?w] =>
          pose proof (verifyRemainder_finishes r d w);
          destruct (LowDegreeProverJs.verifyRemainder r d w) end;
        simpl; congruence.
  - exfalso. apply Hfold. destruct polyValues; simpl in *; lia.
  - pose proof (friColumn_finishes pTree polyValues depth domain) as Hcolumn.
    destruct (LowDegreeProverJs.friColumn pTree polyValues depth domain)
      as [column| |] eqn:Hcol; simpl; [|discriminate|congruence].
    assert (Hrows : rowCount (transposeVector column 4 1) <= fuel).
    { pose proof (rowCount_folded _ _ _ _ _ Hcol).
      assert (0 < rowCount polyValues) by (destruct polyValues; simpl in *; lia).
      assert (rowCount polyValues / 4 < rowCount polyValues)
        by (apply Nat.div_lt; lia).
      lia. }
    match goal with |- context [LowDegreeProverJs.fri fuel ?t ?p ?d' ?k domain result] =>
      pose proof (IH t p d' k result Hrows);
      destruct (LowDegreeProverJs.fri fuel t p d' k domain result) end;
      simpl; [|discriminate|congruence].
    match goal with |- context [LowDegreeProverJs.friComponent ?a ?b ?c ?d' ?e] =>
      pose proof (friComponent_finishes a b c d' e);
      destruct (LowDegreeProverJs.friComponent a b c d' e) end; simpl; congruence.
Qed.

End FriRuns.

Lemma length_concat_uniform {A} (n : nat) (rows : list (list A)) :
  Forall (fun row => length row = n) rows -> length (concat rows) = length rows * n.
Proof.
  induction 1 as [|row rows Hrow _ IH]; [reflexivity|].
  simpl. rewrite length_app, IH, Hrow. reflexivity.
Qed.

Lemma length_join_transpose (m : Matrix) :
  length (joinMatrixRows (transposeMatrix m)) = colCount m * rowCount m.
Proof.
  unfold joinMatrixRows, transposeMatrix.
  rewrite (length_concat_uniform (rowCount m)).
  - rewrite length_map, length_seq. reflexivity.
  - apply Forall_forall. intros row Hrow. map_to_fmap.
    apply list_elem_of_fmap in Hrow as [j [-> _]].
    rewrite length_fmap. reflexivity.
Qed.

Lemma pow2_le_256 (n : nat) : 2 ^ n <= 256 <-> n <= 8.
Proof.
  change 256 with (2 ^ 8). split.
  - intros H. apply Nat.pow_le_mono_r_iff in H; lia.
  - intros H. apply Nat.pow_le_mono_r; lia.
Qed.

Lemma pow2_split (n : nat) : 2 <= n -> 2 ^ n = 4 * 2 ^ (n - 2).
Proof.
  intros Hn. replace n with (2 + (n - 2)) at 1 by lia.
  rewrite Nat.pow_add_r. reflexivity.
Qed.

Section FriSizes.
Context `{field : FiniteField} `{hash : Hash} `{merkle : Merkle}
        `{idxGenerator : QueryIndexGenerator}.

Lemma layerShape_stopJs (domain : Vector) (depth n : nat) (polyValues : Matrix) :
  layerShape domain depth n polyValues -> stopJs polyValues <-> n <= 8.
Proof.
  intros (Hrows & Hcount & _). unfold stopJs, MAX_REMAINDER_LENGTH.
  assert (Hne : polyValues <> []).
  { intros ->. simpl in Hcount. pose proof (Nat.pow_nonzero 2 n). lia. }
  rewrite (colCount_rows _ 4 Hrows Hne), <- pow2_le_256, <- Hcount. lia.
Qed.

Lemma layerShape_stopTs (domain : Vector) (depth n : nat) (values : Matrix) :
  layerShape domain depth n values -> stopTs values <-> n <= 8.
Proof.
  intros (Hrows & Hcount & _). unfold stopTs.
  rewrite <- pow2_le_256, <- Hcount. lia.
Qed.

(** One fold keeps the shape, with a quarter of the values. *)
Lemma layerShape_folded (domain : Vector) (depth n : nat) (pTree : MerkleTree)
    (polyValues : Matrix) (column : Vector) :
  layerShape domain depth n polyValues -> 8 < n ->
  LowDegreeProverJs.friColumn pTree polyValues depth domain = Return column ->
  length column = rowCount polyValues
  /\ layerShape domain (depth + 1) (n - 2) (transposeVector column 4 1).
Proof.
  intros (Hrows & Hcount & Hdomain) Hn Hcolumn.
  apply friColumn_Return in Hcolumn as (_ & _ & Hlen).
  rewrite length_transposeVector, Hdomain in Hlen.
  rewrite Nat.div_mul in Hlen by (apply Nat.pow_nonzero; lia).
  rewrite (pow2_split n) in Hlen, Hcount by lia.
  rewrite (Nat.mul_comm 4 (2 ^ (n - 2))), Nat.div_mul in Hlen by lia.
  assert (Hrowcount : rowCount polyValues = 2 ^ (n - 2)) by lia.
  split; [lia|]. split; [apply transposeVector_rows|]. split.
  - rewrite length_transposeVector, Nat.div_1_r, Hlen.
    rewrite (pow2_split (n - 2)) by lia.
    rewrite (Nat.mul_comm 4 (2 ^ (n - 2 - 2))), Nat.div_mul by lia. lia.
  - rewrite Hdomain, (pow2_split n) by lia.
    rewrite Nat.add_1_r, Nat.pow_succ_r'. lia.
Qed.

(** The sizes along a run: with [2^n] values at the start, [k] folds leave
    [2^(n - 2k)] values, at most 256 of them, and more than 256 before each
    fold. *)
Lemma friLayers_sizes (stop : Matrix -> Prop) (domain : Vector) :
  (forall depth n polyValues,
     layerShape domain depth n polyValues -> stop polyValues <-> n <= 8) ->
  forall depth pTree polyValues comps lastValues,
  friLayers stop domain depth pTree polyValues comps lastValues ->
  forall n, layerShape domain depth n polyValues ->
  2 * length comps <= n
  /\ layerShape domain (depth + length comps) (n - 2 * length comps) lastValues
  /\ n - 2 * length comps <= 8
  /\ (forall j, j < length comps -> 8 < n - 2 * j).
Proof.
  intros Hstop depth pTree polyValues comps lastValues Hlayers.
  induction Hlayers as [depth pTree polyValues Hstopped
                       |depth pTree polyValues column component comps lastValues
                          Hfold Hcolumn Hcomponent Hlayers IH]; intros n Hshape.
  - simpl. rewrite Nat.add_0_r, Nat.sub_0_r.
    split; [lia|]. split; [assumption|]. split; [|intros j Hj; lia].
    apply (Hstop _ _ _ Hshape). assumption.
  - assert (Hn : 8 < n).
    { destruct (le_gt_dec n 8) as [Hle|Hgt]; [|assumption].
      exfalso. apply Hfold. apply (Hstop _ _ _ Hshape). assumption. }
    destruct (layerShape_folded _ _ _ _ _ _ Hshape Hn Hcolumn) as [_ Hshape'].
    destruct (IH _ Hshape') as (Hk & Hlast & Hsmall & Hbig).
    simpl length. split; [lia|]. split.
    { replace (depth + S (length comps)) with (depth + 1 + length comps) by lia.
      replace (n - 2 * S (length comps)) with (n - 2 - 2 * length comps) by lia.
      assumption. }
    split; [lia|]. intros [|j] Hj; [lia|].
    specialize (Hbig j ltac:(lia)). lia.
Qed.

Lemma friComponent_ts (lTree cTree : MerkleTree) (values newValues : Matrix)
    (column : Vector) :
  LowDegreeProverTs.friComponent lTree cTree values newValues column
  = LowDegreeProverJs.friComponent lTree cTree values newValues column.
Proof.
  assert (Hrows : forall m positions,
            LowDegreeProverTs.rowsToBuffers m positions = rowsToBuffers m positions).
  { intros m positions. induction positions as [|p positions IH]; simpl; [reflexivity|].
    rewrite IH. reflexivity. }
  unfold LowDegreeProverTs.friComponent, LowDegreeProverJs.friComponent.
  rewrite !Hrows. reflexivity.
Qed.

(** What a run of the earlier [fri] that returns has done. *)
Lemma fri_layers_ts (fuel : nat) (domain : Vector) :
  forall lTree values d depth result result',
  LowDegreeProverTs.fri fuel lTree values d depth domain result = Return result' ->
  exists comps lastValues g,
    friLayers stopTs domain depth lTree values comps lastValues
    /\ domain !! 1 = Some g
    /\ LowDegreeProverJs.verifyRemainder (joinMatrixRows (transposeMatrix lastValues))
         (d / 4 ^ length comps) (fexp g (4 ^ (depth + length comps))) = Return tt
    /\ LowDegreeProverTs.splitBuffer
         (vectorToBuffer (joinMatrixRows (transposeMatrix lastValues))) elementSize
       = Return (LowDegreeProverTs.remainder result')
    /\ LowDegreeProverTs.components result'
       = placeComponents (LowDegreeProverTs.components result) depth comps.
Proof.
  induction fuel as [|fuel IH]; intros lTree values d depth result result';
    cbn [LowDegreeProverTs.fri]; destruct (decide _) as [Hstop|Hfold];
    try discriminate.
  - intros Hbind. invert_bind. subst result'.
    exists [], values. eexists. split; [constructor; exact Hstop|].
    split; [apply getValue_Return; eassumption|].
    change (length (@nil FriComponent)) with 0.
    rewrite Nat.pow_0_r, Nat.div_1_r, Nat.add_0_r. repeat split; assumption.
  - intros Hbind. invert_bind. subst result'.
    exists [], values. eexists. split; [constructor; exact Hstop|].
    split; [apply getValue_Return; eassumption|].
    change (length (@nil FriComponent)) with 0.
    rewrite Nat.pow_0_r, Nat.div_1_r, Nat.add_0_r. repeat split; assumption.
  - intros Hbind. invert_bind. subst result'. simpl.
    match goal with H : LowDegreeProverTs.fri _ _ _ _ _ _ _ = _ |- _ =>
      rewrite (Nat.mul_comm 4 elementSize) in H;
      apply IH in H as (comps & lastValues & g & Hlayers & Hg & Hcheck
                          & Hsplit & Hcomps) end.
    match goal with Hc : LowDegreeProverTs.friComponent _ _ _ _ _ = Return ?c |- _ =>
      rewrite (Nat.mul_comm 4 elementSize), friComponent_ts in Hc;
      exists (c :: comps), lastValues, g end.
    split; [econstructor; eassumption|]. split; [assumption|]. split.
    + simpl length. rewrite Nat.pow_succ_r', <- Nat.Div0.div_div.
      replace (depth + S (length comps)) with (depth + 1 + length comps) by lia.
      exact Hcheck.
    + rewrite Hcomps. split; [assumption|reflexivity].
Qed.

Lemma splitBuffer_finishes (buffer : Buffer) (size : nat) :
  LowDegreeProverTs.splitBuffer buffer size <> Unfinished.
Proof. unfold LowDegreeProverTs.splitBuffer. destruct (decide _); discriminate. Qed.

(** The fuel [prove] gives the earlier [fri] is enough. *)
Lemma fri_finishes_ts (fuel : nat) (domain : Vector) :
  forall lTree values d depth result,
  rowCount values <= fuel ->
  LowDegreeProverTs.fri fuel lTree values d depth domain result <> Unfinished.
Proof.
  induction fuel as [|fuel IH]; intros lTree values d depth result Hfuel;
    cbn [LowDegreeProverTs.fri]; destruct (decide _) as [Hstop|Hfold].
  1, 3: pose proof (getValue_finishes domain 1);
        destruct (getValue domain 1); simpl; try congruence;
        match goal with |- context [LowDegreeProverTs.verifyRemainder ?r ?d ?w] =>
          pose proof (verifyRemainder_finishes r d w);
          unfold LowDegreeProverTs.verifyRemainder;
          destruct (LowDegreeProverJs.verifyRemainder r d w) end;
        simpl; try congruence;
        match goal with |- context [LowDegreeProverTs.splitBuffer ?b ?s] =>
          pose proof (splitBuffer_finishes b s);
          destruct (LowDegreeProverTs.splitBuffer b s) end;
        simpl; congruence.
  - exfalso. apply Hfold. lia.
  - pose proof (friColumn_finishes lTree values depth domain) as Hcolumn.
    destruct (LowDegreeProverJs.friColumn lTree values depth domain)
      as [column| |] eqn:Hcol; simpl; [|discriminate|congruence].
    assert (Hrows : rowCount (transposeVector column 4 1) <= fuel).
    { pose proof (rowCount_folded _ _ _ _ _ Hcol).
      assert (rowCount values / 4 < rowCount values) by (apply Nat.div_lt; lia).
      lia. }
    match goal with |- context [LowDegreeProverTs.fri fuel ?t ?p ?d' ?k domain result] =>
      pose proof (IH t p d' k result Hrows);
      destruct (LowDegreeProverTs.fri fuel t p d' k domain result) end;
      simpl; [|discriminate|congruence].
    match goal with |- context [LowDegreeProverTs.friComponent ?a ?b ?c ?d' ?e] =>
      pose proof (friComponent_finishes a b c d' e);
      rewrite friComponent_ts;
      destruct (LowDegreeProverJs.friComponent a b c d' e) end; simpl; congruence.
Qed.

End FriSizes.

(** ** The proof object along a run of the earlier verifier *)

Lemma keeps_bind {A B X} (obs : LowDegreeProverTs.LowDegreeProof -> X)
    (m : LowDegreeProverTs.Stateful A) (f : A -> LowDegreeProverTs.Stateful B) :
  keeps obs m -> (forall a, keeps obs (f a)) -> keeps obs (m ≫= f).
Proof.
  intros Hm Hf proof. unfold mbind, LowDegreeProverTs.Stateful_bind.
  specialize (Hm proof). destruct (m proof) as [[a|e|] proof1]; simpl in *;
    [rewrite Hf| |]; assumption.
Qed.

Lemma keeps_lift {A X} (obs : LowDegreeProverTs.LowDegreeProof -> X) (m : Outcome A) :
  keeps obs (LowDegreeProverTs.lift m).
Proof. intros proof. reflexivity. Qed.

Lemma keeps_read {X} (obs : LowDegreeProverTs.LowDegreeProof -> X) (depth : nat) :
  keeps obs (LowDegreeProverTs.readComponent depth).
Proof.
  intros proof. unfold LowDegreeProverTs.readComponent.
  destruct (LowDegreeProverTs.components proof !! depth) as [[c|]|]; reflexivity.
Qed.

Lemma keeps_getProof {X} (obs : LowDegreeProverTs.LowDegreeProof -> X) :
  keeps obs LowDegreeProverTs.getProof.
Proof. intros proof. reflexivity. Qed.

Lemma columnProofValues_writePoly (depth depth' : nat) (newValues : list Buffer) :
  keeps (columnProofValues depth) (LowDegreeProverTs.writePolyProofValues depth' newValues).
Proof.
  intros proof. unfold columnProofValues, LowDegreeProverTs.writePolyProofValues. simpl.
  rewrite list_lookup_alter. case_decide as Hdepth; [subst depth'|reflexivity].
  destruct (LowDegreeProverTs.components proof !! depth) as [[c|]|]; reflexivity.
Qed.

Lemma columnRoots_alter (f : FriComponent -> FriComponent) (depth : nat)
    (components : list (option FriComponent)) :
  (forall c, columnRoot (f c) = columnRoot c) ->
  fmap (M := option) columnRoot <$> alter (fmap f) depth components
  = fmap (M := option) columnRoot <$> components.
Proof.
  intros Hf. apply list_eq. intros i. rewrite !list_lookup_fmap, list_lookup_alter.
  case_decide as Hi; [subst i|reflexivity].
  destruct (components !! depth) as [[c|]|]; simpl; [rewrite Hf| |]; reflexivity.
Qed.

Lemma columnRoots_writeColumn (depth : nat) (newValues : list Buffer) :
  keeps columnRoots (LowDegreeProverTs.writeColumnProofValues depth newValues).
Proof. intros proof. apply columnRoots_alter. reflexivity. Qed.

Lemma columnRoots_writePoly (depth : nat) (newValues : list Buffer) :
  keeps columnRoots (LowDegreeProverTs.writePolyProofValues depth newValues).
Proof. intros proof. apply columnRoots_alter. reflexivity. Qed.

Lemma componentsFrom_alter (f : option FriComponent -> option FriComponent)
    (depth depth' : nat) (components : list (option FriComponent)) :
  depth' < depth -> drop depth (alter f depth' components) = drop depth components.
Proof.
  intros Hlt. apply list_eq. intros i. rewrite !lookup_drop, list_lookup_alter.
  case_decide; [lia|reflexivity].
Qed.

Lemma componentsFrom_writeColumn (depth depth' : nat) (newValues : list Buffer) :
  depth' < depth ->
  keeps (componentsFrom depth) (LowDegreeProverTs.writeColumnProofValues depth' newValues).
Proof. intros Hlt proof. apply componentsFrom_alter. assumption. Qed.

Lemma componentsFrom_writePoly (depth depth' : nat) (newValues : list Buffer) :
  depth' < depth ->
  keeps (componentsFrom depth) (LowDegreeProverTs.writePolyProofValues depth' newValues).
Proof. intros Hlt proof. apply componentsFrom_alter. assumption. Qed.

Section ProofObject.
Context `{field : FiniteField} `{hash : Hash} `{merkle : Merkle}
        `{idxGenerator : QueryIndexGenerator}.

(** The loop body writes to the values of the two Merkle proofs of its own
    component, and to nothing else. *)
Lemma verifyComponent_keeps {X} (obs : LowDegreeProverTs.LowDegreeProof -> X)
    (quartic : list Z) (depth : nat) (st : LowDegreeProverTs.VerifierState) :
  (forall newValues, keeps obs (LowDegreeProverTs.writeColumnProofValues depth newValues)) ->
  (forall newValues, keeps obs (LowDegreeProverTs.writePolyProofValues depth newValues)) ->
  keeps obs (LowDegreeProverTs.verifyComponent quartic depth st).
Proof.
  intros Hcolumn Hpoly. unfold LowDegreeProverTs.verifyComponent.
  repeat first
    [ apply keeps_lift
    | apply keeps_read
    | apply Hcolumn
    | apply Hpoly
    | apply keeps_bind; [|intros ?] ].
Qed.

Ltac ret_step :=
  match goal with
  | |- _ = Return ?a ≫= ?f => change (Return a ≫= f) with (f a); cbv beta
  end.

(** What the loop body of the earlier verifier computes, without the writes:
    the checks are those of the compiled version, on the component as it was
    when the turn of the loop began. *)
Lemma verifyComponent_ts_outcome (quartic : list Z) (depth : nat)
    (st : LowDegreeProverTs.VerifierState) (proof : LowDegreeProverTs.LowDegreeProof)
    (c : FriComponent) :
  LowDegreeProverTs.components proof !! depth = Some (Some c) ->
  let columnLength := LowDegreeProverTs.rouDegree st / 4 in
  let positions := getFriIndexes (columnRoot c) columnLength in
  let augmentedPositions := LowDegreeProverTs.getAugmentedPositions positions columnLength in
  (LowDegreeProverTs.verifyComponent quartic depth st proof).1
  = (columnValues ← LowDegreeProverTs.parseColumnValues (values (columnProof c)) positions
                      augmentedPositions columnLength;
     ok ← called (verifyBatch (columnRoot c) augmentedPositions
                    (rehashMerkleProofValues (columnProof c)));
     _ ← assertStark ok (ColumnMerkleFailed depth);
     ys ← LowDegreeProverTs.parsePolyValues (values (polyProof c));
     ok ← called (verifyBatch (LowDegreeProverTs.lRoot st) positions
                    (rehashMerkleProofValues (polyProof c)));
     _ ← assertStark ok (PolynomialMerkleFailed depth);
     polys ← interpolateQuarticBatch
               (map (LowDegreeProverJs.rowXs quartic (LowDegreeProverTs.rootOfUnity st))
                    positions)
               ys;
     LowDegreeProverTs.checkEvaluations depth (prng (LowDegreeProverTs.lRoot st)) polys
       columnValues).
Proof.
  intros Hc. cbv zeta. unfold LowDegreeProverTs.verifyComponent.
  unfold mbind at 1, LowDegreeProverTs.Stateful_bind at 1.
  unfold LowDegreeProverTs.readComponent at 1. rewrite Hc.
  unfold mbind at 1, LowDegreeProverTs.Stateful_bind at 1.
  unfold LowDegreeProverTs.lift at 1.
  destruct (LowDegreeProverTs.parseColumnValues _ _ _ _) as [columnValues|e|];
    [|reflexivity|reflexivity].
  ret_step.
  unfold mbind at 1, LowDegreeProverTs.Stateful_bind at 1.
  unfold LowDegreeProverTs.writeColumnProofValues at 1.
  unfold mbind at 1, LowDegreeProverTs.Stateful_bind at 1.
  unfold LowDegreeProverTs.readComponent at 1.
  cbn [LowDegreeProverTs.components].
  rewrite list_lookup_alter, Hc. case_decide; [|congruence].
  cbn [fmap option_fmap option_map columnRoot columnProof polyProof].
  unfold mbind at 1, LowDegreeProverTs.Stateful_bind at 1.
  unfold LowDegreeProverTs.lift at 1.
  change {| values := LowDegreeProverTs.hashBuffers (values (columnProof c));
            nodes := nodes (columnProof c);
            proofDepth := proofDepth (columnProof c) |}
    with (rehashMerkleProofValues (columnProof c)).
  destruct (called (verifyBatch (columnRoot c) _ _)) as [ok|e|];
    [|reflexivity|reflexivity].
  ret_step.
  unfold mbind at 1, LowDegreeProverTs.Stateful_bind at 1.
  unfold LowDegreeProverTs.lift at 1.
  destruct (assertStark ok _) as [[]|e|]; [|reflexivity|reflexivity].
  ret_step.
  unfold mbind at 1, LowDegreeProverTs.Stateful_bind at 1.
  unfold LowDegreeProverTs.lift at 1.
  destruct (LowDegreeProverTs.parsePolyValues _) as [ys|e|];
    [|reflexivity|reflexivity].
  ret_step.
  unfold mbind at 1, LowDegreeProverTs.Stateful_bind at 1.
  unfold LowDegreeProverTs.writePolyProofValues at 1.
  unfold mbind at 1, LowDegreeProverTs.Stateful_bind at 1.
  unfold LowDegreeProverTs.readComponent at 1.
  cbn [LowDegreeProverTs.components].
  rewrite list_lookup_alter, list_lookup_alter, Hc. case_decide; [|congruence].
  cbn [fmap option_fmap option_map columnRoot columnProof polyProof].
  unfold mbind at 1, LowDegreeProverTs.Stateful_bind at 1.
  unfold LowDegreeProverTs.lift at 1.
  change {| values := LowDegreeProverTs.hashBuffers (values (polyProof c));
            nodes := nodes (polyProof c);
            proofDepth := proofDepth (polyProof c) |}
    with (rehashMerkleProofValues (polyProof c)).
  destruct (called (verifyBatch (LowDegreeProverTs.lRoot st) _ _)) as [ok'|e|];
    [|reflexivity|reflexivity].
  ret_step.
  unfold mbind at 1, LowDegreeProverTs.Stateful_bind at 1.
  unfold LowDegreeProverTs.lift at 1.
  destruct (assertStark ok' _) as [[]|e|]; [|reflexivity|reflexivity].
  ret_step.
  unfold mbind at 1, LowDegreeProverTs.Stateful_bind at 1.
  unfold LowDegreeProverTs.lift at 1.
  destruct (interpolateQuarticBatch _ _) as [polys|e|]; reflexivity.
Qed.

(** Without the component, the turn of the loop is a [TypeError]. *)
Lemma verifyComponent_ts_hole (quartic : list Z) (depth : nat)
    (st : LowDegreeProverTs.VerifierState) (proof : LowDegreeProverTs.LowDegreeProof) :
  (forall c, LowDegreeProverTs.components proof !! depth <> Some (Some c)) ->
  (LowDegreeProverTs.verifyComponent quartic depth st proof).1
  = Throw (TypeError "cannot destructure undefined").
Proof.
  intros Hhole. unfold LowDegreeProverTs.verifyComponent.
  unfold mbind at 1, LowDegreeProverTs.Stateful_bind at 1.
  unfold LowDegreeProverTs.readComponent at 1.
  destruct (LowDegreeProverTs.components proof !! depth) as [[c|]|]; try reflexivity.
  exfalso. apply (Hhole c). reflexivity.
Qed.

End ProofObject.

(** ** Augmented positions of the low-degree prover (C7) *)

Section AugmentedPositions.
Context `{field : FiniteField} `{hash : Hash} `{merkle : Merkle}
        `{idxGenerator : QueryIndexGenerator}.

Lemma rowsToBuffers_lookup (m : Matrix) (positions : list nat) (buffers : list Buffer) :
  rowsToBuffers m positions = Return buffers ->
  length buffers = length positions /\
  forall i p, positions !! i = Some p ->
    exists row, m !! p = Some row /\ buffers !! i = Some (vectorToBuffer row).
Proof.
  revert buffers; induction positions as [|p0 positions IH]; intros buffers; simpl.
  - intros [= <-]. split; [reflexivity|]. intros i p Hi; discriminate.
  - destruct (m !! p0) as [row0|] eqn:Hrow0; [|discriminate].
    intros Hbind. invert_bind. subst buffers.
    match goal with Hrest : rowsToBuffers _ _ = Return ?bs |- _ =>
      destruct (IH bs Hrest) as [Hlen Hlookup] end.
    split; [simpl; congruence|].
    intros [|i] p; simpl.
    + intros [= <-]. eauto.
    + apply Hlookup.
Qed.

Lemma columnBuffer_divisible (buffers : list Buffer) (augmentedPositions : list nat)
    (columnLength position i : nat) :
  0 < columnLength -> (4 | columnLength) -> NoDup augmentedPositions ->
  augmentedPositions !! i = Some (position mod (columnLength / 4)) ->
  LowDegreeProverJs.columnBuffer buffers augmentedPositions columnLength position
  = buffers !! i.
Proof.
  intros Hpos Hdiv Hnd Hi. unfold LowDegreeProverJs.columnBuffer.
  rewrite modRow_divisible by assumption.
  rewrite (indexOf_NoDup _ _ _ Hnd Hi). reflexivity.
Qed.

Lemma Forall2_iff_elem_of {A B} (P Q : A -> B -> Prop) (l : list A) (k : list B) :
  (forall x y, x ∈ l -> (P x y <-> Q x y)) -> (Forall2 P l k <-> Forall2 Q l k).
Proof.
  revert k. induction l as [|x l IH]; intros k Hiff.
  - split; intros Hall; inversion Hall; constructor.
  - assert (Hrest : forall x' y, x' ∈ l -> (P x' y <-> Q x' y)).
    { intros x' y Hin. apply Hiff. right. exact Hin. }
    split; intros Hall; inversion Hall as [|? y ? k' Hhead Htail]; subst;
      (constructor; [apply (Hiff x y); [left|exact Hhead]|apply (IH k' Hrest); exact Htail]).
Qed.

(** What [parseColumnValues] returns: one value per position, read from the
    buffer the position selects. *)
Lemma parseColumnValues_Return (buffers : list Buffer)
    (positions augmentedPositions : list nat) (columnLength : nat) (result : list Z) :
  LowDegreeProverJs.parseColumnValues buffers positions augmentedPositions columnLength
  = Return result
  <-> Forall2 (fun position value =>
                 exists buffer,
                   LowDegreeProverJs.columnBuffer buffers augmentedPositions columnLength
                     position = Some buffer
                   /\ readBigInt buffer (floorDivRow position columnLength * elementSize)
                        elementSize = Return value)
              positions result.
Proof.
  revert result. induction positions as [|p positions IH]; intros result; simpl.
  - split; [intros [= <-]; constructor|intros Hall; inversion Hall; reflexivity].
  - unfold LowDegreeProverJs.parseColumnValue. split.
    + intros Hrun.
      destruct (LowDegreeProverJs.columnBuffer _ _ _ p) as [buffer|] eqn:Hbuffer;
        [|discriminate].
      invert_bind. subst result.
      constructor; [exists buffer; split; [exact Hbuffer|assumption]|].
      apply IH. assumption.
    + intros Hall. inversion Hall as [|? value ? rest Hhead Hrest]; subst.
      destruct Hhead as (buffer & Hbuffer & Hread). rewrite Hbuffer.
      cbv zeta. rewrite Hread. cbn [mbind Outcome_bind].
      apply IH in Hrest. rewrite Hrest. reflexivity.
Qed.

(** The column proof of the component [fri] builds. *)
Lemma friComponent_columnProof (pTree cTree : MerkleTree) (polyValues newPolyValues : Matrix)
    (column : Vector) (component : FriComponent) :
  LowDegreeProverJs.friComponent pTree cTree polyValues newPolyValues column
  = Return component ->
  rowsToBuffers newPolyValues
    (LowDegreeProverJs.getAugmentedPositions (getFriIndexes (root cTree) (length column))
       (length column))
  = Return (values (columnProof component)).
Proof.
  unfold LowDegreeProverJs.friComponent. intros Hrun. invert_bind. subst component.
  assumption.
Qed.

(** C7. On a column of length [Nk] (a positive multiple of 4),
    [getAugmentedPositions] returns the values [p mod (Nk/4)] deduplicated, in
    the order of their first occurrence. The prover, in [fri], stores at
    [columnProof.values[i]] the row at the i-th augmented position; the
    verifier, in [parseColumnValues], returns one value per queried position
    [p], read at the offset of element [p / (Nk/4)] from the entry
    [values[i]] whose augmented position is [p mod (Nk/4)]: on a component of
    the prover, from the row [p mod (Nk/4)] of the folded matrix. *)
Theorem augmented_positions_order (positions : list nat) (Nk : nat) :
  0 < Nk -> (4 | Nk) ->
  let augmentedPositions := LowDegreeProverJs.getAugmentedPositions positions Nk in
  augmentedPositions = firstOccurrences (map (fun p => p mod (Nk / 4)) positions)
  /\ (forall (pTree cTree : MerkleTree) (polyValues newPolyValues : Matrix)
             (column : Vector) (component : FriComponent),
        length column = Nk -> getFriIndexes (root cTree) (length column) = positions ->
        LowDegreeProverJs.friComponent pTree cTree polyValues newPolyValues column
        = Return component ->
        length (values (columnProof component)) = length augmentedPositions
        /\ (forall i a, augmentedPositions !! i = Some a ->
              exists row, newPolyValues !! a = Some row
                          /\ values (columnProof component) !! i
                             = Some (vectorToBuffer row))
        /\ (forall result,
              LowDegreeProverJs.parseColumnValues (values (columnProof component))
                positions augmentedPositions Nk = Return result
              <-> Forall2 (fun p value =>
                             exists row,
                               newPolyValues !! (p mod (Nk / 4)) = Some row
                               /\ readBigInt (vectorToBuffer row)
                                    (p / (Nk / 4) * elementSize) elementSize
                                  = Return value)
                          positions result))
  /\ (forall (buffers : list Buffer) (result : list Z),
        LowDegreeProverJs.parseColumnValues buffers positions augmentedPositions Nk
        = Return result
        <-> Forall2 (fun p value =>
                       exists i buffer,
                         augmentedPositions !! i = Some (p mod (Nk / 4))
                         /\ buffers !! i = Some buffer
                         /\ readBigInt buffer (p / (Nk / 4) * elementSize) elementSize
                            = Return value)
                    positions result).
Proof.
  intros Hpos Hdiv augmentedPositions.
  assert (Heq : augmentedPositions
                = firstOccurrences (map (fun p => p mod (Nk / 4)) positions)).
  { unfold augmentedPositions. rewrite getAugmentedPositions_firstOccurrences.
    f_equal. apply map_ext. intros p. apply floorModRow_divisible; assumption. }
  assert (Hnodup : NoDup augmentedPositions).
  { rewrite Heq. apply NoDup_firstOccurrences. }
  assert (Hindex : forall p, p ∈ positions ->
                     exists i, augmentedPositions !! i = Some (p mod (Nk / 4))).
  { intros p Hin. apply list_elem_of_lookup.
    rewrite Heq, elem_of_firstOccurrences. apply list_elem_of_fmap. eauto. }
  assert (Hverifier : forall (buffers : list Buffer) (result : list Z),
            LowDegreeProverJs.parseColumnValues buffers positions augmentedPositions Nk
            = Return result
            <-> Forall2 (fun p value =>
                           exists i buffer,
                             augmentedPositions !! i = Some (p mod (Nk / 4))
                             /\ buffers !! i = Some buffer
                             /\ readBigInt buffer (p / (Nk / 4) * elementSize) elementSize
                                = Return value)
                        positions result).
  { intros buffers result. rewrite parseColumnValues_Return.
    apply Forall2_iff_elem_of. intros p value Hin.
    rewrite floorDivRow_divisible by assumption.
    destruct (Hindex p Hin) as [i Hi].
    rewrite (columnBuffer_divisible buffers _ Nk p i Hpos Hdiv Hnodup Hi). split.
    - intros (buffer & Hbuffer & Hread). eauto.
    - intros (i' & buffer & Hi' & Hbuffer & Hread). exists buffer. split; [|exact Hread].
      rewrite (NoDup_lookup _ i i' _ Hnodup Hi Hi'). exact Hbuffer. }
  split; [exact Heq|]. split; [|exact Hverifier].
  intros pTree cTree polyValues newPolyValues column component Hlength Hpositions Hrun.
  apply friComponent_columnProof in Hrun. rewrite Hpositions, Hlength in Hrun.
  fold augmentedPositions in Hrun.
  destruct (rowsToBuffers_lookup _ _ _ Hrun) as [Hlen Hlookup].
  split; [exact Hlen|]. split; [exact Hlookup|].
  intros result. rewrite Hverifier.
  apply Forall2_iff_elem_of. intros p value Hin.
  destruct (Hindex p Hin) as [i Hi]. destruct (Hlookup i _ Hi) as (row & Hrow & Hbuffer).
  split.
  - intros (i' & buffer & Hi' & Hbuffer' & Hread). exists row. split; [exact Hrow|].
    rewrite (NoDup_lookup _ i' i _ Hnodup Hi' Hi) in Hbuffer'.
    rewrite Hbuffer in Hbuffer'. injection Hbuffer' as <-. exact Hread.
  - intros (row' & Hrow' & Hread). rewrite Hrow in Hrow'. injection Hrow' as <-.
    exists i, (vectorToBuffer row). auto.
Qed.

End AugmentedPositions.

(** The theorem on the column of 16 values and the positions the index
    generator draws from the root of its tree: the values [parseColumnValues]
    reads from the column proof of the component are those of the column. *)
Lemma augmented_positions_order_witness :
  let positions := getFriIndexes (root (create Example.tree16)) 16 in
  let augmentedPositions := LowDegreeProverJs.getAugmentedPositions positions 16 in
  positions = [15; 0; 1; 2; 3; 4]
  /\ augmentedPositions = [3; 0; 1; 2]
  /\ LowDegreeProverJs.friComponent (create []) (create Example.tree16) Example.values64
       Example.rows16 Example.column16 = Return Example.component16
  /\ Forall2 (fun p value =>
                exists row,
                  Example.rows16 !! (p mod (16 / 4)) = Some row
                  /\ readBigInt (vectorToBuffer row) (p / (16 / 4) * elementSize)
                       elementSize = Return value)
             positions (map (fun p => nth p Example.column16 0%Z) positions).
Proof.
  assert (H16 : (4 | 16)) by (exists 4; reflexivity).
  assert (Hrun : LowDegreeProverJs.friComponent (create []) (create Example.tree16)
                   Example.values64 Example.rows16 Example.column16
                 = Return Example.component16) by (vm_compute; reflexivity).
  destruct (augmented_positions_order (field := Example.field)
              (getFriIndexes (root (create Example.tree16)) 16) 16 ltac:(lia) H16)
    as (Horder & Hprover & _).
  destruct (Hprover (create []) (create Example.tree16) Example.values64 Example.rows16
              Example.column16 Example.component16 eq_refl eq_refl Hrun)
    as (_ & _ & Hread).
  cbv zeta. split; [vm_compute; reflexivity|]. split; [vm_compute; reflexivity|].
  split; [exact Hrun|]. apply Hread. vm_compute. reflexivity.
Defined.

(** ** Augmented positions of the outer STARK (C10) *)

Lemma tryVerifyBatch_throws (check : string + bool) (message : Message) (e : Error) :
  Stark.tryVerifyBatch check message = Throw e ->
  exists reason, check = inl reason /\ e = StarkErrorFrom message (LibraryError reason).
Proof.
  unfold Stark.tryVerifyBatch. destruct check as [reason|[|]]; cbn; try discriminate.
  intros [= <-]. eauto.
Qed.

Section StarkAugmentedPositions.
Context `{air : Stark.Air} `{field : FiniteField} `{hash : Hash} `{merkle : Merkle}
        `{idxGenerator : QueryIndexGenerator}.

Lemma stark_getAugmentedPositions_firstOccurrences (skip : nat) (positions : list nat)
    (size : nat) :
  Stark.getAugmentedPositions skip positions size
  = firstOccurrences (flat_map (fun p => [p; (p + skip) mod size]) positions).
Proof.
  unfold Stark.getAugmentedPositions.
  rewrite <- arrayFrom_set.
  assert (Hfold : forall acc,
    fold_left (fun set position => setAdd (setAdd set position) ((position + skip) mod size))
              positions acc
    = fold_left setAdd (flat_map (fun p => [p; (p + skip) mod size]) positions) acc).
  { induction positions as [|p positions IH]; intros acc; simpl; [reflexivity|].
    apply IH. }
  apply Hfold.
Qed.

Lemma decodeEvaluations_other (bCount : nat) (values : list Buffer)
    (augmentedPositions : list nat) (maps : Stark.DecodedEvaluations) (k : nat) :
  k ∉ augmentedPositions ->
  let decoded := Stark.decodeEvaluations bCount values augmentedPositions maps in
  Stark.pEvaluations decoded !! k = Stark.pEvaluations maps !! k
  /\ Stark.bEvaluations decoded !! k = Stark.bEvaluations maps !! k
  /\ Stark.dEvaluations decoded !! k = Stark.dEvaluations maps !! k.
Proof.
  revert augmentedPositions maps; induction values as [|v values IH];
    intros augmentedPositions maps Hk; simpl; [auto|].
  destruct (Stark.parseEvaluations v bCount) as [[p b] d].
  destruct augmentedPositions as [|a rest]; simpl.
  - apply IH. apply not_elem_of_nil.
  - rewrite not_elem_of_cons in Hk. destruct Hk as [Hne Hk].
    destruct (IH rest
                {| Stark.pEvaluations := <[a := p]> (Stark.pEvaluations maps);
                   Stark.bEvaluations := <[a := b]> (Stark.bEvaluations maps);
                   Stark.dEvaluations := <[a := d]> (Stark.dEvaluations maps) |} Hk)
      as (-> & -> & ->).
    simpl. rewrite !lookup_insert_ne by congruence. auto.
Qed.

(** The entry decoded from [values[i]] is stored under the i-th augmented
    position. *)
Lemma decodeEvaluations_lookup (bCount : nat) (values : list Buffer)
    (augmentedPositions : list nat) (maps : Stark.DecodedEvaluations) (i k : nat)
    (v : Buffer) :
  NoDup augmentedPositions ->
  augmentedPositions !! i = Some k -> values !! i = Some v ->
  let decoded := Stark.decodeEvaluations bCount values augmentedPositions maps in
  Stark.pEvaluations decoded !! k = Some (Stark.parseEvaluations v bCount).1.1
  /\ Stark.bEvaluations decoded !! k = Some (Stark.parseEvaluations v bCount).1.2
  /\ Stark.dEvaluations decoded !! k = Some (Stark.parseEvaluations v bCount).2.
Proof.
  revert augmentedPositions maps i; induction values as [|v0 values IH];
    intros augmentedPositions maps i Hnd Hk Hv; [discriminate|]. simpl.
  destruct (Stark.parseEvaluations v0 bCount) as [[p b] d] eqn:Hparse.
  destruct augmentedPositions as [|a rest]; [discriminate|].
  apply NoDup_cons in Hnd as [Ha Hnd].
  destruct i as [|i]; simpl in *.
  - injection Hk as ->. injection Hv as ->.
    destruct (decodeEvaluations_other bCount values rest
                {| Stark.pEvaluations := <[k := p]> (Stark.pEvaluations maps);
                   Stark.bEvaluations := <[k := b]> (Stark.bEvaluations maps);
                   Stark.dEvaluations := <[k := d]> (Stark.dEvaluations maps) |} k Ha)
      as (-> & -> & ->).
    simpl. rewrite !lookup_insert_eq, Hparse. auto.
  - eapply IH; eassumption.
Qed.

Lemma checkValues_Throw (checks values : list Z) (message : Message) (e : Error) :
  Stark.checkValues checks values message = Throw e -> e = StarkError message.
Proof.
  revert values. induction checks as [|check checks IH]; intros values;
    cbn [Stark.checkValues]; [discriminate|].
  destruct (decide _); [apply IH|]. intros [= <-]. reflexivity.
Qed.

Lemma checkTransition_Throw (step : nat) (zValue : Z) (qValues dValues : list Z)
    (count : nat) (e : Error) :
  Stark.checkTransition step zValue qValues dValues count = Throw e ->
  isStarkError e = false \/ e = StarkError (TransitionConstraintFailed step).
Proof.
  revert qValues dValues. induction count as [|count IH]; intros qValues dValues;
    cbn [Stark.checkTransition]; [discriminate|].
  destruct dValues as [|dValue dValues]; [intros [= <-]; left; reflexivity|].
  destruct (decide _); [apply IH|]. intros [= <-]. right. reflexivity.
Qed.

(** What follows the transition check in a turn of step 7 does not throw the
    error of that check. *)
Lemma afterTransition_other (checks values : list Z) (step s : nat) (ok : Prop)
    `{Decision ok} :
  (_ ← Stark.checkValues checks values (BoundaryConstraintFailed step);
   if decide ok then Return tt else throwStark (LinearCombinationInconsistent step))
  <> Throw (StarkError (TransitionConstraintFailed s)).
Proof.
  intros Hrun. apply bind_Throw in Hrun as [Hrun|(_ & _ & Hrun)].
  - apply checkValues_Throw in Hrun. discriminate.
  - destruct (decide ok); discriminate.
Qed.

(** A turn of step 7 on decoded rows: it fails the transition check exactly
    when [checkTransition] does, on the row at the step and the row ahead. *)
Lemma verifyStep_transition (this : Stark.StarkObject) (assertions : list Stark.Assertion)
    (totalSteps size degree : nat) (G2 : Z) (maps : Stark.DecodedEvaluations)
    (lEvaluations : gmap nat Z) (lCoefficients : list Z) (step s : nat)
    (pValues bValues dValues npValues : list Z) :
  Stark.pEvaluations maps !! step = Some pValues ->
  Stark.bEvaluations maps !! step = Some bValues ->
  Stark.dEvaluations maps !! step = Some dValues ->
  Stark.pEvaluations maps !! ((step + Stark.thisExtensionFactor this) mod size)
  = Some npValues ->
  let x := fexp G2 step in
  let kValues := map (fun j => Stark.constantValueAt totalSteps G2 j x)
                     (seq 0 Stark.constantCount) in
  Stark.verifyStep this assertions totalSteps size degree G2 maps lEvaluations
    lCoefficients step = Throw (StarkError (TransitionConstraintFailed s))
  <-> Stark.checkTransition step (Stark.zeroEvaluateAt totalSteps G2 x)
        (Stark.evaluateOne pValues npValues kValues) dValues Stark.constraintCount
      = Throw (StarkError (TransitionConstraintFailed s)).
Proof.
  intros Hp Hb Hd Hnp x kValues. unfold Stark.verifyStep.
  rewrite Hp, Hb, Hd, Hnp. cbn [Stark.defined mbind Outcome_bind]. fold x. fold kValues.
  destruct (Stark.checkTransition _ _ _ _ _) as [[]|e|]; cbn [mbind Outcome_bind].
  - split; [|discriminate]. intros Hrun. exfalso.
    exact (afterTransition_other _ _ _ _ _ Hrun).
  - reflexivity.
  - reflexivity.
Qed.

(** A turn of step 7 names its own step in the error of the transition
    check. *)
Lemma verifyStep_transition_step (this : Stark.StarkObject)
    (assertions : list Stark.Assertion) (totalSteps size degree : nat) (G2 : Z)
    (maps : Stark.DecodedEvaluations) (lEvaluations : gmap nat Z)
    (lCoefficients : list Z) (step s : nat) :
  Stark.verifyStep this assertions totalSteps size degree G2 maps lEvaluations
    lCoefficients step = Throw (StarkError (TransitionConstraintFailed s)) ->
  s = step.
Proof.
  unfold Stark.verifyStep. intros Hrun.
  do 4 (apply bind_Throw in Hrun as [Hrun|(? & _ & Hrun)];
        [match type of Hrun with Stark.defined ?v = _ => destruct v; discriminate end|]).
  apply bind_Throw in Hrun as [Hrun|(_ & _ & Hrun)].
  - apply checkTransition_Throw in Hrun as [Hrun|Hrun]; [discriminate|].
    injection Hrun as ->. reflexivity.
  - exfalso. exact (afterTransition_other _ _ _ _ _ Hrun).
Qed.

(** The loop of step 7 throws at the first step that does. *)
Lemma verifySteps_Throw (this : Stark.StarkObject) (assertions : list Stark.Assertion)
    (totalSteps size degree : nat) (G2 : Z) (maps : Stark.DecodedEvaluations)
    (lEvaluations : gmap nat Z) (lCoefficients : list Z) (positions : list nat)
    (e : Error) :
  let turn := Stark.verifyStep this assertions totalSteps size degree G2 maps
                lEvaluations lCoefficients in
  Stark.verifySteps this assertions totalSteps size degree G2 maps lEvaluations
    lCoefficients positions = Throw e
  <-> exists prefix step rest,
        positions = prefix ++ step :: rest
        /\ Forall (fun p => turn p = Return tt) prefix
        /\ turn step = Throw e.
Proof.
  intros turn. induction positions as [|step positions IH]; cbn [Stark.verifySteps].
  - split; [discriminate|]. intros ([|? ?] & ? & ? & Heq & _); discriminate.
  - fold turn. rewrite bind_Throw. split.
    + intros [Hstep|([] & Hstep & Hrest)].
      * exists [], step, positions. split; [reflexivity|]. split; [constructor|exact Hstep].
      * apply IH in Hrest as (prefix & step' & rest & -> & Hprefix & Hthrow).
        exists (step :: prefix), step', rest.
        split; [reflexivity|]. split; [constructor; assumption|exact Hthrow].
    + intros ([|p prefix] & step' & rest & Heq & Hprefix & Hthrow); simpl in Heq;
        injection Heq as -> ->.
      * left. exact Hthrow.
      * right. exists tt. inversion Hprefix; subst. split; [assumption|].
        apply IH. eauto 6.
Qed.

(** The error of the transition check leaves [verify] from step 7 only, at
    the first step that fails, after the steps before the loop have
    passed. *)
Lemma verify_transition_error (fuel : nat) (this : Stark.StarkObject)
    (assertions : list Stark.Assertion) (proof : Stark.StarkProof) (iterations s : nat) :
  let eRoot := Stark.eRoot (Stark.evaluations proof) in
  let totalSteps := Stark.configSteps * iterations in
  let size := totalSteps * Stark.thisExtensionFactor this in
  let G2 := Stark.getRootOfUnity size in
  let bCount := Stark.boundaryCount assertions in
  let positions :=
    Stark.getPseudorandomIndexes eRoot
      (Nat.min (Stark.thisExeSpotCheckCount this)
               (size - size / Stark.thisExtensionFactor this))
      size (Stark.thisExtensionFactor this) in
  let augmentedPositions :=
    Stark.getAugmentedPositions (Stark.thisExtensionFactor this) positions size in
  let maps :=
    Stark.decodeEvaluations bCount (Stark.eValues (Stark.evaluations proof))
      augmentedPositions
      {| Stark.pEvaluations := ∅; Stark.bEvaluations := ∅; Stark.dEvaluations := ∅ |} in
  let eProof := {| values := map Stark.hashFunction (Stark.eValues (Stark.evaluations proof));
                   nodes := Stark.eNodes (Stark.evaluations proof);
                   proofDepth := Stark.eDepth (Stark.evaluations proof) |} in
  let lEvaluations :=
    Stark.linearCombinationValues positions
      (buffersToBigInts (values (Stark.lcProof (Stark.degree proof)))) ∅ in
  let lcDegree := Stark.getLinearCombinationDegree this size in
  let lCoefficients :=
    prngMany eRoot (Stark.constraintCount + 2 * (Stark.mutableRegisterCount + bCount)) in
  let turn := Stark.verifyStep this assertions totalSteps size lcDegree G2 maps
                lEvaluations lCoefficients in
  Stark.verify fuel this assertions proof iterations
  = Throw (StarkError (TransitionConstraintFailed s))
  <-> 1 <= length assertions
      /\ Stark.tryVerifyBatch (verifyBatch eRoot augmentedPositions eProof)
           EvaluationMerkleFailed = Return tt
      /\ Stark.tryVerifyBatch
           (verifyBatch (Stark.dRoot (Stark.degree proof)) positions
              (Stark.lcProof (Stark.degree proof)))
           LinearCombinationMerkleFailed = Return tt
      /\ (exists ok,
            (LowDegreeProverTs.verify fuel (Stark.dRoot (Stark.degree proof)) lcDegree G2
               (Stark.ldProof (Stark.degree proof))).1 = Return ok)
      /\ exists prefix rest,
           positions = prefix ++ s :: rest
           /\ Forall (fun p => turn p = Return tt) prefix
           /\ turn s = Throw (StarkError (TransitionConstraintFailed s)).
Proof.
  intros eRoot totalSteps size G2 bCount positions augmentedPositions maps eProof
    lEvaluations lcDegree lCoefficients turn.
  unfold Stark.verify. cbv zeta.
  fold eRoot totalSteps size G2 bCount positions augmentedPositions maps eProof
    lEvaluations lcDegree lCoefficients.
  destruct (decide (length assertions < 1)) as [Hnone|Hsome].
  { split; [discriminate|]. intros [Hlen _]. lia. }
  destruct (Stark.tryVerifyBatch (verifyBatch eRoot augmentedPositions eProof) _)
    as [[]|e|] eqn:Hfirst; cbn [mbind Outcome_bind].
  2: { apply tryVerifyBatch_throws in Hfirst as (reason & _ & ->).
       split; [discriminate|]. intros (_ & Hno & _). discriminate. }
  2: { split; [discriminate|]. intros (_ & Hno & _). discriminate. }
  destruct (Stark.tryVerifyBatch (verifyBatch (Stark.dRoot _) positions _) _)
    as [[]|e|] eqn:Hsecond; cbn [mbind Outcome_bind].
  2: { apply tryVerifyBatch_throws in Hsecond as (reason & _ & ->).
       split; [discriminate|]. intros (_ & _ & Hno & _). discriminate. }
  2: { split; [discriminate|]. intros (_ & _ & Hno & _). discriminate. }
  destruct (LowDegreeProverTs.verify fuel _ lcDegree G2 _).1 as [ok|e|] eqn:Hlow;
    cbn [mbind Outcome_bind].
  2: { split; [discriminate|]. intros (_ & _ & _ & [ok Hno] & _). discriminate. }
  2: { split; [discriminate|]. intros (_ & _ & _ & [ok Hno] & _). discriminate. }
  rewrite bind_Throw.
  pose proof (verifySteps_Throw this assertions totalSteps size lcDegree G2 maps
                lEvaluations lCoefficients positions
                (StarkError (TransitionConstraintFailed s))) as Hloop.
  cbv zeta in Hloop. fold turn in Hloop. split.
  - intros [Hrun|(_ & _ & Hrun)]; [|discriminate].
    apply Hloop in Hrun as (prefix & step & rest & Heq & Hprefix & Hthrow).
    pose proof (verifyStep_transition_step _ _ _ _ _ _ _ _ _ _ _ Hthrow) as ->.
    split; [lia|]. split; [reflexivity|]. split; [reflexivity|]. split; [eauto|].
    exists prefix, rest. auto.
  - intros (_ & _ & _ & _ & prefix & rest & Heq & Hprefix & Hthrow).
    left. apply Hloop. exists prefix, s, rest. auto.
Qed.

(** C10. The augmented positions of the evaluation tree are, for each of the
    pseudo-random query positions [p], [p] and
    [(p + extensionFactor) mod domainSize], deduplicated in the order of
    first occurrence. Step 9 of [prove] reveals the merged evaluations at
    those positions: with every queried step, those one trace step ahead.
    [verify], given these values, decodes them under their positions, and a
    turn of its step 7 takes [npValues] from the row ahead: it throws the
    error of the transition check exactly when [checkTransition] fails on
    [evaluateOne] of the row at the step and the row ahead. [verify] itself
    throws that error for a step exactly when the steps before the loop
    pass, the queried steps before it pass their turn, and that check fails
    at the step. *)
Theorem stark_augmented_positions (this : Stark.StarkObject) (eTreeRoot : Buffer)
    (mergedEvaluations : list Buffer) (bCount : nat) :
  let size := length mergedEvaluations in
  let skip := Stark.thisExtensionFactor this in
  let spotCheckCount := Nat.min (Stark.thisExeSpotCheckCount this) (size - size / skip) in
  let positions := Stark.getPseudorandomIndexes eTreeRoot spotCheckCount size skip in
  let augmentedPositions := Stark.getAugmentedPositions skip positions size in
  let revealed := map (fun a => nth a mergedEvaluations []) augmentedPositions in
  let maps :=
    Stark.decodeEvaluations bCount revealed augmentedPositions
      {| Stark.pEvaluations := ∅; Stark.bEvaluations := ∅; Stark.dEvaluations := ∅ |} in
  let row position := Stark.parseEvaluations (nth position mergedEvaluations []) bCount in
  let transition totalSteps G2 step :=
    let x := fexp G2 step in
    let kValues := map (fun j => Stark.constantValueAt totalSteps G2 j x)
                       (seq 0 Stark.constantCount) in
    Stark.checkTransition step (Stark.zeroEvaluateAt totalSteps G2 x)
      (Stark.evaluateOne (row step).1.1 (row ((step + skip) mod size)).1.1 kValues)
      (row step).2 Stark.constraintCount in
  0 < size -> Forall (fun p => p < size) positions ->
  augmentedPositions
  = firstOccurrences (flat_map (fun p => [p; (p + skip) mod size]) positions)
  /\ Stark.spotCheckEvaluations this eTreeRoot mergedEvaluations
     = (positions, augmentedPositions, map Some revealed)
  /\ (forall step, step ∈ positions ->
        (step + skip) mod size ∈ augmentedPositions
        /\ Stark.pEvaluations maps !! ((step + skip) mod size)
           = Some (row ((step + skip) mod size)).1.1
        /\ forall assertions totalSteps degree G2 lEvaluations lCoefficients s,
             Stark.verifyStep this assertions totalSteps size degree G2 maps lEvaluations
               lCoefficients step = Throw (StarkError (TransitionConstraintFailed s))
             <-> transition totalSteps G2 step
                 = Throw (StarkError (TransitionConstraintFailed s)))
  /\ (forall fuel assertions proof iterations s,
        Stark.eRoot (Stark.evaluations proof) = eTreeRoot ->
        Stark.eValues (Stark.evaluations proof) = revealed ->
        Stark.configSteps * iterations * skip = size ->
        Stark.boundaryCount assertions = bCount ->
        let totalSteps := Stark.configSteps * iterations in
        let G2 := Stark.getRootOfUnity size in
        let eProof := {| values := map Stark.hashFunction revealed;
                         nodes := Stark.eNodes (Stark.evaluations proof);
                         proofDepth := Stark.eDepth (Stark.evaluations proof) |} in
        let lEvaluations :=
          Stark.linearCombinationValues positions
            (buffersToBigInts (values (Stark.lcProof (Stark.degree proof))))
            ∅ in
        let lcDegree := Stark.getLinearCombinationDegree this size in
        let lCoefficients :=
          prngMany eTreeRoot
            (Stark.constraintCount + 2 * (Stark.mutableRegisterCount + bCount)) in
        Stark.verify fuel this assertions proof iterations
        = Throw (StarkError (TransitionConstraintFailed s))
        <-> 1 <= length assertions
            /\ Stark.tryVerifyBatch (verifyBatch eTreeRoot augmentedPositions eProof)
                 EvaluationMerkleFailed = Return tt
            /\ Stark.tryVerifyBatch
                 (verifyBatch (Stark.dRoot (Stark.degree proof)) positions
                    (Stark.lcProof (Stark.degree proof)))
                 LinearCombinationMerkleFailed = Return tt
            /\ (exists ok,
                  (LowDegreeProverTs.verify fuel (Stark.dRoot (Stark.degree proof))
                     lcDegree G2 (Stark.ldProof (Stark.degree proof))).1 = Return ok)
            /\ exists prefix rest,
                 positions = prefix ++ s :: rest
                 /\ Forall (fun step =>
                              Stark.verifyStep this assertions totalSteps size lcDegree G2
                                maps lEvaluations lCoefficients step = Return tt) prefix
                 /\ transition totalSteps G2 s
                    = Throw (StarkError (TransitionConstraintFailed s))).
Proof.
  intros size skip spotCheckCount positions augmentedPositions revealed maps row transition
    Hsize Hrange.
  assert (Heq : augmentedPositions
    = firstOccurrences (flat_map (fun p => [p; (p + skip) mod size]) positions))
    by apply stark_getAugmentedPositions_firstOccurrences.
  assert (Hnodup : NoDup augmentedPositions).
  { rewrite Heq. apply NoDup_firstOccurrences. }
  assert (Hbound : Forall (fun a => a < size) augmentedPositions).
  { rewrite Heq. apply Forall_forall. intros a.
    rewrite elem_of_firstOccurrences, list_elem_of_In, in_flat_map.
    intros [p [Hp Ha]]. apply list_elem_of_In in Hp.
    rewrite Forall_forall in Hrange. specialize (Hrange p Hp).
    destruct Ha as [<-|[<-|[]]]; [assumption|].
    apply Nat.mod_upper_bound. lia. }
  assert (Hdecoded : forall a, a ∈ augmentedPositions ->
            Stark.pEvaluations maps !! a = Some (row a).1.1
            /\ Stark.bEvaluations maps !! a = Some (row a).1.2
            /\ Stark.dEvaluations maps !! a = Some (row a).2).
  { intros a Ha. apply list_elem_of_lookup in Ha as [i Hi].
    apply (decodeEvaluations_lookup bCount revealed augmentedPositions _ i a _ Hnodup Hi).
    unfold revealed. rewrite list_lookup_fmap, Hi. reflexivity. }
  assert (Hmem : forall step, step ∈ positions ->
            step ∈ augmentedPositions /\ (step + skip) mod size ∈ augmentedPositions).
  { intros step Hstep.
    split; rewrite Heq, elem_of_firstOccurrences, list_elem_of_In, in_flat_map;
      exists step; (split; [apply list_elem_of_In; assumption|simpl; auto]). }
  assert (Hturn : forall step, step ∈ positions ->
            forall assertions totalSteps degree G2 lEvaluations lCoefficients s,
              Stark.verifyStep this assertions totalSteps size degree G2 maps
                lEvaluations lCoefficients step
              = Throw (StarkError (TransitionConstraintFailed s))
              <-> transition totalSteps G2 step
                  = Throw (StarkError (TransitionConstraintFailed s))).
  { intros step Hstep assertions totalSteps degree G2 lEvaluations lCoefficients s.
    destruct (Hmem step Hstep) as [Hhere Hahead].
    destruct (Hdecoded _ Hhere) as (Hp & Hb & Hd).
    destruct (Hdecoded _ Hahead) as (Hnp & _ & _).
    apply (verifyStep_transition this assertions totalSteps size degree G2 maps
             lEvaluations lCoefficients step s _ _ _ _ Hp Hb Hd Hnp). }
  split; [exact Heq|]. split; [|split].
  - unfold Stark.spotCheckEvaluations. cbv zeta. fold size. fold skip.
    fold spotCheckCount. fold positions. fold augmentedPositions.
    f_equal. unfold revealed. rewrite map_map. apply map_ext_Forall.
    eapply Forall_impl; [exact Hbound|]. simpl. intros a Ha.
    apply lookup_lt_is_Some_2 in Ha as [v Hv].
    rewrite Hv. f_equal. symmetry. eapply nth_lookup_Some. exact Hv.
  - intros step Hstep. destruct (Hmem step Hstep) as [_ Hahead].
    split; [exact Hahead|]. split; [apply Hdecoded; exact Hahead|].
    apply Hturn. exact Hstep.
  - intros fuel assertions proof iterations s HeRoot HeValues Hdomain HbCount
      totalSteps G2 eProof lEvaluations lcDegree lCoefficients.
    pose proof (verify_transition_error fuel this assertions proof iterations s) as Hrun.
    cbv zeta in Hrun. unfold skip in Hdomain.
    rewrite HeRoot, HeValues, HbCount, !Hdomain in Hrun.
    rewrite Hrun. clear Hrun.
    assert (Hlast : forall prefix rest, positions = prefix ++ s :: rest ->
              (Stark.verifyStep this assertions totalSteps size lcDegree G2 maps
                 lEvaluations lCoefficients s
               = Throw (StarkError (TransitionConstraintFailed s))
               <-> transition totalSteps G2 s
                   = Throw (StarkError (TransitionConstraintFailed s)))).
    { intros prefix rest Hsplit. apply Hturn. rewrite Hsplit.
      apply elem_of_app. right. left. }
    split.
    + intros (Hlen & Hfirst & Hsecond & Hlow & prefix & rest & Hsplit & Hprefix & Hthrow).
      split; [exact Hlen|]. split; [exact Hfirst|]. split; [exact Hsecond|].
      split; [exact Hlow|]. exists prefix, rest. split; [exact Hsplit|].
      split; [exact Hprefix|]. apply (Hlast prefix rest Hsplit). exact Hthrow.
    + intros (Hlen & Hfirst & Hsecond & Hlow & prefix & rest & Hsplit & Hprefix & Hthrow).
      split; [exact Hlen|]. split; [exact Hfirst|]. split; [exact Hsecond|].
      split; [exact Hlow|]. exists prefix, rest. split; [exact Hsplit|].
      split; [exact Hprefix|]. apply (Hlast prefix rest Hsplit). exact Hthrow.
Qed.

End StarkAugmentedPositions.

(** The theorem for 3 spot checks on a domain of 8 points with extension
    factor 2: the positions 1, 3, 5 are augmented by 3, 5, 7, and the row
    ahead of step 5 is the row at 7. *)
Lemma stark_augmented_positions_witness :
  Stark.spotCheckEvaluations Example.starkObject2 [] Example.merged8
  = ([1; 3; 5], [1; 3; 5; 7], map (fun a => Example.merged8 !! a) [1; 3; 5; 7])
  /\ Stark.pEvaluations
       (Stark.decodeEvaluations 0 (map (fun a => nth a Example.merged8 []) [1; 3; 5; 7])
          [1; 3; 5; 7]
          {| Stark.pEvaluations := ∅; Stark.bEvaluations := ∅; Stark.dEvaluations := ∅ |})
     !! 7
     = Some [7%Z].
Proof.
  assert (Hsize : 0 < length Example.merged8) by (vm_compute; lia).
  assert (Hrange : Forall (fun p => p < length Example.merged8)
            (Stark.getPseudorandomIndexes []
               (Nat.min (Stark.thisExeSpotCheckCount Example.starkObject2)
                  (length Example.merged8
                   - length Example.merged8
                     / Stark.thisExtensionFactor Example.starkObject2))
               (length Example.merged8)
               (Stark.thisExtensionFactor Example.starkObject2))).
  { vm_compute. repeat constructor. }
  destruct (stark_augmented_positions (air := Example.air) Example.starkObject2 []
              Example.merged8 0 Hsize Hrange) as (_ & Hprover & Hahead & _).
  split; [exact Hprover|].
  destruct (Hahead 5 ltac:(vm_compute; repeat constructor)) as (_ & Hrow & _).
  exact Hrow.
Defined.

(** ** Validation of the security options (C8) *)

Lemma isPowerOf2_Int (z : Z) :
  isPowerOf2 (Int z) = true <-> exists k : Z, (0 <= k)%Z /\ z = (2 ^ k)%Z.
Proof.
  simpl. rewrite bool_decide_eq_true. split.
  - intros [Hpos Heq]. exists (Z.log2 z). split; [apply Z.log2_nonneg|exact Heq].
  - intros [k [Hk ->]]. split; [apply Z.pow_pos_nonneg; lia|].
    rewrite Z.log2_pow2 by assumption. reflexivity.
Qed.

Lemma validateExtensionFactor_cases (x : option Number) (degree : positive) :
  (acceptsExtensionFactor degree x
   /\ Stark.validateExtensionFactor x degree
      = Return (default (Int (2 ^ Z.log2_up (Z.pos degree * 2))) x))
  \/ (~ acceptsExtensionFactor degree x
      /\ exists message, Stark.validateExtensionFactor x degree = Throw (TypeError message)).
Proof.
  unfold acceptsExtensionFactor, Stark.validateExtensionFactor, Stark.MAX_EXTENSION_FACTOR.
  destruct x as [[z|f| | |]|]; simpl.
  - destruct (bool_decide (z < 2)%Z) eqn:Hlo; simpl.
    { apply bool_decide_eq_true in Hlo. right. split; [|eauto].
      intros [|[k [Hk [= ->]]]]; [discriminate|lia]. }
    apply bool_decide_eq_false in Hlo.
    destruct (bool_decide (z > 32)%Z) eqn:Hhi; simpl.
    { apply bool_decide_eq_true in Hhi. right. split; [|eauto].
      intros [|[k [Hk [= ->]]]]; [discriminate|lia]. }
    apply bool_decide_eq_false in Hhi.
    destruct (bool_decide (0 < z /\ z = 2 ^ Z.log2 z)%Z) eqn:Hpow; simpl.
    + pose proof (proj1 (isPowerOf2_Int z) Hpow) as [k [Hk ->]].
      destruct (bool_decide (2 ^ k < 2 * Z.pos degree)%Z) eqn:Hdeg.
      * apply bool_decide_eq_true in Hdeg. right. split; [|eauto].
        intros [|[k' [Hk' [= Heq]]]]; [discriminate|]. rewrite Heq in Hdeg. lia.
      * apply bool_decide_eq_false in Hdeg. left. split; [|reflexivity].
        right. exists k. split; [lia|reflexivity].
    + right. split; [|eauto].
      intros [|[k [Hk [= ->]]]]; [discriminate|].
      assert (isPowerOf2 (Int (2 ^ k)) = true) as Htrue
        by (apply isPowerOf2_Int; exists k; split; [lia|reflexivity]).
      simpl in Htrue. congruence.
  - right. split; [intros [|[k [Hk ?]]]; discriminate|].
    rewrite orb_true_r. eauto.
  - right. split; [intros [|[k [Hk ?]]]; discriminate|eauto].
  - right. split; [intros [|[k [Hk ?]]]; discriminate|eauto].
  - right. split; [intros [|[k [Hk ?]]]; discriminate|eauto].
  - left. split; [left|]; reflexivity.
Qed.

Lemma validateSpotCheckCount_cases (x : option Number) (fallback max : Z) (message : string) :
  (1 <= fallback <= max)%Z ->
  (acceptsCount max x
   /\ Stark.validateSpotCheckCount x fallback max message
      = Return match x with
               | Some (Int z) => if decide (z = 0%Z) then Int fallback else Int z
               | _ => Int fallback
               end)
  \/ (~ acceptsCount max x
      /\ Stark.validateSpotCheckCount x fallback max message = Throw (TypeError message)).
Proof.
  intros Hfallback.
  assert (Hdefault : Stark.validateSpotCheckCount None fallback max message
                     = Return (Int fallback)).
  { unfold Stark.validateSpotCheckCount. simpl.
    rewrite !bool_decide_eq_false_2 by lia. reflexivity. }
  unfold acceptsCount.
  destruct x as [[z|f| | |]|].
  - destruct (decide (z = 0%Z)) as [->|Hz].
    { left. split; [auto|]. exact Hdefault. }
    unfold Stark.validateSpotCheckCount.
    replace (orDefault (Some (Int z)) (Int fallback)) with (Int z)
      by (destruct z; simpl; congruence).
    simpl.
    destruct (bool_decide (z < 1)%Z) eqn:Hlo; simpl.
    { apply bool_decide_eq_true in Hlo. right. split; [|reflexivity].
      intros [|[[=]|[|[z' [Hz' [= ->]]]]]]; try discriminate; lia. }
    apply bool_decide_eq_false in Hlo.
    destruct (bool_decide (z > max)%Z) eqn:Hhi; simpl.
    { apply bool_decide_eq_true in Hhi. right. split; [|reflexivity].
      intros [|[[=]|[|[z' [Hz' [= ->]]]]]]; try discriminate; lia. }
    apply bool_decide_eq_false in Hhi.
    left. split; [|reflexivity]. right; right; right. exists z. split; [lia|reflexivity].
  - right. split.
    + intros [|[|[|[z' [Hz' ?]]]]]; discriminate.
    + unfold Stark.validateSpotCheckCount. simpl. rewrite orb_true_r. reflexivity.
  - left. split; [auto|exact Hdefault].
  - right. split.
    + intros [|[|[|[z' [Hz' ?]]]]]; discriminate.
    + reflexivity.
  - right. split.
    + intros [|[|[|[z' [Hz' ?]]]]]; discriminate.
    + reflexivity.
  - left. split; [auto|exact Hdefault].
Qed.

Lemma validateHashAlgorithm_cases (x : option string) :
  (acceptsHashAlgorithm x
   /\ Stark.validateHashAlgorithm x
      = Return match x with
               | Some name => if decide (name = ""%string) then "sha256"%string else name
               | None => "sha256"%string
               end)
  \/ (~ acceptsHashAlgorithm x
      /\ exists name,
           Stark.validateHashAlgorithm x = Throw (TypeError (Stark.hashNotSupported name))).
Proof.
  unfold acceptsHashAlgorithm, Stark.validateHashAlgorithm, Stark.HASH_ALGORITHMS.
  destruct x as [name|]; [|left; split; [left|]; reflexivity].
  destruct (decide (name = ""%string)) as [->|Hempty].
  { left. split; [auto|reflexivity]. }
  destruct (bool_decide (name ∈ ["sha256"%string; "blake2s256"%string])) eqn:Hin; simpl.
  - left. split; [|reflexivity]. apply bool_decide_eq_true in Hin.
    rewrite !elem_of_cons in Hin. destruct Hin as [->|[->|Hin]]; auto.
    inversion Hin.
  - right. split; [|exists name; reflexivity]. apply bool_decide_eq_false in Hin.
    intros [|[[=]|[[= ->]|[= ->]]]]; try discriminate; try contradiction;
      apply Hin; rewrite !elem_of_cons; auto.
Qed.

Lemma validateSecurityOptions_cases (options : option Stark.PartialSecurityOptions)
    (degree : positive) :
  (acceptsOptions degree options
   /\ Stark.validateSecurityOptions options degree
      = Return (validatedOptions degree options))
  \/ (~ acceptsOptions degree options
      /\ exists message,
           Stark.validateSecurityOptions options degree = Throw (TypeError message)).
Proof.
  unfold acceptsOptions, Stark.validateSecurityOptions, validatedOptions.
  destruct (validateExtensionFactor_cases
              (Stark.optionField options Stark.optExtensionFactor) degree)
    as [[Ha1 ->]|[Hn1 [m1 ->]]]; simpl; [|right; split; [tauto|eauto]].
  destruct (validateSpotCheckCount_cases
              (Stark.optionField options Stark.optExeSpotCheckCount)
              Stark.DEFAULT_EXE_SPOT_CHECKS Stark.MAX_EXE_SPOT_CHECK_COUNT
              Stark.exeSampleSize ltac:(vm_compute; split; discriminate))
    as [[Ha2 ->]|[Hn2 ->]]; simpl; [|right; split; [tauto|eauto]].
  destruct (validateSpotCheckCount_cases
              (Stark.optionField options Stark.optFriSpotCheckCount)
              Stark.DEFAULT_FRI_SPOT_CHECKS Stark.MAX_FRI_SPOT_CHECK_COUNT
              Stark.friSampleSize ltac:(vm_compute; split; discriminate))
    as [[Ha3 ->]|[Hn3 ->]]; simpl; [|right; split; [tauto|eauto]].
  destruct (validateHashAlgorithm_cases
              (Stark.optionField options Stark.optHashAlgorithm))
    as [[Ha4 ->]|[Hn4 [name ->]]]; simpl; [|right; split; [tauto|eauto]].
  left. split; [tauto|]. reflexivity.
Qed.

(** C8, as the code has it. Validation accepts exactly the options whose
    extension factor is absent or an integer power of 2 in [2,32] that is at
    least twice the constraint degree, whose spot check counts are absent,
    falsy or integers in [1,128] and [1,64], and whose hash algorithm is
    absent, empty, sha256 or blake2s256; it returns them with the defaults
    filled in (the least power of 2 that is at least twice the constraint
    degree, 80, 40, sha256). Anything else is a [TypeError], thrown by the
    constructor, so that no [Stark] object exists to prove or verify with. *)
Theorem security_options_validation (air : Stark.Air)
    (options : option Stark.PartialSecurityOptions) :
  let degree := Stark.maxConstraintDegree in
  (Stark.validateSecurityOptions options degree = Return (validatedOptions degree options)
   <-> acceptsOptions degree options)
  /\ ((exists message,
         Stark.validateSecurityOptions options degree = Throw (TypeError message)
         /\ Stark.construct options = Throw (TypeError message))
      <-> ~ acceptsOptions degree options)
  /\ (Stark.optionField options Stark.optExtensionFactor = None ->
      exists k : Z,
        Stark.extensionFactor (validatedOptions degree options) = Int (2 ^ k)
        /\ (0 <= k /\ 2 * Z.pos degree <= 2 ^ k < 4 * Z.pos degree)%Z).
Proof.
  intros degree.
  destruct (validateSecurityOptions_cases options degree) as [[Ha Hv]|[Hn [m Hv]]].
  - split; [tauto|]. split.
    + split; [|tauto]. intros [m [Hm _]]. congruence.
    + intros Habsent. exists (Z.log2_up (Z.pos degree * 2)).
      unfold validatedOptions. simpl. rewrite Habsent. simpl.
      split; [reflexivity|].
      pose proof (Z.log2_up_spec (Z.pos degree * 2) ltac:(lia)) as [Hlo Hhi].
      pose proof (Z.log2_up_nonneg (Z.pos degree * 2)).
      split; [assumption|]. split; [lia|].
      replace (Z.log2_up (Z.pos degree * 2))
        with (Z.succ (Z.pred (Z.log2_up (Z.pos degree * 2)))) by lia.
      rewrite Z.pow_succ_r; [lia|].
      assert (0 < Z.log2_up (Z.pos degree * 2))%Z by (apply Z.log2_up_pos; lia). lia.
  - split; [split; [congruence|tauto]|]. split.
    + split; [tauto|]. intros _. exists m. split; [exact Hv|].
      unfold Stark.construct. fold degree. rewrite Hv. reflexivity.
    + intros Habsent. exists (Z.log2_up (Z.pos degree * 2)).
      unfold validatedOptions. simpl. rewrite Habsent. simpl.
      split; [reflexivity|].
      pose proof (Z.log2_up_spec (Z.pos degree * 2) ltac:(lia)) as [Hlo Hhi].
      pose proof (Z.log2_up_nonneg (Z.pos degree * 2)).
      split; [assumption|]. split; [lia|].
      replace (Z.log2_up (Z.pos degree * 2))
        with (Z.succ (Z.pred (Z.log2_up (Z.pos degree * 2)))) by lia.
      rewrite Z.pow_succ_r; [lia|].
      assert (0 < Z.log2_up (Z.pos degree * 2))%Z by (apply Z.log2_up_pos; lia). lia.
Qed.

(** The specification accepts an extension factor of 2 whatever the
    constraint degree; the code refuses it for a constraint degree of 2. *)
Lemma security_options_counterexample :
  let options := {| Stark.optExtensionFactor := Some (Int 2);
                    Stark.optExeSpotCheckCount := None;
                    Stark.optFriSpotCheckCount := None;
                    Stark.optHashAlgorithm := None |} in
  specAcceptsOptions options
  /\ Stark.validateSecurityOptions (Some options) 2
     = Throw (TypeError Stark.extensionFactorDegree).
Proof.
  split; [|reflexivity].
  unfold specAcceptsOptions; simpl. repeat split; auto.
  right. exists 1%Z. split; [lia|reflexivity].
Qed.

(** ** Termination of [fri] and the size of its result (C3, C5) *)

Lemma pow2_div_pow4 (n k : nat) : 2 * k <= n -> 2 ^ n / 4 ^ k = 2 ^ (n - 2 * k).
Proof.
  intros Hk. replace n with (n - 2 * k + 2 * k) at 1 by lia.
  rewrite Nat.pow_add_r, (Nat.pow_mul_r 2 2 k). change (2 ^ 2) with 4.
  apply Nat.div_mul. apply Nat.pow_nonzero. lia.
Qed.

Lemma pow2_big (m : nat) : 8 < m -> 256 < 2 ^ m.
Proof.
  intros Hm. change 256 with (2 ^ 8). apply Nat.pow_lt_mono_r; lia.
Qed.

Section FriTermination.
Context `{field : FiniteField} `{hash : Hash} `{merkle : Merkle}
        `{idxGenerator : QueryIndexGenerator}.

(** The folds of a run on [2^n] values, in the words of C3. *)
Lemma friLayers_count (stop : Matrix -> Prop) (domain : Vector) (depth n : nat)
    (pTree : MerkleTree) (polyValues lastValues : Matrix) (comps : list FriComponent) :
  (forall depth n polyValues,
     layerShape domain depth n polyValues -> stop polyValues <-> n <= 8) ->
  layerShape domain depth n polyValues ->
  friLayers stop domain depth pTree polyValues comps lastValues ->
  let k := length comps in
  2 ^ n / 4 ^ k <= 256
  /\ (forall j, j < k -> 256 < 2 ^ n / 4 ^ j)
  /\ colCount lastValues * rowCount lastValues = 2 ^ n / 4 ^ k
  /\ 2 ^ n / 4 ^ k = 2 ^ (n - 2 * k).
Proof.
  intros Hstop Hshape Hlayers k.
  destruct (friLayers_sizes stop domain Hstop _ _ _ _ _ Hlayers n Hshape)
    as (Hk & (Hrows & Hcount & _) & Hsmall & Hbig).
  fold k in Hk, Hrows, Hcount, Hsmall, Hbig.
  rewrite pow2_div_pow4 by assumption.
  split; [apply pow2_le_256; assumption|]. split.
  - intros j Hj. specialize (Hbig j Hj).
    rewrite pow2_div_pow4 by lia. apply pow2_big. assumption.
  - split; [|reflexivity].
    assert (Hne : lastValues <> []).
    { intros ->. change (rowCount []) with 0 in Hcount.
      pose proof (Nat.pow_nonzero 2 (n - 2 * k)). lia. }
    rewrite (colCount_rows _ 4 Hrows Hne). exact Hcount.
Qed.

Lemma length_splitBuffer (v : Vector) (buffers : list Buffer) :
  (forall v : Vector, length (vectorToBuffer v) = length v * elementSize) ->
  0 < elementSize ->
  LowDegreeProverTs.splitBuffer (vectorToBuffer v) elementSize = Return buffers ->
  length buffers = length v.
Proof.
  intros Hbuffer Hsize. unfold LowDegreeProverTs.splitBuffer.
  destruct (decide _); [|discriminate]. intros [= <-].
  rewrite length_map, length_seq, Hbuffer. apply Nat.div_mul. lia.
Qed.

(** C3. On a matrix of [N = 2^n] values in 4 columns, with the domain of the
    same size, [fri] terminates (with the fuel [prove] gives it, the number of
    rows): a fold hands a quarter of the values to the recursive call, the
    recursion stops at the first depth [k] where [N / 4^k <= 256], and the
    remainder of the proof it returns has [N / 4^k] values, a power of two
    that is at most 256. This holds for the compiled prover and for the
    earlier one, whose remainder lists the values as buffers of
    [elementSize] bytes. *)
Theorem fri_terminates (n depth d : nat) (domain : Vector) (pTree : MerkleTree)
    (polyValues : Matrix) (resultJs : LowDegreeProverJs.LowDegreeProof)
    (resultTs : LowDegreeProverTs.LowDegreeProof) :
  layerShape domain depth n polyValues ->
  0 < elementSize ->
  (forall v : Vector, length (vectorToBuffer v) = length v * elementSize) ->
  let N := 2 ^ n in
  let runJs := LowDegreeProverJs.fri (rowCount polyValues) pTree polyValues d depth
                 domain resultJs in
  let runTs := LowDegreeProverTs.fri (rowCount polyValues) pTree polyValues d depth
                 domain resultTs in
  (* a fold divides the number of values by 4 *)
  (forall column,
     LowDegreeProverJs.friColumn pTree polyValues depth domain = Return column ->
     256 < N ->
     4 * rowCount (transposeVector column 4 1) = N / 4)
  (* the compiled prover *)
  /\ runJs <> Unfinished
  /\ (forall result', runJs = Return result' ->
      exists k, N / 4 ^ k <= 256 /\ (forall j, j < k -> 256 < N / 4 ^ j)
                /\ length (LowDegreeProverJs.remainder result') = N / 4 ^ k
                /\ N / 4 ^ k = 2 ^ (n - 2 * k))
  (* the earlier prover *)
  /\ runTs <> Unfinished
  /\ (forall result', runTs = Return result' ->
      exists k, N / 4 ^ k <= 256 /\ (forall j, j < k -> 256 < N / 4 ^ j)
                /\ length (LowDegreeProverTs.remainder result') = N / 4 ^ k
                /\ N / 4 ^ k = 2 ^ (n - 2 * k)).
Proof.
  intros Hshape Hsize Hbuffer N runJs runTs. split; [|split; [|split; [|split]]].
  - intros column Hcolumn Hbig.
    assert (Hn : 8 < n).
    { destruct (le_gt_dec n 8) as [Hle|]; [|assumption].
      apply pow2_le_256 in Hle. unfold N in Hbig. lia. }
    destruct (layerShape_folded _ _ _ _ _ _ Hshape Hn Hcolumn) as [_ (_ & Hcount & _)].
    rewrite Hcount. unfold N. rewrite (pow2_split n) by lia.
    rewrite (Nat.mul_comm 4), Nat.div_mul by lia. reflexivity.
  - apply fri_finishes_js. lia.
  - intros result' Hrun.
    apply fri_layers_js in Hrun
      as (comps & lastValues & g & Hlayers & _ & Hrem & _).
    destruct (friLayers_count stopJs domain depth n pTree polyValues lastValues comps
                (layerShape_stopJs domain) Hshape Hlayers)
      as (Hsmall & Hbig & Hcount & Hpow).
    exists (length comps). rewrite Hrem, length_join_transpose. auto.
  - apply fri_finishes_ts. lia.
  - intros result' Hrun.
    apply fri_layers_ts in Hrun
      as (comps & lastValues & g & Hlayers & _ & _ & Hsplit & _).
    destruct (friLayers_count stopTs domain depth n pTree polyValues lastValues comps
                (layerShape_stopTs domain) Hshape Hlayers)
      as (Hsmall & Hbig & Hcount & Hpow).
    exists (length comps).
    rewrite (length_splitBuffer _ _ Hbuffer Hsize Hsplit), length_join_transpose. auto.
Qed.

Lemma ceilHalfLog2_pow2 (n : nat) :
  ceilHalfLog2 (2 ^ n) = ((Z.of_nat n + 1) / 2)%Z.
Proof.
  unfold ceilHalfLog2. rewrite Nat2Z.inj_pow. change (Z.of_nat 2) with 2%Z.
  rewrite Z.log2_up_pow2 by lia. reflexivity.
Qed.

(** The number of folds, from the sizes along the run. *)
Lemma folds_formula (n k : nat) :
  6 < n -> n - 2 * k <= 8 -> 2 * k <= n -> (forall j, j < k -> 8 < n - 2 * j) ->
  Z.of_nat k = Z.max 0 ((Z.of_nat n + 1) / 2 - REMAINDER_SLOTS).
Proof.
  intros Hn Hsmall Hk Hbig. change REMAINDER_SLOTS with 4%Z.
  destruct k as [|k].
  - assert (n = 7 \/ n = 8) as [-> | ->] by lia; reflexivity.
  - specialize (Hbig k ltac:(lia)).
    assert (n = 2 * k + 9 \/ n = 2 * k + 10) as [-> | ->] by lia.
    + replace ((Z.of_nat (2 * k + 9) + 1) / 2)%Z with (Z.of_nat k + 5)%Z; [lia|].
      apply Z.div_unique with (r := 0%Z); lia.
    + replace ((Z.of_nat (2 * k + 10) + 1) / 2)%Z with (Z.of_nat k + 5)%Z; [lia|].
      apply Z.div_unique with (r := 1%Z); lia.
Qed.

Lemma newArray_Return {A} (count : Z) (array : list (option A)) :
  newArray count = Return array -> (0 <= count)%Z /\ array = replicate (Z.to_nat count) None.
Proof. unfold newArray. destruct (decide _); [discriminate|]. intros [= <-]. split; [lia|reflexivity]. Qed.

Lemma newArray_negative {A} (count : Z) :
  (count < 0)%Z -> newArray (A := A) count = Throw RangeError.
Proof. intros Hcount. unfold newArray. rewrite decide_True by assumption. reflexivity. Qed.

(** [Math.ceil(Math.log2(valueCount) / 2) - 4] is negative up to 64 values. *)
Lemma ceilHalfLog2_small (valueCount : nat) :
  (ceilHalfLog2 valueCount - 4 < 0)%Z <-> valueCount <= 64.
Proof.
  unfold ceilHalfLog2. destruct valueCount as [|v].
  { change ((Z.log2_up (Z.of_nat 0) + 1) / 2)%Z with 0%Z. lia. }
  assert (Hlog : (Z.log2_up (Z.of_nat (S v)) <= 6)%Z <-> S v <= 64).
  { rewrite <- Z.log2_up_le_pow2 by lia. change (2 ^ 6)%Z with 64%Z. lia. }
  pose proof (Z.log2_up_nonneg (Z.of_nat (S v))) as Hnonneg.
  split.
  - intros Hsmall. apply Hlog.
    destruct (Z_le_gt_dec (Z.log2_up (Z.of_nat (S v))) 6) as [|Hbig]; [assumption|].
    exfalso. assert (4 <= (Z.log2_up (Z.of_nat (S v)) + 1) / 2)%Z; [|lia].
    apply Z.div_le_lower_bound; lia.
  - intros Hsmall. apply Hlog in Hsmall.
    assert ((Z.log2_up (Z.of_nat (S v)) + 1) / 2 < 4)%Z; [|lia].
    apply Z.div_lt_upper_bound; lia.
Qed.

Lemma getComponentCount_negative (valueCount : nat) :
  (LowDegreeProverJs.getComponentCount valueCount < 0)%Z <-> valueCount <= 64.
Proof.
  unfold LowDegreeProverJs.getComponentCount. cbv zeta.
  change REMAINDER_SLOTS with 4%Z. rewrite <- ceilHalfLog2_small. lia.
Qed.

(** Rows inside the matrix are all read. *)
Lemma rowsToBuffers_in_range (m : Matrix) (positions : list nat) :
  Forall (fun p => p < rowCount m) positions ->
  exists buffers, rowsToBuffers m positions = Return buffers.
Proof.
  induction 1 as [|p positions Hp _ [buffers IH]]; simpl; [eauto|].
  apply lookup_lt_is_Some_2 in Hp as [row ->]. rewrite IH. simpl. eauto.
Qed.

Lemma augmentedPositions_in_range (positions : list nat) (columnLength : nat) :
  0 < columnLength -> (4 | columnLength) ->
  Forall (fun a => a < columnLength / 4)
         (LowDegreeProverJs.getAugmentedPositions positions columnLength).
Proof.
  intros Hpos Hdiv. apply Forall_forall. intros a.
  rewrite getAugmentedPositions_firstOccurrences, elem_of_firstOccurrences.
  intros Ha. apply list_elem_of_fmap in Ha as [p [-> _]].
  rewrite floorModRow_divisible by assumption.
  apply Nat.mod_upper_bound. destruct Hdiv as [k ->].
  rewrite Nat.div_mul by lia. lia.
Qed.

(** The compiled [prove] on at most 64 evaluations: the rows of the first
    Merkle proof are read, and [new Array] throws. *)
Lemma prove_RangeError_js (cEvaluations domain : Vector) (d : nat) :
  0 < length cEvaluations <= 64 -> (4 | length cEvaluations) ->
  LowDegreeProverJs.prove cEvaluations domain d = Throw RangeError.
Proof.
  intros [Hpos Hsmall] Hdiv. unfold LowDegreeProverJs.prove. cbv zeta.
  destruct (rowsToBuffers_in_range (transposeVector cEvaluations 4 1)
              (LowDegreeProverJs.getAugmentedPositions
                 (getExeIndexes
                    (root (create (digestValues
                                     (matrixToBuffer (transposeVector cEvaluations 4 1))
                                     LowDegreeProverJs.polyRowSize)))
                    (length domain))
                 (length cEvaluations))) as [buffers ->].
  - rewrite length_transposeVector, Nat.div_1_r.
    apply augmentedPositions_in_range; assumption.
  - cbn [mbind Outcome_bind].
    rewrite newArray_negative by (apply getComponentCount_negative; exact Hsmall).
    reflexivity.
Qed.

(** The earlier [prove] allocates the array first. *)
Lemma prove_RangeError_ts (lTree : MerkleTree) (values : Matrix) (domain : Vector)
    (d : nat) :
  colCount values * rowCount values <= 64 ->
  LowDegreeProverTs.prove lTree values domain d = Throw RangeError.
Proof.
  intros Hsmall. unfold LowDegreeProverTs.prove. cbv zeta.
  rewrite newArray_negative; [reflexivity|].
  apply ceilHalfLog2_small in Hsmall. lia.
Qed.

(** C5. For [N = 2^n] values, a proof that [prove] returns has
    [max(0, ceil(n / 2) - log2(256) / 2)] components; the count is the length
    of the array, and the proof has no field for it. [prove] returns no
    proof, though, where the formula gives 0 for lack of values to fold: the
    array is allocated with [Math.min(..., 0)] entries, negative for
    [N <= 64], and [new Array] throws a [RangeError] in both versions. *)
Theorem components_count (n d : nat) (cEvaluations domain : Vector)
    (lTree : MerkleTree) (values : Matrix) :
  length cEvaluations = 2 ^ n -> length domain = 2 ^ n ->
  layerShape domain 0 n values ->
  let count := Z.max 0 ((Z.of_nat n + 1) / 2 - REMAINDER_SLOTS) in
  (forall proof, LowDegreeProverJs.prove cEvaluations domain d = Return proof ->
     Z.of_nat (length (LowDegreeProverJs.components proof)) = count)
  /\ (forall proof, LowDegreeProverTs.prove lTree values domain d = Return proof ->
        Z.of_nat (length (LowDegreeProverTs.components proof)) = count)
  /\ (n <= 6 ->
      count = 0%Z
      /\ LowDegreeProverJs.prove cEvaluations domain d = Throw RangeError
      /\ LowDegreeProverTs.prove lTree values domain d = Throw RangeError).
Proof.
  intros Hlength Hdomain Hshape count. split; [|split].
  - intros proof. unfold LowDegreeProverJs.prove. intros Hprove. invert_bind.
    match goal with H : newArray _ = _ |- _ =>
      apply newArray_Return in H as [Hcount ->] end.
    unfold LowDegreeProverJs.getComponentCount in *.
    rewrite Hlength, ceilHalfLog2_pow2 in *.
    assert (Hn : 6 < n).
    { change REMAINDER_SLOTS with 4%Z in Hcount.
      destruct (le_gt_dec n 6) as [Hle|]; [|assumption]. exfalso.
      assert ((Z.of_nat n + 1) / 2 < 4)%Z; [|lia].
      apply Z.div_lt_upper_bound; lia. }
    replace (Z.min _ 0) with 0%Z in * by lia. simpl replicate in *.
    assert (Hshape' : layerShape domain 0 n (transposeVector cEvaluations 4 1)).
    { split; [apply transposeVector_rows|]. split.
      - rewrite length_transposeVector, Nat.div_1_r, Hlength.
        rewrite (pow2_split n) by lia.
        rewrite (Nat.mul_comm 4 (2 ^ (n - 2))), Nat.div_mul by lia. lia.
      - rewrite Hdomain. simpl. lia. }
    match goal with H : LowDegreeProverJs.fri _ _ _ _ _ _ _ = _ |- _ =>
      apply fri_layers_js in H
        as (comps & lastValues & g & Hlayers & _ & _ & _ & Hcomps & _) end.
    simpl in Hcomps. rewrite Hcomps, placeComponents_empty, length_map.
    destruct (friLayers_sizes stopJs domain (layerShape_stopJs domain)
                _ _ _ _ _ Hlayers n Hshape')
      as (Hk & _ & Hsmall & Hbig).
    apply folds_formula; assumption.
  - intros proof. unfold LowDegreeProverTs.prove. intros Hprove. invert_bind.
    match goal with H : newArray _ = _ |- _ =>
      apply newArray_Return in H as [Hcount ->] end.
    destruct Hshape as (Hrows & Hvalues & Hdom).
    assert (Hne : values <> []).
    { intros ->. change (rowCount []) with 0 in Hvalues.
      pose proof (Nat.pow_nonzero 2 n). lia. }
    rewrite (colCount_rows _ 4 Hrows Hne), Hvalues, ceilHalfLog2_pow2 in *.
    assert (Hn : 6 < n).
    { destruct (le_gt_dec n 6) as [Hle|]; [|assumption]. exfalso.
      assert ((Z.of_nat n + 1) / 2 < 4)%Z; [|lia].
      apply Z.div_lt_upper_bound; lia. }
    replace (Z.min _ 0) with 0%Z in * by lia. simpl replicate in *.
    match goal with H : LowDegreeProverTs.fri _ _ _ _ _ _ _ = _ |- _ =>
      apply fri_layers_ts in H
        as (comps & lastValues & g & Hlayers & _ & _ & _ & Hcomps) end.
    simpl in Hcomps. rewrite Hcomps, placeComponents_empty, length_map.
    destruct (friLayers_sizes stopTs domain (layerShape_stopTs domain)
                _ _ _ _ _ Hlayers n (conj Hrows (conj Hvalues Hdom)))
      as (Hk & _ & Hsmall & Hbig).
    apply folds_formula; assumption.
  - intros Hn. destruct Hshape as (Hrows & Hvalues & Hdom).
    assert (Hpow : 2 ^ n <= 64).
    { change 64 with (2 ^ 6). apply Nat.pow_le_mono_r; lia. }
    assert (Hne : values <> []).
    { intros ->. change (rowCount []) with 0 in Hvalues.
      pose proof (Nat.pow_nonzero 2 n). lia. }
    split; [|split].
    + unfold count. change REMAINDER_SLOTS with 4%Z.
      assert ((Z.of_nat n + 1) / 2 < 4)%Z; [|lia].
      apply Z.div_lt_upper_bound; lia.
    + apply prove_RangeError_js.
      * rewrite Hlength. pose proof (Nat.pow_nonzero 2 n). lia.
      * rewrite Hlength, <- Hvalues. exists (rowCount values). lia.
    + apply prove_RangeError_ts.
      rewrite (colCount_rows _ 4 Hrows Hne). lia.
Qed.

End FriTermination.

(** ** The degree bound along the layers (C4) *)

Lemma floor_is_ceiling (d m : nat) :
  0 < m -> d / m = (d + m - 1) / m <-> (m | d).
Proof.
  intros Hm. pose proof (Nat.div_mod_eq d m) as Hd.
  pose proof (Nat.mod_upper_bound d m ltac:(lia)) as Hr.
  remember (d / m) as q eqn:Hq. remember (d mod m) as r eqn:Hrem.
  destruct (decide (r = 0)) as [Hzero|Hpos].
  - split; intros _.
    + exists q. lia.
    + apply Nat.div_unique with (r := m - 1); lia.
  - split.
    + intros Heq. exfalso.
      assert (Hceil : (d + m - 1) / m = S q).
      { symmetry. apply Nat.div_unique with (r := r - 1); lia. }
      lia.
    + intros [q' Hq']. exfalso. apply Hpos. rewrite Hrem, Hq'.
      apply Nat.Div0.mod_mul.
Qed.

Section DegreeBound.
Context `{field : FiniteField} `{hash : Hash} `{merkle : Merkle}
        `{idxGenerator : QueryIndexGenerator}.

Lemma verifyComponents_bound_js (quartic : list Z) (comps : list (option FriComponent)) :
  forall depth st st',
  LowDegreeProverJs.verifyComponents quartic depth st comps = Return st' ->
  LowDegreeProverJs.maxDegreePlus1 st'
  = LowDegreeProverJs.maxDegreePlus1 st / 4 ^ length comps.
Proof.
  induction comps as [|[c|] comps IH]; intros depth st st';
    cbn [LowDegreeProverJs.verifyComponents length].
  - intros [= <-]. rewrite Nat.pow_0_r, Nat.div_1_r. reflexivity.
  - intros Hbind. invert_bind.
    match goal with H : LowDegreeProverJs.verifyComponents _ _ _ _ = _ |- _ =>
      apply IH in H as -> end.
    cbn [LowDegreeProverJs.nextState LowDegreeProverJs.maxDegreePlus1].
    rewrite Nat.Div0.div_div, <- Nat.pow_succ_r'. reflexivity.
  - discriminate.
Qed.

Lemma stateful_bind_Return {A B} (m : LowDegreeProverTs.Stateful A)
    (f : A -> LowDegreeProverTs.Stateful B) (proof proof' : LowDegreeProverTs.LowDegreeProof)
    (b : B) :
  (m ≫= f) proof = (Return b, proof') ->
  exists a proof1, m proof = (Return a, proof1) /\ f a proof1 = (Return b, proof').
Proof.
  unfold mbind, LowDegreeProverTs.Stateful_bind.
  destruct (m proof) as [[a| |] proof1]; [eauto|discriminate|discriminate].
Qed.

Lemma verifyComponents_bound_ts (quartic : list Z) (count : nat) :
  forall depth st proof st' proof',
  LowDegreeProverTs.verifyComponents quartic count depth st proof = (Return st', proof') ->
  LowDegreeProverTs.maxDegreePlus1 st'
  = LowDegreeProverTs.maxDegreePlus1 st / 4 ^ count.
Proof.
  induction count as [|count IH]; intros depth st proof st' proof'.
  - cbn [LowDegreeProverTs.verifyComponents]. intros [= <- _].
    rewrite Nat.pow_0_r, Nat.div_1_r. reflexivity.
  - cbn [LowDegreeProverTs.verifyComponents]. intros Hbind.
    apply stateful_bind_Return in Hbind as (_ & proof1 & _ & Hbind).
    apply stateful_bind_Return in Hbind as (c & proof2 & _ & Hrest).
    apply IH in Hrest as ->.
    cbn [LowDegreeProverTs.nextState LowDegreeProverTs.maxDegreePlus1].
    rewrite Nat.Div0.div_div, <- Nat.pow_succ_r'. reflexivity.
Qed.

(** C4, as the code has it. With an initial bound [d], the bound used at
    depth [k] is the floor of [d / 4^k]: a step of either verifier replaces
    the bound by the floor of its quarter, and the state the loop ends in
    after [k] components has the bound [d / 4^k], which is the bound the
    remainder is checked against; a prover that folds [k] times has checked
    its remainder against [d / 4^k]. The floor is the ceiling exactly when
    [4^k] divides [d]. *)
Theorem degree_bound_at_depth (d : nat) :
  (forall st c,
     LowDegreeProverJs.maxDegreePlus1 (LowDegreeProverJs.nextState st c)
     = LowDegreeProverJs.maxDegreePlus1 st / 4)
  /\ (forall st c,
        LowDegreeProverTs.maxDegreePlus1 (LowDegreeProverTs.nextState st c)
        = LowDegreeProverTs.maxDegreePlus1 st / 4)
  /\ (forall quartic depth st comps st',
        LowDegreeProverJs.maxDegreePlus1 st = d ->
        LowDegreeProverJs.verifyComponents quartic depth st comps = Return st' ->
        LowDegreeProverJs.maxDegreePlus1 st' = d / 4 ^ length comps)
  /\ (forall quartic count depth st proof st' proof',
        LowDegreeProverTs.maxDegreePlus1 st = d ->
        LowDegreeProverTs.verifyComponents quartic count depth st proof
        = (Return st', proof') ->
        LowDegreeProverTs.maxDegreePlus1 st' = d / 4 ^ count)
  /\ (forall fuel pTree polyValues depth domain result result',
        LowDegreeProverJs.fri fuel pTree polyValues d depth domain result = Return result' ->
        exists comps g,
          LowDegreeProverJs.components result'
          = placeComponents (LowDegreeProverJs.components result) depth comps
          /\ LowDegreeProverJs.verifyRemainder (LowDegreeProverJs.remainder result')
               (d / 4 ^ length comps) (fexp g (4 ^ (depth + length comps))) = Return tt)
  /\ (forall fuel lTree values depth domain result result',
        LowDegreeProverTs.fri fuel lTree values d depth domain result = Return result' ->
        exists comps g remainder,
          LowDegreeProverTs.components result'
          = placeComponents (LowDegreeProverTs.components result) depth comps
          /\ LowDegreeProverTs.splitBuffer (vectorToBuffer remainder) elementSize
             = Return (LowDegreeProverTs.remainder result')
          /\ LowDegreeProverTs.verifyRemainder remainder
               (d / 4 ^ length comps) (fexp g (4 ^ (depth + length comps))) = Return tt)
  /\ (forall k, d / 4 ^ k = ceilingBound d k <-> (4 ^ k | d)).
Proof.
  split; [reflexivity|]. split; [reflexivity|]. split.
  { intros quartic depth st comps st' <-. apply verifyComponents_bound_js. }
  split.
  { intros quartic count depth st proof st' proof' <-. apply verifyComponents_bound_ts. }
  split.
  { intros fuel pTree polyValues depth domain result result' Hrun.
    apply fri_layers_js in Hrun
      as (comps & lastValues & g & _ & _ & _ & Hcheck & Hcomps & _).
    exists comps, g. split; assumption. }
  split.
  { intros fuel lTree values depth domain result result' Hrun.
    apply fri_layers_ts in Hrun
      as (comps & lastValues & g & _ & _ & Hcheck & Hsplit & Hcomps).
    exists comps, g, (joinMatrixRows (transposeMatrix lastValues)).
    split; [assumption|]. split; assumption. }
  intros k. unfold ceilingBound. apply floor_is_ceiling.
  assert (4 ^ k <> 0) by (apply Nat.pow_nonzero; lia). lia.
Qed.

End DegreeBound.

(** For an initial bound of 5, the verifier checks the next layer against 1;
    the ceiling of 5/4 is 2. *)
Lemma degree_bound_counterexample :
  let st := {| LowDegreeProverJs.pRoot := []; LowDegreeProverJs.rootOfUnity := 1;
               LowDegreeProverJs.maxDegreePlus1 := 5;
               LowDegreeProverJs.columnLength := 16 |} in
  let c := {| columnRoot := [];
              columnProof := {| values := []; nodes := []; proofDepth := 0 |};
              polyProof := {| values := []; nodes := []; proofDepth := 0 |} |} in
  LowDegreeProverJs.maxDegreePlus1 (LowDegreeProverJs.nextState (field := Example.field) st c)
  = 1
  /\ ceilingBound 5 1 = 2.
Proof. split; reflexivity. Qed.

(** ** The low-degree check of the remainder (C6) *)

Section Remainder.
Context `{field : FiniteField} `{idxGenerator : QueryIndexGenerator}.

Lemma elem_of_remainderPositions (n i : nat) :
  i ∈ LowDegreeProverJs.remainderPositions n
  <-> i < n /\ (extensionFactor = 0 \/ i mod extensionFactor <> 0).
Proof.
  unfold LowDegreeProverJs.remainderPositions.
  rewrite list_elem_of_filter, elem_of_seq. split; intros [? ?]; split; auto; lia.
Qed.

Lemma NoDup_remainderPositions (n : nat) :
  NoDup (LowDegreeProverJs.remainderPositions n).
Proof. apply NoDup_filter, NoDup_seq. Qed.

Lemma getPowerSeries_lookup (w : Z) (n p : nat) :
  p < n -> getPowerSeries w n !! p = Some (fexp w p).
Proof.
  intros Hp. unfold getPowerSeries. map_to_fmap.
  rewrite list_lookup_fmap, lookup_seq_lt by assumption. reflexivity.
Qed.

Lemma getValue_nth (v : Vector) (p : nat) :
  p < length v -> getValue v p = Return (nth p v 0%Z).
Proof.
  intros Hp. unfold getValue.
  destruct (lookup_lt_is_Some_2 v p Hp) as [x Hx]. rewrite Hx.
  f_equal. symmetry. apply nth_lookup_Some with (d := 0%Z). exact Hx.
Qed.

Lemma getValue_powerSeries (w : Z) (n p : nat) :
  p < n -> getValue (getPowerSeries w n) p = Return (fexp w p).
Proof. intros Hp. unfold getValue. rewrite getPowerSeries_lookup by assumption. reflexivity. Qed.

Lemma remainderPoints_Return (w : Z) (remainder : Vector) (positions : list nat) (d : nat) :
  d <= length positions -> Forall (fun p => p < length remainder) positions ->
  LowDegreeProverJs.remainderPoints (getPowerSeries w (length remainder)) remainder
    positions d
  = Return (map (fexp w) (take d positions),
            map (fun p => nth p remainder 0%Z) (take d positions)).
Proof.
  revert positions; induction d as [|d IH]; intros positions Hd Hrange.
  - reflexivity.
  - destruct positions as [|p positions]; [simpl in Hd; lia|].
    apply Forall_cons in Hrange as [Hp Hrange].
    cbn [LowDegreeProverJs.remainderPoints].
    rewrite getValue_powerSeries, getValue_nth by assumption.
    cbn [mbind Outcome_bind].
    rewrite IH by (simpl in Hd; try lia; assumption). reflexivity.
Qed.

Lemma checkRemainder_cases (w : Z) (poly : list Z) (remainder : Vector) (d : nat)
    (positions : list nat) :
  Forall (fun p => p < length remainder) positions ->
  let check := LowDegreeProverJs.checkRemainder poly
                 (getPowerSeries w (length remainder)) remainder d positions in
  (check = Return tt
   /\ forall p, p ∈ positions -> evalPolyAt poly (fexp w p) = nth p remainder 0%Z)
  \/ (check = Throw (StarkError (RemainderNotValid d))
      /\ exists p, p ∈ positions /\ evalPolyAt poly (fexp w p) <> nth p remainder 0%Z).
Proof.
  induction 1 as [|p positions Hp Hrange IH]; cbn zeta.
  - left. split; [reflexivity|]. intros p Hin. inversion Hin.
  - cbn [LowDegreeProverJs.checkRemainder].
    rewrite getValue_powerSeries, getValue_nth by assumption.
    cbn [mbind Outcome_bind].
    destruct (decide _) as [Hne|Heq].
    + right. split; [reflexivity|]. exists p. split; [left|assumption].
    + apply dec_stable in Heq. destruct IH as [[-> Hall]|[-> (p' & Hin & Hne)]].
      * left. split; [reflexivity|]. intros p' Hin.
        apply elem_of_cons in Hin as [->|Hin]; auto.
      * right. split; [reflexivity|]. exists p'. split; [right|]; assumption.
Qed.

Variable inField : Z -> Prop.

(** C6. [verifyRemainder] keeps the positions [i < R] with
    [extensionFactor = 0] or [i mod extensionFactor <> 0], interpolates the
    points [(w^p, remainder[p])] at the first [maxDegreePlus1] of them, and
    throws exactly when the polynomial misses [remainder[p]] at [w^p] for one
    of the other kept positions [p]; so it returns on the evaluations of a
    polynomial of degree less than [maxDegreePlus1]. (The bound must not
    exceed the number of kept positions, or there are no such points.) *)
Theorem verifyRemainder_spec (remainder : Vector) (maxDegreePlus1 : nat) (w : Z) :
  let R := length remainder in
  let positions := LowDegreeProverJs.remainderPositions R in
  let first := take maxDegreePlus1 positions in
  let others := drop maxDegreePlus1 positions in
  let poly := interpolate (map (fexp w) first) (map (fun p => nth p remainder 0%Z) first) in
  let run := LowDegreeProverJs.verifyRemainder remainder maxDegreePlus1 w in
  maxDegreePlus1 <= length positions ->
  (forall i, i ∈ positions <-> i < R /\ (extensionFactor = 0 \/ i mod extensionFactor <> 0))
  /\ (run = Throw (StarkError (RemainderNotValid maxDegreePlus1))
      <-> exists p, p ∈ others /\ evalPolyAt poly (fexp w p) <> nth p remainder 0%Z)
  /\ (run = Return tt
      <-> forall p, p ∈ others -> evalPolyAt poly (fexp w p) = nth p remainder 0%Z)
  /\ (run = Return tt \/ run = Throw (StarkError (RemainderNotValid maxDegreePlus1)))
  /\ (interpolationContract inField -> (forall e, inField (fexp w e)) ->
      NoDup (getPowerSeries w R) ->
      forall q : list Z, length q <= maxDegreePlus1 ->
      remainder = map (evalPolyAt q) (getPowerSeries w R) ->
      run = Return tt).
Proof.
  intros R positions first others poly run Hbound.
  assert (Hrange : Forall (fun p => p < R) positions).
  { apply Forall_forall. intros p Hp.
    apply elem_of_remainderPositions in Hp. tauto. }
  assert (Hrun : run = LowDegreeProverJs.checkRemainder poly (getPowerSeries w R)
                         remainder maxDegreePlus1 others).
  { unfold run, LowDegreeProverJs.verifyRemainder. fold R. fold positions.
    unfold R at 1 2. rewrite remainderPoints_Return by assumption. reflexivity. }
  assert (Hothers : Forall (fun p => p < R) others).
  { apply Forall_forall. intros p Hp. rewrite Forall_forall in Hrange.
    apply Hrange. exact (subseteq_drop _ _ _ Hp). }
  pose proof (checkRemainder_cases w poly remainder maxDegreePlus1 others Hothers)
    as Hcases. cbn zeta in Hcases. fold R in Hcases. rewrite <- Hrun in Hcases.
  split; [intros i; apply elem_of_remainderPositions|].
  split; [|split; [|split]].
  - split.
    + intros Hthrow. destruct Hcases as [[Hret _]|[_ Hex]]; [congruence|exact Hex].
    + intros (p & Hin & Hne). destruct Hcases as [[_ Hall]|[Hthrow _]]; [|exact Hthrow].
      exfalso. apply Hne. apply Hall. exact Hin.
  - split.
    + intros Hret. destruct Hcases as [[_ Hall]|[Hthrow _]]; [exact Hall|congruence].
    + intros Hall. destruct Hcases as [[Hret _]|[_ (p & Hin & Hne)]]; [exact Hret|].
      exfalso. apply Hne. apply Hall. exact Hin.
  - destruct Hcases as [[Hret _]|[Hthrow _]]; auto.
  - intros Hcontract Hfield Hdistinct q Hq Hremainder.
    destruct Hcases as [[Hret _]|[_ (p & Hin & Hne)]]; [exact Hret|].
    exfalso. apply Hne.
    assert (Hp : p < R).
    { rewrite Forall_forall in Hothers. apply Hothers. exact Hin. }
    assert (Hvalue : forall p, p < R -> nth p remainder 0%Z = evalPolyAt q (fexp w p)).
    { intros p' Hp'. apply nth_lookup_Some with (d := 0%Z).
      rewrite Hremainder at 1. map_to_fmap.
      rewrite list_lookup_fmap, getPowerSeries_lookup by assumption. reflexivity. }
    rewrite (Hvalue p Hp).
    assert (Hys : map (fun p => nth p remainder 0%Z) first
                  = map (evalPolyAt q) (map (fexp w) first)).
    { rewrite map_map. apply map_ext_Forall. apply Forall_forall. intros p' Hp'.
      apply Hvalue. rewrite Forall_forall in Hrange. apply Hrange.
      map_to_fmap. exact (subseteq_take _ _ _ Hp'). }
    unfold poly. rewrite Hys. apply Hcontract.
    + rewrite length_map. unfold first. rewrite length_take. lia.
    + map_to_fmap. apply NoDup_fmap_2_strong.
      * intros p1 p2 Hp1 Hp2 Heq.
        assert (Hlt : forall p', p' ∈ first -> p' < R).
        { intros p' Hp'. rewrite Forall_forall in Hrange. apply Hrange.
          exact (subseteq_take _ _ _ Hp'). }
        apply Hlt in Hp1, Hp2.
        eapply NoDup_lookup; [exact Hdistinct| |];
          rewrite getPowerSeries_lookup by assumption; [reflexivity|].
        f_equal. symmetry. exact Heq.
      * unfold first. eapply sublist_NoDup; [|apply sublist_take].
        apply NoDup_remainderPositions.
    + apply Forall_forall. intros x Hx. map_to_fmap.
      apply list_elem_of_fmap in Hx as [p' [-> _]]. apply Hfield.
Qed.

End Remainder.

(** ** What [verify] returns (C1) *)

Lemma bind_finishes {A B} (m : Outcome A) (f : A -> Outcome B) :
  m <> Unfinished -> (forall a, f a <> Unfinished) -> m ≫= f <> Unfinished.
Proof. intros Hm Hf. destruct m; simpl; [apply Hf|discriminate|congruence]. Qed.

Lemma called_finishes {A} (result : string + A) : called result <> Unfinished.
Proof. destruct result; discriminate. Qed.

Lemma true_or_throws (m : Outcome bool) :
  m <> Unfinished -> (forall b, m = Return b -> b = true) ->
  m = Return true \/ exists e, m = Throw e.
Proof.
  intros Hfinished Htrue. destruct m as [b|e|]; [|eauto|congruence].
  left. f_equal. apply Htrue. reflexivity.
Qed.

Section VerifyOutcome.
Context `{air : Stark.Air} `{field : FiniteField} `{hash : Hash} `{merkle : Merkle}
        `{idxGenerator : QueryIndexGenerator}.

Lemma getRootOfUnityDegree_finishes (k : nat) :
  forall fuel r result, squaresToOne k r -> k <= fuel ->
  LowDegreeProverJs.getRootOfUnityDegreeFrom fuel r result <> Unfinished.
Proof.
  unfold squaresToOne.
  induction k as [|k IH]; intros fuel r result Hone Hfuel.
  - simpl in Hone. subst r. destruct fuel; simpl; discriminate.
  - destruct fuel as [|fuel]; [lia|].
    cbn [LowDegreeProverJs.getRootOfUnityDegreeFrom].
    destruct (decide _); [discriminate|].
    apply IH; [|lia].
    exact (eq_trans (eq_sym (Nat.iter_succ_r k (fun x => fmul x x) r)) Hone).
Qed.

Lemma parseColumnValues_finishes (buffers : list Buffer)
    (positions augmentedPositions : list nat) (columnLength : nat) :
  LowDegreeProverJs.parseColumnValues buffers positions augmentedPositions columnLength
  <> Unfinished.
Proof.
  induction positions as [|p positions IH]; simpl; [discriminate|].
  apply bind_finishes.
  - unfold LowDegreeProverJs.parseColumnValue.
    destruct (LowDegreeProverJs.columnBuffer _ _ _ _);
      [apply readBigInt_finishes|discriminate].
  - intros value. apply bind_finishes; [assumption|discriminate].
Qed.

Lemma checkEvaluations_finishes_js (depth : nat) (pEvaluations columnValues : list Z) :
  LowDegreeProverJs.checkEvaluations depth pEvaluations columnValues <> Unfinished.
Proof.
  revert columnValues; induction pEvaluations as [|e pEvaluations IH];
    intros columnValues; simpl; [discriminate|].
  destruct (decide _); [apply IH|discriminate].
Qed.

Lemma checkEvaluations_finishes_ts (depth : nat) (x : Z) (polys : list (list Z))
    (columnValues : list Z) :
  LowDegreeProverTs.checkEvaluations depth x polys columnValues <> Unfinished.
Proof.
  revert columnValues; induction polys as [|poly polys IH];
    intros columnValues; simpl; [discriminate|].
  destruct (decide _); [apply IH|discriminate].
Qed.

Lemma verifyComponent_finishes_js (quartic : list Z) (depth : nat)
    (st : LowDegreeProverJs.VerifierState) (c : FriComponent) :
  LowDegreeProverJs.verifyComponent quartic depth st c <> Unfinished.
Proof.
  unfold LowDegreeProverJs.verifyComponent, LowDegreeProverJs.rowEvaluations.
  apply bind_finishes; [apply parseColumnValues_finishes|]. intros columnValues.
  apply bind_finishes; [apply called_finishes|]. intros ok.
  apply bind_finishes; [apply assertStark_finishes|]. intros _.
  apply bind_finishes; [apply parsePolyValues_finishes|]. intros polyValues.
  apply bind_finishes; [apply called_finishes|]. intros ok'.
  apply bind_finishes; [apply assertStark_finishes|]. intros _.
  apply bind_finishes.
  - apply bind_finishes; [apply interpolateQuarticBatch_finishes|discriminate].
  - intros pEvaluations. apply checkEvaluations_finishes_js.
Qed.

Lemma verifyComponents_finishes_js (quartic : list Z) (comps : list (option FriComponent)) :
  forall depth st,
  LowDegreeProverJs.verifyComponents quartic depth st comps <> Unfinished.
Proof.
  induction comps as [|[c|] comps IH]; intros depth st; simpl; try discriminate.
  apply bind_finishes; [apply verifyComponent_finishes_js|]. intros _. apply IH.
Qed.

Lemma checkLinearCombination_finishes (lcValues lcChecks : list Z) :
  LowDegreeProverJs.checkLinearCombination lcValues lcChecks <> Unfinished.
Proof.
  revert lcChecks; induction lcValues as [|v lcValues IH]; intros lcChecks; simpl;
    [discriminate|].
  destruct (decide _); [apply IH|discriminate].
Qed.

Lemma verifyLastLayer_finishes_js (st : LowDegreeProverJs.VerifierState)
    (remainder : list Z) :
  LowDegreeProverJs.verifyLastLayer st remainder <> Unfinished.
Proof.
  unfold LowDegreeProverJs.verifyLastLayer.
  apply bind_finishes; [apply assertStark_finishes|]. intros _.
  apply bind_finishes; [apply assertStark_finishes|]. intros _.
  apply bind_finishes; [apply verifyRemainder_finishes|discriminate].
Qed.

Lemma verifyLastLayer_true_js (st : LowDegreeProverJs.VerifierState)
    (remainder : list Z) (b : bool) :
  LowDegreeProverJs.verifyLastLayer st remainder = Return b -> b = true.
Proof.
  unfold LowDegreeProverJs.verifyLastLayer. intros Hbind. invert_bind. congruence.
Qed.

Lemma verify_true_js (fuel : nat) (r : Z) (proof : LowDegreeProverJs.LowDegreeProof)
    (lcValues : list Z) (exeQueryPositions : list nat) (d : nat) (b : bool) :
  LowDegreeProverJs.verify fuel r proof lcValues exeQueryPositions d = Return b ->
  b = true.
Proof.
  unfold LowDegreeProverJs.verify. intros Hbind. invert_bind.
  eapply verifyLastLayer_true_js. eassumption.
Qed.

Lemma verify_finishes_js (fuel : nat) (r : Z) (proof : LowDegreeProverJs.LowDegreeProof)
    (lcValues : list Z) (exeQueryPositions : list nat) (d : nat) :
  LowDegreeProverJs.getRootOfUnityDegree fuel r <> Unfinished ->
  LowDegreeProverJs.verify fuel r proof lcValues exeQueryPositions d <> Unfinished.
Proof.
  intros Hdegree. unfold LowDegreeProverJs.verify.
  apply bind_finishes; [assumption|]. intros columnLength.
  apply bind_finishes; [apply parseColumnValues_finishes|]. intros lcChecks.
  apply bind_finishes; [apply called_finishes|]. intros ok.
  apply bind_finishes; [apply assertStark_finishes|]. intros _.
  apply bind_finishes; [apply checkLinearCombination_finishes|]. intros _.
  apply bind_finishes; [apply verifyComponents_finishes_js|]. intros st.
  apply verifyLastLayer_finishes_js.
Qed.

Lemma stateful_bind_finishes {A B} (m : LowDegreeProverTs.Stateful A)
    (f : A -> LowDegreeProverTs.Stateful B) :
  finishesTs m -> (forall a, finishesTs (f a)) -> finishesTs (m ≫= f).
Proof.
  intros Hm Hf proof. unfold mbind, LowDegreeProverTs.Stateful_bind.
  specialize (Hm proof). destruct (m proof) as [[a|e|] proof1]; simpl in *;
    [apply Hf|discriminate|congruence].
Qed.

Lemma lift_finishes {A} (m : Outcome A) :
  m <> Unfinished -> finishesTs (LowDegreeProverTs.lift m).
Proof. intros Hm proof. exact Hm. Qed.

Lemma readComponent_finishes (depth : nat) :
  finishesTs (LowDegreeProverTs.readComponent depth).
Proof.
  intros proof. unfold LowDegreeProverTs.readComponent.
  destruct (LowDegreeProverTs.components proof !! depth) as [[c|]|]; discriminate.
Qed.

Lemma verifyComponent_finishes_ts (quartic : list Z) (depth : nat)
    (st : LowDegreeProverTs.VerifierState) :
  finishesTs (LowDegreeProverTs.verifyComponent quartic depth st).
Proof.
  unfold LowDegreeProverTs.verifyComponent.
  apply stateful_bind_finishes; [apply readComponent_finishes|]. intros c.
  apply stateful_bind_finishes;
    [apply lift_finishes, parseColumnValues_finishes|]. intros columnValues.
  apply stateful_bind_finishes; [intros proof; discriminate|]. intros _.
  apply stateful_bind_finishes; [apply readComponent_finishes|]. intros c1.
  apply stateful_bind_finishes; [apply lift_finishes, called_finishes|]. intros ok.
  apply stateful_bind_finishes; [apply lift_finishes, assertStark_finishes|]. intros _.
  apply stateful_bind_finishes; [apply lift_finishes, parsePolyValues_finishes|].
  intros ys.
  apply stateful_bind_finishes; [intros proof; discriminate|]. intros _.
  apply stateful_bind_finishes; [apply readComponent_finishes|]. intros c2.
  apply stateful_bind_finishes; [apply lift_finishes, called_finishes|]. intros ok'.
  apply stateful_bind_finishes; [apply lift_finishes, assertStark_finishes|]. intros _.
  apply stateful_bind_finishes;
    [apply lift_finishes, interpolateQuarticBatch_finishes|]. intros polys.
  apply lift_finishes, checkEvaluations_finishes_ts.
Qed.

Lemma verifyComponents_finishes_ts (quartic : list Z) (count : nat) :
  forall depth st, finishesTs (LowDegreeProverTs.verifyComponents quartic count depth st).
Proof.
  induction count as [|count IH]; intros depth st;
    cbn [LowDegreeProverTs.verifyComponents].
  - intros proof. discriminate.
  - apply stateful_bind_finishes; [apply verifyComponent_finishes_ts|]. intros _.
    apply stateful_bind_finishes; [apply readComponent_finishes|]. intros c.
    apply IH.
Qed.

Lemma verifyLastLayer_finishes_ts (st : LowDegreeProverTs.VerifierState)
    (remainder : list Buffer) :
  LowDegreeProverTs.verifyLastLayer st remainder <> Unfinished.
Proof.
  unfold LowDegreeProverTs.verifyLastLayer.
  apply bind_finishes; [apply assertStark_finishes|]. intros _.
  apply bind_finishes; [apply assertStark_finishes|]. intros _.
  apply bind_finishes; [apply verifyRemainder_finishes|discriminate].
Qed.

Lemma verify_finishes_ts (fuel : nat) (lRoot : Buffer) (d : nat) (r : Z) :
  LowDegreeProverJs.getRootOfUnityDegree fuel r <> Unfinished ->
  finishesTs (LowDegreeProverTs.verify fuel lRoot d r).
Proof.
  intros Hdegree. unfold LowDegreeProverTs.verify.
  apply stateful_bind_finishes; [apply lift_finishes; exact Hdegree|]. intros rouDegree.
  apply stateful_bind_finishes; [intros proof; discriminate|]. intros proof0.
  apply stateful_bind_finishes; [apply verifyComponents_finishes_ts|]. intros st.
  apply stateful_bind_finishes; [intros proof; discriminate|]. intros proof1.
  apply lift_finishes, verifyLastLayer_finishes_ts.
Qed.

Lemma stateful_bind_fst_Return {A B} (m : LowDegreeProverTs.Stateful A)
    (f : A -> LowDegreeProverTs.Stateful B) (proof : LowDegreeProverTs.LowDegreeProof)
    (b : B) :
  ((m ≫= f) proof).1 = Return b ->
  exists a proof1, m proof = (Return a, proof1) /\ (f a proof1).1 = Return b.
Proof.
  unfold mbind, LowDegreeProverTs.Stateful_bind.
  destruct (m proof) as [[a| |] proof1]; [eauto|discriminate|discriminate].
Qed.

Lemma verify_true_ts (fuel : nat) (lRoot : Buffer) (d : nat) (r : Z)
    (proof : LowDegreeProverTs.LowDegreeProof) (b : bool) :
  (LowDegreeProverTs.verify fuel lRoot d r proof).1 = Return b -> b = true.
Proof.
  unfold LowDegreeProverTs.verify. intros Hbind.
  apply stateful_bind_fst_Return in Hbind as (rouDegree & proof1 & _ & Hbind).
  apply stateful_bind_fst_Return in Hbind as (proof2 & proof3 & _ & Hbind).
  apply stateful_bind_fst_Return in Hbind as (st & proof4 & _ & Hbind).
  apply stateful_bind_fst_Return in Hbind as (proof5 & proof6 & _ & Hbind).
  unfold LowDegreeProverTs.lift, LowDegreeProverTs.verifyLastLayer in Hbind.
  simpl in Hbind. invert_bind. congruence.
Qed.

(** And for the outer verifier. *)
Lemma tryVerifyBatch_finishes (check : string + bool) (message : Message) :
  Stark.tryVerifyBatch check message <> Unfinished.
Proof. unfold Stark.tryVerifyBatch. destruct check as [e|[|]]; simpl; discriminate. Qed.

Lemma checkValues_finishes (checks values : list Z) (message : Message) :
  Stark.checkValues checks values message <> Unfinished.
Proof.
  revert values; induction checks as [|c checks IH]; intros values; simpl;
    [discriminate|].
  destruct (decide _); [apply IH|discriminate].
Qed.

Lemma checkTransition_finishes (step : nat) (zValue : Z) (qValues dValues : list Z)
    (count : nat) :
  Stark.checkTransition step zValue qValues dValues count <> Unfinished.
Proof.
  revert qValues dValues; induction count as [|count IH]; intros qValues dValues;
    simpl; [discriminate|].
  destruct dValues as [|dValue dValues]; [discriminate|].
  destruct (decide _); [apply IH|discriminate].
Qed.

Lemma defined_finishes {A} (value : option A) : Stark.defined value <> Unfinished.
Proof. destruct value; discriminate. Qed.

Lemma verifyStep_finishes this assertions totalSteps size degree G2 maps lEvaluations
    lCoefficients step :
  Stark.verifyStep this assertions totalSteps size degree G2 maps lEvaluations
    lCoefficients step <> Unfinished.
Proof.
  unfold Stark.verifyStep.
  apply bind_finishes; [apply defined_finishes|]. intros pValues.
  apply bind_finishes; [apply defined_finishes|]. intros bValues.
  apply bind_finishes; [apply defined_finishes|]. intros dValues.
  apply bind_finishes; [apply defined_finishes|]. intros npValues.
  apply bind_finishes; [apply checkTransition_finishes|]. intros _.
  apply bind_finishes; [apply checkValues_finishes|]. intros _.
  cbv zeta. destruct (decide (_ = Some _)); discriminate.
Qed.

Lemma verifySteps_finishes this assertions totalSteps size degree G2 maps lEvaluations
    lCoefficients positions :
  Stark.verifySteps this assertions totalSteps size degree G2 maps lEvaluations
    lCoefficients positions <> Unfinished.
Proof.
  induction positions as [|step positions IH]; simpl; [discriminate|].
  apply bind_finishes; [apply verifyStep_finishes|]. intros _. exact IH.
Qed.

Lemma stark_verify_true (fuel : nat) (this : Stark.StarkObject)
    (assertions : list Stark.Assertion) (proof : Stark.StarkProof) (iterations : nat)
    (b : bool) :
  Stark.verify fuel this assertions proof iterations = Return b -> b = true.
Proof.
  unfold Stark.verify. destruct (decide _); [discriminate|].
  intros Hbind. invert_bind. congruence.
Qed.

Lemma stark_verify_finishes (fuel : nat) (this : Stark.StarkObject)
    (assertions : list Stark.Assertion) (proof : Stark.StarkProof) (iterations : nat) :
  LowDegreeProverJs.getRootOfUnityDegree fuel
    (Stark.getRootOfUnity (Stark.configSteps * iterations * Stark.thisExtensionFactor this))
  <> Unfinished ->
  Stark.verify fuel this assertions proof iterations <> Unfinished.
Proof.
  intros Hdegree. unfold Stark.verify. destruct (decide _); [discriminate|].
  apply bind_finishes; [apply tryVerifyBatch_finishes|]. intros _.
  apply bind_finishes; [apply tryVerifyBatch_finishes|]. intros _.
  apply bind_finishes.
  - pose proof (verify_finishes_ts fuel (Stark.dRoot (Stark.degree proof))
        (Stark.getLinearCombinationDegree this
           (Stark.configSteps * iterations * Stark.thisExtensionFactor this))
        _ Hdegree (Stark.ldProof (Stark.degree proof))) as Hld.
    destruct (LowDegreeProverTs.verify _ _ _ _ _) as [[b|e|] proof']; simpl in *;
      [discriminate|discriminate|congruence].
  - intros _. apply bind_finishes; [apply verifySteps_finishes|discriminate].
Qed.

(** C1. Neither version of [LowDegreeProver.verify], nor [Stark.verify],
    returns false: whatever the proof and the other inputs, a call that ends
    returns true or throws. The only loop without a bound is the one that
    squares the root of unity until it reaches 1; for a root of unity whose
    order is a power of two, as [field.getRootOfUnity] gives, the call
    ends. *)
Theorem verify_returns_true_or_throws (fuel k : nat) (rootOfUnity : Z)
    (proofJs : LowDegreeProverJs.LowDegreeProof) (lcValues : list Z)
    (exeQueryPositions : list nat) (maxDegreePlus1 : nat)
    (lRoot : Buffer) (proofTs : LowDegreeProverTs.LowDegreeProof)
    (this : Stark.StarkObject) (assertions : list Stark.Assertion)
    (proof : Stark.StarkProof) (iterations : nat) :
  let runJs := LowDegreeProverJs.verify fuel rootOfUnity proofJs lcValues
                 exeQueryPositions maxDegreePlus1 in
  let runTs := (LowDegreeProverTs.verify fuel lRoot maxDegreePlus1 rootOfUnity proofTs).1 in
  let run := Stark.verify fuel this assertions proof iterations in
  let G2 := Stark.getRootOfUnity
              (Stark.configSteps * iterations * Stark.thisExtensionFactor this) in
  (runJs <> Return false /\ runTs <> Return false /\ run <> Return false)
  /\ (squaresToOne k rootOfUnity -> k <= fuel ->
      (runJs = Return true \/ exists e, runJs = Throw e)
      /\ (runTs = Return true \/ exists e, runTs = Throw e))
  /\ (squaresToOne k G2 -> k <= fuel ->
      run = Return true \/ exists e, run = Throw e).
Proof.
  intros runJs runTs run G2. split; [|split].
  - split; [|split].
    + intros Hfalse. apply verify_true_js in Hfalse. discriminate.
    + intros Hfalse. apply verify_true_ts in Hfalse. discriminate.
    + intros Hfalse. apply stark_verify_true in Hfalse. discriminate.
  - intros Hone Hfuel.
    pose proof (getRootOfUnityDegree_finishes k fuel rootOfUnity 1 Hone Hfuel) as Hdegree.
    split; apply true_or_throws.
    + apply verify_finishes_js. exact Hdegree.
    + intros b. apply verify_true_js.
    + apply verify_finishes_ts. exact Hdegree.
    + intros b. apply verify_true_ts.
  - intros Hone Hfuel.
    pose proof (getRootOfUnityDegree_finishes k fuel G2 1 Hone Hfuel) as Hdegree.
    apply true_or_throws.
    + apply stark_verify_finishes. exact Hdegree.
    + intros b. apply stark_verify_true.
Qed.

End VerifyOutcome.

(** ** What [verify] does to the proof it is given (C9) *)

Section ProofMutation.
Context `{field : FiniteField} `{hash : Hash} `{merkle : Merkle}
        `{idxGenerator : QueryIndexGenerator}.

(** The earlier [verify] overwrites the proof: once the column values of the
    component at [depth] are parsed, the proof object holds their digests in
    their place, whatever the rest of the loop body does. *)
Lemma verifyComponent_ts_overwrites (quartic : list Z) (depth : nat)
    (st : LowDegreeProverTs.VerifierState) (proof : LowDegreeProverTs.LowDegreeProof)
    (c : FriComponent) (columnValues : list Z) :
  LowDegreeProverTs.components proof !! depth = Some (Some c) ->
  (let columnLength := LowDegreeProverTs.rouDegree st / 4 in
   let positions := getFriIndexes (columnRoot c) columnLength in
   LowDegreeProverTs.parseColumnValues (values (columnProof c)) positions
     (LowDegreeProverTs.getAugmentedPositions positions columnLength) columnLength
   = Return columnValues) ->
  columnProofValues depth (LowDegreeProverTs.verifyComponent quartic depth st proof).2
  = Some (LowDegreeProverTs.hashBuffers (values (columnProof c))).
Proof.
  intros Hc Hparse. cbv zeta in Hparse.
  unfold LowDegreeProverTs.verifyComponent.
  unfold mbind at 1, LowDegreeProverTs.Stateful_bind at 1.
  unfold LowDegreeProverTs.readComponent at 1. rewrite Hc.
  unfold mbind at 1, LowDegreeProverTs.Stateful_bind at 1.
  unfold LowDegreeProverTs.lift at 1. rewrite Hparse.
  unfold mbind at 1, LowDegreeProverTs.Stateful_bind at 1.
  unfold LowDegreeProverTs.writeColumnProofValues at 1.
  match goal with |- columnProofValues depth (?rest ?written).2 = _ =>
    assert (Hkeeps : keeps (columnProofValues depth) rest);
    [|rewrite (Hkeeps written)] end.
  - repeat first
      [ apply keeps_lift
      | apply keeps_read
      | apply columnProofValues_writePoly
      | apply keeps_bind; [|intros ?] ].
  - unfold columnProofValues. simpl. rewrite list_lookup_alter, Hc.
    case_decide; [reflexivity|congruence].
Qed.

End ProofMutation.

(** C9. The compiled [verify] works on copies of the Merkle proofs
    ([rehashMerkleProofValues]); the earlier [verify] assigns to
    [columnProof.values] and [polyProof.values]. On the proof the earlier
    prover builds for the 512 evaluations of the example, it returns true and
    leaves the column values of the component replaced by their digests;
    given the same proof object a second time, it throws. *)
Lemma verify_ts_overwrites_proof :
  let verify := LowDegreeProverTs.verify 9 (root (create Example.tree512)) 16 Example.g512 in
  let after := (verify Example.proofTs512).2 in
  (verify Example.proofTs512).1 = Return true
  /\ columnProofValues 0 after
     = LowDegreeProverTs.hashBuffers <$> columnProofValues 0 Example.proofTs512
  /\ columnProofValues 0 after <> columnProofValues 0 Example.proofTs512
  /\ (verify after).1 = Throw (StarkError (ColumnMerkleFailed 0)).
Proof.
  cbv zeta. split; [vm_compute; reflexivity|]. split; [vm_compute; reflexivity|].
  split; [vm_compute; discriminate|vm_compute; reflexivity].
Qed.

(** ** The fold check of the verifier (C2) *)

Section FoldCheck.
Context `{field : FiniteField} `{hash : Hash} `{merkle : Merkle}
        `{idxGenerator : QueryIndexGenerator}.

Lemma checkEvaluations_js_cases (depth : nat) (pEvaluations columnValues : list Z) :
  (LowDegreeProverJs.checkEvaluations depth pEvaluations columnValues = Return tt
   /\ forall i e, pEvaluations !! i = Some e -> columnValues !! i = Some e)
  \/ (LowDegreeProverJs.checkEvaluations depth pEvaluations columnValues
      = Throw (StarkError (Degree4Mismatch depth))
      /\ exists i e, pEvaluations !! i = Some e /\ columnValues !! i <> Some e).
Proof.
  revert columnValues; induction pEvaluations as [|e0 pEvaluations IH];
    intros columnValues; cbn [LowDegreeProverJs.checkEvaluations].
  - left. split; [reflexivity|]. intros i e Hi. discriminate.
  - destruct (decide _) as [Hhead|Hhead].
    + destruct columnValues as [|v columnValues]; [discriminate|].
      simpl in Hhead. injection Hhead as ->. simpl tail.
      destruct (IH columnValues) as [[Hrun Hall]|[Hrun (i & e & Hi & Hne)]].
      * left. split; [exact Hrun|]. intros [|i] e; simpl; [congruence|apply Hall].
      * right. split; [exact Hrun|]. exists (S i), e. split; assumption.
    + right. split; [reflexivity|]. exists 0, e0. split; [reflexivity|].
      destruct columnValues; simpl in *; congruence.
Qed.

Lemma checkEvaluations_ts_js (depth : nat) (specialX : Z) (polys : list (list Z))
    (columnValues : list Z) :
  LowDegreeProverTs.checkEvaluations depth specialX polys columnValues
  = LowDegreeProverJs.checkEvaluations depth
      (map (fun poly => evalPolyAt poly specialX) polys) columnValues.
Proof.
  revert columnValues; induction polys as [|poly polys IH]; intros columnValues;
    simpl; [reflexivity|].
  destruct (decide _); [apply IH|reflexivity].
Qed.

Lemma parseColumnValues_throws (buffers : list Buffer)
    (positions augmentedPositions : list nat) (columnLength : nat) (e : Error) :
  LowDegreeProverJs.parseColumnValues buffers positions augmentedPositions columnLength
  = Throw e -> isStarkError e = false.
Proof.
  induction positions as [|p positions IH]; simpl; [discriminate|].
  unfold LowDegreeProverJs.parseColumnValue.
  destruct (LowDegreeProverJs.columnBuffer _ _ _ _) as [buffer|]; cbn [mbind Outcome_bind].
  - destruct (readBigInt buffer _ _) as [value|e'|] eqn:Hread; cbn [mbind Outcome_bind].
    + destruct (LowDegreeProverJs.parseColumnValues _ _ _ _) as [values|e'|];
        cbn [mbind Outcome_bind]; [discriminate| |discriminate].
      intros [= <-]. apply IH. reflexivity.
    + intros [= <-]. apply readBigInt_Throw in Hread as [_ ->]. reflexivity.
    + discriminate.
  - intros [= <-]. reflexivity.
Qed.

Lemma parsePolyValues_throws (buffers : list Buffer) (e : Error) :
  LowDegreeProverJs.parsePolyValues buffers = Throw e -> isStarkError e = false.
Proof. intros Hthrow. apply parsePolyValues_Throw in Hthrow as [-> _]. reflexivity. Qed.

Lemma interpolateQuarticBatch_throws (xs ys : Matrix) (e : Error) :
  interpolateQuarticBatch xs ys = Throw e ->
  isStarkError e = false /\ length ys < length xs.
Proof.
  revert ys; induction xs as [|x xs IH]; intros ys; simpl; [discriminate|].
  destruct ys as [|y ys].
  - intros [= <-]. split; [reflexivity|simpl; lia].
  - destruct (interpolateQuarticBatch xs ys) as [polys|e'|] eqn:Hrest;
      cbn [mbind Outcome_bind]; [discriminate| |discriminate].
    intros [= <-]. destruct (IH ys Hrest). split; [assumption|simpl; lia].
Qed.

(** The evaluations the verifier compares with the column values: for the
    i-th queried position, the polynomial interpolated from the i-th row of
    revealed values on the x coordinates of the position, evaluated at the
    pseudo-random x. *)
Lemma interpolated_lookup (eval : list Z -> Z) (quartic : list Z) (w : Z)
    (positions : list nat) (polyValues : Matrix) (polys : list (list Z)) :
  interpolateQuarticBatch (map (LowDegreeProverJs.rowXs quartic w) positions) polyValues
  = Return polys ->
  length positions <= length polyValues
  /\ forall i e, map eval polys !! i = Some e <->
       exists position ys, positions !! i = Some position /\ polyValues !! i = Some ys
         /\ e = eval (interpolateQuartic (LowDegreeProverJs.rowXs quartic w position) ys).
Proof.
  intros Hpolys. apply interpolateQuarticBatch_Return in Hpolys as (Hlen & -> & _).
  rewrite length_map in Hlen. split; [exact Hlen|]. intros i e. map_to_fmap.
  rewrite list_lookup_fmap, lookup_zip_with, list_lookup_fmap.
  destruct (positions !! i) as [position|] eqn:Hposition; simpl.
  - destruct (polyValues !! i) as [ys|] eqn:Hys; simpl.
    + split.
      * intros [= <-]. eauto.
      * intros (position' & ys' & [= <-] & [= <-] & ->). reflexivity.
    + split; [discriminate|]. intros (? & ? & _ & ? & _); discriminate.
  - split; [discriminate|]. intros (? & ? & ? & _); discriminate.
Qed.

(** The checks of the loop body, in the order of the code: the error of the
    fold check at [depth] is thrown exactly when the steps before it pass and
    the evaluation differs from the column value at a queried position. *)
Lemma foldCheck_mismatch (eval : list Z -> Z) (quartic : list Z) (w : Z) (depth : nat)
    (parsed : Outcome (list Z)) (parsedPoly : Outcome Matrix)
    (columnOk polyOk : string + bool) (positions : list nat) :
  (forall e, parsed = Throw e -> isStarkError e = false) ->
  (forall e, parsedPoly = Throw e -> isStarkError e = false) ->
  (columnValues ← parsed;
   ok ← called columnOk;
   _ ← assertStark ok (ColumnMerkleFailed depth);
   polyValues ← parsedPoly;
   ok ← called polyOk;
   _ ← assertStark ok (PolynomialMerkleFailed depth);
   polys ← interpolateQuarticBatch (map (LowDegreeProverJs.rowXs quartic w) positions)
             polyValues;
   LowDegreeProverJs.checkEvaluations depth (map eval polys) columnValues)
  = Throw (StarkError (Degree4Mismatch depth))
  <-> exists columnValues polyValues,
        parsed = Return columnValues
        /\ columnOk = inr true
        /\ parsedPoly = Return polyValues
        /\ polyOk = inr true
        /\ length positions <= length polyValues
        /\ exists i position ys,
             positions !! i = Some position /\ polyValues !! i = Some ys
             /\ columnValues !! i
                <> Some (eval (interpolateQuartic
                                 (LowDegreeProverJs.rowXs quartic w position) ys)).
Proof.
  intros Hparsed HparsedPoly.
  destruct parsed as [columnValues|e|]; cbn [mbind Outcome_bind].
  2: { specialize (Hparsed e eq_refl).
       split; [intros [= ->]; discriminate|intros (? & ? & ? & _); discriminate]. }
  2: { split; [discriminate|intros (? & ? & ? & _); discriminate]. }
  destruct columnOk as [msg|[|]];
    cbn [called assertStark throwStark mbind Outcome_bind];
    [split; [discriminate|intros (? & ? & _ & ? & _); discriminate]
    | |split; [discriminate|intros (? & ? & _ & ? & _); discriminate]].
  destruct parsedPoly as [polyValues|e|]; cbn [mbind Outcome_bind].
  2: { specialize (HparsedPoly e eq_refl).
       split; [intros [= ->]; discriminate|intros (? & ? & _ & _ & ? & _); discriminate]. }
  2: { split; [discriminate|intros (? & ? & _ & _ & ? & _); discriminate]. }
  destruct polyOk as [msg|[|]];
    cbn [called assertStark throwStark mbind Outcome_bind];
    [split; [discriminate|intros (? & ? & _ & _ & _ & ? & _); discriminate]
    | |split; [discriminate|intros (? & ? & _ & _ & _ & ? & _); discriminate]].
  destruct (interpolateQuarticBatch _ _) as [polys|e|] eqn:Hpolys;
    cbn [mbind Outcome_bind].
  - apply (interpolated_lookup eval) in Hpolys as [Hlen Hlookup].
    destruct (checkEvaluations_js_cases depth (map eval polys) columnValues)
      as [[-> Hall]|[-> (i & e & Hi & Hne)]].
    + split; [discriminate|].
      intros (columnValues' & polyValues' & [= <-] & _ & [= <-] & _ & _
              & i & position & ys & Hp & Hys & Hne).
      exfalso. apply Hne. apply Hall. apply Hlookup. eauto.
    + split; [|reflexivity]. intros _. exists columnValues, polyValues.
      repeat split; try assumption.
      apply Hlookup in Hi as (position & ys & Hp & Hys & ->).
      exists i, position, ys. repeat split; assumption.
  - apply interpolateQuarticBatch_throws in Hpolys as [Hother Hshort].
    split; [intros [= ->]; discriminate|].
    intros (? & ? & _ & _ & [= <-] & _ & Hlen & _).
    rewrite length_map in Hshort. lia.
  - exfalso. exact (interpolateQuarticBatch_finishes _ _ Hpolys).
Qed.

Lemma verifyComponent_mismatch_js (quartic : list Z) (depth : nat)
    (st : LowDegreeProverJs.VerifierState) (c : FriComponent) :
  let positions := getFriIndexes (columnRoot c) (LowDegreeProverJs.columnLength st) in
  let augmentedPositions :=
    LowDegreeProverJs.getAugmentedPositions positions (LowDegreeProverJs.columnLength st) in
  let specialX := prng (LowDegreeProverJs.pRoot st) in
  LowDegreeProverJs.verifyComponent quartic depth st c
  = Throw (StarkError (Degree4Mismatch depth))
  <-> exists columnValues polyValues,
        LowDegreeProverJs.parseColumnValues (values (columnProof c)) positions
          augmentedPositions (LowDegreeProverJs.columnLength st) = Return columnValues
        /\ verifyBatch (columnRoot c) augmentedPositions
             (rehashMerkleProofValues (columnProof c)) = inr true
        /\ LowDegreeProverJs.parsePolyValues (values (polyProof c)) = Return polyValues
        /\ verifyBatch (LowDegreeProverJs.pRoot st) positions
             (rehashMerkleProofValues (polyProof c)) = inr true
        /\ length positions <= length polyValues
        /\ exists i position ys,
             positions !! i = Some position /\ polyValues !! i = Some ys
             /\ columnValues !! i
                <> Some (evalQuartic
                           (interpolateQuartic
                              (LowDegreeProverJs.rowXs quartic
                                 (LowDegreeProverJs.rootOfUnity st) position) ys)
                           specialX).
Proof.
  cbv zeta.
  rewrite <- (foldCheck_mismatch
                (fun poly => evalQuartic poly (prng (LowDegreeProverJs.pRoot st))))
    by (first [apply parseColumnValues_throws|apply parsePolyValues_throws]).
  unfold LowDegreeProverJs.verifyComponent, LowDegreeProverJs.rowEvaluations,
    evalQuarticBatch.
  destruct (LowDegreeProverJs.parseColumnValues _ _ _ _); cbn [mbind Outcome_bind];
    [|reflexivity|reflexivity].
  destruct (called (verifyBatch (columnRoot c) _ _)) as [ok| |];
    cbn [mbind Outcome_bind]; [|reflexivity|reflexivity].
  destruct (assertStark ok _); cbn [mbind Outcome_bind]; [|reflexivity|reflexivity].
  destruct (LowDegreeProverJs.parsePolyValues _); cbn [mbind Outcome_bind];
    [|reflexivity|reflexivity].
  destruct (called (verifyBatch (LowDegreeProverJs.pRoot st) _ _)) as [ok'| |];
    cbn [mbind Outcome_bind]; [|reflexivity|reflexivity].
  destruct (assertStark ok' _); cbn [mbind Outcome_bind]; [|reflexivity|reflexivity].
  destruct (interpolateQuarticBatch _ _); reflexivity.
Qed.

(** The same for the earlier verifier, which evaluates with [evalPolyAt]. *)
Lemma verifyComponent_mismatch_ts (quartic : list Z) (depth : nat)
    (st : LowDegreeProverTs.VerifierState) (proof : LowDegreeProverTs.LowDegreeProof) :
  (LowDegreeProverTs.verifyComponent quartic depth st proof).1
  = Throw (StarkError (Degree4Mismatch depth))
  <-> exists c columnValues ys,
        let columnLength := LowDegreeProverTs.rouDegree st / 4 in
        let positions := getFriIndexes (columnRoot c) columnLength in
        let augmentedPositions :=
          LowDegreeProverTs.getAugmentedPositions positions columnLength in
        let specialX := prng (LowDegreeProverTs.lRoot st) in
        LowDegreeProverTs.components proof !! depth = Some (Some c)
        /\ LowDegreeProverTs.parseColumnValues (values (columnProof c)) positions
             augmentedPositions columnLength = Return columnValues
        /\ verifyBatch (columnRoot c) augmentedPositions
             (rehashMerkleProofValues (columnProof c)) = inr true
        /\ LowDegreeProverTs.parsePolyValues (values (polyProof c)) = Return ys
        /\ verifyBatch (LowDegreeProverTs.lRoot st) positions
             (rehashMerkleProofValues (polyProof c)) = inr true
        /\ length positions <= length ys
        /\ exists i position row,
             positions !! i = Some position /\ ys !! i = Some row
             /\ columnValues !! i
                <> Some (evalPolyAt
                           (interpolateQuartic
                              (LowDegreeProverJs.rowXs quartic
                                 (LowDegreeProverTs.rootOfUnity st) position) row)
                           specialX).
Proof.
  cbv zeta.
  destruct (LowDegreeProverTs.components proof !! depth) as [[c|]|] eqn:Hc.
  - rewrite (verifyComponent_ts_outcome quartic depth st proof c Hc). cbv zeta.
    assert (Hchain : forall (parsed : Outcome (list Z)) (parsedPoly : Outcome Matrix)
                       columnOk polyOk (batch : Matrix -> Outcome (list (list Z))) specialX,
      (columnValues ← parsed; ok ← called columnOk;
       _ ← assertStark ok (ColumnMerkleFailed depth);
       ys ← parsedPoly;
       ok ← called polyOk; _ ← assertStark ok (PolynomialMerkleFailed depth);
       polys ← batch ys;
       LowDegreeProverTs.checkEvaluations depth specialX polys columnValues)
      = (columnValues ← parsed; ok ← called columnOk;
         _ ← assertStark ok (ColumnMerkleFailed depth);
         ys ← parsedPoly;
         ok ← called polyOk; _ ← assertStark ok (PolynomialMerkleFailed depth);
         polys ← batch ys;
         LowDegreeProverJs.checkEvaluations depth
           (map (fun poly => evalPolyAt poly specialX) polys) columnValues)).
    { intros parsed parsedPoly columnOk polyOk batch specialX.
      destruct parsed; cbn [mbind Outcome_bind]; [|reflexivity|reflexivity].
      destruct (called columnOk) as [ok| |]; cbn [mbind Outcome_bind];
        [|reflexivity|reflexivity].
      destruct (assertStark ok _); cbn [mbind Outcome_bind]; [|reflexivity|reflexivity].
      destruct parsedPoly as [ys| |]; cbn [mbind Outcome_bind]; [|reflexivity|reflexivity].
      destruct (called polyOk) as [ok'| |]; cbn [mbind Outcome_bind];
        [|reflexivity|reflexivity].
      destruct (assertStark ok' _); cbn [mbind Outcome_bind]; [|reflexivity|reflexivity].
      destruct (batch ys); cbn [mbind Outcome_bind]; [|reflexivity|reflexivity].
      apply checkEvaluations_ts_js. }
    rewrite (Hchain _ _ _ _
               (fun ys => interpolateQuarticBatch
                            (map (LowDegreeProverJs.rowXs quartic
                                    (LowDegreeProverTs.rootOfUnity st))
                                 (getFriIndexes (columnRoot c)
                                    (LowDegreeProverTs.rouDegree st / 4))) ys)).
    rewrite (foldCheck_mismatch
               (fun poly => evalPolyAt poly (prng (LowDegreeProverTs.lRoot st))))
      by (first [apply parseColumnValues_throws|apply parsePolyValues_throws]).
    split.
    + intros (columnValues & ys & Hrest). exists c, columnValues, ys.
      split; [reflexivity|exact Hrest].
    + intros (c' & columnValues & ys & [= <-] & Hrest). exists columnValues, ys.
      exact Hrest.
  - rewrite verifyComponent_ts_hole by (intros c; congruence).
    split; [discriminate|]. intros (c & ? & ? & ? & _). congruence.
  - rewrite verifyComponent_ts_hole by (intros c; congruence).
    split; [discriminate|]. intros (c & ? & ? & ? & _). congruence.
Qed.

End FoldCheck.

Lemma noMismatch_bind {A B} (m : Outcome A) (f : A -> Outcome B) :
  noMismatch m -> (forall a, m = Return a -> noMismatch (f a)) -> noMismatch (m ≫= f).
Proof.
  intros Hm Hf k. destruct m as [a|e|]; cbn [mbind Outcome_bind].
  - apply Hf. reflexivity.
  - intros [= ->]. exact (Hm k eq_refl).
  - discriminate.
Qed.

Lemma noMismatch_other {A} (m : Outcome A) :
  (forall e, m = Throw e -> isStarkError e = false) -> noMismatch m.
Proof. intros Hm k Hk. specialize (Hm _ Hk). discriminate. Qed.

Lemma noMismatch_called {A} (result : string + A) : noMismatch (called result).
Proof. intros k. destruct result; discriminate. Qed.

Lemma noMismatch_assert (ok : bool) (message : Message) :
  (forall k, message <> Degree4Mismatch k) -> noMismatch (assertStark ok message).
Proof.
  intros Hmessage k. destruct ok; [discriminate|].
  intros [= ->]. exact (Hmessage k eq_refl).
Qed.

Lemma noMismatch_getValue (v : Vector) (i : nat) : noMismatch (getValue v i).
Proof. intros k. unfold getValue. destruct (v !! i); discriminate. Qed.

Section NoMismatch.
Context `{field : FiniteField} `{hash : Hash} `{merkle : Merkle}
        `{idxGenerator : QueryIndexGenerator}.

Lemma noMismatch_parseColumnValues (buffers : list Buffer)
    (positions augmentedPositions : list nat) (columnLength : nat) :
  noMismatch (LowDegreeProverJs.parseColumnValues buffers positions augmentedPositions
                columnLength).
Proof. apply noMismatch_other. apply parseColumnValues_throws. Qed.

Lemma noMismatch_checkLinearCombination (lcValues lcChecks : list Z) :
  noMismatch (LowDegreeProverJs.checkLinearCombination lcValues lcChecks).
Proof.
  revert lcChecks; induction lcValues as [|v lcValues IH]; intros lcChecks k;
    cbn [LowDegreeProverJs.checkLinearCombination]; [discriminate|].
  destruct (decide _); [apply IH|discriminate].
Qed.

Lemma noMismatch_remainderPoints (domain remainder : Vector) (positions : list nat)
    (count : nat) :
  noMismatch (LowDegreeProverJs.remainderPoints domain remainder positions count).
Proof.
  revert positions; induction count as [|count IH]; intros positions;
    cbn [LowDegreeProverJs.remainderPoints]; [discriminate|].
  destruct positions as [|p positions]; [discriminate|].
  apply noMismatch_bind; [apply noMismatch_getValue|]. intros x _.
  apply noMismatch_bind; [apply noMismatch_getValue|]. intros y _.
  apply noMismatch_bind; [apply IH|]. intros [xs ys] _. discriminate.
Qed.

Lemma noMismatch_checkRemainder (poly : list Z) (domain remainder : Vector) (d : nat)
    (positions : list nat) :
  noMismatch (LowDegreeProverJs.checkRemainder poly domain remainder d positions).
Proof.
  induction positions as [|p positions IH]; cbn [LowDegreeProverJs.checkRemainder];
    [discriminate|].
  apply noMismatch_bind; [apply noMismatch_getValue|]. intros x _.
  apply noMismatch_bind; [apply noMismatch_getValue|]. intros y _.
  destruct (decide _); [discriminate|apply IH].
Qed.

Lemma noMismatch_verifyRemainder (remainder : Vector) (d : nat) (w : Z) :
  noMismatch (LowDegreeProverJs.verifyRemainder remainder d w).
Proof.
  unfold LowDegreeProverJs.verifyRemainder.
  apply noMismatch_bind; [apply noMismatch_remainderPoints|]. intros [xs ys] _.
  apply noMismatch_checkRemainder.
Qed.

Lemma noMismatch_getRootOfUnityDegree (fuel : nat) (r : Z) :
  noMismatch (LowDegreeProverJs.getRootOfUnityDegree fuel r).
Proof.
  unfold LowDegreeProverJs.getRootOfUnityDegree. generalize 1 as result. revert r.
  induction fuel as [|fuel IH]; intros r result k;
    cbn [LowDegreeProverJs.getRootOfUnityDegreeFrom];
    destruct (decide _); try discriminate. apply IH.
Qed.

Lemma checkEvaluations_same (depth : nat) (columnValues : list Z) :
  LowDegreeProverJs.checkEvaluations depth columnValues columnValues = Return tt.
Proof.
  induction columnValues as [|v columnValues IH]; [reflexivity|].
  cbn [LowDegreeProverJs.checkEvaluations head tail].
  rewrite decide_True by reflexivity. exact IH.
Qed.

(** Where the fold check holds, the loop body of the compiled verifier does
    not throw its error. *)
Lemma verifyComponent_holds_js (quartic : list Z) (depth : nat)
    (st : LowDegreeProverJs.VerifierState) (c : FriComponent) :
  foldHolds quartic st c -> noMismatch (LowDegreeProverJs.verifyComponent quartic depth st c).
Proof.
  intros (columnValues & polyValues & Hparse & Hpoly & Hevals).
  unfold LowDegreeProverJs.verifyComponent.
  rewrite Hparse, Hpoly. cbn [mbind Outcome_bind].
  apply noMismatch_bind; [apply noMismatch_called|]. intros ok _.
  apply noMismatch_bind; [apply noMismatch_assert; discriminate|]. intros _ _.
  apply noMismatch_bind; [apply noMismatch_called|]. intros ok' _.
  apply noMismatch_bind; [apply noMismatch_assert; discriminate|]. intros _ _.
  rewrite Hevals. cbn [mbind Outcome_bind].
  rewrite checkEvaluations_same. discriminate.
Qed.

Lemma verifyComponents_holds_js (quartic : list Z) (comps : list FriComponent) :
  forall depth st,
  Forall (fun sc => foldHolds quartic sc.1 sc.2) (verifierStates st comps) ->
  noMismatch (LowDegreeProverJs.verifyComponents quartic depth st (map Some comps)).
Proof.
  induction comps as [|c comps IH]; intros depth st Hall;
    cbn [map LowDegreeProverJs.verifyComponents]; [discriminate|].
  cbn [verifierStates] in Hall. apply Forall_cons in Hall as [Hc Hall].
  apply noMismatch_bind; [apply verifyComponent_holds_js; exact Hc|]. intros _ _.
  apply IH. exact Hall.
Qed.

Lemma noMismatch_verifyLastLayer_js (st : LowDegreeProverJs.VerifierState)
    (remainder : list Z) :
  noMismatch (LowDegreeProverJs.verifyLastLayer st remainder).
Proof.
  unfold LowDegreeProverJs.verifyLastLayer.
  apply noMismatch_bind; [apply noMismatch_assert; discriminate|]. intros _ _.
  apply noMismatch_bind; [apply noMismatch_assert; discriminate|]. intros _ _.
  apply noMismatch_bind; [apply noMismatch_verifyRemainder|]. intros _ _. discriminate.
Qed.

(** On components the fold check holds for, the compiled [verify] does not
    throw the error of the fold check. *)
Lemma verify_holds_js (fuel : nat) (r : Z) (proof : LowDegreeProverJs.LowDegreeProof)
    (lcValues : list Z) (exeQueryPositions : list nat) (d columnLength : nat)
    (comps : list FriComponent) :
  LowDegreeProverJs.getRootOfUnityDegree fuel r = Return columnLength ->
  LowDegreeProverJs.components proof = map Some comps ->
  Forall (fun sc => foldHolds (LowDegreeProverJs.quarticRootsOfUnity r columnLength)
                      sc.1 sc.2)
         (verifierStates
            {| LowDegreeProverJs.pRoot := LowDegreeProverJs.lcRoot proof;
               LowDegreeProverJs.rootOfUnity := r;
               LowDegreeProverJs.maxDegreePlus1 := d;
               LowDegreeProverJs.columnLength := columnLength / 4 |} comps) ->
  noMismatch (LowDegreeProverJs.verify fuel r proof lcValues exeQueryPositions d).
Proof.
  intros Hdegree Hcomps Hall. unfold LowDegreeProverJs.verify.
  rewrite Hdegree, Hcomps. cbn [mbind Outcome_bind].
  apply noMismatch_bind; [apply noMismatch_parseColumnValues|]. intros lcChecks _.
  apply noMismatch_bind; [apply noMismatch_called|]. intros ok _.
  apply noMismatch_bind; [apply noMismatch_assert; discriminate|]. intros _ _.
  apply noMismatch_bind; [apply noMismatch_checkLinearCombination|]. intros _ _.
  apply noMismatch_bind; [apply verifyComponents_holds_js; exact Hall|]. intros st _.
  apply noMismatch_verifyLastLayer_js.
Qed.

Lemma noMismatch_verifyLastLayer_ts (st : LowDegreeProverTs.VerifierState)
    (remainder : list Buffer) :
  noMismatch (LowDegreeProverTs.verifyLastLayer st remainder).
Proof.
  unfold LowDegreeProverTs.verifyLastLayer.
  apply noMismatch_bind; [apply noMismatch_assert; discriminate|]. intros _ _.
  apply noMismatch_bind; [apply noMismatch_assert; discriminate|]. intros _ _.
  apply noMismatch_bind; [apply noMismatch_verifyRemainder|]. intros _ _. discriminate.
Qed.

(** Where the fold check holds, the loop body of the earlier verifier does
    not throw its error. *)
Lemma verifyComponent_holds_ts (quartic : list Z) (depth : nat)
    (st : LowDegreeProverTs.VerifierState) (proof : LowDegreeProverTs.LowDegreeProof)
    (c : FriComponent) :
  LowDegreeProverTs.components proof !! depth = Some (Some c) ->
  foldHoldsTs quartic st c ->
  noMismatch (LowDegreeProverTs.verifyComponent quartic depth st proof).1.
Proof.
  intros Hc (columnValues & ys & polys & Hparse & Hys & Hpolys & Hevals).
  rewrite (verifyComponent_ts_outcome quartic depth st proof c Hc). cbv zeta.
  rewrite Hparse, Hys. cbn [mbind Outcome_bind].
  apply noMismatch_bind; [apply noMismatch_called|]. intros ok _.
  apply noMismatch_bind; [apply noMismatch_assert; discriminate|]. intros _ _.
  apply noMismatch_bind; [apply noMismatch_called|]. intros ok' _.
  apply noMismatch_bind; [apply noMismatch_assert; discriminate|]. intros _ _.
  rewrite Hpolys. cbn [mbind Outcome_bind].
  rewrite checkEvaluations_ts_js, Hevals, checkEvaluations_same. discriminate.
Qed.

Lemma verifyComponents_holds_ts (quartic : list Z) (comps : list FriComponent) :
  forall depth st proof,
  componentsFrom depth proof = map Some comps ->
  Forall (fun sc => foldHoldsTs quartic sc.1 sc.2) (verifierStatesTs st comps) ->
  noMismatch (LowDegreeProverTs.verifyComponents quartic (length comps) depth st proof).1.
Proof.
  induction comps as [|c comps IH]; intros depth st proof Hfrom Hall;
    cbn [length LowDegreeProverTs.verifyComponents]; [discriminate|].
  cbn [verifierStatesTs] in Hall. apply Forall_cons in Hall as [Hholds Hall].
  unfold componentsFrom in Hfrom.
  assert (Hc : LowDegreeProverTs.components proof !! depth = Some (Some c)).
  { rewrite <- (Nat.add_0_r depth), <- lookup_drop, Hfrom. reflexivity. }
  pose proof (verifyComponent_holds_ts quartic depth st proof c Hc Hholds) as Hbody.
  pose proof (verifyComponent_keeps columnRoots quartic depth st
                (columnRoots_writeColumn depth) (columnRoots_writePoly depth) proof)
    as Hroots.
  pose proof (verifyComponent_keeps (componentsFrom (depth + 1)) quartic depth st
                (fun v => componentsFrom_writeColumn (depth + 1) depth v ltac:(lia))
                (fun v => componentsFrom_writePoly (depth + 1) depth v ltac:(lia)) proof)
    as Hkept.
  unfold mbind at 1, LowDegreeProverTs.Stateful_bind at 1.
  destruct (LowDegreeProverTs.verifyComponent quartic depth st proof)
    as [[[]|e|] proof1]; cbn [fst snd] in *;
    [|intros k [= ->]; exact (Hbody k eq_refl)|discriminate].
  assert (Hc' : exists c', LowDegreeProverTs.components proof1 !! depth = Some (Some c')
                           /\ columnRoot c' = columnRoot c).
  { assert (Hlookup : columnRoots proof1 !! depth = Some (Some (columnRoot c))).
    { rewrite Hroots. unfold columnRoots. rewrite list_lookup_fmap, Hc. reflexivity. }
    unfold columnRoots in Hlookup. rewrite list_lookup_fmap in Hlookup.
    destruct (LowDegreeProverTs.components proof1 !! depth) as [[c'|]|];
      try discriminate.
    injection Hlookup as Hlookup. eauto. }
  destruct Hc' as (c' & Hc' & Hroot).
  unfold mbind at 1, LowDegreeProverTs.Stateful_bind at 1.
  unfold LowDegreeProverTs.readComponent at 1. rewrite Hc'.
  replace (LowDegreeProverTs.nextState st c') with (LowDegreeProverTs.nextState st c)
    by (unfold LowDegreeProverTs.nextState; rewrite Hroot; reflexivity).
  apply IH; [|exact Hall].
  rewrite Hkept. unfold componentsFrom.
  rewrite <- drop_drop, Hfrom. reflexivity.
Qed.

(** On components the fold check holds for, the earlier [verify] does not
    throw the error of the fold check. *)
Lemma verify_holds_ts (fuel : nat) (lRoot : Buffer) (d : nat) (r : Z)
    (proof : LowDegreeProverTs.LowDegreeProof) (rouDegree : nat)
    (comps : list FriComponent) :
  LowDegreeProverTs.computeRootOfUnityDegree fuel r = Return rouDegree ->
  LowDegreeProverTs.components proof = map Some comps ->
  Forall (fun sc => foldHoldsTs (LowDegreeProverJs.quarticRootsOfUnity r rouDegree)
                      sc.1 sc.2)
         (verifierStatesTs
            {| LowDegreeProverTs.lRoot := lRoot;
               LowDegreeProverTs.rootOfUnity := r;
               LowDegreeProverTs.maxDegreePlus1 := d;
               LowDegreeProverTs.rouDegree := rouDegree |} comps) ->
  noMismatch (LowDegreeProverTs.verify fuel lRoot d r proof).1.
Proof.
  intros Hdegree Hcomps Hall. unfold LowDegreeProverTs.verify.
  unfold mbind at 1, LowDegreeProverTs.Stateful_bind at 1.
  unfold LowDegreeProverTs.lift at 1. rewrite Hdegree.
  unfold mbind at 1, LowDegreeProverTs.Stateful_bind at 1.
  unfold LowDegreeProverTs.getProof at 1.
  unfold mbind at 1, LowDegreeProverTs.Stateful_bind at 1.
  rewrite Hcomps, length_map.
  pose proof (verifyComponents_holds_ts _ comps 0 _ proof Hcomps Hall) as Hloop.
  destruct (LowDegreeProverTs.verifyComponents _ _ _ _ proof) as [[st|e|] proof1];
    cbn [fst snd] in *; [|intros k [= ->]; exact (Hloop k eq_refl)|discriminate].
  unfold mbind at 1, LowDegreeProverTs.Stateful_bind at 1.
  unfold LowDegreeProverTs.getProof at 1. unfold LowDegreeProverTs.lift. cbn [fst].
  apply noMismatch_verifyLastLayer_ts.
Qed.

End NoMismatch.

Lemma transposeVector_Forall (P : Z -> Prop) (v : Vector) :
  Forall P v -> Forall (Forall P) (transposeVector v 4 1).
Proof.
  intros Hv. unfold transposeVector. rewrite Nat.div_1_r.
  apply Forall_forall. intros row Hrow.
  apply list_elem_of_fmap in Hrow as [i [-> Hi]]. apply elem_of_seq in Hi.
  apply Forall_forall. intros x Hx.
  apply list_elem_of_fmap in Hx as [j [-> Hj]]. apply elem_of_seq in Hj.
  pose proof (Nat.Div0.mul_div_le (length v) 4) as Hle.
  assert (Hlt : (i + j * (length v / 4)) * 1 < length v) by nia.
  destruct (lookup_lt_is_Some_2 v _ Hlt) as [x Hx].
  rewrite (nth_lookup_Some _ _ 0%Z _ Hx).
  exact (Forall_lookup_1 _ _ _ _ Hv Hx).
Qed.

Lemma zip_with_map_diag {A B C D} (f : B -> C -> D) (g : A -> B) (h : A -> C)
    (l : list A) :
  zip_with f (map g l) (map h l) = map (fun x => f (g x) (h x)) l.
Proof. induction l as [|x l IH]; simpl; [reflexivity|]. rewrite IH. reflexivity. Qed.

Section FoldConsistency.
Context `{field : FiniteField} `{hash : Hash} `{merkle : Merkle}
        `{idxGenerator : QueryIndexGenerator}.
Variable inField : Z -> Prop.
Variable g : Z.
Hypothesis Hcontract : foldContract inField g.

(** The verifier reads back the rows the prover reveals. *)
Lemma parsePolyValues_rows (polyValues : Matrix) (positions : list nat)
    (buffers : list Buffer) :
  Forall (fun row => length row = 4) polyValues ->
  Forall (Forall inField) polyValues ->
  rowsToBuffers polyValues positions = Return buffers ->
  Forall (fun p => p < length polyValues) positions
  /\ LowDegreeProverJs.parsePolyValues buffers
     = Return (map (fun p => nth p polyValues []) positions).
Proof.
  destruct Hcontract as (_ & _ & _ & _ & _ & _ & Hread & _).
  intros Hrows Hfield. revert buffers.
  induction positions as [|p positions IH]; intros buffers; simpl.
  - intros [= <-]. split; [constructor|reflexivity].
  - destruct (polyValues !! p) as [row|] eqn:Hrow; [|discriminate].
    intros Hbind. invert_bind. subst buffers.
    match goal with Hrest : rowsToBuffers _ _ = Return ?bs |- _ =>
      destruct (IH bs Hrest) as [Hlt Hparsed] end.
    split.
    + constructor; [|exact Hlt]. eapply lookup_lt_Some. exact Hrow.
    + unfold LowDegreeProverJs.parsePolyValues in *. cbn [map forEach].
      rewrite Hparsed.
      rewrite (nth_lookup_Some _ _ [] _ Hrow).
      pose proof (Forall_lookup_1 _ _ _ _ Hrows Hrow) as Hlength.
      pose proof (Forall_lookup_1 _ _ _ _ Hfield Hrow) as Hin.
      destruct row as [|x0 [|x1 [|x2 [|x3 [|]]]]]; try discriminate.
      cbn [seq forEach].
      rewrite (Hread _ 0 x0), (Hread _ 1 x1), (Hread _ 2 x2), (Hread _ 3 x3)
        by (try assumption; reflexivity).
      reflexivity.
Qed.

(** The verifier reads the values of the column at the queried positions
    from the rows of the next layer the prover reveals. *)
Lemma parseColumnValues_column (column : Vector) (positions : list nat)
    (buffers : list Buffer) :
  0 < length column -> (4 | length column) -> Forall inField column ->
  Forall (fun p => p < length column) positions ->
  let augmentedPositions :=
    LowDegreeProverJs.getAugmentedPositions positions (length column) in
  rowsToBuffers (transposeVector column 4 1) augmentedPositions = Return buffers ->
  LowDegreeProverJs.parseColumnValues buffers positions augmentedPositions (length column)
  = Return (map (fun p => nth p column 0%Z) positions).
Proof.
  destruct Hcontract as (_ & _ & _ & _ & _ & _ & Hread & _).
  intros Hpos Hdiv Hfield Hrange augmentedPositions Hbuffers.
  assert (Haug : augmentedPositions
                 = firstOccurrences (map (fun p => p mod (length column / 4)) positions)).
  { unfold augmentedPositions. rewrite getAugmentedPositions_firstOccurrences.
    f_equal. apply map_ext. intros p. apply floorModRow_divisible; assumption. }
  assert (Hnd : NoDup augmentedPositions) by (rewrite Haug; apply NoDup_firstOccurrences).
  apply rowsToBuffers_lookup in Hbuffers as [_ Hbuffers].
  assert (Hall : forall ps, Forall (fun p => p ∈ positions) ps ->
            LowDegreeProverJs.parseColumnValues buffers ps augmentedPositions (length column)
            = Return (map (fun p => nth p column 0%Z) ps)).
  { induction ps as [|p ps IH]; intros Hps; [reflexivity|].
    inversion Hps as [|? ? Hp Hps']; subst.
    cbn [LowDegreeProverJs.parseColumnValues]. rewrite (IH Hps').
    assert (Hparse : LowDegreeProverJs.parseColumnValue buffers augmentedPositions
                       (length column) p = Return (nth p column 0%Z));
      [|rewrite Hparse; reflexivity].
    assert (Hlt : p < length column).
    { rewrite Forall_forall in Hrange. apply Hrange. exact Hp. }
    destruct Hdiv as [rows Hrows].
    assert (Hquarter : length column / 4 = rows) by (rewrite Hrows; apply Nat.div_mul; lia).
    assert (Hmem : p mod (length column / 4) ∈ augmentedPositions).
    { rewrite Haug, elem_of_firstOccurrences. apply list_elem_of_fmap. eauto. }
    apply list_elem_of_lookup in Hmem as [i Hi].
    destruct (Hbuffers i _ Hi) as (row & Hrow & Hbuffer).
    unfold LowDegreeProverJs.parseColumnValue.
    rewrite (columnBuffer_divisible buffers augmentedPositions (length column) p i)
      by (try assumption; exists rows; assumption).
    rewrite Hbuffer.
    rewrite floorDivRow_divisible by (try assumption; exists rows; assumption).
    pose proof (Forall_lookup_1 _ _ _ _ (transposeVector_Forall inField column Hfield) Hrow)
      as Hin.
    pose proof (Forall_lookup_1 _ _ _ _ (transposeVector_rows column 4 1) Hrow)
      as Hlength.
    rewrite Hquarter in *.
    assert (Hmod : p mod rows < rows) by (apply Nat.mod_upper_bound; lia).
    rewrite transposeVector_lookup in Hrow
      by (rewrite Nat.div_1_r, Hquarter; exact Hmod).
    rewrite Nat.div_1_r, Hquarter in Hrow. injection Hrow as Hrow.
    apply Hread; [assumption|assumption|].
    rewrite <- Hrow.
    assert (Hj : p / rows < 4) by (apply Nat.Div0.div_lt_upper_bound; lia).
    pose proof (Nat.div_mod_eq p rows) as Hp'.
    destruct (p / rows) as [|[|[|[|j]]]]; [| | |  |lia];
      cbn [lookup list_lookup]; do 2 f_equal; lia. }
  apply Hall. apply Forall_forall. auto.
Qed.

Lemma nth_powerSeries (domain : Vector) (i : nat) :
  domain = getPowerSeries g (length domain) -> i < length domain ->
  nth i domain 0%Z = fexp g i.
Proof.
  intros Hdomain Hi. apply nth_lookup_Some with (d := 0%Z).
  rewrite Hdomain at 1. apply getPowerSeries_lookup. exact Hi.
Qed.

(** The x coordinates of the verifier are those of the prover: the row of the
    transposed domain at a position holds the products of the quartic roots
    of unity with the power of the root of unity of the layer. *)
Lemma rowXs_domain (domain : Vector) (depth n p : nat) :
  domain = getPowerSeries g (length domain) ->
  length domain = 2 ^ n * 4 ^ depth -> 2 <= n -> p < 2 ^ (n - 2) ->
  transposeVector domain 4 (4 ^ depth) !! p
  = Some (LowDegreeProverJs.rowXs (LowDegreeProverJs.quarticRootsOfUnity g (length domain))
            (fexp g (4 ^ depth)) p).
Proof.
  destruct Hcontract as (_ & Hmul & Hexp & Hone & _).
  intros Hdomain Hlength Hn Hp.
  set (R := 2 ^ (n - 2)) in *. set (D := 4 ^ depth) in *.
  assert (HD : D <> 0) by (apply Nat.pow_nonzero; lia).
  assert (HN : length domain = 4 * R * D) by (rewrite Hlength, (pow2_split n Hn); reflexivity).
  assert (Hrows : length domain / D / 4 = R).
  { rewrite HN. rewrite Nat.div_mul by assumption.
    rewrite Nat.mul_comm. apply Nat.div_mul. lia. }
  assert (H1 : length domain / 4 = R * D).
  { rewrite HN. symmetry. apply Nat.div_unique with (r := 0); lia. }
  assert (H2 : length domain / 2 = 2 * R * D).
  { rewrite HN. symmetry. apply Nat.div_unique with (r := 0); lia. }
  assert (H3 : length domain * 3 / 4 = 3 * R * D).
  { rewrite HN. symmetry. apply Nat.div_unique with (r := 0); lia. }
  rewrite transposeVector_lookup by (rewrite Hrows; exact Hp).
  rewrite Hrows. f_equal.
  unfold LowDegreeProverJs.rowXs, LowDegreeProverJs.quarticRootsOfUnity.
  rewrite H1, H2, H3. cbn [map seq]. rewrite Hexp.
  rewrite !(nth_powerSeries domain) by (try assumption; nia).
  rewrite Hone, !Hmul.
  repeat (f_equal; try lia).
Qed.

(** One layer: what the verifier reads from the component of the layer is
    what the prover had, and the evaluations it computes are the values of
    the column. *)
Lemma layer_consistent (domain : Vector) (depth n : nat) (pTree : MerkleTree)
    (polyValues : Matrix) (column : Vector) (component : FriComponent) :
  domain = getPowerSeries g (length domain) ->
  layerShape domain depth n polyValues -> 8 < n ->
  Forall (Forall inField) polyValues ->
  LowDegreeProverJs.friColumn pTree polyValues depth domain = Return column ->
  LowDegreeProverJs.friComponent pTree (columnTree column) polyValues
    (transposeVector column 4 1) column = Return component ->
  let quartic := LowDegreeProverJs.quarticRootsOfUnity g (length domain) in
  let columnLength := rowCount polyValues in
  let positions := getFriIndexes (columnRoot component) columnLength in
  let polys :=
    map (fun p => interpolateQuartic
                    (LowDegreeProverJs.rowXs quartic (fexp g (4 ^ depth)) p)
                    (nth p polyValues [])) positions in
  columnRoot component = root (columnTree column)
  /\ Forall inField column
  /\ LowDegreeProverJs.parseColumnValues (values (columnProof component)) positions
       (LowDegreeProverJs.getAugmentedPositions positions columnLength) columnLength
     = Return (map (fun p => nth p column 0%Z) positions)
  /\ LowDegreeProverJs.parsePolyValues (values (polyProof component))
     = Return (map (fun p => nth p polyValues []) positions)
  /\ interpolateQuarticBatch
       (map (LowDegreeProverJs.rowXs quartic (fexp g (4 ^ depth))) positions)
       (map (fun p => nth p polyValues []) positions)
     = Return polys
  /\ map (fun poly => evalQuartic poly (prng (root pTree))) polys
     = map (fun p => nth p column 0%Z) positions.
Proof.
  pose proof Hcontract as (_ & _ & _ & _ & Heval & _ & _ & Hindexes).
  intros Hdomain Hshape Hn Hfield Hcolumn Hcomponent.
  destruct (layerShape_folded _ _ _ _ _ _ Hshape Hn Hcolumn) as [Hlength _].
  destruct Hshape as (Hrows & Hcount & Hdom).
  apply friColumn_Return in Hcolumn as (_ & Hcol & _). cbv zeta in Hcol.
  assert (Hquarter : rowCount polyValues = 2 ^ (n - 2)).
  { rewrite (pow2_split n) in Hcount by lia. lia. }
  assert (Hfour : (4 | length column)).
  { exists (2 ^ (n - 4)). rewrite Hlength, Hquarter, (pow2_split (n - 2)) by lia.
    replace (n - 2 - 2) with (n - 4) by lia. lia. }
  assert (Hpos : 0 < length column).
  { rewrite Hlength, Hquarter. pose proof (Nat.pow_nonzero 2 (n - 2)). lia. }
  assert (Hin : Forall inField column).
  { rewrite Hcol. apply Forall_forall. intros x Hx. map_to_fmap.
    apply list_elem_of_fmap in Hx as [poly [-> _]]. apply Heval. }
  unfold LowDegreeProverJs.friComponent in Hcomponent. invert_bind. subst component.
  cbn [columnRoot columnProof polyProof values]. cbv zeta.
  rewrite <- Hlength.
  match goal with H : rowsToBuffers polyValues _ = _ |- _ =>
    apply parsePolyValues_rows in H as [Hrange Hparsed]; try assumption end.
  split; [reflexivity|]. split; [exact Hin|]. split.
  { apply parseColumnValues_column; try assumption. apply Hindexes. }
  split; [exact Hparsed|]. split.
  { rewrite interpolateQuarticBatch_enough by (rewrite !length_map; lia).
    rewrite zip_with_map_diag. reflexivity. }
  rewrite map_map. apply map_ext_in. intros p Hp.
  assert (Hlt : p < length column).
  { pose proof (Hindexes (root (columnTree column)) (length column)) as Hall.
    rewrite Forall_forall in Hall. apply Hall. apply list_elem_of_In. exact Hp. }
  symmetry. apply nth_lookup_Some with (d := 0%Z).
  rewrite Hcol. map_to_fmap. rewrite list_lookup_fmap, lookup_zip_with.
  rewrite (rowXs_domain domain depth n p) by (try assumption; lia).
  cbn [mbind option_bind].
  destruct (lookup_lt_is_Some_2 polyValues p ltac:(unfold rowCount in *; lia)) as [row Hrow].
  rewrite Hrow. cbn [mbind option_bind fmap option_fmap option_map].
  rewrite (nth_lookup_Some _ _ [] _ Hrow). reflexivity.
Qed.

(** Along a run of [fri], the fold check holds at every state the loop of
    the compiled verifier reaches. *)
Lemma friLayers_consistent_js (stop : Matrix -> Prop) (domain : Vector) :
  (forall depth n polyValues,
     layerShape domain depth n polyValues -> stop polyValues <-> n <= 8) ->
  domain = getPowerSeries g (length domain) ->
  forall depth pTree polyValues comps lastValues,
  friLayers stop domain depth pTree polyValues comps lastValues ->
  forall n st, layerShape domain depth n polyValues ->
  Forall (Forall inField) polyValues ->
  LowDegreeProverJs.pRoot st = root pTree ->
  LowDegreeProverJs.rootOfUnity st = fexp g (4 ^ depth) ->
  LowDegreeProverJs.columnLength st = rowCount polyValues ->
  Forall (fun sc => foldHolds (LowDegreeProverJs.quarticRootsOfUnity g (length domain))
                      sc.1 sc.2)
         (verifierStates st comps).
Proof.
  pose proof Hcontract as (_ & _ & Hexp & _).
  intros Hstop Hdomain depth pTree polyValues comps lastValues Hlayers.
  induction Hlayers as [depth pTree polyValues Hstopped
                       |depth pTree polyValues column component comps lastValues
                          Hfold Hcolumn Hcomponent Hlayers IH];
    intros n st Hshape Hfield Hroot Hw Hlength; [constructor|].
  assert (Hn : 8 < n).
  { destruct (le_gt_dec n 8) as [Hle|Hgt]; [|assumption].
    exfalso. apply Hfold. apply (Hstop _ _ _ Hshape). assumption. }
  destruct (layer_consistent domain depth n pTree polyValues column component
              Hdomain Hshape Hn Hfield Hcolumn Hcomponent)
    as (Hcroot & Hin & Hparse & Hrows & Hpolys & Hevals).
  destruct (layerShape_folded _ _ _ _ _ _ Hshape Hn Hcolumn) as [Hcol Hshape'].
  cbn [verifierStates]. constructor.
  - cbn [fst snd]. unfold foldHolds. rewrite Hlength.
    eexists. eexists. split; [exact Hparse|]. split; [exact Hrows|].
    unfold LowDegreeProverJs.rowEvaluations. rewrite Hw, Hroot, Hpolys.
    cbn [mbind Outcome_bind]. unfold evalQuarticBatch. rewrite Hevals. reflexivity.
  - apply (IH (n - 2)); try assumption.
    + apply transposeVector_Forall. exact Hin.
    + cbn [LowDegreeProverJs.nextState LowDegreeProverJs.rootOfUnity].
      rewrite Hw, Hexp. f_equal. rewrite Nat.add_1_r, Nat.pow_succ_r'. lia.
    + cbn [LowDegreeProverJs.nextState LowDegreeProverJs.columnLength].
      rewrite Hlength, length_transposeVector, Nat.div_1_r, Hcol. reflexivity.
Qed.

(** The same for the earlier verifier. *)
Lemma friLayers_consistent_ts (stop : Matrix -> Prop) (domain : Vector) :
  (forall depth n polyValues,
     layerShape domain depth n polyValues -> stop polyValues <-> n <= 8) ->
  domain = getPowerSeries g (length domain) ->
  forall depth pTree polyValues comps lastValues,
  friLayers stop domain depth pTree polyValues comps lastValues ->
  forall n st, layerShape domain depth n polyValues ->
  Forall (Forall inField) polyValues ->
  LowDegreeProverTs.lRoot st = root pTree ->
  LowDegreeProverTs.rootOfUnity st = fexp g (4 ^ depth) ->
  LowDegreeProverTs.rouDegree st / 4 = rowCount polyValues ->
  Forall (fun sc => foldHoldsTs (LowDegreeProverJs.quarticRootsOfUnity g (length domain))
                      sc.1 sc.2)
         (verifierStatesTs st comps).
Proof.
  pose proof Hcontract as (_ & _ & Hexp & _ & _ & Hagree & _).
  intros Hstop Hdomain depth pTree polyValues comps lastValues Hlayers.
  induction Hlayers as [depth pTree polyValues Hstopped
                       |depth pTree polyValues column component comps lastValues
                          Hfold Hcolumn Hcomponent Hlayers IH];
    intros n st Hshape Hfield Hroot Hw Hlength; [constructor|].
  assert (Hn : 8 < n).
  { destruct (le_gt_dec n 8) as [Hle|Hgt]; [|assumption].
    exfalso. apply Hfold. apply (Hstop _ _ _ Hshape). assumption. }
  destruct (layer_consistent domain depth n pTree polyValues column component
              Hdomain Hshape Hn Hfield Hcolumn Hcomponent)
    as (Hcroot & Hin & Hparse & Hrows & Hpolys & Hevals).
  destruct (layerShape_folded _ _ _ _ _ _ Hshape Hn Hcolumn) as [Hcol Hshape'].
  cbn [verifierStatesTs]. constructor.
  - cbn [fst snd]. unfold foldHoldsTs. rewrite Hlength, Hw, Hroot.
    eexists. eexists. eexists. split; [exact Hparse|]. split; [exact Hrows|].
    split; [exact Hpolys|].
    rewrite <- Hevals. rewrite !map_map. apply map_ext. intros p. apply Hagree.
  - apply (IH (n - 2)); try assumption.
    + apply transposeVector_Forall. exact Hin.
    + cbn [LowDegreeProverTs.nextState LowDegreeProverTs.rootOfUnity].
      rewrite Hw, Hexp. f_equal. rewrite Nat.add_1_r, Nat.pow_succ_r'. lia.
    + cbn [LowDegreeProverTs.nextState LowDegreeProverTs.rouDegree].
      rewrite Hlength, length_transposeVector, Nat.div_1_r, Hcol. reflexivity.
Qed.

(** The loop of [getRootOfUnityDegree] on a power of [g]: the result is the
    order of the power, when it is a power of two. *)
Lemma getRootOfUnityDegreeFrom_order (fuel : nat) :
  forall a result N,
  LowDegreeProverJs.getRootOfUnityDegreeFrom fuel (fexp g a) result = Return N ->
  exists k, N = result * 2 ^ k /\ fexp g (a * 2 ^ k) = 1%Z
            /\ forall j, j < k -> fexp g (a * 2 ^ j) <> 1%Z.
Proof.
  destruct Hcontract as (_ & Hmul & _).
  induction fuel as [|fuel IH]; intros a result N;
    cbn [LowDegreeProverJs.getRootOfUnityDegreeFrom];
    destruct (decide _) as [Hone|Hother]; try discriminate.
  1, 2: intros [= <-]; exists 0; rewrite Nat.pow_0_r, !Nat.mul_1_r;
        split; [reflexivity|]; split; [assumption|]; intros j Hj; lia.
  rewrite Hmul. intros Hrun. apply IH in Hrun as (k & -> & Hk & Hbefore).
  exists (S k). rewrite Nat.pow_succ_r'. split; [lia|]. split.
  - replace (a * (2 * 2 ^ k)) with ((a + a) * 2 ^ k) by lia. exact Hk.
  - intros [|j] Hj.
    + rewrite Nat.pow_0_r, Nat.mul_1_r. exact Hother.
    + rewrite Nat.pow_succ_r'.
      replace (a * (2 * 2 ^ j)) with ((a + a) * 2 ^ j) by lia. apply Hbefore. lia.
Qed.

(** The second of the quartic roots of unity is a primitive 4th root of
    unity, and the others are its powers. *)
Lemma quarticRootsOfUnity_powers (fuel n : nat) :
  2 <= n -> LowDegreeProverJs.getRootOfUnityDegree fuel g = Return (2 ^ n) ->
  let zeta := fexp g (2 ^ n / 4) in
  LowDegreeProverJs.quarticRootsOfUnity g (2 ^ n) = [1%Z; zeta; fexp zeta 2; fexp zeta 3]
  /\ fexp zeta 4 = 1%Z /\ fexp zeta 2 <> 1%Z.
Proof.
  pose proof Hcontract as (Hg & _ & Hexp & _).
  intros Hn Hdegree. unfold LowDegreeProverJs.getRootOfUnityDegree in Hdegree.
  rewrite <- Hg in Hdegree at 1.
  apply getRootOfUnityDegreeFrom_order in Hdegree as (k & Hk & Hone & Hbefore).
  rewrite Nat.mul_1_l in Hk. apply Nat.pow_inj_r in Hk; [|lia]. subst k.
  rewrite Nat.mul_1_l in Hone.
  assert (H4 : 2 ^ n / 4 = 2 ^ (n - 2)).
  { rewrite (pow2_split n Hn). rewrite Nat.mul_comm. apply Nat.div_mul. lia. }
  assert (H2 : 2 ^ n / 2 = 2 ^ (n - 2) * 2).
  { rewrite (pow2_split n Hn). symmetry. apply Nat.div_unique with (r := 0); lia. }
  assert (H3 : 2 ^ n * 3 / 4 = 2 ^ (n - 2) * 3).
  { rewrite (pow2_split n Hn). symmetry. apply Nat.div_unique with (r := 0); lia. }
  cbv zeta. unfold LowDegreeProverJs.quarticRootsOfUnity.
  rewrite H4, H2, H3, !Hexp. split; [reflexivity|]. split.
  - rewrite <- Hone. f_equal. rewrite (pow2_split n Hn). lia.
  - specialize (Hbefore (n - 1) ltac:(lia)). rewrite Nat.mul_1_l in Hbefore.
    replace (2 ^ (n - 2) * 2) with (2 ^ (n - 1)); [exact Hbefore|].
    replace (n - 1) with (S (n - 2)) by lia. rewrite Nat.pow_succ_r'. lia.
Qed.

(** What a run of the compiled [prove] that returns has done. *)
Lemma prove_layers_js (n d : nat) (cEvaluations domain : Vector)
    (proof : LowDegreeProverJs.LowDegreeProof) :
  length cEvaluations = 2 ^ n -> length domain = 2 ^ n ->
  LowDegreeProverJs.prove cEvaluations domain d = Return proof ->
  let polyValues := transposeVector cEvaluations 4 1 in
  let pTree := create (digestValues (matrixToBuffer polyValues)
                         LowDegreeProverJs.polyRowSize) in
  exists comps lastValues,
    LowDegreeProverJs.components proof = map Some comps
    /\ LowDegreeProverJs.lcRoot proof = root pTree
    /\ layerShape domain 0 n polyValues
    /\ friLayers stopJs domain 0 pTree polyValues comps lastValues.
Proof.
  intros Hlength Hdomain. unfold LowDegreeProverJs.prove. intros Hprove. invert_bind.
  match goal with H : newArray _ = _ |- _ =>
    apply newArray_Return in H as [Hcount ->] end.
  unfold LowDegreeProverJs.getComponentCount in *.
  rewrite Hlength, ceilHalfLog2_pow2 in *.
  assert (Hn : 6 < n).
  { change REMAINDER_SLOTS with 4%Z in Hcount.
    destruct (le_gt_dec n 6) as [Hle|]; [|assumption]. exfalso.
    assert ((Z.of_nat n + 1) / 2 < 4)%Z; [|lia].
    apply Z.div_lt_upper_bound; lia. }
  replace (Z.min _ 0) with 0%Z in * by lia. simpl replicate in *.
  assert (Hshape : layerShape domain 0 n (transposeVector cEvaluations 4 1)).
  { split; [apply transposeVector_rows|]. split.
    - rewrite length_transposeVector, Nat.div_1_r, Hlength.
      rewrite (pow2_split n) by lia.
      rewrite (Nat.mul_comm 4 (2 ^ (n - 2))), Nat.div_mul by lia. lia.
    - rewrite Hdomain. simpl. lia. }
  match goal with H : LowDegreeProverJs.fri _ _ _ _ _ _ _ = _ |- _ =>
    apply fri_layers_js in H
      as (comps & lastValues & g' & Hlayers & _ & _ & _ & Hcomps & Hroot & _) end.
  simpl in Hcomps, Hroot. rewrite placeComponents_empty in Hcomps.
  exists comps, lastValues. repeat split; try assumption; apply Hshape.
Qed.

(** What a run of the earlier [prove] that returns has done. *)
Lemma prove_layers_ts (n d : nat) (lTree : MerkleTree) (values : Matrix)
    (domain : Vector) (proof : LowDegreeProverTs.LowDegreeProof) :
  layerShape domain 0 n values ->
  LowDegreeProverTs.prove lTree values domain d = Return proof ->
  exists comps lastValues,
    LowDegreeProverTs.components proof = map Some comps
    /\ friLayers stopTs domain 0 lTree values comps lastValues.
Proof.
  intros Hshape. unfold LowDegreeProverTs.prove. intros Hprove. invert_bind.
  match goal with H : newArray _ = _ |- _ =>
    apply newArray_Return in H as [Hcount ->] end.
  destruct Hshape as (Hrows & Hvalues & Hdom).
  assert (Hne : values <> []).
  { intros ->. change (rowCount []) with 0 in Hvalues.
    pose proof (Nat.pow_nonzero 2 n). lia. }
  rewrite (colCount_rows _ 4 Hrows Hne), Hvalues, ceilHalfLog2_pow2 in *.
  assert (Hn : 6 < n).
  { destruct (le_gt_dec n 6) as [Hle|]; [|assumption]. exfalso.
    assert ((Z.of_nat n + 1) / 2 < 4)%Z; [|lia].
    apply Z.div_lt_upper_bound; lia. }
  replace (Z.min _ 0) with 0%Z in * by lia. simpl replicate in *.
  match goal with H : LowDegreeProverTs.fri _ _ _ _ _ _ _ = _ |- _ =>
    apply fri_layers_ts in H
      as (comps & lastValues & g' & Hlayers & _ & _ & _ & Hcomps) end.
  simpl in Hcomps. rewrite placeComponents_empty in Hcomps.
  exists comps, lastValues. split; assumption.
Qed.

Lemma verifierStates_rootOfUnity (comps : list FriComponent) :
  forall depth st k st' c,
  LowDegreeProverJs.rootOfUnity st = fexp g (4 ^ depth) ->
  verifierStates st comps !! k = Some (st', c) ->
  LowDegreeProverJs.rootOfUnity st' = fexp g (4 ^ (depth + k)).
Proof.
  destruct Hcontract as (_ & _ & Hexp & _).
  induction comps as [|c0 comps IH]; intros depth st k st' c Hw; [discriminate|].
  destruct k as [|k]; cbn [verifierStates lookup list_lookup].
  - intros [= <- _]. rewrite Nat.add_0_r. exact Hw.
  - intros Hk. replace (depth + S k) with (S depth + k) by lia.
    apply (IH (S depth) (LowDegreeProverJs.nextState st c0) k st' c); [|exact Hk].
    cbn [LowDegreeProverJs.nextState LowDegreeProverJs.rootOfUnity].
    rewrite Hw, Hexp, Nat.pow_succ_r'. f_equal. lia.
Qed.

Lemma verifierStatesTs_rootOfUnity (comps : list FriComponent) :
  forall depth st k st' c,
  LowDegreeProverTs.rootOfUnity st = fexp g (4 ^ depth) ->
  verifierStatesTs st comps !! k = Some (st', c) ->
  LowDegreeProverTs.rootOfUnity st' = fexp g (4 ^ (depth + k)).
Proof.
  destruct Hcontract as (_ & _ & Hexp & _).
  induction comps as [|c0 comps IH]; intros depth st k st' c Hw; [discriminate|].
  destruct k as [|k]; cbn [verifierStatesTs lookup list_lookup].
  - intros [= <- _]. rewrite Nat.add_0_r. exact Hw.
  - intros Hk. replace (depth + S k) with (S depth + k) by lia.
    apply (IH (S depth) (LowDegreeProverTs.nextState st c0) k st' c); [|exact Hk].
    cbn [LowDegreeProverTs.nextState LowDegreeProverTs.rootOfUnity].
    rewrite Hw, Hexp, Nat.pow_succ_r'. f_equal. lia.
Qed.

(** On the proof of the compiled prover, the fold check holds at every state
    of the verifier. *)
Lemma prove_consistent_js (n d : nat) (cEvaluations domain : Vector)
    (proof : LowDegreeProverJs.LowDegreeProof) :
  length cEvaluations = 2 ^ n -> domain = getPowerSeries g (2 ^ n) ->
  Forall inField cEvaluations ->
  LowDegreeProverJs.prove cEvaluations domain d = Return proof ->
  exists comps,
    LowDegreeProverJs.components proof = map Some comps
    /\ Forall (fun sc => foldHolds (LowDegreeProverJs.quarticRootsOfUnity g (2 ^ n))
                           sc.1 sc.2)
         (verifierStates
            {| LowDegreeProverJs.pRoot := LowDegreeProverJs.lcRoot proof;
               LowDegreeProverJs.rootOfUnity := g;
               LowDegreeProverJs.maxDegreePlus1 := d;
               LowDegreeProverJs.columnLength := 2 ^ n / 4 |} comps).
Proof.
  pose proof Hcontract as (Hg & _).
  intros Hlength Hdomain Hfield Hprove.
  assert (Hsize : length domain = 2 ^ n).
  { rewrite Hdomain. unfold getPowerSeries. rewrite length_map, length_seq. reflexivity. }
  destruct (prove_layers_js n d cEvaluations domain proof Hlength Hsize Hprove)
    as (comps & lastValues & Hcomps & Hroot & Hshape & Hlayers).
  exists comps. split; [exact Hcomps|].
  rewrite <- Hsize.
  eapply (friLayers_consistent_js stopJs domain (layerShape_stopJs domain));
    [rewrite Hsize; exact Hdomain|exact Hlayers|exact Hshape| | | |].
  - apply transposeVector_Forall. exact Hfield.
  - exact Hroot.
  - cbn [LowDegreeProverJs.rootOfUnity]. rewrite Nat.pow_0_r. symmetry. exact Hg.
  - cbn [LowDegreeProverJs.columnLength].
    rewrite length_transposeVector, Nat.div_1_r, Hlength, Hsize. reflexivity.
Qed.

(** The same for the earlier prover and verifier. *)
Lemma prove_consistent_ts (n d : nat) (lTree : MerkleTree) (values : Matrix)
    (domain : Vector) (proof : LowDegreeProverTs.LowDegreeProof) :
  layerShape domain 0 n values -> domain = getPowerSeries g (2 ^ n) ->
  Forall (Forall inField) values ->
  LowDegreeProverTs.prove lTree values domain d = Return proof ->
  exists comps,
    LowDegreeProverTs.components proof = map Some comps
    /\ Forall (fun sc => foldHoldsTs (LowDegreeProverJs.quarticRootsOfUnity g (2 ^ n))
                           sc.1 sc.2)
         (verifierStatesTs
            {| LowDegreeProverTs.lRoot := root lTree;
               LowDegreeProverTs.rootOfUnity := g;
               LowDegreeProverTs.maxDegreePlus1 := d;
               LowDegreeProverTs.rouDegree := 2 ^ n |} comps).
Proof.
  pose proof Hcontract as (Hg & _).
  intros Hshape Hdomain Hfield Hprove.
  assert (Hsize : length domain = 2 ^ n).
  { rewrite Hdomain. unfold getPowerSeries. rewrite length_map, length_seq. reflexivity. }
  destruct (prove_layers_ts n d lTree values domain proof Hshape Hprove)
    as (comps & lastValues & Hcomps & Hlayers).
  exists comps. split; [exact Hcomps|].
  rewrite <- Hsize.
  eapply (friLayers_consistent_ts stopTs domain (layerShape_stopTs domain));
    [rewrite Hsize; exact Hdomain|exact Hlayers|exact Hshape|exact Hfield| | |].
  - reflexivity.
  - cbn [LowDegreeProverTs.rootOfUnity]. rewrite Nat.pow_0_r. symmetry. exact Hg.
  - cbn [LowDegreeProverTs.rouDegree]. destruct Hshape as (_ & Hcount & _).
    rewrite Hsize, <- Hcount. rewrite Nat.mul_comm. apply Nat.div_mul. lia.
Qed.

End FoldConsistency.

(** ** Further properties of the code *)

(** X1. In [Stark.verify], the [StarkError] thrown inside the [try] block
    when [MerkleTree.verifyBatch] answers false is caught by the [catch]
    clause, which rethrows only what is not a [StarkError]: a Merkle proof
    that does not verify passes the step, and only an error of the library
    itself is reported. *)
Lemma merkle_failure_is_swallowed (message : Message) (reason : string) :
  Stark.tryVerifyBatch (inr false) message = Return tt
  /\ Stark.tryVerifyBatch (inr true) message = Return tt
  /\ Stark.tryVerifyBatch (inl reason) message
     = Throw (StarkErrorFrom message (LibraryError reason)).
Proof. repeat split. Qed.

Section SmallInputs.
Context `{field : FiniteField} `{hash : Hash} `{merkle : Merkle}
        `{idxGenerator : QueryIndexGenerator}.

(** X2. [getComponentCount] ends in [Math.min(result, 0)]: the count is never
    positive; it is negative exactly for at most 64 values, and 0 for more.
    [new Array] of a negative count throws a [RangeError], and so does the
    compiled [prove] on a vector of at most 64 evaluations (not empty, the
    length a multiple of 4): the rows it reads before are inside the
    matrix. *)
Lemma prove_small_input_throws (d : nat) (cEvaluations domain : Vector) :
  let count := LowDegreeProverJs.getComponentCount (length cEvaluations) in
  (count <= 0)%Z
  /\ ((count < 0)%Z <-> length cEvaluations <= 64)
  /\ (64 < length cEvaluations -> count = 0%Z)
  /\ ((count < 0)%Z ->
      newArray (A := FriComponent) count = Throw RangeError)
  /\ (0 < length cEvaluations <= 64 -> (4 | length cEvaluations) ->
      LowDegreeProverJs.prove cEvaluations domain d = Throw RangeError).
Proof.
  intros count.
  assert (Hle : (count <= 0)%Z).
  { unfold count, LowDegreeProverJs.getComponentCount. lia. }
  pose proof (getComponentCount_negative (length cEvaluations)) as Hneg.
  fold count in Hneg.
  split; [exact Hle|]. split; [exact Hneg|].
  split; [intros Hbig; destruct (Z_lt_le_dec count 0); [|lia]; apply Hneg in l; lia|].
  split; [apply newArray_negative|].
  apply prove_RangeError_js.
Qed.

End SmallInputs.

(** The theorem on 64 evaluations. *)
Lemma prove_small_input_throws_witness :
  LowDegreeProverJs.getComponentCount 64 = (-1)%Z
  /\ LowDegreeProverJs.prove (replicate 64 1%Z) (getPowerSeries 1%Z 64) 4
     = Throw RangeError.
Proof.
  destruct (prove_small_input_throws (field := Example.field) 4 (replicate 64 1%Z)
              (getPowerSeries 1%Z 64)) as (_ & _ & _ & _ & Hthrows).
  split; [vm_compute; reflexivity|].
  apply Hthrows; [vm_compute; lia|exists 16; vm_compute; reflexivity].
Defined.

(** ** The concrete backend meets the contracts *)

Section ExampleArithmetic.
#[local] Open Scope Z_scope.
#[local] Existing Instances eqm_setoid Zplus_eqm Zminus_eqm Zmult_eqm Zopp_eqm.

Ltac modular :=
  match goal with
  | |- ?a mod Example.modulus = ?b mod Example.modulus =>
    change (eqm Example.modulus a b);
    repeat setoid_rewrite (Zmod_eqm Example.modulus);
    unfold eqm; f_equal; ring
  end.

Lemma example_expPos_spec (x : Z) (e : positive) :
  Example.expPos x e = x ^ Zpos e mod Example.modulus.
Proof.
  induction e as [e IH|e IH|]; cbn [Example.expPos]; cbv zeta.
  - rewrite IH, Pos2Z.inj_xI, Z.pow_add_r, Z.pow_1_r by lia.
    replace (2 * Z.pos e) with (Z.pos e + Z.pos e) by lia.
    rewrite Z.pow_add_r by lia. modular.
  - rewrite IH, Pos2Z.inj_xO.
    replace (2 * Z.pos e) with (Z.pos e + Z.pos e) by lia.
    rewrite Z.pow_add_r by lia. modular.
  - rewrite Z.pow_1_r. reflexivity.
Qed.

Lemma example_exp_spec (x : Z) (e : nat) :
  Example.exp x e = x ^ Z.of_nat e mod Example.modulus.
Proof.
  destruct e as [|e]; [reflexivity|].
  change (Example.exp x (S e)) with (Example.expPos x (Pos.of_succ_nat e)).
  rewrite example_expPos_spec. reflexivity.
Qed.

Lemma example_pow_mod (x : Z) (e : nat) :
  (x mod Example.modulus) ^ Z.of_nat e mod Example.modulus
  = x ^ Z.of_nat e mod Example.modulus.
Proof.
  induction e as [|e IH]; [reflexivity|].
  rewrite Nat2Z.inj_succ, !Z.pow_succ_r by lia.
  rewrite <- Zmult_mod_idemp_r, IH, Zmult_mod_idemp_r. modular.
Qed.

Lemma example_exp_add (x : Z) (a b : nat) :
  Example.mul (Example.exp x a) (Example.exp x b) = Example.exp x (a + b).
Proof.
  unfold Example.mul. rewrite !example_exp_spec, Nat2Z.inj_add, Z.pow_add_r by lia.
  modular.
Qed.

Lemma example_exp_mul (x : Z) (a b : nat) :
  Example.exp (Example.exp x a) b = Example.exp x (a * b).
Proof.
  rewrite !example_exp_spec, example_pow_mod, Nat2Z.inj_mul, Z.pow_mul_r by lia.
  reflexivity.
Qed.

Lemma example_exp_range (x : Z) (e : nat) : Example.inField (Example.exp x e).
Proof.
  rewrite example_exp_spec. apply Z.mod_pos_bound. reflexivity.
Qed.

Lemma example_mul_one (x : Z) (a : nat) :
  Example.mul 1 (Example.exp x a) = Example.exp x a.
Proof.
  unfold Example.mul. rewrite Z.mul_1_l. apply Z.mod_small. apply example_exp_range.
Qed.

Lemma example_evalPoly_range (poly : list Z) (x : Z) :
  Example.inField (Example.evalPoly poly x).
Proof.
  destruct poly as [|c rest]; cbn [Example.evalPoly].
  - split; [lia|reflexivity].
  - apply Z.mod_pos_bound. reflexivity.
Qed.

(** A field element is read back from the two bytes it is written to. *)
Lemma example_bytes (x : Z) :
  Example.inField x -> x mod 256 + 256 * ((x / 256) mod 256 + 256 * 0) = x.
Proof.
  unfold Example.inField, Example.modulus. intros Hx.
  rewrite (Z.mod_small (x / 256)).
  - pose proof (Z.div_mod x 256 ltac:(lia)). lia.
  - split; [apply Z.div_pos; lia|apply Z.div_lt_upper_bound; lia].
Qed.

Lemma example_read (row : list Z) (j : nat) (x : Z) :
  length row = 4%nat -> Forall Example.inField row -> row !! j = Some x ->
  Example.readLittleEndian (Example.toBuffer row) (j * 2) 2 = x.
Proof.
  intros Hlength Hfield Hj.
  destruct row as [|x0 [|x1 [|x2 [|x3 [|]]]]]; try discriminate.
  pose proof (Forall_lookup_1 _ _ _ _ Hfield Hj) as Hx.
  destruct j as [|[|[|[|j]]]]; try discriminate; injection Hj as <-;
    exact (example_bytes _ Hx).
Qed.

Lemma example_toBuffer_length (v : Vector) :
  length (Example.toBuffer v) = (length v * 2)%nat.
Proof.
  unfold Example.toBuffer. induction v as [|x v IH]; [reflexivity|].
  cbn [flat_map length app Example.elementBytes]. rewrite IH. lia.
Qed.

Lemma example_spread_range (stride : nat) (seed : Buffer) (n : nat) :
  Forall (fun p => (p < n)%nat) (Example.spread stride seed n).
Proof.
  unfold Example.spread. destruct n as [|n]; [constructor|].
  apply Forall_forall. intros p Hp. map_to_fmap.
  apply list_elem_of_fmap in Hp as [i [-> _]]. apply Nat.mod_upper_bound. lia.
Qed.

Lemma example_holdsFrom (check : Z -> bool) (count : nat) :
  forall start, Example.holdsFrom check count start = true ->
  forall a, start <= a < start + Z.of_nat count -> check a = true.
Proof.
  induction count as [|count IH]; intros start Hall a Ha; [lia|].
  cbn [Example.holdsFrom] in Hall. apply andb_prop in Hall as [Hstart Hrest].
  destruct (Z.eq_dec a start) as [->|Hne]; [exact Hstart|].
  apply (IH (start + 1) Hrest). lia.
Qed.

(** The inverse: checked on every nonzero element of the field. *)
Lemma example_inverse_table :
  Example.holdsFrom (fun a => (a * Example.inv a) mod Example.modulus =? 1)
    (Z.to_nat 12288) 1 = true.
Proof. vm_compute. reflexivity. Qed.

Lemma example_expPos_mod (x : Z) (e : positive) :
  Example.expPos (x mod Example.modulus) e = Example.expPos x e.
Proof.
  rewrite !example_expPos_spec.
  rewrite <- (positive_nat_Z e). apply example_pow_mod.
Qed.

Lemma example_inverse (a : Z) :
  a mod Example.modulus <> 0 -> (a * Example.inv a) mod Example.modulus = 1.
Proof.
  intros Hne. unfold Example.inv. rewrite <- example_expPos_mod.
  rewrite <- Zmult_mod_idemp_l.
  pose proof (Z.mod_pos_bound a Example.modulus ltac:(reflexivity)) as Hrange.
  revert Hne Hrange. generalize (a mod Example.modulus) as r. intros r Hne Hrange.
  apply Z.eqb_eq.
  apply (example_holdsFrom _ _ _ example_inverse_table r).
  unfold Example.modulus in Hrange. rewrite Z2Nat.id by lia. lia.
Qed.

Lemma example_quotient_length (x0 : Z) (poly : list Z) :
  length (Example.quotient x0 poly) = pred (length poly).
Proof.
  induction poly as [|c rest IH]; [reflexivity|].
  destruct rest as [|c' rest]; [reflexivity|].
  cbn [Example.quotient length] in *. rewrite IH. reflexivity.
Qed.

(** [poly(x) = poly(x0) + (x - x0) * quotient(x)] *)
Lemma example_quotient_spec (x0 : Z) (poly : list Z) (x : Z) :
  Example.evalPoly poly x
  = (Example.evalPoly poly x0 + (x - x0) * Example.evalPoly (Example.quotient x0 poly) x)
    mod Example.modulus.
Proof.
  induction poly as [|c rest IH].
  { cbn [Example.quotient Example.evalPoly]. rewrite Z.mul_0_r. reflexivity. }
  destruct rest as [|c' rest].
  - cbn [Example.quotient Example.evalPoly]. rewrite !Z.mul_0_r, !Z.add_0_r.
    rewrite Z.mod_mod by (unfold Example.modulus; lia). reflexivity.
  - change (Example.quotient x0 (c :: c' :: rest))
      with (Example.evalPoly (c' :: rest) x0 :: Example.quotient x0 (c' :: rest)).
    change (Example.evalPoly (c :: c' :: rest) x)
      with ((c + x * Example.evalPoly (c' :: rest) x) mod Example.modulus).
    change (Example.evalPoly (c :: c' :: rest) x0)
      with ((c + x0 * Example.evalPoly (c' :: rest) x0) mod Example.modulus).
    change (Example.evalPoly
              (Example.evalPoly (c' :: rest) x0 :: Example.quotient x0 (c' :: rest)) x)
      with ((Example.evalPoly (c' :: rest) x0
             + x * Example.evalPoly (Example.quotient x0 (c' :: rest)) x)
            mod Example.modulus).
    rewrite IH at 1.
    generalize (Example.evalPoly (c' :: rest) x0) as R0.
    generalize (Example.evalPoly (Example.quotient x0 (c' :: rest)) x) as Q.
    intros Q R0. modular.
Qed.

(** [shiftSub a carry poly] is [carry + (X - a) * poly]. *)
Lemma example_shiftSub_spec (a : Z) (poly : list Z) :
  forall carry x,
  Example.evalPoly (Example.shiftSub a carry poly) x
  = (carry + (x - a) * Example.evalPoly poly x) mod Example.modulus.
Proof.
  induction poly as [|c rest IH]; intros carry x.
  - cbn [Example.shiftSub Example.evalPoly]. modular.
  - cbn [Example.shiftSub].
    change (Example.evalPoly
              ((carry - a * c) mod Example.modulus :: Example.shiftSub a c rest) x)
      with (((carry - a * c) mod Example.modulus
             + x * Example.evalPoly (Example.shiftSub a c rest) x) mod Example.modulus).
    rewrite IH.
    change (Example.evalPoly (c :: rest) x)
      with ((c + x * Example.evalPoly rest x) mod Example.modulus).
    generalize (Example.evalPoly rest x) as E. intros E. modular.
Qed.

(** Newton interpolation gives back the polynomial the values come from. *)
Lemma example_newton_spec (xs : list Z) :
  forall poly, (length poly <= length xs)%nat -> NoDup xs ->
  Forall Example.inField xs ->
  forall x, Example.evalPoly (Example.newton xs (map (Example.evalPoly poly) xs)) x
            = Example.evalPoly poly x.
Proof.
  induction xs as [|x0 xs IH]; intros poly Hlength Hdistinct Hfield x.
  - destruct poly; [reflexivity|simpl in Hlength; lia].
  - cbn [map Example.newton].
    apply NoDup_cons in Hdistinct as [Hx0 Hdistinct].
    apply Forall_cons in Hfield as [Hin0 Hfield].
    assert (Hdifferences :
      Example.dividedDifferences x0 (Example.evalPoly poly x0) xs
        (map (Example.evalPoly poly) xs)
      = map (Example.evalPoly (Example.quotient x0 poly)) xs).
    { unfold Example.dividedDifferences.
      rewrite <- (map_id xs) at 1. rewrite zip_with_map_diag.
      apply map_ext_in. intros xi Hxi. unfold id.
      assert (Hne : (xi - x0) mod Example.modulus <> 0).
      { rewrite Forall_forall in Hfield.
        pose proof (Hfield xi ltac:(apply list_elem_of_In; exact Hxi)) as Hini.
        assert (xi <> x0) by (intros ->; apply Hx0; apply list_elem_of_In; exact Hxi).
        unfold Example.inField, Example.modulus in *.
        destruct (Z_lt_le_dec xi x0) as [Hlt|Hge].
        - rewrite <- (Z_mod_plus_full _ 1), Z.mod_small; lia.
        - rewrite Z.mod_small; lia. }
      rewrite (example_quotient_spec x0 poly xi).
      pose proof (example_inverse _ Hne) as Hinverse.
      pose proof (example_evalPoly_range (Example.quotient x0 poly) xi) as Hrange.
      rewrite <- (Z.mod_small _ _ Hrange) at 2.
      rewrite <- (Z.mul_1_r (Example.evalPoly (Example.quotient x0 poly) xi)) at 2.
      rewrite <- Hinverse.
      generalize (Example.evalPoly (Example.quotient x0 poly) xi) as B.
      generalize (Example.evalPoly poly x0) as A.
      generalize (Example.inv (xi - x0)) as I. intros I A B. modular. }
    rewrite Hdifferences, example_shiftSub_spec, IH; try assumption.
    + symmetry. apply example_quotient_spec.
    + rewrite example_quotient_length. simpl in Hlength. lia.
Qed.

End ExampleArithmetic.

Lemma example_foldContract : foldContract Example.inField Example.g512.
Proof.
  split; [vm_compute; reflexivity|].
  split; [exact (example_exp_add Example.g512)|].
  split; [exact (example_exp_mul Example.g512)|].
  split; [exact (example_mul_one Example.g512)|].
  split; [exact example_evalPoly_range|].
  split; [reflexivity|].
  split.
  { intros row j x Hlength Hfield Hj. apply readBigInt_Return. split.
    - change (vectorToBuffer row) with (Example.toBuffer row).
      rewrite example_toBuffer_length, Hlength. apply lookup_lt_Some in Hj.
      change elementSize with 2. lia.
    - symmetry. apply example_read; assumption. }
  intros root n. apply example_spread_range.
Qed.

Lemma example_interpolationContract : interpolationContract Example.inField.
Proof.
  intros q xs Hlength Hdistinct Hfield x. apply example_newton_spec; assumption.
Qed.

Lemma example_layerShape : layerShape Example.domain512 0 9 Example.values512.
Proof.
  split; [apply transposeVector_rows|]. split; vm_compute; reflexivity.
Qed.

(** ** The fold check along a run of [verify] (C2) *)

Section VerifyRuns.
Context `{field : FiniteField} `{hash : Hash} `{merkle : Merkle}
        `{idxGenerator : QueryIndexGenerator}.

Lemma parseColumnValues_length (buffers : list Buffer)
    (positions augmentedPositions : list nat) (columnLength : nat) (vs : list Z) :
  LowDegreeProverJs.parseColumnValues buffers positions augmentedPositions columnLength
  = Return vs -> length vs = length positions.
Proof.
  revert vs; induction positions as [|p positions IH]; intros vs;
    cbn [LowDegreeProverJs.parseColumnValues].
  - intros [= <-]. reflexivity.
  - intros Hrun. apply bind_Return in Hrun as (v & _ & Hrun).
    apply bind_Return in Hrun as (rest & Hrest & [= <-]).
    cbn [length]. f_equal. apply IH. exact Hrest.
Qed.

(** The loop body passes exactly when its reads and Merkle checks pass and
    the evaluations are the column values. *)
Lemma verifyComponent_Return_js (quartic : list Z) (depth : nat)
    (st : LowDegreeProverJs.VerifierState) (c : FriComponent) :
  LowDegreeProverJs.verifyComponent quartic depth st c = Return tt ->
  foldHolds quartic st c.
Proof.
  unfold LowDegreeProverJs.verifyComponent, foldHolds. intros Hrun.
  apply bind_Return in Hrun as (columnValues & Hparse & Hrun).
  apply bind_Return in Hrun as (ok & _ & Hrun).
  apply bind_Return in Hrun as ([] & _ & Hrun).
  apply bind_Return in Hrun as (polyValues & Hpoly & Hrun).
  apply bind_Return in Hrun as (ok' & _ & Hrun).
  apply bind_Return in Hrun as ([] & _ & Hrun).
  apply bind_Return in Hrun as (pEvaluations & Hevals & Hcheck).
  exists columnValues, polyValues. split; [exact Hparse|]. split; [exact Hpoly|].
  rewrite Hevals. f_equal.
  apply parseColumnValues_length in Hparse.
  unfold LowDegreeProverJs.rowEvaluations in Hevals.
  apply bind_Return in Hevals as (polys & Hpolys & [= <-]).
  apply interpolateQuarticBatch_Return in Hpolys as (_ & _ & Hlength).
  rewrite length_map in Hlength.
  destruct (checkEvaluations_js_cases depth (evalQuarticBatch polys
              (prng (LowDegreeProverJs.pRoot st))) columnValues)
    as [[_ Hall]|[Hthrow _]]; [|congruence].
  apply list_eq_same_length with (length columnValues); [reflexivity| |].
  - unfold evalQuarticBatch. rewrite length_map. congruence.
  - intros i x y Hi Hx Hy. apply Hall in Hx. congruence.
Qed.

(** The loop body at [depth] names no other depth in the error of the fold
    check. *)
Lemma verifyComponent_mismatch_depth_js (quartic : list Z) (depth k : nat)
    (st : LowDegreeProverJs.VerifierState) (c : FriComponent) :
  LowDegreeProverJs.verifyComponent quartic depth st c
  = Throw (StarkError (Degree4Mismatch k)) -> k = depth.
Proof.
  unfold LowDegreeProverJs.verifyComponent. intros Hrun.
  apply bind_Throw in Hrun as [Hrun|(columnValues & _ & Hrun)].
  { apply parseColumnValues_throws in Hrun. discriminate. }
  apply bind_Throw in Hrun as [Hrun|(ok & _ & Hrun)].
  { destruct (verifyBatch _ _ _); discriminate. }
  apply bind_Throw in Hrun as [Hrun|([] & _ & Hrun)].
  { apply assertStark_Throw in Hrun as [_ [=]]. }
  apply bind_Throw in Hrun as [Hrun|(polyValues & _ & Hrun)].
  { apply parsePolyValues_throws in Hrun. discriminate. }
  apply bind_Throw in Hrun as [Hrun|(ok' & _ & Hrun)].
  { destruct (verifyBatch _ _ _); discriminate. }
  apply bind_Throw in Hrun as [Hrun|([] & _ & Hrun)].
  { apply assertStark_Throw in Hrun as [_ [=]]. }
  apply bind_Throw in Hrun as [Hrun|(pEvaluations & _ & Hrun)].
  { unfold LowDegreeProverJs.rowEvaluations in Hrun.
    apply bind_Throw in Hrun as [Hrun|(polys & _ & [=])].
    apply interpolateQuarticBatch_throws in Hrun as [Hrun _]. discriminate. }
  destruct (checkEvaluations_js_cases depth pEvaluations columnValues)
    as [[Hreturn _]|[Hthrow _]]; congruence.
Qed.

(** The loop of the compiled verifier returns when every component is there
    and passes, with the state after the last one. *)
Lemma verifyComponents_Return_js (quartic : list Z) (comps : list (option FriComponent)) :
  forall depth st st',
  LowDegreeProverJs.verifyComponents quartic depth st comps = Return st' <->
  exists cs, comps = map Some cs
    /\ (forall j stj cj, verifierStates st cs !! j = Some (stj, cj) ->
          LowDegreeProverJs.verifyComponent quartic (depth + j) stj cj = Return tt)
    /\ st' = fold_left LowDegreeProverJs.nextState cs st.
Proof.
  induction comps as [|[c|] comps IH]; intros depth st st';
    cbn [LowDegreeProverJs.verifyComponents].
  - split.
    + intros [= <-]. exists []. split; [reflexivity|]. split; [|reflexivity].
      intros j stj cj Hj. discriminate.
    + intros (cs & Hcs & _ & ->). destruct cs; [reflexivity|discriminate].
  - rewrite bind_Return. split.
    + intros ([] & Hc & Hrest). apply IH in Hrest as (cs & -> & Hpass & ->).
      exists (c :: cs). split; [reflexivity|]. split; [|reflexivity].
      intros [|j] stj cj Hj; cbn [verifierStates] in Hj.
      * injection Hj as <- <-. rewrite Nat.add_0_r. exact Hc.
      * replace (depth + S j) with (depth + 1 + j) by lia. eapply Hpass. exact Hj.
    + intros (cs & Hcs & Hpass & ->). destruct cs as [|c' cs]; [discriminate|].
      injection Hcs as <- ->. exists tt. split.
      * specialize (Hpass 0 st c eq_refl). rewrite Nat.add_0_r in Hpass. exact Hpass.
      * apply IH. exists cs. split; [reflexivity|]. split; [|reflexivity].
        intros j stj cj Hj. replace (depth + 1 + j) with (depth + S j) by lia.
        eapply Hpass. exact Hj.
  - split; [discriminate|]. intros (cs & Hcs & _). destruct cs; discriminate.
Qed.

(** It throws at the first component that is missing or fails. *)
Lemma verifyComponents_Throw_js (quartic : list Z) (comps : list (option FriComponent)) :
  forall depth st e,
  LowDegreeProverJs.verifyComponents quartic depth st comps = Throw e <->
  exists prefix rest, comps = map Some prefix ++ rest
    /\ (forall j stj cj, verifierStates st prefix !! j = Some (stj, cj) ->
          LowDegreeProverJs.verifyComponent quartic (depth + j) stj cj = Return tt)
    /\ match rest with
       | [] => False
       | None :: _ => e = TypeError "cannot destructure undefined"
       | Some c :: _ =>
         LowDegreeProverJs.verifyComponent quartic (depth + length prefix)
           (fold_left LowDegreeProverJs.nextState prefix st) c = Throw e
       end.
Proof.
  induction comps as [|[c|] comps IH]; intros depth st e;
    cbn [LowDegreeProverJs.verifyComponents].
  - split; [discriminate|].
    intros (prefix & rest & Hcomps & _ & Hrest).
    destruct prefix; [|discriminate]. destruct rest; [contradiction|discriminate].
  - rewrite bind_Throw. split.
    + intros [Hc|([] & Hc & Hrest)].
      * exists [], (Some c :: comps). split; [reflexivity|]. split.
        -- intros j stj cj Hj. discriminate.
        -- cbn [length fold_left]. rewrite Nat.add_0_r. exact Hc.
      * apply IH in Hrest as (prefix & rest & -> & Hpass & Hrest).
        exists (c :: prefix), rest. split; [reflexivity|]. split.
        -- intros [|j] stj cj Hj; cbn [verifierStates] in Hj.
           ++ injection Hj as <- <-. rewrite Nat.add_0_r. exact Hc.
           ++ replace (depth + S j) with (depth + 1 + j) by lia. eapply Hpass. exact Hj.
        -- cbn [length fold_left].
           replace (depth + S (length prefix)) with (depth + 1 + length prefix) by lia.
           exact Hrest.
    + intros (prefix & rest & Hcomps & Hpass & Hrest).
      destruct prefix as [|c' prefix].
      * cbn [map app] in Hcomps. subst rest. cbn [length fold_left] in Hrest.
        rewrite Nat.add_0_r in Hrest. left. exact Hrest.
      * cbn [map app] in Hcomps. injection Hcomps as <- ->. right. exists tt. split.
        -- specialize (Hpass 0 st c eq_refl). rewrite Nat.add_0_r in Hpass. exact Hpass.
        -- apply IH. exists prefix, rest. split; [reflexivity|]. split.
           ++ intros j stj cj Hj. replace (depth + 1 + j) with (depth + S j) by lia.
              eapply Hpass. exact Hj.
           ++ cbn [length fold_left] in Hrest.
              replace (depth + 1 + length prefix) with (depth + S (length prefix)) by lia.
              exact Hrest.
  - split.
    + intros [= <-]. exists [], (None :: comps). split; [reflexivity|].
      split; [|reflexivity]. intros j stj cj Hj. discriminate.
    + intros (prefix & rest & Hcomps & _ & Hrest).
      destruct prefix; [|discriminate]. cbn [map app] in Hcomps. subst rest.
      rewrite Hrest. reflexivity.
Qed.

(** The compiled [verify] throws the error of the fold check for depth [k]
    exactly when the checks of the linear combination pass, the components
    before [k] are there and pass, and the loop body throws it on component
    [k], at the state the components before it lead to. *)
Lemma verify_mismatch_js (fuel : nat) (r : Z) (proof : LowDegreeProverJs.LowDegreeProof)
    (lcValues : list Z) (exeQueryPositions : list nat) (d k : nat) :
  LowDegreeProverJs.verify fuel r proof lcValues exeQueryPositions d
  = Throw (StarkError (Degree4Mismatch k))
  <-> exists columnLength lcChecks prefix c rest,
        let quartic := LowDegreeProverJs.quarticRootsOfUnity r columnLength in
        let lcPositions :=
          LowDegreeProverJs.getAugmentedPositions exeQueryPositions columnLength in
        let st0 := {| LowDegreeProverJs.pRoot := LowDegreeProverJs.lcRoot proof;
                      LowDegreeProverJs.rootOfUnity := r;
                      LowDegreeProverJs.maxDegreePlus1 := d;
                      LowDegreeProverJs.columnLength := columnLength / 4 |} in
        LowDegreeProverJs.getRootOfUnityDegree fuel r = Return columnLength
        /\ LowDegreeProverJs.parseColumnValues (values (LowDegreeProverJs.lcProof proof))
             exeQueryPositions lcPositions columnLength = Return lcChecks
        /\ verifyBatch (LowDegreeProverJs.lcRoot proof) lcPositions
             (rehashMerkleProofValues (LowDegreeProverJs.lcProof proof)) = inr true
        /\ LowDegreeProverJs.checkLinearCombination lcValues lcChecks = Return tt
        /\ LowDegreeProverJs.components proof = map Some prefix ++ Some c :: rest
        /\ length prefix = k
        /\ (forall j stj cj, verifierStates st0 prefix !! j = Some (stj, cj) ->
              LowDegreeProverJs.verifyComponent quartic j stj cj = Return tt)
        /\ LowDegreeProverJs.verifyComponent quartic k
             (fold_left LowDegreeProverJs.nextState prefix st0) c
           = Throw (StarkError (Degree4Mismatch k)).
Proof.
  unfold LowDegreeProverJs.verify. cbv zeta. split.
  - intros Hrun.
    apply bind_Throw in Hrun as [Hrun|(columnLength & Hdegree & Hrun)].
    { exfalso. exact (noMismatch_getRootOfUnityDegree fuel r k Hrun). }
    apply bind_Throw in Hrun as [Hrun|(lcChecks & Hparse & Hrun)].
    { apply parseColumnValues_throws in Hrun. discriminate. }
    apply bind_Throw in Hrun as [Hrun|(ok & Hok & Hrun)].
    { destruct (verifyBatch _ _ _); discriminate. }
    apply bind_Throw in Hrun as [Hrun|([] & Hmerkle & Hrun)].
    { apply assertStark_Throw in Hrun as [_ [=]]. }
    apply assertStark_Return in Hmerkle. subst ok.
    apply bind_Throw in Hrun as [Hrun|([] & Hlc & Hrun)].
    { exfalso. exact (noMismatch_checkLinearCombination _ _ k Hrun). }
    apply bind_Throw in Hrun as [Hrun|(st & _ & Hrun)].
    2: { exfalso. exact (noMismatch_verifyLastLayer_js _ _ k Hrun). }
    apply verifyComponents_Throw_js in Hrun as (prefix & rest & Hcomps & Hpass & Hrest).
    destruct rest as [|[c|] rest]; [contradiction| |discriminate].
    pose proof (verifyComponent_mismatch_depth_js _ _ _ _ _ Hrest) as Hk.
    cbn [Nat.add] in Hk.
    exists columnLength, lcChecks, prefix, c, rest.
    split; [exact Hdegree|]. split; [exact Hparse|]. split.
    { destruct (verifyBatch _ _ _) as [text|[|]]; [discriminate|reflexivity|discriminate]. }
    split; [exact Hlc|]. split; [exact Hcomps|]. split; [symmetry; exact Hk|].
    split; [exact Hpass|]. subst k. exact Hrest.
  - intros (columnLength & lcChecks & prefix & c & rest & Hdegree & Hparse & Hbatch
            & Hlc & Hcomps & Hk & Hpass & Hthrow).
    rewrite Hdegree. cbn [mbind Outcome_bind]. rewrite Hparse. cbn [mbind Outcome_bind].
    rewrite Hbatch. cbn [called assertStark mbind Outcome_bind].
    rewrite Hlc. cbn [mbind Outcome_bind].
    assert (Hloop : LowDegreeProverJs.verifyComponents
                      (LowDegreeProverJs.quarticRootsOfUnity r columnLength) 0
                      {| LowDegreeProverJs.pRoot := LowDegreeProverJs.lcRoot proof;
                         LowDegreeProverJs.rootOfUnity := r;
                         LowDegreeProverJs.maxDegreePlus1 := d;
                         LowDegreeProverJs.columnLength := columnLength / 4 |}
                      (LowDegreeProverJs.components proof)
                    = Throw (StarkError (Degree4Mismatch k))).
    { apply verifyComponents_Throw_js. exists prefix, (Some c :: rest).
      split; [exact Hcomps|]. split; [exact Hpass|].
      cbn [Nat.add]. rewrite Hk. exact Hthrow. }
    rewrite Hloop. reflexivity.
Qed.

(** A proof the compiled [verify] accepts passes the fold check at every
    depth: the evaluations are the column values at the state of each
    component. *)
Lemma verify_Return_holds_js (fuel : nat) (r : Z) (proof : LowDegreeProverJs.LowDegreeProof)
    (lcValues : list Z) (exeQueryPositions : list nat) (d : nat) (b : bool) :
  LowDegreeProverJs.verify fuel r proof lcValues exeQueryPositions d = Return b ->
  exists columnLength comps,
    LowDegreeProverJs.getRootOfUnityDegree fuel r = Return columnLength
    /\ LowDegreeProverJs.components proof = map Some comps
    /\ forall k st c,
         verifierStates {| LowDegreeProverJs.pRoot := LowDegreeProverJs.lcRoot proof;
                           LowDegreeProverJs.rootOfUnity := r;
                           LowDegreeProverJs.maxDegreePlus1 := d;
                           LowDegreeProverJs.columnLength := columnLength / 4 |} comps
         !! k = Some (st, c) ->
         foldHolds (LowDegreeProverJs.quarticRootsOfUnity r columnLength) st c.
Proof.
  unfold LowDegreeProverJs.verify. cbv zeta. intros Hrun.
  apply bind_Return in Hrun as (columnLength & Hdegree & Hrun).
  apply bind_Return in Hrun as (lcChecks & _ & Hrun).
  apply bind_Return in Hrun as (ok & _ & Hrun).
  apply bind_Return in Hrun as ([] & _ & Hrun).
  apply bind_Return in Hrun as ([] & _ & Hrun).
  apply bind_Return in Hrun as (st & Hloop & _).
  apply verifyComponents_Return_js in Hloop as (comps & Hcomps & Hpass & _).
  exists columnLength, comps. split; [exact Hdegree|]. split; [exact Hcomps|].
  intros k stk c Hk. apply (verifyComponent_Return_js _ (0 + k)). apply Hpass. exact Hk.
Qed.

(** The same for the earlier verifier, whose loop body reads the component
    from the proof object and writes to it. *)
Lemma verifyComponent_ts_same (quartic : list Z) (depth : nat)
    (st : LowDegreeProverTs.VerifierState) (proof proof' : LowDegreeProverTs.LowDegreeProof) :
  LowDegreeProverTs.components proof' !! depth = LowDegreeProverTs.components proof !! depth ->
  (LowDegreeProverTs.verifyComponent quartic depth st proof').1
  = (LowDegreeProverTs.verifyComponent quartic depth st proof).1.
Proof.
  intros Hsame.
  destruct (LowDegreeProverTs.components proof !! depth) as [[c|]|] eqn:Hc.
  - rewrite (verifyComponent_ts_outcome quartic depth st proof c Hc).
    rewrite (verifyComponent_ts_outcome quartic depth st proof' c Hsame). reflexivity.
  - rewrite !verifyComponent_ts_hole by (intros c; congruence). reflexivity.
  - rewrite !verifyComponent_ts_hole by (intros c; congruence). reflexivity.
Qed.

Lemma componentsFrom_lookup (depth : nat) (proof proof' : LowDegreeProverTs.LowDegreeProof) :
  componentsFrom depth proof' = componentsFrom depth proof ->
  LowDegreeProverTs.components proof' !! depth = LowDegreeProverTs.components proof !! depth.
Proof.
  unfold componentsFrom. intros Hfrom.
  rewrite <- (Nat.add_0_r depth), <- !lookup_drop, Hfrom. reflexivity.
Qed.

Lemma componentsFrom_cons (depth : nat) (proof : LowDegreeProverTs.LowDegreeProof)
    (c : option FriComponent) :
  LowDegreeProverTs.components proof !! depth = Some c ->
  componentsFrom depth proof = c :: componentsFrom (depth + 1) proof.
Proof.
  unfold componentsFrom. intros Hc. rewrite Nat.add_1_r.
  apply drop_S. exact Hc.
Qed.

(** A turn of the loop that passes leaves the later components, and the
    column root of its own, as they were. *)
Lemma verifyComponent_ts_step (quartic : list Z) (depth : nat)
    (st : LowDegreeProverTs.VerifierState) (proof proof' : LowDegreeProverTs.LowDegreeProof) :
  componentsFrom depth proof' = componentsFrom depth proof ->
  (LowDegreeProverTs.verifyComponent quartic depth st proof').1 = Return tt ->
  exists c c',
    LowDegreeProverTs.components proof !! depth = Some (Some c)
    /\ LowDegreeProverTs.components
         (LowDegreeProverTs.verifyComponent quartic depth st proof').2 !! depth
       = Some (Some c')
    /\ columnRoot c' = columnRoot c
    /\ componentsFrom (depth + 1)
         (LowDegreeProverTs.verifyComponent quartic depth st proof').2
       = componentsFrom (depth + 1) proof.
Proof.
  intros Hfrom Hrun. pose proof (componentsFrom_lookup _ _ _ Hfrom) as Hsame.
  destruct (LowDegreeProverTs.components proof !! depth) as [[c|]|] eqn:Hc.
  2, 3: rewrite verifyComponent_ts_hole in Hrun by (intros c; congruence); discriminate.
  pose proof (verifyComponent_keeps columnRoots quartic depth st
                (columnRoots_writeColumn depth) (columnRoots_writePoly depth) proof')
    as Hroots.
  pose proof (verifyComponent_keeps (componentsFrom (depth + 1)) quartic depth st
                (fun v => componentsFrom_writeColumn (depth + 1) depth v ltac:(lia))
                (fun v => componentsFrom_writePoly (depth + 1) depth v ltac:(lia)) proof')
    as Hkept.
  assert (Hlookup : columnRoots (LowDegreeProverTs.verifyComponent quartic depth st proof').2
                    !! depth = Some (Some (columnRoot c))).
  { rewrite Hroots. unfold columnRoots. rewrite list_lookup_fmap, Hsame. reflexivity. }
  unfold columnRoots in Hlookup. rewrite list_lookup_fmap in Hlookup.
  destruct (LowDegreeProverTs.components
              (LowDegreeProverTs.verifyComponent quartic depth st proof').2 !! depth)
    as [[c'|]|]; try discriminate.
  injection Hlookup as Hroot. exists c, c'. split; [reflexivity|].
  split; [reflexivity|]. split; [exact Hroot|].
  rewrite Hkept. unfold componentsFrom in *.
  rewrite <- !drop_drop, Hfrom. reflexivity.
Qed.

Lemma verifyComponent_Return_ts (quartic : list Z) (depth : nat)
    (st : LowDegreeProverTs.VerifierState) (proof : LowDegreeProverTs.LowDegreeProof) :
  (LowDegreeProverTs.verifyComponent quartic depth st proof).1 = Return tt ->
  exists c, LowDegreeProverTs.components proof !! depth = Some (Some c)
            /\ foldHoldsTs quartic st c.
Proof.
  intros Hrun.
  destruct (LowDegreeProverTs.components proof !! depth) as [[c|]|] eqn:Hc.
  2, 3: rewrite verifyComponent_ts_hole in Hrun by (intros c; congruence); discriminate.
  exists c. split; [reflexivity|].
  rewrite (verifyComponent_ts_outcome quartic depth st proof c Hc) in Hrun.
  cbv zeta in Hrun. unfold foldHoldsTs.
  apply bind_Return in Hrun as (columnValues & Hparse & Hrun).
  apply bind_Return in Hrun as (ok & _ & Hrun).
  apply bind_Return in Hrun as ([] & _ & Hrun).
  apply bind_Return in Hrun as (ys & Hys & Hrun).
  apply bind_Return in Hrun as (ok' & _ & Hrun).
  apply bind_Return in Hrun as ([] & _ & Hrun).
  apply bind_Return in Hrun as (polys & Hpolys & Hcheck).
  exists columnValues, ys, polys. split; [exact Hparse|]. split; [exact Hys|].
  split; [exact Hpolys|].
  apply parseColumnValues_length in Hparse.
  apply interpolateQuarticBatch_Return in Hpolys as (_ & _ & Hlength).
  rewrite length_map in Hlength.
  rewrite checkEvaluations_ts_js in Hcheck.
  destruct (checkEvaluations_js_cases depth
              (map (fun poly => evalPolyAt poly (prng (LowDegreeProverTs.lRoot st))) polys)
              columnValues)
    as [[_ Hall]|[Hthrow _]]; [|congruence].
  apply list_eq_same_length with (length columnValues); [reflexivity| |].
  - rewrite length_map. congruence.
  - intros i x y Hi Hx Hy. apply Hall in Hx. congruence.
Qed.

Lemma verifyComponent_mismatch_depth_ts (quartic : list Z) (depth k : nat)
    (st : LowDegreeProverTs.VerifierState) (proof : LowDegreeProverTs.LowDegreeProof) :
  (LowDegreeProverTs.verifyComponent quartic depth st proof).1
  = Throw (StarkError (Degree4Mismatch k)) -> k = depth.
Proof.
  intros Hrun.
  destruct (LowDegreeProverTs.components proof !! depth) as [[c|]|] eqn:Hc.
  2, 3: rewrite verifyComponent_ts_hole in Hrun by (intros c; congruence); discriminate.
  rewrite (verifyComponent_ts_outcome quartic depth st proof c Hc) in Hrun.
  cbv zeta in Hrun.
  apply bind_Throw in Hrun as [Hrun|(columnValues & _ & Hrun)].
  { apply parseColumnValues_throws in Hrun. discriminate. }
  apply bind_Throw in Hrun as [Hrun|(ok & _ & Hrun)].
  { destruct (verifyBatch _ _ _); discriminate. }
  apply bind_Throw in Hrun as [Hrun|([] & _ & Hrun)].
  { apply assertStark_Throw in Hrun as [_ [=]]. }
  apply bind_Throw in Hrun as [Hrun|(ys & _ & Hrun)].
  { apply parsePolyValues_throws in Hrun. discriminate. }
  apply bind_Throw in Hrun as [Hrun|(ok' & _ & Hrun)].
  { destruct (verifyBatch _ _ _); discriminate. }
  apply bind_Throw in Hrun as [Hrun|([] & _ & Hrun)].
  { apply assertStark_Throw in Hrun as [_ [=]]. }
  apply bind_Throw in Hrun as [Hrun|(polys & _ & Hrun)].
  { apply interpolateQuarticBatch_throws in Hrun as [Hrun _]. discriminate. }
  rewrite checkEvaluations_ts_js in Hrun.
  destruct (checkEvaluations_js_cases depth
              (map (fun poly => evalPolyAt poly (prng (LowDegreeProverTs.lRoot st))) polys)
              columnValues)
    as [[Hreturn _]|[Hthrow _]]; congruence.
Qed.

(** The loop of the earlier verifier, run on a proof object [proof'] that
    holds the components of [proof] from [depth] on, in terms of the loop
    body on [proof]: it returns when the [count] components are there and
    pass. *)
Lemma verifyComponents_Return_ts (quartic : list Z)
    (proof : LowDegreeProverTs.LowDegreeProof) (count : nat) :
  forall depth st proof' st',
  componentsFrom depth proof' = componentsFrom depth proof ->
  (LowDegreeProverTs.verifyComponents quartic count depth st proof').1 = Return st' <->
  exists cs, length cs = count
    /\ take count (componentsFrom depth proof) = map Some cs
    /\ (forall j stj cj, verifierStatesTs st cs !! j = Some (stj, cj) ->
          (LowDegreeProverTs.verifyComponent quartic (depth + j) stj proof).1 = Return tt)
    /\ st' = fold_left LowDegreeProverTs.nextState cs st.
Proof.
  induction count as [|count IH]; intros depth st proof' st' Hfrom;
    cbn [LowDegreeProverTs.verifyComponents].
  - split.
    + intros [= <-]. exists []. split; [reflexivity|]. split; [reflexivity|].
      split; [|reflexivity]. intros j stj cj Hj. discriminate.
    + intros (cs & Hlength & _ & _ & ->). destruct cs; [reflexivity|discriminate].
  - unfold mbind at 1, LowDegreeProverTs.Stateful_bind at 1.
    pose proof (verifyComponent_ts_same quartic depth st proof proof'
                  (componentsFrom_lookup _ _ _ Hfrom)) as Hsame.
    pose proof (verifyComponent_ts_step quartic depth st proof proof' Hfrom) as Hstep.
    destruct (LowDegreeProverTs.verifyComponent quartic depth st proof')
      as [[[]|e|] proof1]; cbn [fst snd] in *.
    + destruct (Hstep eq_refl) as (c & c' & Hc & Hc' & Hroot & Hfrom1).
      unfold mbind at 1, LowDegreeProverTs.Stateful_bind at 1.
      unfold LowDegreeProverTs.readComponent at 1. rewrite Hc'.
      replace (LowDegreeProverTs.nextState st c') with (LowDegreeProverTs.nextState st c)
        by (unfold LowDegreeProverTs.nextState; rewrite Hroot; reflexivity).
      rewrite (IH (depth + 1) _ proof1 st' Hfrom1).
      rewrite (componentsFrom_cons depth proof _ Hc). cbn [take]. split.
      * intros (cs & Hlength & Htake & Hpass & ->). exists (c :: cs).
        split; [cbn [length]; congruence|]. split; [cbn [map]; congruence|].
        split; [|reflexivity].
        intros [|j] stj cj Hj; cbn [verifierStatesTs] in Hj.
        -- injection Hj as <- <-. rewrite Nat.add_0_r. symmetry. exact Hsame.
        -- replace (depth + S j) with (depth + 1 + j) by lia. eapply Hpass. exact Hj.
      * intros (cs & Hlength & Htake & Hpass & ->).
        destruct cs as [|c0 cs]; [discriminate|].
        cbn [map] in Htake. injection Htake as <- Htake.
        exists cs. split; [cbn [length] in Hlength; lia|]. split; [exact Htake|].
        split; [|reflexivity].
        intros j stj cj Hj. replace (depth + 1 + j) with (depth + S j) by lia.
        eapply Hpass. exact Hj.
    + split; [discriminate|]. intros (cs & Hlength & _ & Hpass & _).
      destruct cs as [|c0 cs]; [discriminate|].
      specialize (Hpass 0 st c0 eq_refl). rewrite Nat.add_0_r in Hpass. congruence.
    + split; [discriminate|]. intros (cs & Hlength & _ & Hpass & _).
      destruct cs as [|c0 cs]; [discriminate|].
      specialize (Hpass 0 st c0 eq_refl). rewrite Nat.add_0_r in Hpass. congruence.
Qed.

(** It throws the error of the first turn of the loop that fails. *)
Lemma verifyComponents_Throw_ts (quartic : list Z)
    (proof : LowDegreeProverTs.LowDegreeProof) (count : nat) :
  forall depth st proof' e,
  componentsFrom depth proof' = componentsFrom depth proof ->
  (LowDegreeProverTs.verifyComponents quartic count depth st proof').1 = Throw e <->
  exists prefix, length prefix < count
    /\ take (length prefix) (componentsFrom depth proof) = map Some prefix
    /\ (forall j stj cj, verifierStatesTs st prefix !! j = Some (stj, cj) ->
          (LowDegreeProverTs.verifyComponent quartic (depth + j) stj proof).1 = Return tt)
    /\ (LowDegreeProverTs.verifyComponent quartic (depth + length prefix)
          (fold_left LowDegreeProverTs.nextState prefix st) proof).1 = Throw e.
Proof.
  induction count as [|count IH]; intros depth st proof' e Hfrom;
    cbn [LowDegreeProverTs.verifyComponents].
  - split; [discriminate|]. intros (prefix & Hlength & _). lia.
  - unfold mbind at 1, LowDegreeProverTs.Stateful_bind at 1.
    pose proof (verifyComponent_ts_same quartic depth st proof proof'
                  (componentsFrom_lookup _ _ _ Hfrom)) as Hsame.
    pose proof (verifyComponent_ts_step quartic depth st proof proof' Hfrom) as Hstep.
    destruct (LowDegreeProverTs.verifyComponent quartic depth st proof')
      as [[[]|e1|] proof1]; cbn [fst snd] in *.
    + destruct (Hstep eq_refl) as (c & c' & Hc & Hc' & Hroot & Hfrom1).
      unfold mbind at 1, LowDegreeProverTs.Stateful_bind at 1.
      unfold LowDegreeProverTs.readComponent at 1. rewrite Hc'.
      replace (LowDegreeProverTs.nextState st c') with (LowDegreeProverTs.nextState st c)
        by (unfold LowDegreeProverTs.nextState; rewrite Hroot; reflexivity).
      rewrite (IH (depth + 1) _ proof1 e Hfrom1).
      rewrite (componentsFrom_cons depth proof _ Hc). split.
      * intros (prefix & Hlength & Htake & Hpass & Hthrow). exists (c :: prefix).
        split; [cbn [length]; lia|]. split; [cbn [length take map]; congruence|]. split.
        -- intros [|j] stj cj Hj; cbn [verifierStatesTs] in Hj.
           ++ injection Hj as <- <-. rewrite Nat.add_0_r. symmetry. exact Hsame.
           ++ replace (depth + S j) with (depth + 1 + j) by lia. eapply Hpass. exact Hj.
        -- cbn [length fold_left].
           replace (depth + S (length prefix)) with (depth + 1 + length prefix) by lia.
           exact Hthrow.
      * intros (prefix & Hlength & Htake & Hpass & Hthrow).
        destruct prefix as [|c0 prefix].
        { cbn [length fold_left] in Hthrow. rewrite Nat.add_0_r in Hthrow. congruence. }
        cbn [length take map] in Htake. injection Htake as <- Htake.
        exists prefix. split; [cbn [length] in Hlength; lia|]. split; [exact Htake|]. split.
        -- intros j stj cj Hj. replace (depth + 1 + j) with (depth + S j) by lia.
           eapply Hpass. exact Hj.
        -- cbn [length fold_left] in Hthrow.
           replace (depth + 1 + length prefix) with (depth + S (length prefix)) by lia.
           exact Hthrow.
    + split.
      * intros [= <-]. exists []. split; [cbn [length]; lia|]. split; [reflexivity|]. split.
        -- intros j stj cj Hj. discriminate.
        -- cbn [length fold_left]. rewrite Nat.add_0_r. symmetry. exact Hsame.
      * intros (prefix & _ & _ & Hpass & Hthrow). destruct prefix as [|c0 prefix].
        -- cbn [length fold_left] in Hthrow. rewrite Nat.add_0_r in Hthrow. congruence.
        -- specialize (Hpass 0 st c0 eq_refl). rewrite Nat.add_0_r in Hpass. congruence.
    + split; [discriminate|].
      intros (prefix & _ & _ & Hpass & Hthrow). destruct prefix as [|c0 prefix].
      * cbn [length fold_left] in Hthrow. rewrite Nat.add_0_r in Hthrow. congruence.
      * specialize (Hpass 0 st c0 eq_refl). rewrite Nat.add_0_r in Hpass. congruence.
Qed.

(** The earlier [verify] throws the error of the fold check for depth [k]
    exactly when the components before [k] are there and pass and the loop
    body throws it at depth [k], at the state the components before it lead
    to. *)
Lemma verify_mismatch_ts (fuel : nat) (lRoot : Buffer) (d : nat) (r : Z)
    (proof : LowDegreeProverTs.LowDegreeProof) (k : nat) :
  (LowDegreeProverTs.verify fuel lRoot d r proof).1
  = Throw (StarkError (Degree4Mismatch k))
  <-> exists rouDegree prefix,
        let quartic := LowDegreeProverJs.quarticRootsOfUnity r rouDegree in
        let st0 := {| LowDegreeProverTs.lRoot := lRoot;
                      LowDegreeProverTs.rootOfUnity := r;
                      LowDegreeProverTs.maxDegreePlus1 := d;
                      LowDegreeProverTs.rouDegree := rouDegree |} in
        LowDegreeProverTs.computeRootOfUnityDegree fuel r = Return rouDegree
        /\ length prefix = k
        /\ k < length (LowDegreeProverTs.components proof)
        /\ take k (LowDegreeProverTs.components proof) = map Some prefix
        /\ (forall j stj cj, verifierStatesTs st0 prefix !! j = Some (stj, cj) ->
              (LowDegreeProverTs.verifyComponent quartic j stj proof).1 = Return tt)
        /\ (LowDegreeProverTs.verifyComponent quartic k
              (fold_left LowDegreeProverTs.nextState prefix st0) proof).1
           = Throw (StarkError (Degree4Mismatch k)).
Proof.
  assert (Hloop : forall rouDegree,
    let quartic := LowDegreeProverJs.quarticRootsOfUnity r rouDegree in
    let st0 := {| LowDegreeProverTs.lRoot := lRoot;
                  LowDegreeProverTs.rootOfUnity := r;
                  LowDegreeProverTs.maxDegreePlus1 := d;
                  LowDegreeProverTs.rouDegree := rouDegree |} in
    (LowDegreeProverTs.verifyComponents quartic
       (length (LowDegreeProverTs.components proof)) 0 st0 proof).1
    = Throw (StarkError (Degree4Mismatch k))
    <-> exists prefix,
          length prefix = k
          /\ k < length (LowDegreeProverTs.components proof)
          /\ take k (LowDegreeProverTs.components proof) = map Some prefix
          /\ (forall j stj cj, verifierStatesTs st0 prefix !! j = Some (stj, cj) ->
                (LowDegreeProverTs.verifyComponent quartic j stj proof).1 = Return tt)
          /\ (LowDegreeProverTs.verifyComponent quartic k
                (fold_left LowDegreeProverTs.nextState prefix st0) proof).1
             = Throw (StarkError (Degree4Mismatch k))).
  { intros rouDegree quartic st0.
    rewrite (verifyComponents_Throw_ts quartic proof _ 0 st0 proof _ eq_refl).
    unfold componentsFrom. rewrite drop_0. split.
    - intros (prefix & Hlength & Htake & Hpass & Hthrow).
      pose proof (verifyComponent_mismatch_depth_ts _ _ _ _ _ Hthrow) as Hk.
      cbn [Nat.add] in Hk. subst k. exists prefix. repeat split; assumption.
    - intros (prefix & <- & Hlength & Htake & Hpass & Hthrow).
      exists prefix. repeat split; assumption. }
  unfold LowDegreeProverTs.verify.
  unfold mbind at 1, LowDegreeProverTs.Stateful_bind at 1.
  unfold LowDegreeProverTs.lift at 1.
  destruct (LowDegreeProverTs.computeRootOfUnityDegree fuel r) as [rouDegree|e|] eqn:Hdegree.
  - unfold mbind at 1, LowDegreeProverTs.Stateful_bind at 1.
    unfold LowDegreeProverTs.getProof at 1.
    unfold mbind at 1, LowDegreeProverTs.Stateful_bind at 1.
    specialize (Hloop rouDegree). cbv zeta in Hloop.
    destruct (LowDegreeProverTs.verifyComponents _ _ _ _ proof) as [[st|e|] proof1];
      cbn [fst snd] in *.
    + unfold mbind at 1, LowDegreeProverTs.Stateful_bind at 1.
      unfold LowDegreeProverTs.getProof at 1. unfold LowDegreeProverTs.lift. cbn [fst].
      split.
      * intros Hlast. exfalso. exact (noMismatch_verifyLastLayer_ts _ _ k Hlast).
      * intros (rouDegree' & prefix & [= <-] & Hrest).
        assert (Hthrow : @Return LowDegreeProverTs.VerifierState st
                         = Throw (StarkError (Degree4Mismatch k)))
          by (apply Hloop; exists prefix; exact Hrest).
        discriminate.
    + split.
      * intros Hthrow. cbn in Hthrow. injection Hthrow as ->.
        destruct Hloop as [Hloop _]. destruct (Hloop eq_refl) as (prefix & Hrest).
        exists rouDegree, prefix. split; [reflexivity|exact Hrest].
      * intros (rouDegree' & prefix & [= <-] & Hrest).
        assert (Hthrow : @Throw LowDegreeProverTs.VerifierState e
                         = Throw (StarkError (Degree4Mismatch k)))
          by (apply Hloop; exists prefix; exact Hrest).
        injection Hthrow as ->. reflexivity.
    + split; [discriminate|].
      intros (rouDegree' & prefix & [= <-] & Hrest).
      assert (Hthrow : @Unfinished LowDegreeProverTs.VerifierState
                       = Throw (StarkError (Degree4Mismatch k)))
        by (apply Hloop; exists prefix; exact Hrest).
      discriminate.
  - cbn [fst]. split.
    + intros Hthrow. exfalso. injection Hthrow as ->.
      exact (noMismatch_getRootOfUnityDegree fuel r k Hdegree).
    + intros (rouDegree & prefix & [=] & _).
  - cbn [fst]. split; [discriminate|]. intros (rouDegree & prefix & [=] & _).
Qed.

Lemma verifierStatesTs_components (st : LowDegreeProverTs.VerifierState)
    (comps : list FriComponent) :
  snd <$> verifierStatesTs st comps = comps.
Proof.
  revert st; induction comps as [|c comps IH]; intros st; [reflexivity|].
  cbn [verifierStatesTs]. rewrite fmap_cons. cbn [snd]. f_equal. apply IH.
Qed.

(** A proof the earlier [verify] accepts passes the fold check at every
    depth. *)
Lemma verify_Return_holds_ts (fuel : nat) (lRoot : Buffer) (d : nat) (r : Z)
    (proof : LowDegreeProverTs.LowDegreeProof) (b : bool) :
  (LowDegreeProverTs.verify fuel lRoot d r proof).1 = Return b ->
  exists rouDegree comps,
    LowDegreeProverTs.computeRootOfUnityDegree fuel r = Return rouDegree
    /\ LowDegreeProverTs.components proof = map Some comps
    /\ forall k st c,
         verifierStatesTs {| LowDegreeProverTs.lRoot := lRoot;
                             LowDegreeProverTs.rootOfUnity := r;
                             LowDegreeProverTs.maxDegreePlus1 := d;
                             LowDegreeProverTs.rouDegree := rouDegree |} comps
         !! k = Some (st, c) ->
         foldHoldsTs (LowDegreeProverJs.quarticRootsOfUnity r rouDegree) st c.
Proof.
  unfold LowDegreeProverTs.verify. intros Hrun.
  apply stateful_bind_fst_Return in Hrun as (rouDegree & proof1 & Hdegree & Hrun).
  unfold LowDegreeProverTs.lift in Hdegree. injection Hdegree as Hdegree <-.
  apply stateful_bind_fst_Return in Hrun as (proof2 & proof3 & Hget & Hrun).
  unfold LowDegreeProverTs.getProof in Hget. injection Hget as <- <-.
  apply stateful_bind_fst_Return in Hrun as (st & proof4 & Hloop & _).
  assert (Hloop' : (LowDegreeProverTs.verifyComponents
                      (LowDegreeProverJs.quarticRootsOfUnity r rouDegree)
                      (length (LowDegreeProverTs.components proof)) 0
                      {| LowDegreeProverTs.lRoot := lRoot;
                         LowDegreeProverTs.rootOfUnity := r;
                         LowDegreeProverTs.maxDegreePlus1 := d;
                         LowDegreeProverTs.rouDegree := rouDegree |} proof).1 = Return st)
    by (rewrite Hloop; reflexivity).
  apply (verifyComponents_Return_ts _ proof _ 0 _ proof _ eq_refl) in Hloop'
    as (comps & Hlength & Htake & Hpass & _).
  unfold componentsFrom in Htake. rewrite drop_0, firstn_all in Htake.
  exists rouDegree, comps. split; [exact Hdegree|]. split; [exact Htake|].
  intros k stk c Hk.
  destruct (verifyComponent_Return_ts _ _ _ _ (Hpass k stk c Hk)) as (c' & Hc' & Hholds).
  cbn [Nat.add] in Hc'.
  assert (Hc : LowDegreeProverTs.components proof !! k = Some (Some c)).
  { rewrite Htake. rewrite list_lookup_fmap.
    rewrite <- (verifierStatesTs_components
                  {| LowDegreeProverTs.lRoot := lRoot;
                     LowDegreeProverTs.rootOfUnity := r;
                     LowDegreeProverTs.maxDegreePlus1 := d;
                     LowDegreeProverTs.rouDegree := rouDegree |} comps) at 1.
    rewrite list_lookup_fmap, Hk. reflexivity. }
  congruence.
Qed.

End VerifyRuns.

Section FoldCheckTheorem.
Context `{field : FiniteField} `{hash : Hash} `{merkle : Merkle}
        `{idxGenerator : QueryIndexGenerator}.

(** C2. At a component at [depth], the x coordinates of a queried position
    are the products of the four quartic roots of unity with the power of the
    root of unity of the layer, the pseudo-random x is drawn from the root of
    the layer before, and the root of unity of the next layer is the 4th
    power. The loop body of each verifier throws the error of the fold check
    at [depth] exactly when its reads and Merkle checks pass and, at some
    queried position, the polynomial interpolated from the four revealed
    values on these x coordinates does not evaluate at the pseudo-random x to
    the revealed column value. Each [verify] runs the loop body on every
    component in turn: it throws the error of the fold check for depth [k]
    exactly when the steps before the loop and the components before [k]
    pass and the loop body throws it on component [k], at the state the
    components before lead to; and a proof it accepts passes the fold check
    at every depth ([foldHolds]). Under the contract of the field library
    ([foldContract]), for [2^n] evaluations on the powers of [g]: the quartic
    roots of unity are the powers of a primitive 4th root of unity; on a
    proof [prove] returns, at the state of the verifier at every depth [k]
    the root of unity is [g^(4^k)] and the evaluations are the column values
    at every queried position, so that neither the loop body nor [verify]
    throws the error of the fold check. *)
Theorem fold_check_at_every_depth (inField : Z -> Prop) (g : Z) (n : nat) :
  (forall r columnLength w position,
     LowDegreeProverJs.rowXs (LowDegreeProverJs.quarticRootsOfUnity r columnLength)
       w position
     = [fmul 1 (fexp w position);
        fmul (fexp r (columnLength / 4)) (fexp w position);
        fmul (fexp r (columnLength / 2)) (fexp w position);
        fmul (fexp r (columnLength * 3 / 4)) (fexp w position)])
  /\ (forall st c,
        LowDegreeProverJs.pRoot (LowDegreeProverJs.nextState st c) = columnRoot c
        /\ LowDegreeProverJs.rootOfUnity (LowDegreeProverJs.nextState st c)
           = fexp (LowDegreeProverJs.rootOfUnity st) 4)
  /\ (forall st c,
        LowDegreeProverTs.lRoot (LowDegreeProverTs.nextState st c) = columnRoot c
        /\ LowDegreeProverTs.rootOfUnity (LowDegreeProverTs.nextState st c)
           = fexp (LowDegreeProverTs.rootOfUnity st) 4)
  /\ (forall quartic depth st c,
        let positions := getFriIndexes (columnRoot c) (LowDegreeProverJs.columnLength st) in
        let augmentedPositions :=
          LowDegreeProverJs.getAugmentedPositions positions
            (LowDegreeProverJs.columnLength st) in
        let specialX := prng (LowDegreeProverJs.pRoot st) in
        LowDegreeProverJs.verifyComponent quartic depth st c
        = Throw (StarkError (Degree4Mismatch depth))
        <-> exists columnValues polyValues,
              LowDegreeProverJs.parseColumnValues (values (columnProof c)) positions
                augmentedPositions (LowDegreeProverJs.columnLength st)
              = Return columnValues
              /\ verifyBatch (columnRoot c) augmentedPositions
                   (rehashMerkleProofValues (columnProof c)) = inr true
              /\ LowDegreeProverJs.parsePolyValues (values (polyProof c))
                 = Return polyValues
              /\ verifyBatch (LowDegreeProverJs.pRoot st) positions
                   (rehashMerkleProofValues (polyProof c)) = inr true
              /\ length positions <= length polyValues
              /\ exists i position ys,
                   positions !! i = Some position /\ polyValues !! i = Some ys
                   /\ columnValues !! i
                      <> Some (evalQuartic
                                 (interpolateQuartic
                                    (LowDegreeProverJs.rowXs quartic
                                       (LowDegreeProverJs.rootOfUnity st) position) ys)
                                 specialX))
  /\ (forall quartic depth st proof,
        (LowDegreeProverTs.verifyComponent quartic depth st proof).1
        = Throw (StarkError (Degree4Mismatch depth))
        <-> exists c columnValues ys,
              let columnLength := LowDegreeProverTs.rouDegree st / 4 in
              let positions := getFriIndexes (columnRoot c) columnLength in
              let augmentedPositions :=
                LowDegreeProverTs.getAugmentedPositions positions columnLength in
              let specialX := prng (LowDegreeProverTs.lRoot st) in
              LowDegreeProverTs.components proof !! depth = Some (Some c)
              /\ LowDegreeProverTs.parseColumnValues (values (columnProof c)) positions
                   augmentedPositions columnLength = Return columnValues
              /\ verifyBatch (columnRoot c) augmentedPositions
                   (rehashMerkleProofValues (columnProof c)) = inr true
              /\ LowDegreeProverTs.parsePolyValues (values (polyProof c)) = Return ys
              /\ verifyBatch (LowDegreeProverTs.lRoot st) positions
                   (rehashMerkleProofValues (polyProof c)) = inr true
              /\ length positions <= length ys
              /\ exists i position row,
                   positions !! i = Some position /\ ys !! i = Some row
                   /\ columnValues !! i
                      <> Some (evalPolyAt
                                 (interpolateQuartic
                                    (LowDegreeProverJs.rowXs quartic
                                       (LowDegreeProverTs.rootOfUnity st) position) row)
                                 specialX))
  /\ (forall fuel r proof lcValues exeQueryPositions d k,
        LowDegreeProverJs.verify fuel r proof lcValues exeQueryPositions d
        = Throw (StarkError (Degree4Mismatch k))
        <-> exists columnLength lcChecks prefix c rest,
              let quartic := LowDegreeProverJs.quarticRootsOfUnity r columnLength in
              let lcPositions :=
                LowDegreeProverJs.getAugmentedPositions exeQueryPositions columnLength in
              let st0 := {| LowDegreeProverJs.pRoot := LowDegreeProverJs.lcRoot proof;
                            LowDegreeProverJs.rootOfUnity := r;
                            LowDegreeProverJs.maxDegreePlus1 := d;
                            LowDegreeProverJs.columnLength := columnLength / 4 |} in
              LowDegreeProverJs.getRootOfUnityDegree fuel r = Return columnLength
              /\ LowDegreeProverJs.parseColumnValues
                   (values (LowDegreeProverJs.lcProof proof)) exeQueryPositions
                   lcPositions columnLength = Return lcChecks
              /\ verifyBatch (LowDegreeProverJs.lcRoot proof) lcPositions
                   (rehashMerkleProofValues (LowDegreeProverJs.lcProof proof)) = inr true
              /\ LowDegreeProverJs.checkLinearCombination lcValues lcChecks = Return tt
              /\ LowDegreeProverJs.components proof = map Some prefix ++ Some c :: rest
              /\ length prefix = k
              /\ (forall j stj cj, verifierStates st0 prefix !! j = Some (stj, cj) ->
                    LowDegreeProverJs.verifyComponent quartic j stj cj = Return tt)
              /\ LowDegreeProverJs.verifyComponent quartic k
                   (fold_left LowDegreeProverJs.nextState prefix st0) c
                 = Throw (StarkError (Degree4Mismatch k)))
  /\ (forall fuel lRoot d r proof k,
        (LowDegreeProverTs.verify fuel lRoot d r proof).1
        = Throw (StarkError (Degree4Mismatch k))
        <-> exists rouDegree prefix,
              let quartic := LowDegreeProverJs.quarticRootsOfUnity r rouDegree in
              let st0 := {| LowDegreeProverTs.lRoot := lRoot;
                            LowDegreeProverTs.rootOfUnity := r;
                            LowDegreeProverTs.maxDegreePlus1 := d;
                            LowDegreeProverTs.rouDegree := rouDegree |} in
              LowDegreeProverTs.computeRootOfUnityDegree fuel r = Return rouDegree
              /\ length prefix = k
              /\ k < length (LowDegreeProverTs.components proof)
              /\ take k (LowDegreeProverTs.components proof) = map Some prefix
              /\ (forall j stj cj, verifierStatesTs st0 prefix !! j = Some (stj, cj) ->
                    (LowDegreeProverTs.verifyComponent quartic j stj proof).1
                    = Return tt)
              /\ (LowDegreeProverTs.verifyComponent quartic k
                    (fold_left LowDegreeProverTs.nextState prefix st0) proof).1
                 = Throw (StarkError (Degree4Mismatch k)))
  /\ (forall fuel r proof lcValues exeQueryPositions d,
        LowDegreeProverJs.verify fuel r proof lcValues exeQueryPositions d = Return true ->
        exists columnLength comps,
          LowDegreeProverJs.getRootOfUnityDegree fuel r = Return columnLength
          /\ LowDegreeProverJs.components proof = map Some comps
          /\ forall k st c,
               verifierStates
                 {| LowDegreeProverJs.pRoot := LowDegreeProverJs.lcRoot proof;
                    LowDegreeProverJs.rootOfUnity := r;
                    LowDegreeProverJs.maxDegreePlus1 := d;
                    LowDegreeProverJs.columnLength := columnLength / 4 |} comps
               !! k = Some (st, c) ->
               foldHolds (LowDegreeProverJs.quarticRootsOfUnity r columnLength) st c)
  /\ (forall fuel lRoot d r proof,
        (LowDegreeProverTs.verify fuel lRoot d r proof).1 = Return true ->
        exists rouDegree comps,
          LowDegreeProverTs.computeRootOfUnityDegree fuel r = Return rouDegree
          /\ LowDegreeProverTs.components proof = map Some comps
          /\ forall k st c,
               verifierStatesTs
                 {| LowDegreeProverTs.lRoot := lRoot;
                    LowDegreeProverTs.rootOfUnity := r;
                    LowDegreeProverTs.maxDegreePlus1 := d;
                    LowDegreeProverTs.rouDegree := rouDegree |} comps
               !! k = Some (st, c) ->
               foldHoldsTs (LowDegreeProverJs.quarticRootsOfUnity r rouDegree) st c)
  /\ (foldContract inField g ->
      let quartic := LowDegreeProverJs.quarticRootsOfUnity g (2 ^ n) in
      (forall fuel, 2 <= n ->
         LowDegreeProverJs.getRootOfUnityDegree fuel g = Return (2 ^ n) ->
         let zeta := fexp g (2 ^ n / 4) in
         quartic = [1%Z; zeta; fexp zeta 2; fexp zeta 3]
         /\ fexp zeta 4 = 1%Z /\ fexp zeta 2 <> 1%Z)
      /\ (forall d cEvaluations domain proof,
            length cEvaluations = 2 ^ n -> domain = getPowerSeries g (2 ^ n) ->
            Forall inField cEvaluations ->
            LowDegreeProverJs.prove cEvaluations domain d = Return proof ->
            exists comps,
              let st0 := {| LowDegreeProverJs.pRoot := LowDegreeProverJs.lcRoot proof;
                            LowDegreeProverJs.rootOfUnity := g;
                            LowDegreeProverJs.maxDegreePlus1 := d;
                            LowDegreeProverJs.columnLength := 2 ^ n / 4 |} in
              LowDegreeProverJs.components proof = map Some comps
              /\ (forall k st c, verifierStates st0 comps !! k = Some (st, c) ->
                    LowDegreeProverJs.rootOfUnity st = fexp g (4 ^ k)
                    /\ foldHolds quartic st c
                    /\ noMismatch (LowDegreeProverJs.verifyComponent quartic k st c))
              /\ (forall fuel lcValues exeQueryPositions,
                    LowDegreeProverJs.getRootOfUnityDegree fuel g = Return (2 ^ n) ->
                    noMismatch (LowDegreeProverJs.verify fuel g proof lcValues
                                  exeQueryPositions d)))
      /\ (forall d lTree values domain proof,
            layerShape domain 0 n values -> domain = getPowerSeries g (2 ^ n) ->
            Forall (Forall inField) values ->
            LowDegreeProverTs.prove lTree values domain d = Return proof ->
            exists comps,
              let st0 := {| LowDegreeProverTs.lRoot := root lTree;
                            LowDegreeProverTs.rootOfUnity := g;
                            LowDegreeProverTs.maxDegreePlus1 := d;
                            LowDegreeProverTs.rouDegree := 2 ^ n |} in
              LowDegreeProverTs.components proof = map Some comps
              /\ (forall k st c, verifierStatesTs st0 comps !! k = Some (st, c) ->
                    LowDegreeProverTs.rootOfUnity st = fexp g (4 ^ k)
                    /\ foldHoldsTs quartic st c)
              /\ (forall fuel,
                    LowDegreeProverTs.computeRootOfUnityDegree fuel g = Return (2 ^ n) ->
                    noMismatch (LowDegreeProverTs.verify fuel (root lTree) d g proof).1))).
Proof.
  split; [reflexivity|]. split; [split; reflexivity|]. split; [split; reflexivity|].
  split; [exact verifyComponent_mismatch_js|].
  split; [exact verifyComponent_mismatch_ts|].
  split; [exact verify_mismatch_js|].
  split; [exact verify_mismatch_ts|].
  split; [intros fuel r proof lcValues exeQueryPositions d;
          apply verify_Return_holds_js|].
  split; [intros fuel lRoot d r proof; apply verify_Return_holds_ts|].
  intros Hcontract quartic. pose proof Hcontract as (Hg & _). split; [|split].
  - intros fuel Hn Hdegree.
    exact (quarticRootsOfUnity_powers inField g Hcontract fuel n Hn Hdegree).
  - intros d cEvaluations domain proof Hlength Hdomain Hfield Hprove.
    destruct (prove_consistent_js inField g Hcontract n d cEvaluations domain proof
                Hlength Hdomain Hfield Hprove) as (comps & Hcomps & Hall).
    exists comps. cbv zeta. split; [exact Hcomps|]. split.
    + intros k st c Hk.
      pose proof (Forall_lookup_1 _ _ _ _ Hall Hk) as Hholds. cbn [fst snd] in Hholds.
      split; [|split; [exact Hholds|apply verifyComponent_holds_js; exact Hholds]].
      eapply (verifierStates_rootOfUnity inField g Hcontract comps 0); [|exact Hk].
      cbn [LowDegreeProverJs.rootOfUnity]. rewrite Nat.pow_0_r. symmetry. exact Hg.
    + intros fuel lcValues exeQueryPositions Hdegree.
      exact (verify_holds_js fuel g proof lcValues exeQueryPositions d (2 ^ n) comps
               Hdegree Hcomps Hall).
  - intros d lTree values domain proof Hshape Hdomain Hfield Hprove.
    destruct (prove_consistent_ts inField g Hcontract n d lTree values domain proof
                Hshape Hdomain Hfield Hprove) as (comps & Hcomps & Hall).
    exists comps. cbv zeta. split; [exact Hcomps|]. split.
    + intros k st c Hk.
      pose proof (Forall_lookup_1 _ _ _ _ Hall Hk) as Hholds. cbn [fst snd] in Hholds.
      split; [|exact Hholds].
      eapply (verifierStatesTs_rootOfUnity inField g Hcontract comps 0); [|exact Hk].
      cbn [LowDegreeProverTs.rootOfUnity]. rewrite Nat.pow_0_r. symmetry. exact Hg.
    + intros fuel Hdegree.
      exact (verify_holds_ts fuel (root lTree) d g proof (2 ^ n) comps
               Hdegree Hcomps Hall).
Qed.

End FoldCheckTheorem.

(** ** The theorems on the concrete backend *)

(** C1 on the proofs of the two provers for the 512 evaluations: the root of
    unity has order 512, and the runs of the verifiers end. *)
Lemma verify_returns_true_or_throws_witness :
  squaresToOne 9 Example.g512
  /\ LowDegreeProverJs.verify 9 Example.g512 Example.proofJs512 Example.lcValues512
       Example.exePositions512 16 <> Return false
  /\ (LowDegreeProverJs.verify 9 Example.g512 Example.proofJs512 Example.lcValues512
        Example.exePositions512 16 = Return true
      \/ exists e,
           LowDegreeProverJs.verify 9 Example.g512 Example.proofJs512 Example.lcValues512
             Example.exePositions512 16 = Throw e).
Proof.
  assert (Hone : squaresToOne 9 Example.g512) by (vm_compute; reflexivity).
  destruct (verify_returns_true_or_throws 9 9 Example.g512 Example.proofJs512
              Example.lcValues512 Example.exePositions512 16
              (root (create Example.tree512)) Example.proofTs512
              Example.starkObject [Example.assertion] Example.starkProof 1)
    as ((Hjs & _ & _) & Hruns & _).
  split; [exact Hone|]. split; [exact Hjs|].
  destruct (Hruns Hone (le_n 9)) as [Hrun _]. exact Hrun.
Defined.

(** The loop of [getRootOfUnityDegree] on 0, whose square is 0. *)
Lemma example_zero_loop (fuel : nat) :
  forall result, LowDegreeProverJs.getRootOfUnityDegreeFrom fuel 0 result = Unfinished.
Proof.
  induction fuel as [|fuel IH]; intros result; [reflexivity|].
  cbn [LowDegreeProverJs.getRootOfUnityDegreeFrom].
  rewrite decide_False by discriminate.
  change (fmul 0 0) with 0%Z. apply IH.
Qed.

(** C1 as worded, for every set of inputs, fails on the root of unity 0: the
    loop that squares it never reaches 1, and neither version of [verify]
    returns true or throws, whatever the number of turns. *)
Lemma verify_neither_returns_nor_throws :
  let runJs fuel := LowDegreeProverJs.verify fuel 0 Example.emptyProofJs [] [] 1 in
  let runTs fuel := (LowDegreeProverTs.verify fuel [] 1 0 Example.emptyProofTs).1 in
  ~ (exists fuel, runJs fuel = Return true \/ exists e, runJs fuel = Throw e)
  /\ ~ (exists fuel, runTs fuel = Return true \/ exists e, runTs fuel = Throw e).
Proof.
  assert (Hjs : forall fuel,
            LowDegreeProverJs.verify fuel 0 Example.emptyProofJs [] [] 1 = Unfinished).
  { intros fuel. unfold LowDegreeProverJs.verify, LowDegreeProverJs.getRootOfUnityDegree.
    rewrite example_zero_loop. reflexivity. }
  assert (Hts : forall fuel,
            (LowDegreeProverTs.verify fuel [] 1 0 Example.emptyProofTs).1 = Unfinished).
  { intros fuel. unfold LowDegreeProverTs.verify, LowDegreeProverTs.computeRootOfUnityDegree.
    unfold mbind at 1, LowDegreeProverTs.Stateful_bind at 1, LowDegreeProverTs.lift at 1.
    unfold LowDegreeProverJs.getRootOfUnityDegree.
    rewrite example_zero_loop. reflexivity. }
  cbv zeta. split; intros [fuel [Hrun | [e Hrun]]].
  - rewrite Hjs in Hrun. discriminate.
  - rewrite Hjs in Hrun. discriminate.
  - rewrite Hts in Hrun. discriminate.
  - rewrite Hts in Hrun. discriminate.
Qed.

(** C2 on the proof of the compiled prover for the 512 evaluations. *)
Lemma fold_check_at_every_depth_witness :
  foldContract Example.inField Example.g512
  /\ noMismatch (LowDegreeProverJs.verify 9 Example.g512 Example.proofJs512
                   Example.lcValues512 Example.exePositions512 16)
  /\ noMismatch (LowDegreeProverTs.verify 9 (root (create Example.tree512)) 16
                   Example.g512 Example.proofTs512).1.
Proof.
  pose proof example_foldContract as Hcontract.
  destruct (fold_check_at_every_depth Example.inField Example.g512 9)
    as (_ & _ & _ & _ & _ & _ & _ & _ & _ & Hproofs).
  destruct (Hproofs Hcontract) as (_ & Hjs & Hts).
  split; [exact Hcontract|]. split.
  - destruct (Hjs 16 Example.evaluations512 Example.domain512 Example.proofJs512)
      as (comps & _ & _ & Hverify).
    + vm_compute. reflexivity.
    + reflexivity.
    + apply Forall_forall. intros x Hx. unfold Example.evaluations512 in Hx.
      apply list_elem_of_fmap in Hx as [y [-> _]]. apply example_evalPoly_range.
    + vm_compute. reflexivity.
    + apply Hverify. vm_compute. reflexivity.
  - destruct (Hts 16 (create Example.tree512) Example.values512 Example.domain512
                Example.proofTs512) as (comps & _ & _ & Hverify).
    + exact example_layerShape.
    + reflexivity.
    + apply transposeVector_Forall. apply Forall_forall. intros x Hx.
      unfold Example.evaluations512 in Hx.
      apply list_elem_of_fmap in Hx as [y [-> _]]. apply example_evalPoly_range.
    + vm_compute. reflexivity.
    + apply Hverify. vm_compute. reflexivity.
Defined.

(** C3 on the 512 evaluations: both provers fold once and stop. *)
Lemma fri_terminates_witness :
  layerShape Example.domain512 0 9 Example.values512
  /\ LowDegreeProverJs.fri 128 (create Example.tree512) Example.values512 16 0
       Example.domain512 Example.emptyProofJs <> Unfinished
  /\ LowDegreeProverTs.fri 128 (create Example.tree512) Example.values512 16 0
       Example.domain512 Example.emptyProofTs <> Unfinished.
Proof.
  destruct (fri_terminates (field := Example.field) 9 0 16 Example.domain512 (create Example.tree512)
              Example.values512 Example.emptyProofJs Example.emptyProofTs
              example_layerShape (Nat.lt_0_succ 1) example_toBuffer_length)
    as (_ & Hjs & _ & Hts & _).
  split; [exact example_layerShape|]. split; [exact Hjs|exact Hts].
Defined.

(** C5 on the 512 evaluations: one component; and on 64 evaluations, where
    the formula gives no component: both versions throw. *)
Lemma components_count_witness :
  Z.of_nat (length (LowDegreeProverJs.components Example.proofJs512)) = 1%Z
  /\ Z.of_nat (length (LowDegreeProverTs.components Example.proofTs512)) = 1%Z
  /\ length (replicate 64 1%Z) = 2 ^ 6
  /\ LowDegreeProverJs.prove (replicate 64 1%Z) (getPowerSeries 1%Z 64) 4
     = Throw RangeError
  /\ LowDegreeProverTs.prove (create []) (transposeVector (replicate 64 1%Z) 4 1)
       (getPowerSeries 1%Z 64) 4
     = Throw RangeError.
Proof.
  destruct (components_count 9 16 Example.evaluations512 Example.domain512
              (create Example.tree512) Example.values512
              ltac:(vm_compute; reflexivity) ltac:(vm_compute; reflexivity)
              example_layerShape) as (Hjs & Hts & _).
  assert (Hshape : layerShape (getPowerSeries 1%Z 64) 0 6
                     (transposeVector (replicate 64 1%Z) 4 1)).
  { split; [apply transposeVector_rows|]. split; vm_compute; reflexivity. }
  destruct (components_count 6 4 (replicate 64 1%Z) (getPowerSeries 1%Z 64)
              (create []) (transposeVector (replicate 64 1%Z) 4 1)
              ltac:(vm_compute; reflexivity) ltac:(vm_compute; reflexivity)
              Hshape) as (_ & _ & Hsmall).
  destruct (Hsmall ltac:(lia)) as (_ & Hjs64 & Hts64).
  split; [apply Hjs; vm_compute; reflexivity|].
  split; [apply Hts; vm_compute; reflexivity|].
  split; [vm_compute; reflexivity|].
  split; [exact Hjs64|exact Hts64].
Defined.

(** C6 on the values of 3 + 5 X on the powers of a root of unity of order 8,
    with the bound 2: six positions are kept, and the remainder passes. *)
Lemma verifyRemainder_spec_witness :
  length (LowDegreeProverJs.remainderPositions (length Example.remainder8)) = 6
  /\ LowDegreeProverJs.verifyRemainder Example.remainder8 2 Example.w8 = Return tt.
Proof.
  split; [vm_compute; reflexivity|].
  assert (Hbound : 2 <= length (LowDegreeProverJs.remainderPositions
                                  (length Example.remainder8))).
  { replace (length _) with 6 by (vm_compute; reflexivity). lia. }
  destruct (verifyRemainder_spec Example.inField Example.remainder8 2 Example.w8 Hbound)
    as (_ & _ & _ & _ & Hpolynomial).
  apply (Hpolynomial example_interpolationContract) with (q := Example.line).
  - intros e. apply example_exp_range.
  - assert (Hdistinct : bool_decide (NoDup (getPowerSeries Example.w8
                                               (length Example.remainder8))))
      by (vm_compute; exact I).
    exact (bool_decide_unpack _ Hdistinct).
  - simpl. lia.
  - reflexivity.
Defined.

(** C6 without the bound on [maxDegreePlus1] fails: of the 8 values of
    3 + 5 X, of degree 1, six positions are kept, and with the bound 7 the
    first loop reads a position that is not there. *)
Lemma verifyRemainder_short_of_positions :
  Example.remainder8 = map (evalPolyAt Example.line) (getPowerSeries Example.w8 8)
  /\ length Example.line <= 7
  /\ length (LowDegreeProverJs.remainderPositions (length Example.remainder8)) = 6
  /\ LowDegreeProverJs.verifyRemainder Example.remainder8 7 Example.w8
     = Throw (TypeError "undefined is not a field element")
  /\ LowDegreeProverJs.verifyRemainder Example.remainder8 7 Example.w8 <> Return tt.
Proof.
  assert (Hrun : LowDegreeProverJs.verifyRemainder Example.remainder8 7 Example.w8
                 = Throw (TypeError "undefined is not a field element"))
    by (vm_compute; reflexivity).
  split; [reflexivity|]. split; [simpl; lia|]. split; [vm_compute; reflexivity|].
  split; [exact Hrun|]. rewrite Hrun. discriminate.
Qed.

(** ** More of the low-degree prover *)

Section RootOfUnityDegree.
Context `{field : FiniteField} `{hash : Hash} `{merkle : Merkle}
        `{idxGenerator : QueryIndexGenerator}.

Lemma squaresToOne_succ (k : nat) (r : Z) :
  squaresToOne (S k) r <-> squaresToOne k (fmul r r).
Proof.
  unfold squaresToOne.
  rewrite (Nat.iter_succ_r k (fun x => fmul x x) r). reflexivity.
Qed.

Lemma getRootOfUnityDegreeFrom_Return (fuel : nat) :
  forall r result N,
  LowDegreeProverJs.getRootOfUnityDegreeFrom fuel r result = Return N <->
  exists k, k <= fuel /\ N = result * 2 ^ k /\ squaresToOne k r
            /\ forall j, j < k -> ~ squaresToOne j r.
Proof.
  induction fuel as [|fuel IH]; intros r result N;
    cbn [LowDegreeProverJs.getRootOfUnityDegreeFrom];
    destruct (decide (r = 1%Z)) as [Hone|Hother].
  1, 3: split;
        [intros [= <-]; exists 0; rewrite Nat.pow_0_r, Nat.mul_1_r;
         repeat split; [lia|exact Hone|intros j Hj; lia]
        |intros ([|k] & _ & -> & _ & Hleast);
         [rewrite Nat.pow_0_r, Nat.mul_1_r; reflexivity
         |exfalso; apply (Hleast 0); [lia|exact Hone]]].
  - split; [discriminate|]. intros ([|k] & Hk & _ & Hk1 & _); [|lia].
    exfalso. apply Hother. exact Hk1.
  - rewrite IH. split.
    + intros (k & Hk & -> & Hk1 & Hleast). exists (S k).
      split; [lia|]. split; [rewrite Nat.pow_succ_r'; lia|].
      split; [apply squaresToOne_succ; exact Hk1|].
      intros [|j] Hj; [exact Hother|].
      rewrite squaresToOne_succ. apply Hleast. lia.
    + intros ([|k] & Hk & -> & Hk1 & Hleast); [exfalso; apply Hother; exact Hk1|].
      exists k. split; [lia|]. split; [rewrite Nat.pow_succ_r'; lia|].
      split; [apply squaresToOne_succ; exact Hk1|].
      intros j Hj. rewrite <- squaresToOne_succ. apply Hleast. lia.
Qed.

Lemma getRootOfUnityDegreeFrom_Unfinished (fuel : nat) :
  forall r result,
  (forall k, k <= fuel -> ~ squaresToOne k r) ->
  LowDegreeProverJs.getRootOfUnityDegreeFrom fuel r result = Unfinished.
Proof.
  induction fuel as [|fuel IH]; intros r result Hnever;
    cbn [LowDegreeProverJs.getRootOfUnityDegreeFrom];
    destruct (decide (r = 1%Z)) as [Hone|Hother];
    try (exfalso; apply (Hnever 0); [lia|exact Hone]); [reflexivity|].
  apply IH. intros k Hk. rewrite <- squaresToOne_succ. apply Hnever. lia.
Qed.

(** X3. [getRootOfUnityDegree] returns [2^k] for the least number [k] of
    squarings that take the root of unity to 1, and it does not throw. When
    no number of squarings does, the loop does not end, whatever the fuel,
    and neither does a call of [verify] of either version: they run the loop
    before they look at the proof. *)
Theorem root_of_unity_degree (fuel : nat) (r : Z) :
  (forall N,
     LowDegreeProverJs.getRootOfUnityDegree fuel r = Return N <->
     exists k, k <= fuel /\ N = 2 ^ k /\ squaresToOne k r
               /\ forall j, j < k -> ~ squaresToOne j r)
  /\ (forall e, LowDegreeProverJs.getRootOfUnityDegree fuel r <> Throw e)
  /\ ((forall k, ~ squaresToOne k r) ->
      LowDegreeProverJs.getRootOfUnityDegree fuel r = Unfinished
      /\ (forall proof lcValues exeQueryPositions d,
            LowDegreeProverJs.verify fuel r proof lcValues exeQueryPositions d
            = Unfinished)
      /\ (forall lRoot d proof,
            (LowDegreeProverTs.verify fuel lRoot d r proof).1 = Unfinished)).
Proof.
  split; [|split].
  - intros N. unfold LowDegreeProverJs.getRootOfUnityDegree.
    rewrite getRootOfUnityDegreeFrom_Return. split.
    + intros (k & Hk & -> & Hrest). exists k. rewrite Nat.mul_1_l in *. auto.
    + intros (k & Hk & -> & Hrest). exists k. rewrite Nat.mul_1_l. auto.
  - intros e. unfold LowDegreeProverJs.getRootOfUnityDegree. generalize 1 as result.
    revert r. induction fuel as [|fuel IH]; intros r result;
      cbn [LowDegreeProverJs.getRootOfUnityDegreeFrom];
      destruct (decide _); try discriminate. apply IH.
  - intros Hnever.
    assert (Hloop : LowDegreeProverJs.getRootOfUnityDegree fuel r = Unfinished).
    { apply getRootOfUnityDegreeFrom_Unfinished. intros k _. apply Hnever. }
    split; [exact Hloop|]. split.
    + intros proof lcValues exeQueryPositions d.
      unfold LowDegreeProverJs.verify. rewrite Hloop. reflexivity.
    + intros lRoot d proof. unfold LowDegreeProverTs.verify.
      unfold mbind at 1, LowDegreeProverTs.Stateful_bind at 1.
      unfold LowDegreeProverTs.lift at 1, LowDegreeProverTs.computeRootOfUnityDegree.
      rewrite Hloop. reflexivity.
Qed.

Section Thrown.

Variable allowed : Error -> Prop.
Hypothesis Htype : forall text, allowed (TypeError text).
Hypothesis Hlibrary : forall text, allowed (LibraryError text).
Hypothesis Hrange : allowed RangeError.

Lemma throwsOnly_called {A} (result : string + A) : throwsOnly allowed (called result).
Proof. intros e. destruct result; [intros [= <-]; apply Hlibrary|discriminate]. Qed.

Lemma throwsOnly_assert (ok : bool) (message : Message) :
  allowed (StarkError message) -> throwsOnly allowed (assertStark ok message).
Proof. intros Hmessage e. destruct ok; [discriminate|]. intros [= <-]. exact Hmessage. Qed.

Lemma throwsOnly_getValue (v : Vector) (i : nat) : throwsOnly allowed (getValue v i).
Proof.
  intros e. unfold getValue. destruct (v !! i); [discriminate|].
  intros [= <-]. apply Htype.
Qed.

Lemma throwsOnly_parseColumnValues (buffers : list Buffer)
    (positions augmentedPositions : list nat) (columnLength : nat) :
  throwsOnly allowed
    (LowDegreeProverJs.parseColumnValues buffers positions augmentedPositions columnLength).
Proof.
  induction positions as [|p positions IH]; cbn [LowDegreeProverJs.parseColumnValues];
    [apply throwsOnly_Return|].
  apply throwsOnly_bind.
  - intros e. unfold LowDegreeProverJs.parseColumnValue.
    destruct (LowDegreeProverJs.columnBuffer _ _ _ _).
    + intros Hread. apply readBigInt_Throw in Hread as [_ ->]. exact Hrange.
    + intros [= <-]. apply Htype.
  - intros value _. apply throwsOnly_bind; [exact IH|].
    intros result _. apply throwsOnly_Return.
Qed.

Lemma throwsOnly_parsePolyValues (buffers : list Buffer) :
  throwsOnly allowed (LowDegreeProverJs.parsePolyValues buffers).
Proof. intros e Hthrow. apply parsePolyValues_Throw in Hthrow as [-> _]. exact Hrange. Qed.

Lemma throwsOnly_interpolateQuarticBatch (xs ys : Matrix) :
  throwsOnly allowed (interpolateQuarticBatch xs ys).
Proof.
  revert ys; induction xs as [|x xs IH]; intros ys; cbn [interpolateQuarticBatch];
    [apply throwsOnly_Return|].
  destruct ys as [|y ys]; [intros e [= <-]; apply Htype|].
  apply throwsOnly_bind; [apply IH|]. intros polys _. apply throwsOnly_Return.
Qed.

Lemma throwsOnly_getRootOfUnityDegree (fuel : nat) (r : Z) :
  throwsOnly allowed (LowDegreeProverJs.getRootOfUnityDegree fuel r).
Proof.
  intros e. unfold LowDegreeProverJs.getRootOfUnityDegree. generalize 1 as result.
  revert r. induction fuel as [|fuel IH]; intros r result;
    cbn [LowDegreeProverJs.getRootOfUnityDegreeFrom];
    destruct (decide _); try discriminate. apply IH.
Qed.

Lemma throwsOnly_checkLinearCombination (lcValues lcChecks : list Z) :
  (lcValues <> [] -> allowed (StarkError LinearCombinationCorrectnessFailed)) ->
  throwsOnly allowed (LowDegreeProverJs.checkLinearCombination lcValues lcChecks).
Proof.
  intros Hmessage.
  assert (Hloop : forall vs checks,
            allowed (StarkError LinearCombinationCorrectnessFailed) ->
            throwsOnly allowed (LowDegreeProverJs.checkLinearCombination vs checks)).
  { induction vs as [|v vs IH]; intros checks Hallowed;
      cbn [LowDegreeProverJs.checkLinearCombination]; [apply throwsOnly_Return|].
    destruct (decide _); [apply IH; exact Hallowed|].
    intros e [= <-]. exact Hallowed. }
  destruct lcValues as [|v lcValues]; [apply throwsOnly_Return|].
  apply Hloop. apply Hmessage. discriminate.
Qed.

Lemma throwsOnly_remainderPoints (domain remainder : Vector) (positions : list nat)
    (count : nat) :
  throwsOnly allowed (LowDegreeProverJs.remainderPoints domain remainder positions count).
Proof.
  revert positions; induction count as [|count IH]; intros positions;
    cbn [LowDegreeProverJs.remainderPoints]; [apply throwsOnly_Return|].
  destruct positions as [|p positions]; [intros e [= <-]; apply Htype|].
  apply throwsOnly_bind; [apply throwsOnly_getValue|]. intros x _.
  apply throwsOnly_bind; [apply throwsOnly_getValue|]. intros y _.
  apply throwsOnly_bind; [apply IH|]. intros [xs ys] _. apply throwsOnly_Return.
Qed.

Lemma throwsOnly_checkRemainder (poly : list Z) (domain remainder : Vector) (d : nat)
    (positions : list nat) :
  allowed (StarkError (RemainderNotValid d)) ->
  throwsOnly allowed (LowDegreeProverJs.checkRemainder poly domain remainder d positions).
Proof.
  intros Hmessage.
  induction positions as [|p positions IH]; cbn [LowDegreeProverJs.checkRemainder];
    [apply throwsOnly_Return|].
  apply throwsOnly_bind; [apply throwsOnly_getValue|]. intros x _.
  apply throwsOnly_bind; [apply throwsOnly_getValue|]. intros y _.
  destruct (decide _); [|exact IH].
  intros e [= <-]. exact Hmessage.
Qed.

Lemma throwsOnly_verifyRemainder (remainder : Vector) (d : nat) (w : Z) :
  allowed (StarkError (RemainderNotValid d)) ->
  throwsOnly allowed (LowDegreeProverJs.verifyRemainder remainder d w).
Proof.
  intros Hmessage. unfold LowDegreeProverJs.verifyRemainder.
  apply throwsOnly_bind; [apply throwsOnly_remainderPoints|]. intros [xs ys] _.
  apply throwsOnly_checkRemainder. exact Hmessage.
Qed.

Lemma throwsOnly_checkEvaluations (depth : nat) (pEvaluations columnValues : list Z) :
  allowed (StarkError (Degree4Mismatch depth)) ->
  throwsOnly allowed (LowDegreeProverJs.checkEvaluations depth pEvaluations columnValues).
Proof.
  intros Hmessage e.
  destruct (checkEvaluations_js_cases depth pEvaluations columnValues)
    as [[-> _]|[-> _]]; [discriminate|].
  intros [= <-]. exact Hmessage.
Qed.

Lemma throwsOnly_verifyComponent_js (quartic : list Z) (depth : nat)
    (st : LowDegreeProverJs.VerifierState) (c : FriComponent) :
  allowed (StarkError (ColumnMerkleFailed depth)) ->
  allowed (StarkError (PolynomialMerkleFailed depth)) ->
  allowed (StarkError (Degree4Mismatch depth)) ->
  throwsOnly allowed (LowDegreeProverJs.verifyComponent quartic depth st c).
Proof.
  intros Hcolumn Hpoly Hfold. unfold LowDegreeProverJs.verifyComponent.
  apply throwsOnly_bind; [apply throwsOnly_parseColumnValues|]. intros columnValues _.
  apply throwsOnly_bind; [apply throwsOnly_called|]. intros ok _.
  apply throwsOnly_bind; [apply throwsOnly_assert; exact Hcolumn|]. intros _ _.
  apply throwsOnly_bind; [apply throwsOnly_parsePolyValues|]. intros polyValues _.
  apply throwsOnly_bind; [apply throwsOnly_called|]. intros ok' _.
  apply throwsOnly_bind; [apply throwsOnly_assert; exact Hpoly|]. intros _ _.
  apply throwsOnly_bind;
    [|intros pEvaluations _; apply throwsOnly_checkEvaluations; exact Hfold].
  unfold LowDegreeProverJs.rowEvaluations.
  apply throwsOnly_bind; [|intros polys _; apply throwsOnly_Return].
  apply throwsOnly_interpolateQuarticBatch.
Qed.

Lemma throwsOnly_verifyComponents_js (quartic : list Z)
    (components : list (option FriComponent)) :
  forall depth st,
  (forall k, depth <= k < depth + length components ->
             allowed (StarkError (ColumnMerkleFailed k))
             /\ allowed (StarkError (PolynomialMerkleFailed k))
             /\ allowed (StarkError (Degree4Mismatch k))) ->
  throwsOnly allowed (LowDegreeProverJs.verifyComponents quartic depth st components).
Proof.
  induction components as [|[c|] components IH]; intros depth st Hmessages;
    cbn [LowDegreeProverJs.verifyComponents].
  - apply throwsOnly_Return.
  - apply throwsOnly_bind.
    + destruct (Hmessages depth) as (Hcolumn & Hpoly & Hfold); [simpl; lia|].
      apply throwsOnly_verifyComponent_js; assumption.
    + intros _ _. apply IH. intros k Hk. apply Hmessages. simpl. lia.
  - intros e [= <-]. apply Htype.
Qed.

Lemma throwsOnly_verifyLastLayer_js (st : LowDegreeProverJs.VerifierState)
    (remainder : list Z) :
  allowed (StarkError RemainderDegreeTooLarge) ->
  allowed (StarkError RemainderRootMismatch) ->
  (forall d, allowed (StarkError (RemainderNotValid d))) ->
  throwsOnly allowed (LowDegreeProverJs.verifyLastLayer st remainder).
Proof.
  intros Hdegree Hroot Hvalid. unfold LowDegreeProverJs.verifyLastLayer.
  apply throwsOnly_bind; [apply throwsOnly_assert; exact Hdegree|]. intros _ _.
  apply throwsOnly_bind; [apply throwsOnly_assert; exact Hroot|]. intros _ _.
  apply throwsOnly_bind; [apply throwsOnly_verifyRemainder; apply Hvalid|]. intros _ _.
  apply throwsOnly_Return.
Qed.

(** The compiled [verify] throws what its steps throw: the errors of reading
    a missing value, the errors of the library, and the [StarkError]s of its
    checks, each layer's with the depth of the layer. *)
Lemma throwsOnly_verify_js (fuel : nat) (r : Z)
    (proof : LowDegreeProverJs.LowDegreeProof) (lcValues : list Z)
    (exeQueryPositions : list nat) (d : nat) :
  (forall message,
     verifyMessage (length (LowDegreeProverJs.components proof)) lcValues message = true ->
     allowed (StarkError message)) ->
  throwsOnly allowed (LowDegreeProverJs.verify fuel r proof lcValues exeQueryPositions d).
Proof.
  intros Hmessages. unfold LowDegreeProverJs.verify.
  apply throwsOnly_bind; [apply throwsOnly_getRootOfUnityDegree|]. intros columnLength _.
  apply throwsOnly_bind; [apply throwsOnly_parseColumnValues|]. intros lcChecks _.
  apply throwsOnly_bind; [apply throwsOnly_called|]. intros ok _.
  apply throwsOnly_bind; [apply throwsOnly_assert; apply Hmessages; reflexivity|].
  intros _ _.
  apply throwsOnly_bind.
  { apply throwsOnly_checkLinearCombination. intros Hvalues. apply Hmessages.
    destruct lcValues; [contradiction|reflexivity]. }
  intros _ _.
  apply throwsOnly_bind.
  - apply throwsOnly_verifyComponents_js. intros k Hk.
    assert (Hlt : bool_decide (k < length (LowDegreeProverJs.components proof)) = true)
      by (apply bool_decide_eq_true; lia).
    repeat split; apply Hmessages; exact Hlt.
  - intros st _. apply throwsOnly_verifyLastLayer_js;
      [apply Hmessages; reflexivity|apply Hmessages; reflexivity|].
    intros d'. apply Hmessages. reflexivity.
Qed.

End Thrown.

Lemma checkLinearCombination_cases (lcValues lcChecks : list Z) :
  (LowDegreeProverJs.checkLinearCombination lcValues lcChecks = Return tt
   /\ forall i v, lcValues !! i = Some v -> lcChecks !! i = Some v)
  \/ (LowDegreeProverJs.checkLinearCombination lcValues lcChecks
      = Throw (StarkError LinearCombinationCorrectnessFailed)
      /\ exists i v, lcValues !! i = Some v /\ lcChecks !! i <> Some v).
Proof.
  revert lcChecks. induction lcValues as [|v0 vs IH]; intros checks;
    cbn [LowDegreeProverJs.checkLinearCombination].
  - left. split; [reflexivity|]. intros i v Hi. discriminate.
  - destruct (decide _) as [Hhead|Hhead].
    + destruct checks as [|c checks]; [discriminate|].
      simpl in Hhead. injection Hhead as ->. simpl tail.
      destruct (IH checks) as [[Hrun Hall]|[Hrun (i & v & Hi & Hne)]].
      * left. split; [exact Hrun|]. intros [|i] v; simpl; [congruence|apply Hall].
      * right. split; [exact Hrun|]. exists (S i), v. split; assumption.
    + right. split; [reflexivity|]. exists 0, v0. split; [reflexivity|].
      destruct checks; simpl in *; congruence.
Qed.

(** X4. The loop of [verify] that compares the linear combination values
    runs over [lcValues]: it passes exactly when each of them is the value
    read from the proof at its index, and it looks at no position past the
    end of [lcValues]. With no values given nothing is compared, and [verify]
    does not throw the error of this loop. *)
Theorem linear_combination_check (lcValues lcChecks : list Z) :
  (LowDegreeProverJs.checkLinearCombination lcValues lcChecks = Return tt
   <-> forall i v, lcValues !! i = Some v -> lcChecks !! i = Some v)
  /\ (LowDegreeProverJs.checkLinearCombination lcValues lcChecks
      = Throw (StarkError LinearCombinationCorrectnessFailed)
      <-> exists i v, lcValues !! i = Some v /\ lcChecks !! i <> Some v)
  /\ (forall fuel r proof exeQueryPositions d,
        LowDegreeProverJs.verify fuel r proof [] exeQueryPositions d
        <> Throw (StarkError LinearCombinationCorrectnessFailed)).
Proof.
  pose proof checkLinearCombination_cases as Hcases.
  split; [|split].
  - destruct (Hcases lcValues lcChecks) as [[-> Hall]|[-> (i & v & Hi & Hne)]].
    + split; [intros _; exact Hall|reflexivity].
    + split; [discriminate|]. intros Hall. exfalso. apply Hne. apply Hall. exact Hi.
  - destruct (Hcases lcValues lcChecks) as [[-> Hall]|[-> Hex]].
    + split; [discriminate|]. intros (i & v & Hi & Hne). exfalso. apply Hne, Hall, Hi.
    + split; [intros _; exact Hex|reflexivity].
  - intros fuel r proof exeQueryPositions d Hthrow.
    apply (throwsOnly_verify_js
             (fun e => e <> StarkError LinearCombinationCorrectnessFailed))
      in Hthrow; [congruence|discriminate|discriminate|discriminate|].
    intros message Hmessage [= ->]. discriminate.
Qed.

(** X5. What the compiled [verify] can end in. When it throws a [StarkError],
    the message is one of those of its eight checks and the error has no
    cause attached; a message that names a depth names the depth of a
    component of the proof, and the error of the linear combination loop
    needs a value to compare. What else it throws is an error of the runtime
    (a [TypeError], or the [RangeError] of a read past the end of a buffer of
    the proof) or an error of the library. *)
Theorem verify_errors (fuel : nat) (r : Z) (proof : LowDegreeProverJs.LowDegreeProof)
    (lcValues : list Z) (exeQueryPositions : list nat) (d : nat) (e : Error) :
  LowDegreeProverJs.verify fuel r proof lcValues exeQueryPositions d = Throw e ->
  match e with
  | StarkError message =>
    verifyMessage (length (LowDegreeProverJs.components proof)) lcValues message = true
  | StarkErrorFrom _ _ => False
  | TypeError _ | RangeError | LibraryError _ => True
  end.
Proof.
  revert e.
  apply (throwsOnly_verify_js
           (fun e => match e with
                     | StarkError message =>
                       verifyMessage (length (LowDegreeProverJs.components proof))
                         lcValues message = true
                     | StarkErrorFrom _ _ => False
                     | TypeError _ | RangeError | LibraryError _ => True
                     end)); [intros text; exact I|intros text; exact I|exact I|].
  intros message Hmessage. exact Hmessage.
Qed.

End RootOfUnityDegree.

(** ** Buffers of the remainder *)

Lemma splitBuffer_chunks (size count : nat) (buffer : Buffer) :
  length buffer = count * size ->
  concat (map (fun i => take size (drop (i * size) buffer)) (seq 0 count)) = buffer.
Proof.
  revert buffer; induction count as [|count IH]; intros buffer Hlength.
  - destruct buffer; [reflexivity|discriminate].
  - transitivity (take size buffer ++ drop size buffer); [|apply take_drop].
    cbn [seq map concat]. rewrite Nat.mul_0_l, drop_0. f_equal.
    rewrite <- seq_shift, map_map. rewrite <- (IH (drop size buffer)).
    + f_equal. apply map_ext. intros i. rewrite drop_drop. reflexivity.
    + rewrite length_drop. lia.
Qed.

Lemma splitBuffer_join (size : nat) (chunks : list Buffer) :
  Forall (fun chunk => length chunk = size) chunks ->
  length (concat chunks) = length chunks * size
  /\ map (fun i => take size (drop (i * size) (concat chunks))) (seq 0 (length chunks))
     = chunks.
Proof.
  induction 1 as [|chunk chunks Hchunk _ [IHlength IH]]; [split; reflexivity|].
  split; [cbn [concat]; rewrite length_app; simpl; lia|].
  change (take size (drop 0 (chunk ++ concat chunks))
          :: map (fun i => take size (drop (i * size) (chunk ++ concat chunks)))
                 (seq 1 (length chunks)) = chunk :: chunks).
  rewrite drop_0. f_equal.
  - rewrite take_app_length'; [reflexivity|symmetry; exact Hchunk].
  - rewrite <- seq_shift, map_map. rewrite <- IH at 2.
    apply map_ext. intros i. f_equal.
    replace (S i * size) with (length chunk + i * size) by lia.
    rewrite <- drop_drop, drop_app_length. reflexivity.
Qed.

Lemma splitBuffer_of_chunks (elementSize : nat) (chunks : list Buffer) :
  elementSize <> 0 ->
  Forall (fun chunk => length chunk = elementSize) chunks ->
  LowDegreeProverTs.splitBuffer (concat chunks) elementSize = Return chunks.
Proof.
  intros Hsize Hchunks. unfold LowDegreeProverTs.splitBuffer.
  destruct (splitBuffer_join elementSize chunks Hchunks) as [Hlength Hjoin].
  destruct (decide _) as [_|Hno].
  - rewrite Hlength, Nat.div_mul by exact Hsize. f_equal. exact Hjoin.
  - exfalso. apply Hno. split; [exact Hsize|].
    rewrite Hlength. apply Nat.Div0.mod_mul.
Qed.

(** X6. [splitBuffer] cuts a buffer into the chunks of [elementSize] bytes
    that make it up: what it returns, joined, is the buffer, each chunk of
    the size asked for; it throws a [RangeError], and nothing else, exactly
    when the size is 0 or does not divide the length of the buffer; and from
    the join of chunks of a size that is not 0 it gives the chunks back. *)
Theorem splitBuffer_round_trip (buffer : Buffer) (elementSize : nat) :
  (forall result,
     LowDegreeProverTs.splitBuffer buffer elementSize = Return result ->
     concat result = buffer
     /\ Forall (fun chunk => length chunk = elementSize) result
     /\ length result * elementSize = length buffer)
  /\ (forall e,
        LowDegreeProverTs.splitBuffer buffer elementSize = Throw e <->
        e = RangeError /\ (elementSize = 0 \/ length buffer mod elementSize <> 0))
  /\ LowDegreeProverTs.splitBuffer buffer elementSize <> Unfinished
  /\ (forall chunks,
        elementSize <> 0 ->
        Forall (fun chunk => length chunk = elementSize) chunks ->
        LowDegreeProverTs.splitBuffer (concat chunks) elementSize = Return chunks).
Proof.
  assert (Hsplit : forall (bytes : Buffer) size,
            size <> 0 -> length bytes mod size = 0 ->
            length bytes = length bytes / size * size).
  { intros bytes size Hsize Hmod.
    pose proof (Nat.div_mod_eq (length bytes) size). lia. }
  unfold LowDegreeProverTs.splitBuffer. split; [|split; [|split]].
  - intros result. destruct (decide _) as [[Hsize Hmod]|]; [|discriminate].
    intros [= <-]. pose proof (Hsplit buffer elementSize Hsize Hmod) as Hlength.
    split; [apply splitBuffer_chunks; exact Hlength|]. split.
    + apply Forall_forall. intros chunk Hchunk.
      apply list_elem_of_fmap in Hchunk as (i & -> & Hi).
      apply elem_of_seq in Hi. rewrite length_take, length_drop. nia.
    + rewrite length_map, length_seq. symmetry. exact Hlength.
  - intros e. destruct (decide _) as [[Hsize Hmod]|Hno]; split.
    + discriminate.
    + intros [_ [Hzero|Hrest]]; contradiction.
    + intros [= <-]. split; [reflexivity|].
      destruct (decide (elementSize = 0)); [left; assumption|right].
      intros Hmod. apply Hno. split; assumption.
    + intros [-> _]. reflexivity.
  - destruct (decide _); discriminate.
  - intros chunks Hsize Hchunks. exact (splitBuffer_of_chunks elementSize chunks Hsize Hchunks).
Qed.

(** ** Validated options, validated again *)

Lemma validateSpotCheckCount_again (x : option Number) (fallback max : Z)
    (message : string) (count : Number) :
  Stark.validateSpotCheckCount x fallback max message = Return count ->
  Stark.validateSpotCheckCount (Some count) fallback max message = Return count.
Proof.
  unfold Stark.validateSpotCheckCount.
  destruct (_ || _ || _) eqn:Hcheck; [discriminate|]. intros [= Hcount].
  rewrite Hcount in Hcheck.
  assert (Htruthy : truthy count = true).
  { destruct count as [[| |]| | | |]; try reflexivity; discriminate. }
  unfold orDefault. rewrite Htruthy, Hcheck. reflexivity.
Qed.

Lemma validateHashAlgorithm_again (x : option string) (name : string) :
  Stark.validateHashAlgorithm x = Return name ->
  Stark.validateHashAlgorithm (Some name) = Return name.
Proof.
  unfold Stark.validateHashAlgorithm.
  destruct (negb _) eqn:Hcheck; [discriminate|]. intros [= Hname].
  rewrite Hname in Hcheck.
  destruct (decide (name = ""%string)) as [->|_]; [discriminate|].
  rewrite Hcheck. reflexivity.
Qed.

Lemma validateExtensionFactor_again (x : option Number) (degree : positive)
    (factor : Number) :
  Stark.validateExtensionFactor x degree = Return factor ->
  (Stark.validateExtensionFactor (Some factor) degree = Return factor
   /\ (x <> None \/ (degree <= 16)%positive))
  \/ (Stark.validateExtensionFactor (Some factor) degree
      = Throw (TypeError Stark.extensionFactorRange)
      /\ x = None /\ (16 < degree)%positive).
Proof.
  destruct x as [given|].
  - intros Hgiven. left. split; [|left; discriminate].
    assert (given = factor) as ->; [|exact Hgiven].
    unfold Stark.validateExtensionFactor in Hgiven.
    repeat (destruct (_ : bool) in Hgiven; try discriminate).
    injection Hgiven as ->. reflexivity.
  - cbn [Stark.validateExtensionFactor]. intros [= <-].
    set (k := Z.log2_up (Z.pos degree * 2)).
    assert (Hk : (1 <= k)%Z).
    { apply (Z.log2_up_le_mono 2). lia. }
    assert (Hspec : (Z.pos degree * 2 <= 2 ^ k)%Z).
    { apply Z.log2_up_spec. lia. }
    assert (Hle : (2 ^ k <= 32 <-> Z.pos degree <= 16)%Z).
    { change 32%Z with (2 ^ 5)%Z. rewrite <- Z.pow_le_mono_r_iff by lia.
      unfold k. rewrite <- Z.log2_up_le_pow2 by lia. change (2 ^ 5)%Z with 32%Z. lia. }
    assert (Hpower : isPowerOf2 (Int (2 ^ k)) = true).
    { apply isPowerOf2_Int. exists k. split; [lia|reflexivity]. }
    assert (Htwo : (2 <= 2 ^ k)%Z).
    { change 2%Z with (2 ^ 1)%Z at 1. apply Z.pow_le_mono_r; lia. }
    unfold Stark.validateExtensionFactor, Stark.MAX_EXTENSION_FACTOR. rewrite Hpower.
    cbn [ltNum gtNum isInteger negb].
    rewrite (bool_decide_eq_false_2 (2 ^ k < 2)%Z) by lia.
    destruct (decide (Z.pos degree <= 16)%Z) as [Hsmall|Hlarge].
    + left. split; [|right; lia].
      rewrite (bool_decide_eq_false_2 (2 ^ k > 32)%Z) by lia.
      rewrite (bool_decide_eq_false_2 (2 ^ k < 2 * Z.pos degree)%Z) by lia.
      reflexivity.
    + right. split; [|split; [reflexivity|lia]].
      rewrite (bool_decide_eq_true_2 (2 ^ k > 32)%Z) by lia. reflexivity.
Qed.

(** X7. Validated options, given back in full. The options
    [validateSecurityOptions] returns are accepted again, with the same
    result, when the extension factor had been given or the constraint degree
    is at most 16. For a larger degree the default extension factor is above
    the maximum of 32, which only a given factor is held to: the options the
    function returned are then refused with the error of the range. *)
Theorem validated_options_given_back (options : option Stark.PartialSecurityOptions)
    (degree : positive) (v : Stark.SecurityOptions) :
  Stark.validateSecurityOptions options degree = Return v ->
  (Stark.validateSecurityOptions (givenOptions v) degree = Return v
   <-> Stark.optionField options Stark.optExtensionFactor <> None
       \/ (degree <= 16)%positive)
  /\ (Stark.validateSecurityOptions (givenOptions v) degree
      = Throw (TypeError Stark.extensionFactorRange)
      <-> Stark.optionField options Stark.optExtensionFactor = None
          /\ (16 < degree)%positive).
Proof.
  unfold Stark.validateSecurityOptions.
  destruct (Stark.validateExtensionFactor _ degree) as [factor|e|] eqn:Hfactor;
    [|discriminate..].
  destruct (Stark.validateSpotCheckCount _ Stark.DEFAULT_EXE_SPOT_CHECKS _ _)
    as [exe|e|] eqn:Hexe; [|discriminate..].
  destruct (Stark.validateSpotCheckCount _ Stark.DEFAULT_FRI_SPOT_CHECKS _ _)
    as [fri|e|] eqn:Hfri; [|discriminate..].
  destruct (Stark.validateHashAlgorithm _) as [name|e|] eqn:Hname; [|discriminate..].
  cbn [mbind Outcome_bind]. intros [= <-].
  cbn [givenOptions Stark.optionField Stark.optExtensionFactor Stark.optExeSpotCheckCount
       Stark.optFriSpotCheckCount Stark.optHashAlgorithm Stark.extensionFactor
       Stark.exeSpotCheckCount Stark.friSpotCheckCount Stark.hashAlgorithm].
  rewrite (validateSpotCheckCount_again _ _ _ _ _ Hexe),
          (validateSpotCheckCount_again _ _ _ _ _ Hfri),
          (validateHashAlgorithm_again _ _ Hname).
  destruct (validateExtensionFactor_again _ _ _ Hfactor)
    as [[-> Hgiven]|[-> [Hnone Hlarge]]]; cbn [mbind Outcome_bind].
  - split; [split; [intros _; exact Hgiven|reflexivity]|].
    split; [discriminate|]. intros [Hnone Hlarge].
    destruct Hgiven as [Hgiven|Hsmall]; [contradiction|lia].
  - split; [|split; [intros _; split; assumption|reflexivity]].
    split; [discriminate|]. intros [Hgiven|Hsmall]; [contradiction|lia].
Qed.

(** ** The inputs of [Stark.prove] *)

Lemma copyInputValues_throws (row : list JsValue) (rowNumber : nat) (registers : list nat) :
  forall target e,
  StarkInputs.copyInputValues row rowNumber registers target = Throw e ->
  exists text, e = TypeError text.
Proof.
  induction registers as [|i registers IH]; intros target e;
    cbn [StarkInputs.copyInputValues]; [discriminate|].
  unfold StarkInputs.copyInputValue.
  destruct (row !! i) as [[value|items|]|]; cbn [mbind Outcome_bind];
    try (intros [= <-]; eauto).
  destruct (target !! i); cbn [mbind Outcome_bind]; [apply IH|].
  intros [= <-]. eauto.
Qed.

Lemma copyInputValues_bigints (row : list JsValue) (rowNumber : nat) (registers : list nat) :
  forall target target',
  StarkInputs.copyInputValues row rowNumber registers target = Return target' ->
  forall i, i ∈ registers -> exists value, row !! i = Some (JsBigInt value).
Proof.
  induction registers as [|j registers IH]; intros target target';
    cbn [StarkInputs.copyInputValues]; [intros _ i Hi; inversion Hi|].
  unfold StarkInputs.copyInputValue.
  destruct (row !! j) as [[value|items|]|] eqn:Hj; cbn [mbind Outcome_bind];
    try discriminate.
  destruct (target !! j); cbn [mbind Outcome_bind]; [|discriminate].
  intros Hrest i Hi. apply elem_of_cons in Hi as [->|Hi]; [eauto|].
  exact (IH _ _ Hrest i Hi).
Qed.

Lemma copyInputValues_bigintRow (rowNumber : nat) (todo : list Z) :
  forall (done : list Z) (target : list (list Z)),
  length target = length done + length todo ->
  StarkInputs.copyInputValues (map JsBigInt (done ++ todo)) rowNumber
    (seq (length done) (length todo)) target
  = Return (take (length done) target
            ++ zip_with (fun column value => column ++ [value])
                        (drop (length done) target) todo).
Proof.
  induction todo as [|value todo IH]; intros done target Hlength;
    cbn [length seq StarkInputs.copyInputValues].
  - rewrite zip_with_nil_r, app_nil_r, take_ge by (simpl in Hlength; lia). reflexivity.
  - unfold StarkInputs.copyInputValue.
    rewrite list_lookup_fmap, lookup_app_r, Nat.sub_diag by lia. cbn [lookup list_lookup fmap option_fmap option_map].
    destruct (target !! length done) as [column|] eqn:Hcolumn.
    2: { apply lookup_ge_None in Hcolumn. simpl in Hlength. lia. }
    cbn [mbind Outcome_bind].
    specialize (IH (done ++ [value])
                   (alter (fun column => column ++ [value]) (length done) target)).
    rewrite <- app_assoc, length_app in IH. cbn [app length] in IH.
    rewrite Nat.add_1_r in IH. rewrite IH by (rewrite length_alter; simpl in Hlength; lia).
    f_equal.
    rewrite (drop_S target column (length done) Hcolumn). cbn [zip_with].
    rewrite (take_S_r _ _ (column ++ [value])).
    2: { rewrite list_lookup_alter. case_decide; [|congruence].
         rewrite Hcolumn. reflexivity. }
    rewrite <- app_assoc. cbn [app]. f_equal.
    + apply list_eq. intros i. destruct (decide (i < length done)) as [Hi|Hi].
      * rewrite !lookup_take_lt by exact Hi. rewrite list_lookup_alter.
        case_decide; [lia|reflexivity].
      * rewrite !lookup_take_ge by lia. reflexivity.
    + f_equal. f_equal. apply list_eq. intros i. rewrite !lookup_drop.
      rewrite list_lookup_alter. case_decide; [lia|reflexivity].
Qed.

Lemma copyInputRow_bigintRow (row : list Z) (target : list (list Z)) (rowNumber : nat) :
  length target = length row ->
  StarkInputs.copyInputRow (bigintRow row) target (length row) rowNumber
  = Return (zip_with (fun column value => column ++ [value]) target row).
Proof.
  intros Hlength. unfold StarkInputs.copyInputRow, bigintRow.
  rewrite length_map. destruct (decide _) as [Hne|_]; [contradiction|].
  exact (copyInputValues_bigintRow rowNumber row [] target Hlength).
Qed.

Lemma copyInputRow_Return (row : JsValue) (target target' : list (list Z))
    (registerCount rowNumber : nat) :
  StarkInputs.copyInputRow row target registerCount rowNumber = Return target' ->
  exists values, row = bigintRow values /\ length values = registerCount.
Proof.
  unfold StarkInputs.copyInputRow. destruct row as [z|items|]; try discriminate.
  destruct (decide _) as [|Hlength]; [discriminate|]. intros Hrun.
  assert (Hitems : length items = registerCount) by lia.
  exists (map bigintOf items). split; [|rewrite length_map; exact Hitems].
  unfold bigintRow. f_equal. rewrite map_map. apply list_eq. intros i.
  rewrite list_lookup_fmap. destruct (items !! i) as [item|] eqn:Hi; [|reflexivity].
  destruct (copyInputValues_bigints _ _ _ _ _ Hrun i) as [value Hvalue].
  { apply elem_of_seq. apply lookup_lt_Some in Hi. lia. }
  rewrite Hi in Hvalue. injection Hvalue as ->. reflexivity.
Qed.

Lemma copyInputRow_throws (row : JsValue) (target : list (list Z))
    (registerCount rowNumber : nat) (e : Error) :
  StarkInputs.copyInputRow row target registerCount rowNumber = Throw e ->
  exists text, e = TypeError text.
Proof.
  unfold StarkInputs.copyInputRow. destruct row as [z|items|];
    try (intros [= <-]; eauto).
  destruct (decide _); [intros [= <-]; eauto|]. apply copyInputValues_throws.
Qed.

Lemma registerColumns_snoc (registerCount : nat) (rows : list (list Z)) (row : list Z) :
  length row = registerCount ->
  zip_with (fun column value => column ++ [value]) (registerColumns registerCount rows) row
  = registerColumns registerCount (rows ++ [row]).
Proof.
  intros Hlength. unfold registerColumns. apply list_eq. intros r.
  rewrite lookup_zip_with, !list_lookup_fmap.
  destruct (decide (r < registerCount)) as [Hr|Hr].
  - rewrite lookup_seq_lt by exact Hr. cbn [fmap option_fmap option_map mbind option_bind].
    destruct (row !! r) as [value|] eqn:Hvalue.
    + cbn [fmap option_fmap option_map mbind option_bind]. rewrite map_app. cbn [map].
      rewrite (nth_lookup_Some _ _ _ _ Hvalue). reflexivity.
    + apply lookup_ge_None in Hvalue. lia.
  - rewrite lookup_seq_ge by lia. reflexivity.
Qed.

Lemma copyInputRows_Return (registerCount : nat) (rows : list JsValue) :
  forall (done : list (list Z)) (i : nat) (normalized : list (list Z)),
  StarkInputs.copyInputRows rows i (registerColumns registerCount done) registerCount
  = Return normalized <->
  exists todo, rows = map bigintRow todo
               /\ Forall (fun row => length row = registerCount) todo
               /\ normalized = registerColumns registerCount (done ++ todo).
Proof.
  induction rows as [|row rows IH]; intros done i normalized;
    cbn [StarkInputs.copyInputRows].
  - split.
    + intros [= <-]. exists []. rewrite app_nil_r. repeat split. constructor.
    + intros (todo & Htodo & _ & ->). destruct todo; [|discriminate].
      rewrite app_nil_r. reflexivity.
  - destruct (StarkInputs.copyInputRow row _ registerCount i) as [target|e|] eqn:Hrow;
      cbn [mbind Outcome_bind].
    + destruct (copyInputRow_Return _ _ _ _ _ Hrow) as (values & -> & Hvalues).
      subst registerCount. rewrite copyInputRow_bigintRow in Hrow.
      2: { unfold registerColumns. rewrite length_map, length_seq. reflexivity. }
      injection Hrow as <-. rewrite registerColumns_snoc by reflexivity.
      rewrite IH. split.
      * intros (todo & -> & Htodo & ->). exists (values :: todo).
        rewrite <- app_assoc. repeat split. constructor; [reflexivity|exact Htodo].
      * intros ([|values' todo] & Hrows & Htodo & ->); [discriminate|].
        injection Hrows as Hvalues' ->.
        assert (values' = values) as ->.
        { apply (f_equal (map bigintOf)) in Hvalues'. rewrite !map_map in Hvalues'.
          cbn [bigintOf] in Hvalues'. rewrite !map_id in Hvalues'.
          symmetry. exact Hvalues'. }
        exists todo. rewrite <- app_assoc. repeat split.
        apply Forall_inv_tail in Htodo. exact Htodo.
    + split; [discriminate|]. intros ([|values todo] & Hrows & Htodo & _); [discriminate|].
      injection Hrows as -> _. apply Forall_inv in Htodo. subst registerCount.
      rewrite copyInputRow_bigintRow in Hrow; [discriminate|].
      unfold registerColumns. rewrite length_map, length_seq. reflexivity.
    + split; [discriminate|]. intros ([|values todo] & Hrows & Htodo & _); [discriminate|].
      injection Hrows as -> _. apply Forall_inv in Htodo. subst registerCount.
      rewrite copyInputRow_bigintRow in Hrow; [discriminate|].
      unfold registerColumns. rewrite length_map, length_seq. reflexivity.
Qed.

Lemma copyInputRows_throws (registerCount : nat) (rows : list JsValue) :
  forall (i : nat) (normalized : list (list Z)) (e : Error),
  StarkInputs.copyInputRows rows i normalized registerCount = Throw e ->
  exists text, e = TypeError text.
Proof.
  induction rows as [|row rows IH]; intros i normalized e;
    cbn [StarkInputs.copyInputRows]; [discriminate|].
  destruct (StarkInputs.copyInputRow row _ registerCount i) as [target|e'|] eqn:Hrow;
    cbn [mbind Outcome_bind]; [apply IH| |discriminate].
  intros [= <-]. exact (copyInputRow_throws _ _ _ _ _ Hrow).
Qed.

Lemma registerColumns_nil (registerCount : nat) :
  replicate registerCount [] = registerColumns registerCount [].
Proof.
  unfold registerColumns. cbn [map]. generalize 0 as start.
  induction registerCount as [|n IH]; intros start; [reflexivity|].
  cbn [replicate seq map]. f_equal. apply IH.
Qed.

(** X8. [normalizeInputs] turns rows of inputs into one list per register.
    It returns exactly when the inputs are an array of rows, each an array of
    [registerCount] [bigint]s, or one such row that is not empty, given bare;
    the result then has [registerCount] lists, and entry [i] of the list of
    register [r] is entry [r] of row [i]. In every other case it throws a
    [TypeError]. *)
Theorem normalizeInputs_by_register (inputs : JsValue) (registerCount : nat) :
  (forall normalized,
     StarkInputs.normalizeInputs inputs registerCount = Return normalized <->
     exists rows,
       (inputs = JsArray (map bigintRow rows)
        \/ exists row, rows = [row] /\ row <> [] /\ inputs = bigintRow row)
       /\ Forall (fun row => length row = registerCount) rows
       /\ normalized = registerColumns registerCount rows)
  /\ (forall e,
        StarkInputs.normalizeInputs inputs registerCount = Throw e ->
        exists text, e = TypeError text)
  /\ StarkInputs.normalizeInputs inputs registerCount <> Unfinished.
Proof.
  assert (Hrows : forall rows normalized,
            StarkInputs.copyInputRows rows 0 (replicate registerCount []) registerCount
            = Return normalized <->
            exists todo, rows = map bigintRow todo
                         /\ Forall (fun row => length row = registerCount) todo
                         /\ normalized = registerColumns registerCount todo).
  { intros rows normalized. rewrite registerColumns_nil.
    exact (copyInputRows_Return registerCount rows [] 0 normalized). }
  assert (Hbare : forall z items normalized,
            StarkInputs.copyInputRow (JsArray (JsBigInt z :: items))
              (replicate registerCount []) registerCount 0 = Return normalized <->
            exists row, JsArray (JsBigInt z :: items) = bigintRow row
                        /\ length row = registerCount
                        /\ normalized = registerColumns registerCount [row]).
  { intros z items normalized. split.
    - intros Hrun. destruct (copyInputRow_Return _ _ _ _ _ Hrun) as (row & Hrow & Hlength).
      exists row. split; [exact Hrow|]. split; [exact Hlength|].
      rewrite Hrow in Hrun. subst registerCount.
      rewrite copyInputRow_bigintRow in Hrun by apply length_replicate.
      injection Hrun as <-. rewrite registerColumns_nil.
      apply (registerColumns_snoc (length row) [] row). reflexivity.
    - intros (row & -> & <- & ->).
      rewrite copyInputRow_bigintRow by apply length_replicate.
      rewrite registerColumns_nil.
      rewrite (registerColumns_snoc (length row) [] row) by reflexivity. reflexivity. }
  unfold StarkInputs.normalizeInputs. split; [|split].
  - intros normalized. destruct inputs as [z|rows|].
    + split; [discriminate|]. intros (rows & [Hin|(row & _ & _ & Hin)] & _); discriminate.
    + destruct rows as [|[z|items|] rows].
      * rewrite Hrows. split.
        -- intros (todo & Htodo & Hall & ->). exists todo. rewrite Htodo. auto.
        -- intros (rows & [Hin|(row & -> & Hrow & Hin)] & Hall & ->).
           ++ exists rows. injection Hin as Hin. auto.
           ++ destruct row; [contradiction|discriminate].
      * rewrite Hbare. split.
        -- intros (row & Hrow & Hlength & ->). exists [row]. split; [right|].
           ++ exists row. repeat split; [|exact Hrow]. intros ->. discriminate.
           ++ split; [constructor; [exact Hlength|constructor]|reflexivity].
        -- intros (rows' & [Hin|(row & -> & Hrow & Hin)] & Hall & ->).
           ++ destruct rows'; discriminate.
           ++ exists row. split; [exact Hin|]. split; [|reflexivity].
              apply Forall_inv in Hall. exact Hall.
      * rewrite Hrows. split.
        -- intros (todo & Htodo & Hall & ->). exists todo. rewrite Htodo. auto.
        -- intros (rows' & [Hin|(row & -> & Hrow & Hin)] & Hall & ->).
           ++ exists rows'. injection Hin as Hin. auto.
           ++ destruct row; discriminate.
      * rewrite Hrows. split.
        -- intros (todo & Htodo & Hall & ->). exists todo. rewrite Htodo. auto.
        -- intros (rows' & [Hin|(row & -> & Hrow & Hin)] & Hall & ->).
           ++ exists rows'. injection Hin as Hin. auto.
           ++ destruct row; discriminate.
    + split; [discriminate|]. intros (rows & [Hin|(row & _ & _ & Hin)] & _); discriminate.
  - intros e. destruct inputs as [z|rows|]; try (intros [= <-]; eauto).
    destruct rows as [|[z|items|] rows];
      first [apply copyInputRows_throws|apply copyInputRow_throws].
  - destruct inputs as [z|rows|]; try discriminate.
    assert (Hvalues : forall row k regs target,
              StarkInputs.copyInputValues row k regs target <> Unfinished).
    { intros row k regs. induction regs as [|i regs IH]; intros target;
        cbn [StarkInputs.copyInputValues]; [discriminate|].
      unfold StarkInputs.copyInputValue.
      destruct (row !! i) as [[value|items|]|]; cbn [mbind Outcome_bind]; try discriminate.
      destruct (target !! i); cbn [mbind Outcome_bind]; [apply IH|discriminate]. }
    assert (Hrow : forall row target k,
              StarkInputs.copyInputRow row target registerCount k <> Unfinished).
    { intros row target k. unfold StarkInputs.copyInputRow.
      destruct row as [z|items|]; try discriminate.
      destruct (decide _); [discriminate|apply Hvalues]. }
    assert (Hloop : forall rws k target,
              StarkInputs.copyInputRows rws k target registerCount <> Unfinished).
    { induction rws as [|row rws IH]; intros k target;
        cbn [StarkInputs.copyInputRows]; [discriminate|].
      destruct (StarkInputs.copyInputRow row target registerCount k) eqn:Hr;
        cbn [mbind Outcome_bind]; [apply IH|discriminate|].
      exfalso. exact (Hrow _ _ _ Hr). }
    destruct rows as [|[z|items|] rows]; first [apply Hloop|apply Hrow].
Qed.

(** ** Assertions against the execution trace *)

Lemma validateAssertion_cases (trace : list (list Z)) (registers steps : nat)
    (a : Stark.Assertion) :
  (ExecutionTraceBuilder.validateAssertion trace registers steps a = None
   /\ Stark.register a < registers /\ Stark.step a < steps
   /\ ExecutionTraceBuilder.traceValue trace (Stark.register a) (Stark.step a)
      = Some (Stark.value a))
  \/ (ExecutionTraceBuilder.validateAssertion trace registers steps a
      = Some (ExecutionTraceBuilder.RegisterOutside (Stark.register a))
      /\ registers <= Stark.register a)
  \/ (ExecutionTraceBuilder.validateAssertion trace registers steps a
      = Some (ExecutionTraceBuilder.StepOutside (Stark.step a))
      /\ Stark.register a < registers /\ steps <= Stark.step a)
  \/ (ExecutionTraceBuilder.validateAssertion trace registers steps a
      = Some (ExecutionTraceBuilder.TraceConflict (Stark.step a) (Stark.register a))
      /\ Stark.register a < registers /\ Stark.step a < steps
      /\ ExecutionTraceBuilder.traceValue trace (Stark.register a) (Stark.step a)
         <> Some (Stark.value a)).
Proof.
  unfold ExecutionTraceBuilder.validateAssertion.
  destruct (decide (registers <= _)) as [Hregister|Hregister]; [right; left; auto|].
  destruct (decide (steps <= _)) as [Hstep|Hstep];
    [right; right; left; split; [reflexivity|lia]|].
  destruct (decide (_ <> _)) as [Hvalue|Hvalue].
  - right; right; right. repeat split; [lia|lia|exact Hvalue].
  - left. repeat split; [lia|lia|].
    destruct (decide (ExecutionTraceBuilder.traceValue trace (Stark.register a)
                        (Stark.step a) = Some (Stark.value a))); [assumption|contradiction].
Qed.

(** X9. [validateAssertions] returns exactly when the trace has a register
    and each assertion names a register of the trace and a step below the
    length of the first register, where the trace holds the asserted value.
    Otherwise it throws for the first assertion that fails: a [StarkError]
    only when that assertion is inside the trace and the trace holds another
    value (or none, in a register shorter than the first). A trace with no
    register is refused with the [TypeError] of the runtime, even when
    nothing is asserted. *)
Theorem validateAssertions_first_failure (trace : list (list Z))
    (assertions : list Stark.Assertion) :
  let steps := length (hd [] trace) in
  let holds (a : Stark.Assertion) :=
    Stark.step a < steps
    /\ ExecutionTraceBuilder.traceValue trace (Stark.register a) (Stark.step a)
       = Some (Stark.value a) in
  (ExecutionTraceBuilder.validateAssertions trace assertions = None
   <-> trace <> [] /\ Forall holds assertions)
  /\ (forall e,
        ExecutionTraceBuilder.validateAssertions trace assertions = Some e ->
        trace <> [] ->
        exists passed a rest,
          assertions = passed ++ a :: rest /\ Forall holds passed /\ ~ holds a
          /\ ExecutionTraceBuilder.validateAssertion trace (length trace) steps a = Some e
          /\ (ExecutionTraceBuilder.isStarkError e = true <->
              Stark.register a < length trace /\ Stark.step a < steps))
  /\ (trace = [] ->
      ExecutionTraceBuilder.validateAssertions trace assertions
      = Some ExecutionTraceBuilder.NoRegister).
Proof.
  intros steps holds.
  assert (Hloop :
    (ExecutionTraceBuilder.validateEach trace (length trace) steps assertions = None
     /\ Forall holds assertions)
    \/ exists e passed a rest,
         ExecutionTraceBuilder.validateEach trace (length trace) steps assertions = Some e
         /\ assertions = passed ++ a :: rest /\ Forall holds passed /\ ~ holds a
         /\ ExecutionTraceBuilder.validateAssertion trace (length trace) steps a = Some e
         /\ (ExecutionTraceBuilder.isStarkError e = true <->
             Stark.register a < length trace /\ Stark.step a < steps)).
  { induction assertions as [|a assertions IH];
      cbn [ExecutionTraceBuilder.validateEach]; [left; split; [reflexivity|constructor]|].
    destruct (validateAssertion_cases trace (length trace) steps a)
      as [(Hrun & Hregister & Hstep & Hvalue)
         |[(Hrun & Hregister)|[(Hrun & Hregister & Hstep)
         |(Hrun & Hregister & Hstep & Hvalue)]]]; rewrite Hrun.
    - destruct IH as [[Hrest Hall]|(e & passed & b & rest & Hrest & -> & Hpassed & Hb & He)].
      + left. split; [exact Hrest|]. constructor; [split; assumption|exact Hall].
      + right. exists e, (a :: passed), b, rest. split; [exact Hrest|].
        split; [reflexivity|]. split; [|split; [exact Hb|exact He]].
        constructor; [split; assumption|exact Hpassed].
    - right.
      exists (ExecutionTraceBuilder.RegisterOutside (Stark.register a)), [], a, assertions.
      split; [reflexivity|]. split; [reflexivity|]. split; [constructor|].
      split; [|split; [exact Hrun|]].
      + intros [_ Hvalue]. unfold ExecutionTraceBuilder.traceValue in Hvalue.
        destruct (trace !! Stark.register a) as [row|] eqn:Hrow; [|discriminate].
        apply lookup_lt_Some in Hrow. lia.
      + split; [discriminate|]. intros [Hlt _]. lia.
    - right.
      exists (ExecutionTraceBuilder.StepOutside (Stark.step a)), [], a, assertions.
      split; [reflexivity|]. split; [reflexivity|]. split; [constructor|].
      split; [|split; [exact Hrun|]].
      + intros [Hlt _]. lia.
      + split; [discriminate|]. intros [_ Hlt]. lia.
    - right.
      exists (ExecutionTraceBuilder.TraceConflict (Stark.step a) (Stark.register a)),
        [], a, assertions.
      split; [reflexivity|]. split; [reflexivity|]. split; [constructor|].
      split; [|split; [exact Hrun|]].
      + intros [_ Hholds]. contradiction.
      + split; [intros _; split; assumption|reflexivity]. }
  unfold ExecutionTraceBuilder.validateAssertions.
  destruct trace as [|row trace'].
  - split; [|split; [intros e _ Hne; contradiction|reflexivity]].
    split; [discriminate|]. intros [Hne _]. contradiction.
  - change (length row) with steps.
    assert (Hne : row :: trace' <> []) by discriminate.
    destruct Hloop as [[Hrun Hall]|(e & passed & a & rest & Hrun & -> & Hpassed & Ha & He)];
      rewrite Hrun.
    + split; [split; [intros _; split; assumption|reflexivity]|].
      split; [discriminate|]. discriminate.
    + split; [|split; [|discriminate]].
      * split; [discriminate|]. intros [_ Hall].
        apply Forall_app in Hall as [_ Hall]. apply Forall_inv in Hall. contradiction.
      * intros e' [= <-] _. exists passed, a, rest. auto.
Qed.

(** ** Boundary constraints, register by register *)

Section Boundary.
Context `{field : FiniteField} `{polyField : PolyField}.

Lemma addPoint_keys (rData : list (nat * BoundaryConstraints.RegisterData))
    (register : nat) (x value : Z) (zPoly : list Z) :
  map fst (BoundaryConstraints.addPoint rData register x value zPoly)
  = setAdd (map fst rData) register.
Proof.
  unfold setAdd. induction rData as [|[r data] rData IH];
    cbn [BoundaryConstraints.addPoint map fst].
  - rewrite decide_False by apply not_elem_of_nil. reflexivity.
  - destruct (decide (r = register)) as [->|Hr].
    + rewrite decide_True by apply list_elem_of_here. reflexivity.
    + cbn [map fst]. rewrite IH.
      destruct (decide (register ∈ map fst rData)) as [Hin|Hin].
      * rewrite decide_True by (apply list_elem_of_further; exact Hin). reflexivity.
      * rewrite decide_False; [reflexivity|].
        rewrite elem_of_cons. intros [->|Hin']; contradiction.
Qed.

Lemma addPoint_entry (rData : list (nat * BoundaryConstraints.RegisterData))
    (register : nat) (x value : Z) (zPoly : list Z) (r : nat)
    (data : BoundaryConstraints.RegisterData) :
  NoDup (map fst rData) ->
  (r, data) ∈ BoundaryConstraints.addPoint rData register x value zPoly ->
  (r <> register /\ (r, data) ∈ rData)
  \/ (r = register
      /\ (((register ∉ map fst rData)
           /\ data = {| BoundaryConstraints.xs := [x]; BoundaryConstraints.ys := [value];
                        BoundaryConstraints.zPoly := zPoly |})
          \/ exists old,
               (register, old) ∈ rData
               /\ data = {| BoundaryConstraints.xs := BoundaryConstraints.xs old ++ [x];
                            BoundaryConstraints.ys := BoundaryConstraints.ys old ++ [value];
                            BoundaryConstraints.zPoly :=
                              mulPolys (BoundaryConstraints.zPoly old) zPoly |})).
Proof.
  induction rData as [|[r' old] rData IH]; cbn [BoundaryConstraints.addPoint map fst].
  - intros _ Hin. apply list_elem_of_singleton in Hin. injection Hin as -> ->.
    right. split; [reflexivity|]. left. split; [apply not_elem_of_nil|reflexivity].
  - intros Hnodup. apply NoDup_cons in Hnodup as [Hfresh Hnodup].
    destruct (decide (r' = register)) as [->|Hr'].
    + intros Hin. apply elem_of_cons in Hin as [Hin|Hin].
      * injection Hin as -> ->. right. split; [reflexivity|]. right.
        exists old. split; [apply list_elem_of_here|reflexivity].
      * left. split; [|apply list_elem_of_further; exact Hin].
        intros ->. apply Hfresh. apply list_elem_of_fmap. exists (register, data).
        split; [reflexivity|exact Hin].
    + intros Hin. apply elem_of_cons in Hin as [Hin|Hin].
      * injection Hin as -> ->. left. split; [exact Hr'|apply list_elem_of_here].
      * destruct (IH Hnodup Hin) as [[Hr Hold]|[-> [[Hnew ->]|(old' & Hold & ->)]]].
        -- left. split; [exact Hr|apply list_elem_of_further; exact Hold].
        -- right. split; [reflexivity|]. left. split; [|reflexivity].
           rewrite elem_of_cons. intros [Heq|Hin']; [congruence|contradiction].
        -- right. split; [reflexivity|]. right. exists old'.
           split; [apply list_elem_of_further; exact Hold|reflexivity].
Qed.

Lemma combine_snoc (rootOfUnity : Z) (extensionFactor : nat)
    (seen : list Stark.Assertion) (c : Stark.Assertion) :
  BoundaryConstraints.combine rootOfUnity extensionFactor (seen ++ [c])
  = let x := BoundaryConstraints.assertionX rootOfUnity extensionFactor c in
    BoundaryConstraints.addPoint
      (BoundaryConstraints.combine rootOfUnity extensionFactor seen)
      (Stark.register c) x (Stark.value c) [fneg x; fone].
Proof. unfold BoundaryConstraints.combine. rewrite fold_left_app. reflexivity. Qed.

Lemma combine_keys (rootOfUnity : Z) (extensionFactor : nat)
    (assertions : list Stark.Assertion) :
  map fst (BoundaryConstraints.combine rootOfUnity extensionFactor assertions)
  = firstOccurrences (map Stark.register assertions).
Proof.
  rewrite <- arrayFrom_set.
  induction assertions as [|c seen IH] using rev_ind; [reflexivity|].
  rewrite combine_snoc. cbv zeta. rewrite addPoint_keys, IH, map_app, fold_left_app.
  reflexivity.
Qed.

Lemma combine_entry (rootOfUnity : Z) (extensionFactor : nat)
    (assertions : list Stark.Assertion) (r : nat)
    (data : BoundaryConstraints.RegisterData) :
  (r, data) ∈ BoundaryConstraints.combine rootOfUnity extensionFactor assertions ->
  let own := filter (fun c => Stark.register c = r) assertions in
  let points := map (BoundaryConstraints.assertionX rootOfUnity extensionFactor) own in
  own <> []
  /\ BoundaryConstraints.xs data = points
  /\ BoundaryConstraints.ys data = map Stark.value own
  /\ BoundaryConstraints.zPoly data
     = polyProduct (map (fun x => [fneg x; fone]) points).
Proof.
  revert data. induction assertions as [|c seen IH] using rev_ind; intros data.
  - intros Hin. inversion Hin.
  - rewrite combine_snoc. cbv zeta. intros Hin.
    apply addPoint_entry in Hin.
    2: { rewrite combine_keys. apply NoDup_firstOccurrences. }
    rewrite filter_app, filter_cons, filter_nil.
    destruct Hin as [[Hr Hold]|[-> [[Hnew ->]|(old & Hold & ->)]]].
    + rewrite decide_False by congruence. rewrite app_nil_r. exact (IH data Hold).
    + rewrite decide_True by reflexivity.
      rewrite combine_keys, elem_of_firstOccurrences in Hnew.
      assert (Hnone : filter (fun c' => Stark.register c' = Stark.register c) seen = []).
      { apply list_eq. intros i. rewrite lookup_nil.
        destruct (filter _ seen !! i) as [c'|] eqn:Hc'; [|reflexivity].
        apply list_elem_of_lookup_2, list_elem_of_filter in Hc' as [Hc' Hin'].
        exfalso. apply Hnew. apply list_elem_of_fmap. exists c'. auto. }
      rewrite Hnone. cbn. repeat split. discriminate.
    + rewrite decide_True by reflexivity.
      destruct (IH old Hold) as (Hown & Hxs & Hys & Hz). cbn [BoundaryConstraints.xs
        BoundaryConstraints.ys BoundaryConstraints.zPoly].
      rewrite !map_app, Hxs, Hys, Hz. cbn [map].
      split; [intros Happ; apply app_eq_nil in Happ as [_ Happ]; discriminate|].
      repeat split.
      destruct (filter _ seen) as [|c0 own]; [contradiction|].
      cbn [map app polyProduct]. rewrite fold_left_app. reflexivity.
Qed.

(** X10. What the constructor of [BoundaryConstraints] builds. The registers
    of [polys] are the asserted registers, each once, in the order of their
    first assertion, so [count] is the number of distinct asserted registers.
    The data of a register is made from the assertions on that register, in
    their order: the points interpolated are theirs, and the zero polynomial
    is the product of their factors [x - x_j]. [evaluateAt] gives one value
    per register of [polys] when every asserted register has an evaluation,
    and throws a [TypeError] exactly when one has none. *)
Theorem boundary_constraints_by_register (assertions : list Stark.Assertion)
    (rootOfUnity : Z) (extensionFactor : nat) :
  let polys := BoundaryConstraints.construct assertions rootOfUnity extensionFactor in
  map fst polys = firstOccurrences (map Stark.register assertions)
  /\ BoundaryConstraints.count polys <= length assertions
  /\ (BoundaryConstraints.count polys = 0 <-> assertions = [])
  /\ (forall r c,
        (r, c) ∈ polys ->
        let own := filter (fun a => Stark.register a = r) assertions in
        let points := map (BoundaryConstraints.assertionX rootOfUnity extensionFactor) own in
        own <> []
        /\ BoundaryConstraints.iPoly c = interpolate points (map Stark.value own)
        /\ BoundaryConstraints.thisZPoly c
           = polyProduct (map (fun x => [fneg x; fone]) points))
  /\ (forall pEvaluations x,
        (exists bEvaluations,
           BoundaryConstraints.evaluateAt polys pEvaluations x = Return bEvaluations
           /\ length bEvaluations = BoundaryConstraints.count polys
           /\ Forall (fun a => Stark.register a < length pEvaluations) assertions)
        \/ (exists text,
              BoundaryConstraints.evaluateAt polys pEvaluations x = Throw (TypeError text)
              /\ exists a, a ∈ assertions /\ length pEvaluations <= Stark.register a)).
Proof.
  intros polys.
  assert (Hkeys : map fst polys = firstOccurrences (map Stark.register assertions)).
  { unfold polys, BoundaryConstraints.construct. rewrite map_map.
    rewrite <- (combine_keys rootOfUnity extensionFactor). apply map_ext.
    intros [r data]. reflexivity. }
  assert (Hcount : BoundaryConstraints.count polys
                   = length (firstOccurrences (map Stark.register assertions))).
  { unfold BoundaryConstraints.count. rewrite <- Hkeys, length_map. reflexivity. }
  assert (Hshort : forall l, length (firstOccurrences l) <= length l).
  { induction l as [|y l IH]; [reflexivity|]. cbn [firstOccurrences length].
    pose proof (length_filter (fun z => z <> y) (firstOccurrences l)). lia. }
  split; [exact Hkeys|]. split; [|split; [|split]].
  - rewrite Hcount. rewrite <- (length_map Stark.register assertions). apply Hshort.
  - rewrite Hcount. destruct assertions; [split; reflexivity|]. split; discriminate.
  - intros r c Hin. unfold polys, BoundaryConstraints.construct in Hin.
    apply list_elem_of_fmap in Hin as ([r' data] & [= -> ->] & Hin).
    destruct (combine_entry _ _ _ _ _ Hin) as (Hown & Hxs & Hys & Hz).
    cbn [BoundaryConstraints.iPoly BoundaryConstraints.thisZPoly].
    rewrite Hxs, Hys. split; [exact Hown|]. split; [reflexivity|exact Hz].
  - intros pEvaluations x.
    assert (Hregisters : forall r, r ∈ map fst polys <->
                                   exists a, a ∈ assertions /\ Stark.register a = r).
    { intros r. rewrite Hkeys, elem_of_firstOccurrences, list_elem_of_fmap.
      split; intros (a & Ha & Hb); exists a; auto. }
    unfold BoundaryConstraints.count.
    assert (Hrun : (exists bEvaluations,
                      BoundaryConstraints.evaluateAt polys pEvaluations x
                      = Return bEvaluations
                      /\ length bEvaluations = length polys
                      /\ forall r, r ∈ map fst polys -> r < length pEvaluations)
                   \/ (exists text r,
                         BoundaryConstraints.evaluateAt polys pEvaluations x
                         = Throw (TypeError text)
                         /\ r ∈ map fst polys /\ length pEvaluations <= r)).
    { clear. induction polys as [|[r c] polys IH];
        cbn [BoundaryConstraints.evaluateAt map fst].
      - left. exists []. repeat split. intros r Hr. inversion Hr.
      - unfold getValue. destruct (pEvaluations !! r) as [p|] eqn:Hp;
          cbn [mbind Outcome_bind].
        + apply lookup_lt_Some in Hp.
          destruct IH as [(b & -> & Hlength & Hall)|(text & r' & -> & Hin & Hr')];
            cbn [mbind Outcome_bind].
          * left. eexists. split; [reflexivity|]. split; [simpl; lia|].
            intros r' Hr'. apply elem_of_cons in Hr' as [->|Hr']; [exact Hp|auto].
          * right. exists text, r'. split; [reflexivity|].
            split; [apply list_elem_of_further; exact Hin|exact Hr'].
        + apply lookup_ge_None in Hp. right. eexists _, r. split; [reflexivity|].
          split; [apply list_elem_of_here|exact Hp]. }
    destruct Hrun as [(b & Hb & Hlength & Hall)|(text & r & Hb & Hin & Hr)].
    + left. exists b. split; [exact Hb|]. split; [exact Hlength|].
      apply Forall_forall. intros a Ha. apply Hall, Hregisters. exists a.
      split; [exact Ha|reflexivity].
    + right. exists text. split; [exact Hb|].
      apply Hregisters in Hin as (a & Ha & <-). exists a. auto.
Qed.

End Boundary.

(** ** The bits of the point multiplication example *)

Lemma binaryDigits_bits (p : positive) :
  exists bits,
    Forall2 (fun b bit => PointMulExample.bigIntOfChar b = Some bit)
            (reverse (PointMulExample.binaryDigits p)) bits
    /\ Forall (fun bit => bit = 0 \/ bit = 1)%Z bits
    /\ bitsValue bits = Z.pos p
    /\ (Z.of_nat (length bits) = Z.log2 (Z.pos p) + 1)%Z.
Proof.
  induction p as [p (bits & Hbits & Hall & Hvalue & Hlog)
                 |p (bits & Hbits & Hall & Hvalue & Hlog)|];
    cbn [PointMulExample.binaryDigits].
  - exists (1 :: bits)%Z. split; [|split; [|split]].
    + rewrite reverse_snoc. constructor; [reflexivity|exact Hbits].
    + constructor; [right; reflexivity|exact Hall].
    + unfold bitsValue in *. cbn [fold_right]. rewrite Hvalue. lia.
    + cbn [length]. rewrite Nat2Z.inj_succ, Hlog.
      change (Z.pos p~1) with (2 * Z.pos p + 1)%Z. rewrite Z.log2_succ_double by lia. lia.
  - exists (0 :: bits)%Z. split; [|split; [|split]].
    + rewrite reverse_snoc. constructor; [reflexivity|exact Hbits].
    + constructor; [left; reflexivity|exact Hall].
    + unfold bitsValue in *. cbn [fold_right]. rewrite Hvalue. lia.
    + cbn [length]. rewrite Nat2Z.inj_succ, Hlog.
      change (Z.pos p~0) with (2 * Z.pos p)%Z. rewrite Z.log2_double by lia. lia.
  - exists [1%Z]. split; [|split; [|split]]; try reflexivity.
    + constructor; [reflexivity|constructor].
    + constructor; [right; reflexivity|constructor].
Qed.

Lemma bitsValue_zeros (bits : list Z) (count : nat) :
  bitsValue (bits ++ replicate count 0%Z) = bitsValue bits.
Proof.
  unfold bitsValue. induction bits as [|bit bits IH]; cbn [app fold_right].
  - induction count as [|count IH]; [reflexivity|]. cbn [replicate fold_right].
    rewrite IH. reflexivity.
  - rewrite IH. reflexivity.
Qed.

(** X11. [toBits] writes a [bigint] that is not negative as its binary
    digits, the least significant first, filled up with zeros to 256 entries:
    every entry is 0 or 1, the entries weighted by the powers of 2 add up to
    the value, and there are 256 of them for a value below [2^256], and as
    many as the value has digits above that. A negative value makes it throw,
    on the sign. *)
Theorem toBits_round_trip (value : Z) :
  ((0 <= value)%Z ->
   exists bits,
     PointMulExample.toBits value = Some bits
     /\ Forall (fun bit => bit = 0 \/ bit = 1)%Z bits
     /\ bitsValue bits = value
     /\ (Z.of_nat (length bits) = Z.max 256 (Z.log2 value + 1))%Z)
  /\ ((value < 0)%Z -> PointMulExample.toBits value = None).
Proof.
  unfold PointMulExample.toBits, PointMulExample.padStart. split.
  - intros Hvalue. rewrite reverse_app, reverse_replicate.
    assert (Hzeros : forall count,
              Forall2 (fun b bit => PointMulExample.bigIntOfChar b = Some bit)
                      (replicate count "0"%char) (replicate count 0%Z)).
    { induction count as [|count IH]; constructor; [reflexivity|exact IH]. }
    destruct value as [|p|p]; [|clear Hvalue|lia]; cbn [PointMulExample.toString2].
    + exists (replicate 256 0%Z). split; [|split; [|split]].
      * apply mapM_Some. exact (Hzeros 256).
      * apply Forall_replicate. left; reflexivity.
      * exact (bitsValue_zeros [] 256).
      * rewrite length_replicate. reflexivity.
    + destruct (binaryDigits_bits p) as (bits & Hbits & Hall & Hbvalue & Hlog).
      pose proof (Forall2_length _ _ _ Hbits) as Hlength.
      rewrite length_reverse in Hlength.
      exists (bits ++ replicate (256 - length (PointMulExample.binaryDigits p)) 0%Z).
      split; [|split; [|split]].
      * apply mapM_Some. apply Forall2_app; [exact Hbits|apply Hzeros].
      * apply Forall_app. split; [exact Hall|]. apply Forall_replicate. left; reflexivity.
      * rewrite bitsValue_zeros. exact Hbvalue.
      * rewrite length_app, length_replicate, <- Hlength. lia.
  - intros Hvalue. destruct value as [|p|p]; [lia|lia|]. cbn [PointMulExample.toString2].
    destruct (mapM _ _) as [bits|] eqn:Hbits; [exfalso|reflexivity].
    assert (Hsome : is_Some (mapM PointMulExample.bigIntOfChar
                      (reverse (replicate
                         (256 - length ("-"%char :: PointMulExample.binaryDigits p))
                         "0"%char ++ "-"%char :: PointMulExample.binaryDigits p))))
      by (rewrite Hbits; eauto).
    apply mapM_is_Some_1 in Hsome. rewrite Forall_forall in Hsome.
    destruct (Hsome "-"%char) as [bit Hbit]; [|vm_compute in Hbit; discriminate].
    rewrite elem_of_reverse, elem_of_app, elem_of_cons. right. left. reflexivity.
Qed.

(** ** The proofs of the compiled prover are accepted *)

Lemma lookup_concat_uniform {A} (k : nat) (rows : list (list A)) (j i : nat) :
  Forall (fun row => length row = k) rows -> i < k ->
  concat rows !! (j * k + i) = rows !! j ≫= (fun row => row !! i).
Proof.
  intros Hrows. revert j. induction Hrows as [|row rows Hrow _ IH]; intros j Hi.
  - rewrite lookup_nil. reflexivity.
  - cbn [concat]. destruct j as [|j].
    + rewrite lookup_app_l by (simpl; lia). reflexivity.
    + rewrite lookup_app_r by (rewrite Hrow; simpl; lia).
      replace (S j * k + i - length row) with (j * k + i) by (rewrite Hrow; simpl; lia).
      apply IH. exact Hi.
Qed.

(** The remainder, cut into rows again, is the last matrix of values. *)
Lemma transposeVector_join_transpose (m : Matrix) :
  Forall (fun row => length row = 4) m ->
  transposeVector (joinMatrixRows (transposeMatrix m)) 4 1 = m.
Proof.
  intros Hrows. destruct (decide (m = [])) as [->|Hne]; [reflexivity|].
  unfold transposeVector. rewrite length_join_transpose, (colCount_rows m 4 Hrows Hne).
  rewrite Nat.div_1_r, Nat.mul_comm, Nat.div_mul by lia.
  apply list_eq. intros i. map_to_fmap. rewrite list_lookup_fmap.
  destruct (decide (i < rowCount m)) as [Hi|Hi].
  - rewrite lookup_seq_lt by exact Hi. cbn [fmap option_fmap option_map].
    destruct (lookup_lt_is_Some_2 m i Hi) as [row Hrow]. rewrite Hrow. f_equal.
    assert (Hlength : length row = 4)
      by (rewrite Forall_forall in Hrows; apply Hrows;
          apply list_elem_of_lookup_2 in Hrow; exact Hrow).
    assert (Hentry : forall j, j < 4 ->
              nth ((i + j * rowCount m) * 1)
                  (joinMatrixRows (transposeMatrix m)) 0%Z = nth j row 0%Z).
    { intros j Hj. apply nth_lookup_Some.
      unfold joinMatrixRows, transposeMatrix. rewrite (colCount_rows m 4 Hrows Hne).
      replace ((i + j * rowCount m) * 1) with (j * rowCount m + i) by lia.
      rewrite (lookup_concat_uniform (rowCount m)); [|
        apply Forall_forall; intros column Hcolumn; map_to_fmap;
        apply list_elem_of_fmap in Hcolumn as [j' [-> _]]; apply length_fmap|exact Hi].
      map_to_fmap. rewrite list_lookup_fmap, lookup_seq_lt by exact Hj.
      cbn [fmap option_fmap option_map mbind option_bind].
      rewrite list_lookup_fmap, Hrow. cbn [fmap option_fmap option_map].
      f_equal. }
    destruct row as [|a [|b [|c [|d [|? ?]]]]]; try discriminate.
    pose proof (Hentry 0 ltac:(lia)) as H0. pose proof (Hentry 1 ltac:(lia)) as H1.
    pose proof (Hentry 2 ltac:(lia)) as H2. pose proof (Hentry 3 ltac:(lia)) as H3.
    cbn [nth] in H0, H1, H2, H3. rewrite <- H0, <- H1, <- H2, <- H3. reflexivity.
  - rewrite lookup_seq_ge by lia. symmetry. apply lookup_ge_None. unfold rowCount in Hi. lia.
Qed.

Section Accepted.
Context `{field : FiniteField} `{hash : Hash} `{merkle : Merkle}
        `{idxGenerator : QueryIndexGenerator}.
Variable inField : Z -> Prop.
Variable g : Z.
Hypothesis Hcontract : foldContract inField g.
Hypothesis Hmerkle : merkleContract.

(** The proof the prover builds for rows of a matrix, with the rows put for
    their hashes, is verified against the tree of the matrix once the rows
    are hashed again. *)
Lemma verifyBatch_rows (m : Matrix) (positions : list nat) (buffers : list Buffer) :
  Forall (fun row => length row = 4) m ->
  rowsToBuffers m positions = Return buffers ->
  let batch := proveBatch (valuesTree m) positions in
  verifyBatch (root (valuesTree m)) positions
    (rehashMerkleProofValues
       {| values := buffers; nodes := nodes batch; proofDepth := proofDepth batch |})
  = inr true.
Proof.
  destruct Hmerkle as (Hdigest & Hbatch & _).
  intros Hrows Hbuffers. apply rowsToBuffers_lookup in Hbuffers as [Hlength Hlookup].
  unfold valuesTree. rewrite (Hdigest m Hrows). cbv zeta.
  set (leaves := map (fun row => digest (vectorToBuffer row)) m).
  assert (Hrange : Forall (fun p => p < length leaves) positions).
  { apply Forall_forall. intros p Hp. apply list_elem_of_lookup in Hp as [i Hi].
    destruct (Hlookup i p Hi) as (row & Hrow & _). apply lookup_lt_Some in Hrow.
    unfold leaves. rewrite length_map. exact Hrow. }
  destruct (Hbatch leaves positions Hrange) as [Hvalues Hverify].
  match goal with |- verifyBatch _ _ ?rehashed = _ =>
    replace rehashed with (proveBatch (create leaves) positions); [exact Hverify|] end.
  unfold rehashMerkleProofValues. cbn [values nodes proofDepth].
  destruct (proveBatch (create leaves) positions) as [vs ns dp]. cbn [values nodes proofDepth] in *.
  f_equal. rewrite Hvalues. apply list_eq. intros i. map_to_fmap.
  rewrite !list_lookup_fmap.
  destruct (positions !! i) as [p|] eqn:Hp; cbn [fmap option_fmap option_map].
  - destruct (Hlookup i p Hp) as (row & Hrow & ->). cbn [fmap option_fmap option_map].
    f_equal. apply nth_lookup_Some. unfold leaves. map_to_fmap.
    rewrite list_lookup_fmap, Hrow. reflexivity.
  - assert (Hnone : buffers !! i = None);
      [|rewrite Hnone; reflexivity].
    apply lookup_ge_None. apply lookup_ge_None in Hp. lia.
Qed.

Lemma remainderPoints_count (domain remainder : Vector) (positions : list nat)
    (count : nat) (points : list Z * list Z) :
  LowDegreeProverJs.remainderPoints domain remainder positions count = Return points ->
  count <= length positions.
Proof.
  revert positions points. induction count as [|count IH]; intros positions points;
    cbn [LowDegreeProverJs.remainderPoints]; [lia|].
  destruct positions as [|p positions]; [discriminate|].
  intros Hbind. invert_bind.
  match goal with H : LowDegreeProverJs.remainderPoints _ _ _ _ = Return _ |- _ =>
    apply IH in H end.
  simpl. lia.
Qed.

(** Along a run of [fri], the loop of the compiled verifier passes every
    component, and ends in the state of the last layer. *)
Lemma friLayers_accepted_js (domain : Vector) :
  domain = getPowerSeries g (length domain) ->
  forall depth pTree polyValues comps lastValues,
  friLayers stopJs domain depth pTree polyValues comps lastValues ->
  forall n st, layerShape domain depth n polyValues ->
  Forall (Forall inField) polyValues ->
  pTree = valuesTree polyValues ->
  LowDegreeProverJs.pRoot st = root pTree ->
  LowDegreeProverJs.rootOfUnity st = fexp g (4 ^ depth) ->
  LowDegreeProverJs.columnLength st = rowCount polyValues ->
  exists st',
    LowDegreeProverJs.verifyComponents
      (LowDegreeProverJs.quarticRootsOfUnity g (length domain)) depth st (map Some comps)
    = Return st'
    /\ LowDegreeProverJs.pRoot st' = root (valuesTree lastValues)
    /\ LowDegreeProverJs.rootOfUnity st' = fexp g (4 ^ (depth + length comps))
    /\ LowDegreeProverJs.maxDegreePlus1 st'
       = LowDegreeProverJs.maxDegreePlus1 st / 4 ^ length comps
    /\ Forall (fun row => length row = 4) lastValues.
Proof.
  pose proof Hcontract as (_ & _ & Hexp & _).
  intros Hdomain depth pTree polyValues comps lastValues Hlayers.
  induction Hlayers as [depth pTree polyValues Hstopped
                       |depth pTree polyValues column component comps lastValues
                          Hfold Hcolumn Hcomponent Hlayers IH];
    intros n st Hshape Hfield Htree Hroot Hw Hlength.
  - exists st. cbn [map LowDegreeProverJs.verifyComponents length].
    rewrite Nat.add_0_r, Nat.pow_0_r, Nat.div_1_r.
    split; [reflexivity|]. split; [rewrite Hroot, Htree; reflexivity|].
    split; [exact Hw|]. split; [reflexivity|apply Hshape].
  - assert (Hn : 8 < n).
    { destruct (le_gt_dec n 8) as [Hle|Hgt]; [|assumption].
      exfalso. apply Hfold. apply (layerShape_stopJs _ _ _ _ Hshape). assumption. }
    destruct (layer_consistent inField g Hcontract domain depth n pTree polyValues column
                component Hdomain Hshape Hn Hfield Hcolumn Hcomponent)
      as (Hcroot & Hin & Hparse & Hrows & Hpolys & Hevals).
    destruct (layerShape_folded _ _ _ _ _ _ Hshape Hn Hcolumn) as [Hcol Hshape'].
    assert (Hpassed : LowDegreeProverJs.verifyComponent
                        (LowDegreeProverJs.quarticRootsOfUnity g (length domain)) depth st
                        component = Return tt).
    { subst pTree. unfold LowDegreeProverJs.verifyComponent.
      rewrite Hlength, Hparse, Hrows.
      cbn [mbind Outcome_bind].
      unfold LowDegreeProverJs.friComponent in Hcomponent. invert_bind.
      subst component. cbn [columnRoot columnProof polyProof values] in *.
      change (columnTree column) with (valuesTree (transposeVector column 4 1)) in *.
      rewrite Hcol.
      repeat match goal with H : rowsToBuffers _ _ = Return _ |- _ =>
        rewrite Hcol in H; apply verifyBatch_rows in H;
        [cbv zeta in H; rewrite ?Hroot; rewrite H; clear H
        |first [apply transposeVector_rows|apply Hshape]] end.
      cbn [called mbind Outcome_bind assertStark].
      unfold LowDegreeProverJs.rowEvaluations. rewrite Hw, Hpolys.
      cbn [mbind Outcome_bind]. unfold evalQuarticBatch. rewrite Hroot, Hevals.
      apply checkEvaluations_same. }
    destruct (IH (n - 2) (LowDegreeProverJs.nextState st component))
      as (st' & Hrun & Hroot' & Hw' & Hdegree & Hlast).
    + exact Hshape'.
    + apply transposeVector_Forall. exact Hin.
    + reflexivity.
    + cbn [LowDegreeProverJs.nextState LowDegreeProverJs.pRoot]. exact Hcroot.
    + cbn [LowDegreeProverJs.nextState LowDegreeProverJs.rootOfUnity].
      rewrite Hw, Hexp. f_equal. rewrite Nat.add_1_r, Nat.pow_succ_r'. lia.
    + cbn [LowDegreeProverJs.nextState LowDegreeProverJs.columnLength].
      rewrite Hlength, length_transposeVector, Nat.div_1_r, Hcol. reflexivity.
    + exists st'. cbn [map LowDegreeProverJs.verifyComponents length].
      rewrite Hpassed. cbn [mbind Outcome_bind].
      split; [exact Hrun|]. split; [exact Hroot'|]. split; [|split; [|exact Hlast]].
      * rewrite Hw'. f_equal. f_equal. lia.
      * rewrite Hdegree. cbn [LowDegreeProverJs.nextState LowDegreeProverJs.maxDegreePlus1].
        rewrite Nat.Div0.div_div, <- Nat.pow_succ_r'. reflexivity.
Qed.

(** The proof [prove] returns is accepted by [verify], with the positions
    queried on the root of the proof, exactly for values that are the
    evaluations at those positions. *)
Lemma prove_accepted_js (n d fuel : nat) (cEvaluations lcValues : Vector)
    (proof : LowDegreeProverJs.LowDegreeProof) :
  length cEvaluations = 2 ^ n -> Forall inField cEvaluations ->
  LowDegreeProverJs.getRootOfUnityDegree fuel g = Return (2 ^ n) ->
  LowDegreeProverJs.prove cEvaluations (getPowerSeries g (2 ^ n)) d = Return proof ->
  let exeQueryPositions := getExeIndexes (LowDegreeProverJs.lcRoot proof) (2 ^ n) in
  let lcChecks := map (fun p => nth p cEvaluations 0%Z) exeQueryPositions in
  ((forall i v, lcValues !! i = Some v -> lcChecks !! i = Some v) ->
   LowDegreeProverJs.verify fuel g proof lcValues exeQueryPositions d = Return true)
  /\ ((exists i v, lcValues !! i = Some v /\ lcChecks !! i <> Some v) ->
      LowDegreeProverJs.verify fuel g proof lcValues exeQueryPositions d
      = Throw (StarkError LinearCombinationCorrectnessFailed)).
Proof.
  pose proof Hcontract as (Hg & _).
  destruct Hmerkle as (_ & _ & Hexe).
  intros Hlength Hfield Hdegree Hprove.
  set (domain := getPowerSeries g (2 ^ n)) in *.
  assert (Hsize : length domain = 2 ^ n).
  { unfold domain, getPowerSeries. rewrite length_map, length_seq. reflexivity. }
  assert (Hdomain : domain = getPowerSeries g (length domain)) by (rewrite Hsize; reflexivity).
  unfold LowDegreeProverJs.prove in Hprove. invert_bind.
  match goal with H : newArray _ = _ |- _ =>
    apply newArray_Return in H as [Hcount ->] end.
  unfold LowDegreeProverJs.getComponentCount in *.
  rewrite Hlength, ceilHalfLog2_pow2 in *.
  assert (Hn : 6 < n).
  { change REMAINDER_SLOTS with 4%Z in Hcount.
    destruct (le_gt_dec n 6) as [Hle|]; [|assumption]. exfalso.
    assert ((Z.of_nat n + 1) / 2 < 4)%Z; [|lia].
    apply Z.div_lt_upper_bound; lia. }
  replace (Z.min _ 0) with 0%Z in * by lia. simpl replicate in *.
  set (polyValues := transposeVector cEvaluations 4 1) in *.
  assert (Hshape : layerShape domain 0 n polyValues).
  { split; [apply transposeVector_rows|]. split.
    - unfold polyValues. rewrite length_transposeVector, Nat.div_1_r, Hlength.
      rewrite (pow2_split n) by lia.
      rewrite (Nat.mul_comm 4 (2 ^ (n - 2))), Nat.div_mul by lia. lia.
    - rewrite Hsize. simpl. lia. }
  match goal with H : LowDegreeProverJs.fri _ _ _ _ _ _ _ = _ |- _ =>
    apply fri_layers_js in H
      as (comps & lastValues & g' & Hlayers & Hg' & Hrem & Hcheck & Hcomps & Hroot & Hlc) end.
  cbn [LowDegreeProverJs.components LowDegreeProverJs.lcRoot LowDegreeProverJs.lcProof]
    in Hcomps, Hroot, Hlc.
  rewrite placeComponents_empty in Hcomps.
  fold (valuesTree polyValues) in *.
  assert (g' = g) as ->.
  { unfold domain, getPowerSeries in Hg'. map_to_fmap.
    rewrite list_lookup_fmap, lookup_seq_lt in Hg'
      by (pose proof (Nat.pow_gt_lin_r 2 n); lia).
    injection Hg' as <-. exact Hg. }
  match goal with H : rowsToBuffers polyValues _ = Return ?x |- _ =>
    rename H into Hrows; rename x into lcBuffers end.
  rewrite Hsize, <- Hroot in Hrows, Hlc. cbv zeta.
  set (exeQueryPositions := getExeIndexes (LowDegreeProverJs.lcRoot proof) (2 ^ n)) in *.
  assert (Hparse : LowDegreeProverJs.parseColumnValues
                     (values (LowDegreeProverJs.lcProof proof)) exeQueryPositions
                     (LowDegreeProverJs.getAugmentedPositions exeQueryPositions (2 ^ n))
                     (2 ^ n)
                   = Return (map (fun p => nth p cEvaluations 0%Z) exeQueryPositions)).
  { rewrite Hlc. cbn [values]. rewrite <- Hlength.
    apply (parseColumnValues_column inField g Hcontract).
    - rewrite Hlength. pose proof (Nat.pow_nonzero 2 n). lia.
    - exists (2 ^ (n - 2)). rewrite Hlength, (pow2_split n) by lia. lia.
    - exact Hfield.
    - rewrite Hlength. apply Hexe.
    - rewrite Hlength. exact Hrows. }
  assert (Hbatch : verifyBatch (LowDegreeProverJs.lcRoot proof)
                     (LowDegreeProverJs.getAugmentedPositions exeQueryPositions (2 ^ n))
                     (rehashMerkleProofValues (LowDegreeProverJs.lcProof proof))
                   = inr true).
  { rewrite Hlc, Hroot.
    exact (verifyBatch_rows polyValues _ _ (proj1 Hshape) Hrows). }
  destruct (friLayers_accepted_js domain Hdomain 0 (valuesTree polyValues) polyValues comps
              lastValues Hlayers n
              {| LowDegreeProverJs.pRoot := LowDegreeProverJs.lcRoot proof;
                 LowDegreeProverJs.rootOfUnity := g;
                 LowDegreeProverJs.maxDegreePlus1 := d;
                 LowDegreeProverJs.columnLength := 2 ^ n / 4 |})
    as (st' & Hrun & Hroot' & Hw' & Hdegree' & Hlast).
  { exact Hshape. }
  { apply transposeVector_Forall. exact Hfield. }
  { reflexivity. }
  { exact Hroot. }
  { cbn [LowDegreeProverJs.rootOfUnity]. rewrite Nat.pow_0_r. symmetry. exact Hg. }
  { cbn [LowDegreeProverJs.columnLength]. unfold polyValues.
    rewrite length_transposeVector, Nat.div_1_r, Hlength. reflexivity. }
  cbn [LowDegreeProverJs.maxDegreePlus1] in Hdegree'. rewrite Hsize in Hrun.
  assert (Hremainder : LowDegreeProverJs.verifyLastLayer st'
                         (LowDegreeProverJs.remainder proof) = Return true).
  { unfold LowDegreeProverJs.verifyLastLayer.
    rewrite Hw', Hdegree', Hcheck.
    assert (Hbound : d / 4 ^ length comps <= length (LowDegreeProverJs.remainder proof)).
    { unfold LowDegreeProverJs.verifyRemainder in Hcheck. invert_bind.
      match goal with H : LowDegreeProverJs.remainderPoints _ _ _ _ = Return _ |- _ =>
        apply remainderPoints_count in H; rename H into Hcount' end.
      unfold LowDegreeProverJs.remainderPositions in Hcount'.
      pose proof (length_filter
                    (fun i => extensionFactor = 0 \/ i mod extensionFactor <> 0)
                    (seq 0 (length (LowDegreeProverJs.remainder proof)))) as Hfilter.
      rewrite length_seq in Hfilter. lia. }
    rewrite (bool_decide_eq_true_2 _ Hbound). cbn [assertStark mbind Outcome_bind].
    rewrite Hrem, (transposeVector_join_transpose lastValues Hlast).
    fold (valuesTree lastValues). rewrite Hroot'.
    rewrite (bool_decide_eq_true_2 _ eq_refl). reflexivity. }
  unfold LowDegreeProverJs.verify. rewrite Hdegree. cbn [mbind Outcome_bind].
  rewrite Hparse.
  cbn [mbind Outcome_bind]. rewrite Hbatch. cbn [called mbind Outcome_bind assertStark].
  rewrite Hcomps, Hrun.
  destruct (checkLinearCombination_cases lcValues
              (map (fun p => nth p cEvaluations 0%Z) exeQueryPositions))
    as [[-> Hall]|[-> (i & v & Hi & Hne)]]; cbn [mbind Outcome_bind].
  - split; [intros _; exact Hremainder|].
    intros (i & v & Hi & Hne). exfalso. apply Hne, Hall, Hi.
  - split; [|reflexivity]. intros Hall. exfalso. apply Hne, Hall, Hi.
Qed.

End Accepted.

Section AcceptedTheorem.
Context `{field : FiniteField} `{hash : Hash} `{merkle : Merkle}
        `{idxGenerator : QueryIndexGenerator}.

(** X12. The compiled prover and verifier fit together. For [2^n]
    evaluations in the field on the powers of a root of unity [g] of order
    [2^n], over libraries that keep [foldContract] and [merkleContract], the
    proof [prove] returns is accepted by [verify], given the positions queried
    on the root of the proof, exactly when each value it is given for the
    linear combination is the evaluation at its position; for any other value
    [verify] throws the error of the linear combination, and no other check
    fails. *)
Theorem proved_is_verified (inField : Z -> Prop) (g : Z) (n d fuel : nat)
    (cEvaluations lcValues : Vector) (proof : LowDegreeProverJs.LowDegreeProof) :
  foldContract inField g -> merkleContract ->
  length cEvaluations = 2 ^ n -> Forall inField cEvaluations ->
  LowDegreeProverJs.getRootOfUnityDegree fuel g = Return (2 ^ n) ->
  LowDegreeProverJs.prove cEvaluations (getPowerSeries g (2 ^ n)) d = Return proof ->
  let exeQueryPositions := getExeIndexes (LowDegreeProverJs.lcRoot proof) (2 ^ n) in
  let lcChecks := map (fun p => nth p cEvaluations 0%Z) exeQueryPositions in
  (LowDegreeProverJs.verify fuel g proof lcValues exeQueryPositions d = Return true
   <-> forall i v, lcValues !! i = Some v -> lcChecks !! i = Some v)
  /\ (LowDegreeProverJs.verify fuel g proof lcValues exeQueryPositions d
      = Throw (StarkError LinearCombinationCorrectnessFailed)
      <-> exists i v, lcValues !! i = Some v /\ lcChecks !! i <> Some v)
  /\ LowDegreeProverJs.verify fuel g proof lcChecks exeQueryPositions d = Return true.
Proof.
  intros Hcontract Hmerkle Hlength Hfield Hdegree Hprove exeQueryPositions lcChecks.
  destruct (prove_accepted_js inField g Hcontract Hmerkle n d fuel cEvaluations lcValues
              proof Hlength Hfield Hdegree Hprove) as [Haccepted Hrefused].
  destruct (prove_accepted_js inField g Hcontract Hmerkle n d fuel cEvaluations lcChecks
              proof Hlength Hfield Hdegree Hprove) as [Hown _].
  fold exeQueryPositions in Haccepted, Hrefused, Hown.
  fold lcChecks in Haccepted, Hrefused, Hown.
  destruct (checkLinearCombination_cases lcValues lcChecks)
    as [[_ Hall]|[_ Hex]].
  - rewrite (Haccepted Hall). split; [split; [intros _; exact Hall|reflexivity]|].
    split; [|apply Hown; auto]. split; [discriminate|].
    intros (i & v & Hi & Hne). exfalso. apply Hne, Hall, Hi.
  - rewrite (Hrefused Hex). split; [|split; [split; [intros _; exact Hex|reflexivity]|]].
    + split; [discriminate|]. intros Hall. destruct Hex as (i & v & Hi & Hne).
      exfalso. apply Hne, Hall, Hi.
    + apply Hown. auto.
Qed.

End AcceptedTheorem.

(** ** The contract of the Merkle proofs on the concrete backend *)

Lemma example_chunks (m : Matrix) :
  Forall (fun row => length row = 4%nat) m ->
  Example.chunks (length m) 8 (flat_map Example.toBuffer m) = map Example.toBuffer m.
Proof.
  induction 1 as [|row m Hrow _ IH]; [reflexivity|].
  cbn [length Example.chunks flat_map map].
  assert (Hlength : length (Example.toBuffer row) = 8%nat)
    by (rewrite example_toBuffer_length, Hrow; reflexivity).
  rewrite take_app_length', drop_app_length' by (rewrite Hlength; reflexivity).
  rewrite IH. reflexivity.
Qed.

Lemma example_merkleContract : merkleContract.
Proof.
  split; [|split].
  - intros m Hrows. cbn [digestValues Example.hash matrixToBuffer Example.field].
    change LowDegreeProverJs.polyRowSize with 8%nat.
    assert (Hlength : length (flat_map Example.toBuffer m) = (length m * 8)%nat).
    { induction Hrows as [|row m Hrow _ IH]; [reflexivity|].
      cbn [flat_map length]. rewrite length_app, IH, example_toBuffer_length, Hrow. lia. }
    rewrite Hlength, Nat.div_mul by lia. rewrite (example_chunks m Hrows), map_map.
    reflexivity.
  - intros leaves positions _. split; [reflexivity|].
    cbn [verifyBatch root create proveBatch Example.merkle values nodes].
    rewrite bool_decide_eq_true_2; [reflexivity|]. split; reflexivity.
  - intros seed n. apply example_spread_range.
Qed.

Lemma example_bufferContract : bufferContract Example.inField.
Proof.
  split; [cbn; lia|]. split; [exact example_toBuffer_length|].
  intros v buffers Hfield Hsplit.
  assert (Hchunks : LowDegreeProverTs.splitBuffer (vectorToBuffer v) elementSize
                    = Return (map Example.elementBytes v)).
  { cbn [vectorToBuffer elementSize Example.field]. unfold Example.toBuffer.
    rewrite flat_map_concat_map. apply splitBuffer_of_chunks; [discriminate|].
    apply Forall_forall. intros chunk Hchunk. map_to_fmap.
    apply list_elem_of_fmap in Hchunk as (x & -> & _). reflexivity. }
  rewrite Hchunks in Hsplit. injection Hsplit as <-.
  cbn [buffersToBigInts Example.field]. rewrite map_map.
  rewrite <- (map_id v) at 2. apply map_ext_in. intros x Hx.
  rewrite Forall_forall in Hfield.
  assert (Hrange : Example.inField x) by (apply Hfield; apply list_elem_of_In; exact Hx).
  unfold Example.inField, Example.modulus in Hrange.
  unfold Example.elementBytes. cbn [Example.readLittleEndian nth].
  rewrite (Z.mod_small (x / 256) 256) by (split; [apply Z.div_pos; lia|apply Z.div_lt_upper_bound; lia]).
  pose proof (Z.div_mod x 256 ltac:(lia)). lia.
Qed.

(** ** The proofs of the earlier prover are accepted *)

Lemma join_transpose_Forall (P : Z -> Prop) (m : Matrix) :
  Forall (fun row => length row = 4) m -> Forall (Forall P) m ->
  Forall P (joinMatrixRows (transposeMatrix m)).
Proof.
  intros Hrows Hfield. destruct (decide (m = [])) as [->|Hne]; [constructor|].
  unfold joinMatrixRows, transposeMatrix. rewrite (colCount_rows m 4 Hrows Hne).
  apply Forall_concat. apply Forall_forall. intros column Hcolumn. map_to_fmap.
  apply list_elem_of_fmap in Hcolumn as (j & -> & Hj). apply elem_of_seq in Hj.
  apply Forall_forall. intros x Hx.
  apply list_elem_of_fmap in Hx as (row & -> & Hrow).
  rewrite Forall_forall in Hrows, Hfield.
  specialize (Hrows row Hrow). specialize (Hfield row Hrow).
  rewrite Forall_forall in Hfield. apply Hfield.
  destruct (lookup_lt_is_Some_2 row j ltac:(lia)) as [x Hx].
  rewrite (nth_lookup_Some _ _ 0%Z _ Hx). apply list_elem_of_lookup. exists j. exact Hx.
Qed.

Section AcceptedTs.
Context `{field : FiniteField} `{hash : Hash} `{merkle : Merkle}
        `{idxGenerator : QueryIndexGenerator}.
Variable inField : Z -> Prop.
Variable g : Z.
Hypothesis Hcontract : foldContract inField g.
Hypothesis Hmerkle : merkleContract.
Hypothesis Hbuffers : bufferContract inField.

(** The Merkle proofs of a component of the prover are verified, with the
    rows hashed again. *)
Lemma friComponent_batches (polyValues : Matrix) (column : Vector)
    (component : FriComponent) :
  Forall (fun row => length row = 4) polyValues ->
  LowDegreeProverJs.friComponent (valuesTree polyValues) (columnTree column) polyValues
    (transposeVector column 4 1) column = Return component ->
  let positions := getFriIndexes (columnRoot component) (length column) in
  verifyBatch (columnRoot component)
    (LowDegreeProverJs.getAugmentedPositions positions (length column))
    (rehashMerkleProofValues (columnProof component)) = inr true
  /\ verifyBatch (root (valuesTree polyValues)) positions
       (rehashMerkleProofValues (polyProof component)) = inr true.
Proof.
  intros Hrows Hcomponent.
  unfold LowDegreeProverJs.friComponent in Hcomponent. invert_bind.
  subst component. cbn [columnRoot columnProof polyProof values] in *. cbv zeta.
  change (columnTree column) with (valuesTree (transposeVector column 4 1)) in *.
  split.
  - match goal with H : rowsToBuffers (transposeVector column 4 1) _ = Return _ |- _ =>
      exact (verifyBatch_rows Hmerkle (transposeVector column 4 1) _ _
               (transposeVector_rows column 4 1) H) end.
  - match goal with H : rowsToBuffers polyValues _ = Return _ |- _ =>
      exact (verifyBatch_rows Hmerkle polyValues _ _ Hrows H) end.
Qed.

(** A turn of the loop of the earlier verifier on a component of the
    prover. *)
Lemma verifyComponent_accepted_ts (domain : Vector) (depth n : nat)
    (polyValues : Matrix) (column : Vector) (component : FriComponent)
    (st : LowDegreeProverTs.VerifierState) (proof : LowDegreeProverTs.LowDegreeProof) :
  domain = getPowerSeries g (length domain) ->
  layerShape domain depth n polyValues -> 8 < n ->
  Forall (Forall inField) polyValues ->
  LowDegreeProverJs.friColumn (valuesTree polyValues) polyValues depth domain
  = Return column ->
  LowDegreeProverJs.friComponent (valuesTree polyValues) (columnTree column) polyValues
    (transposeVector column 4 1) column = Return component ->
  LowDegreeProverTs.lRoot st = root (valuesTree polyValues) ->
  LowDegreeProverTs.rootOfUnity st = fexp g (4 ^ depth) ->
  LowDegreeProverTs.rouDegree st / 4 = rowCount polyValues ->
  LowDegreeProverTs.components proof !! depth = Some (Some component) ->
  (LowDegreeProverTs.verifyComponent
     (LowDegreeProverJs.quarticRootsOfUnity g (length domain)) depth st proof).1
  = Return tt.
Proof.
  pose proof Hcontract as (_ & _ & _ & _ & _ & Hagree & _).
  intros Hdomain Hshape Hn Hfield Hcolumn Hcomponent Hroot Hw Hlength Hc.
  destruct (layer_consistent inField g Hcontract domain depth n _ polyValues column
              component Hdomain Hshape Hn Hfield Hcolumn Hcomponent)
    as (Hcroot & Hin & Hparse & Hread & Hpolys & Hevals).
  destruct (layerShape_folded _ _ _ _ _ _ Hshape Hn Hcolumn) as [Hcol Hshape'].
  destruct (friComponent_batches polyValues column component (proj1 Hshape) Hcomponent)
    as [Hcolumns Hrows].
  cbv zeta in Hcolumns, Hrows. rewrite Hcol in Hcolumns, Hrows.
  rewrite (verifyComponent_ts_outcome _ depth st proof component Hc). cbv zeta.
  rewrite Hlength, Hw, Hroot.
  unfold LowDegreeProverTs.parseColumnValues, LowDegreeProverTs.parsePolyValues.
  change (LowDegreeProverTs.getAugmentedPositions ?ps ?len)
    with (LowDegreeProverJs.getAugmentedPositions ps len).
  rewrite Hparse. cbn [mbind Outcome_bind].
  rewrite Hcolumns. cbn [called mbind Outcome_bind assertStark].
  rewrite Hread. cbn [mbind Outcome_bind].
  rewrite Hrows. cbn [called mbind Outcome_bind assertStark].
  rewrite Hpolys. cbn [mbind Outcome_bind].
  rewrite checkEvaluations_ts_js.
  replace (map (fun poly => evalPolyAt poly (prng (root (valuesTree polyValues)))) _)
    with (map (fun p => nth p column 0%Z)
              (getFriIndexes (columnRoot component) (rowCount polyValues))).
  - apply checkEvaluations_same.
  - rewrite <- Hevals. rewrite !map_map. apply map_ext. intros p. symmetry. apply Hagree.
Qed.

(** Along a run of [fri], the loop of the earlier verifier passes every
    component, and ends in the state of the last layer; the remainder of the
    proof object is as it was. *)
Lemma friLayers_accepted_ts (domain : Vector) :
  domain = getPowerSeries g (length domain) ->
  forall depth lTree values comps lastValues,
  friLayers stopTs domain depth lTree values comps lastValues ->
  forall n st proof, layerShape domain depth n values ->
  Forall (Forall inField) values ->
  lTree = valuesTree values ->
  LowDegreeProverTs.lRoot st = root lTree ->
  LowDegreeProverTs.rootOfUnity st = fexp g (4 ^ depth) ->
  LowDegreeProverTs.rouDegree st / 4 = rowCount values ->
  componentsFrom depth proof = map Some comps ->
  exists st' proof',
    LowDegreeProverTs.verifyComponents
      (LowDegreeProverJs.quarticRootsOfUnity g (length domain)) (length comps) depth st proof
    = (Return st', proof')
    /\ LowDegreeProverTs.remainder proof' = LowDegreeProverTs.remainder proof
    /\ LowDegreeProverTs.lRoot st' = root (valuesTree lastValues)
    /\ LowDegreeProverTs.rootOfUnity st' = fexp g (4 ^ (depth + length comps))
    /\ LowDegreeProverTs.maxDegreePlus1 st'
       = LowDegreeProverTs.maxDegreePlus1 st / 4 ^ length comps
    /\ Forall (fun row => length row = 4) lastValues
    /\ Forall (Forall inField) lastValues.
Proof.
  pose proof Hcontract as (_ & _ & Hexp & _).
  intros Hdomain depth lTree values comps lastValues Hlayers.
  induction Hlayers as [depth lTree values Hstopped
                       |depth lTree values column component comps lastValues
                          Hfold Hcolumn Hcomponent Hlayers IH];
    intros n st proof Hshape Hfield Htree Hroot Hw Hlength Hfrom.
  - exists st, proof. cbn [length LowDegreeProverTs.verifyComponents].
    rewrite Nat.add_0_r, Nat.pow_0_r, Nat.div_1_r.
    split; [reflexivity|]. split; [reflexivity|].
    split; [rewrite Hroot, Htree; reflexivity|].
    split; [exact Hw|]. split; [reflexivity|]. split; [apply Hshape|exact Hfield].
  - subst lTree.
    assert (Hn : 8 < n).
    { destruct (le_gt_dec n 8) as [Hle|Hgt]; [|assumption].
      exfalso. apply Hfold. apply (layerShape_stopTs _ _ _ _ Hshape). assumption. }
    destruct (layer_consistent inField g Hcontract domain depth n _ values column
                component Hdomain Hshape Hn Hfield Hcolumn Hcomponent)
      as (Hcroot & Hin & _).
    destruct (layerShape_folded _ _ _ _ _ _ Hshape Hn Hcolumn) as [Hcol Hshape'].
    unfold componentsFrom in Hfrom.
    assert (Hc : LowDegreeProverTs.components proof !! depth = Some (Some component)).
    { rewrite <- (Nat.add_0_r depth), <- lookup_drop, Hfrom. reflexivity. }
    pose proof (verifyComponent_accepted_ts domain depth n values column component st proof
                  Hdomain Hshape Hn Hfield Hcolumn Hcomponent Hroot Hw Hlength Hc) as Hbody.
    set (quartic := LowDegreeProverJs.quarticRootsOfUnity g (length domain)) in *.
    pose proof (verifyComponent_keeps columnRoots quartic depth st
                  (columnRoots_writeColumn depth) (columnRoots_writePoly depth) proof)
      as Hroots.
    pose proof (verifyComponent_keeps (componentsFrom (depth + 1)) quartic depth st
                  (fun v => componentsFrom_writeColumn (depth + 1) depth v ltac:(lia))
                  (fun v => componentsFrom_writePoly (depth + 1) depth v ltac:(lia)) proof)
      as Hkept.
    pose proof (verifyComponent_keeps LowDegreeProverTs.remainder quartic depth st
                  (fun v p => eq_refl) (fun v p => eq_refl) proof) as Hremainder.
    cbn [length LowDegreeProverTs.verifyComponents].
    unfold mbind at 1, LowDegreeProverTs.Stateful_bind at 1.
    destruct (LowDegreeProverTs.verifyComponent quartic depth st proof)
      as [[[]|e|] proof1]; cbn [fst snd] in *; try discriminate.
    assert (Hc' : exists c', LowDegreeProverTs.components proof1 !! depth = Some (Some c')
                             /\ columnRoot c' = columnRoot component).
    { assert (Hlookup : columnRoots proof1 !! depth = Some (Some (columnRoot component))).
      { rewrite Hroots. unfold columnRoots. rewrite list_lookup_fmap, Hc. reflexivity. }
      unfold columnRoots in Hlookup. rewrite list_lookup_fmap in Hlookup.
      destruct (LowDegreeProverTs.components proof1 !! depth) as [[c'|]|];
        try discriminate.
      injection Hlookup as Hlookup. eauto. }
    destruct Hc' as (c' & Hc' & Hsame).
    unfold mbind at 1, LowDegreeProverTs.Stateful_bind at 1.
    unfold LowDegreeProverTs.readComponent at 1. rewrite Hc'.
    replace (LowDegreeProverTs.nextState st c')
      with (LowDegreeProverTs.nextState st component)
      by (unfold LowDegreeProverTs.nextState; rewrite Hsame; reflexivity).
    destruct (IH (n - 2) (LowDegreeProverTs.nextState st component) proof1)
      as (st' & proof' & Hrun & Hrem & Hroot' & Hw' & Hdegree & Hlast & Hlastfield).
    + exact Hshape'.
    + apply transposeVector_Forall. exact Hin.
    + reflexivity.
    + cbn [LowDegreeProverTs.nextState LowDegreeProverTs.lRoot]. exact Hcroot.
    + cbn [LowDegreeProverTs.nextState LowDegreeProverTs.rootOfUnity].
      rewrite Hw, Hexp. f_equal. rewrite Nat.add_1_r, Nat.pow_succ_r'. lia.
    + cbn [LowDegreeProverTs.nextState LowDegreeProverTs.rouDegree].
      rewrite Hlength, length_transposeVector, Nat.div_1_r, Hcol. reflexivity.
    + rewrite Hkept. unfold componentsFrom. rewrite <- drop_drop, Hfrom. reflexivity.
    + exists st', proof'. split; [exact Hrun|]. split; [congruence|].
      split; [exact Hroot'|]. split; [|split; [|split; [exact Hlast|exact Hlastfield]]].
      * rewrite Hw'. f_equal. f_equal. lia.
      * rewrite Hdegree. cbn [LowDegreeProverTs.nextState LowDegreeProverTs.maxDegreePlus1].
        rewrite Nat.Div0.div_div, <- Nat.pow_succ_r'. reflexivity.
Qed.

(** The proof the earlier [prove] returns for a matrix of values and the
    tree of the matrix is accepted by the earlier [verify]. *)
Lemma prove_accepted_ts (n d fuel : nat) (values : Matrix)
    (proof : LowDegreeProverTs.LowDegreeProof) :
  layerShape (getPowerSeries g (2 ^ n)) 0 n values ->
  Forall (Forall inField) values ->
  LowDegreeProverTs.computeRootOfUnityDegree fuel g = Return (2 ^ n) ->
  LowDegreeProverTs.prove (valuesTree values) values (getPowerSeries g (2 ^ n)) d
  = Return proof ->
  (LowDegreeProverTs.verify fuel (root (valuesTree values)) d g proof).1 = Return true.
Proof.
  pose proof Hcontract as (Hg & _).
  destruct Hbuffers as (Hsize & Hbytes & Hread).
  intros Hshape Hfield Hdegree Hprove.
  set (domain := getPowerSeries g (2 ^ n)) in *.
  assert (Hlength : length domain = 2 ^ n).
  { unfold domain, getPowerSeries. rewrite length_map, length_seq. reflexivity. }
  assert (Hdomain : domain = getPowerSeries g (length domain))
    by (rewrite Hlength; reflexivity).
  unfold LowDegreeProverTs.prove in Hprove. invert_bind.
  match goal with H : newArray _ = _ |- _ =>
    apply newArray_Return in H as [Hcount ->] end.
  assert (Hne : values <> []).
  { intros ->. destruct Hshape as (_ & Hvalues & _).
    change (rowCount []) with 0 in Hvalues. pose proof (Nat.pow_nonzero 2 n). lia. }
  rewrite (colCount_rows _ 4 (proj1 Hshape) Hne) in *.
  rewrite (proj1 (proj2 Hshape)), ceilHalfLog2_pow2 in *.
  assert (Hn : 6 < n).
  { destruct (le_gt_dec n 6) as [Hle|]; [|assumption]. exfalso.
    assert ((Z.of_nat n + 1) / 2 < 4)%Z; [|lia].
    apply Z.div_lt_upper_bound; lia. }
  replace (Z.min _ 0) with 0%Z in * by lia. simpl replicate in *.
  match goal with H : LowDegreeProverTs.fri _ _ _ _ _ _ _ = _ |- _ =>
    apply fri_layers_ts in H
      as (comps & lastValues & g' & Hlayers & Hg' & Hcheck & Hsplit & Hcomps) end.
  cbn [LowDegreeProverTs.components] in Hcomps. rewrite placeComponents_empty in Hcomps.
  assert (g' = g) as ->.
  { unfold domain, getPowerSeries in Hg'. map_to_fmap.
    rewrite list_lookup_fmap, lookup_seq_lt in Hg'
      by (pose proof (Nat.pow_gt_lin_r 2 n); lia).
    injection Hg' as <-. exact Hg. }
  destruct (friLayers_accepted_ts domain Hdomain 0 (valuesTree values) values comps
              lastValues Hlayers n
              {| LowDegreeProverTs.lRoot := root (valuesTree values);
                 LowDegreeProverTs.rootOfUnity := g;
                 LowDegreeProverTs.maxDegreePlus1 := d;
                 LowDegreeProverTs.rouDegree := 2 ^ n |} proof)
    as (st' & proof' & Hrun & Hrem & Hroot' & Hw' & Hdegree' & Hlast & Hlastfield).
  { exact Hshape. }
  { exact Hfield. }
  { reflexivity. }
  { reflexivity. }
  { cbn [LowDegreeProverTs.rootOfUnity]. rewrite Nat.pow_0_r. symmetry. exact Hg. }
  { cbn [LowDegreeProverTs.rouDegree]. rewrite <- (proj1 (proj2 Hshape)).
    rewrite Nat.mul_comm, Nat.div_mul by lia. reflexivity. }
  { unfold componentsFrom. rewrite drop_0. exact Hcomps. }
  cbn [LowDegreeProverTs.maxDegreePlus1] in Hdegree'. rewrite Hlength in Hrun.
  set (remainder := joinMatrixRows (transposeMatrix lastValues)) in *.
  assert (Hinfield : Forall inField remainder)
    by (apply join_transpose_Forall; assumption).
  assert (Hremainder : LowDegreeProverTs.verifyLastLayer st'
                         (LowDegreeProverTs.remainder proof') = Return true).
  { unfold LowDegreeProverTs.verifyLastLayer. rewrite Hrem.
    rewrite (Hread remainder _ Hinfield Hsplit).
    rewrite (length_splitBuffer remainder _ Hbytes Hsize Hsplit).
    assert (Hbound : LowDegreeProverTs.maxDegreePlus1 st' <= length remainder).
    { rewrite Hdegree'. unfold LowDegreeProverJs.verifyRemainder in Hcheck. invert_bind.
      match goal with H : LowDegreeProverJs.remainderPoints _ _ _ _ = Return _ |- _ =>
        apply remainderPoints_count in H; rename H into Hcount' end.
      unfold LowDegreeProverJs.remainderPositions in Hcount'.
      pose proof (length_filter
                    (fun i => extensionFactor = 0 \/ i mod extensionFactor <> 0)
                    (seq 0 (length remainder))) as Hfilter.
      rewrite length_seq in Hfilter. lia. }
    rewrite (bool_decide_eq_true_2 _ Hbound). cbn [assertStark mbind Outcome_bind].
    pose proof (transposeVector_join_transpose lastValues Hlast) as Hround.
    fold remainder in Hround. rewrite Hround.
    rewrite (Nat.mul_comm 4 elementSize).
    change (create (digestValues (matrixToBuffer lastValues) (elementSize * 4)))
      with (valuesTree lastValues).
    rewrite Hroot', (bool_decide_eq_true_2 _ eq_refl).
    cbn [assertStark mbind Outcome_bind].
    unfold LowDegreeProverTs.verifyRemainder. rewrite Hw', Hdegree', Hcheck. reflexivity. }
  unfold LowDegreeProverTs.verify.
  unfold mbind at 1, LowDegreeProverTs.Stateful_bind at 1.
  unfold LowDegreeProverTs.lift at 1. rewrite Hdegree.
  unfold mbind at 1, LowDegreeProverTs.Stateful_bind at 1.
  unfold LowDegreeProverTs.getProof at 1.
  unfold mbind at 1, LowDegreeProverTs.Stateful_bind at 1.
  rewrite Hcomps, length_map, Hrun.
  unfold mbind at 1, LowDegreeProverTs.Stateful_bind at 1.
  unfold LowDegreeProverTs.getProof at 1. unfold LowDegreeProverTs.lift. cbn [fst].
  exact Hremainder.
Qed.

End AcceptedTs.

Section AcceptedTsTheorem.
Context `{field : FiniteField} `{hash : Hash} `{merkle : Merkle}
        `{idxGenerator : QueryIndexGenerator}.

(** X13. The earlier prover and verifier fit together as well. For a matrix
    of [2^n] field values in 4 columns, proved against the tree of the hashes
    of its rows on the powers of a root of unity [g] of order [2^n], over
    libraries that keep [foldContract], [merkleContract] and
    [bufferContract], the proof [prove] returns is accepted by [verify]: the
    remainder is read back from its buffers, and no check fails. *)
Theorem proved_is_verified_ts (inField : Z -> Prop) (g : Z) (n d fuel : nat)
    (values : Matrix) (proof : LowDegreeProverTs.LowDegreeProof) :
  foldContract inField g -> merkleContract -> bufferContract inField ->
  layerShape (getPowerSeries g (2 ^ n)) 0 n values ->
  Forall (Forall inField) values ->
  LowDegreeProverTs.computeRootOfUnityDegree fuel g = Return (2 ^ n) ->
  LowDegreeProverTs.prove (valuesTree values) values (getPowerSeries g (2 ^ n)) d
  = Return proof ->
  (LowDegreeProverTs.verify fuel (root (valuesTree values)) d g proof).1 = Return true.
Proof.
  intros Hcontract Hmerkle Hbuffers Hshape Hfield Hdegree Hprove.
  exact (prove_accepted_ts inField g Hcontract Hmerkle Hbuffers n d fuel values
           proof Hshape Hfield Hdegree Hprove).
Qed.

End AcceptedTsTheorem.

(** ** The further properties on the concrete backend *)

(** X3 on 0, which no squaring takes to 1: the verifier does not end on it. *)
Lemma root_of_unity_degree_witness :
  (forall k, ~ squaresToOne k 0%Z)
  /\ LowDegreeProverJs.verify 9 0%Z Example.proofJs512 Example.lcValues512
       Example.exePositions512 16 = Unfinished.
Proof.
  assert (Hnever : forall k, ~ squaresToOne k 0%Z).
  { intros k. unfold squaresToOne.
    assert (Hzero : Nat.iter k (fun x => fmul x x) 0%Z = 0%Z)
      by (induction k as [|k IH]; [reflexivity|rewrite Nat.iter_succ, IH; reflexivity]).
    rewrite Hzero. discriminate. }
  split; [exact Hnever|].
  destruct (root_of_unity_degree 9 0%Z) as (_ & _ & Hloops).
  destruct (Hloops Hnever) as (_ & Hverify & _). apply Hverify.
Defined.

(** X5 on the proof for the 512 evaluations, with values for the linear
    combination that are off by one. *)
Lemma verify_errors_witness :
  LowDegreeProverJs.verify 9 Example.g512 Example.proofJs512
    (map (Z.add 1) Example.lcValues512) Example.exePositions512 16
  = Throw (StarkError LinearCombinationCorrectnessFailed)
  /\ verifyMessage (length (LowDegreeProverJs.components Example.proofJs512))
       (map (Z.add 1) Example.lcValues512) LinearCombinationCorrectnessFailed = true.
Proof.
  assert (Hthrow : LowDegreeProverJs.verify 9 Example.g512 Example.proofJs512
                     (map (Z.add 1) Example.lcValues512) Example.exePositions512 16
                   = Throw (StarkError LinearCombinationCorrectnessFailed))
    by (vm_compute; reflexivity).
  split; [exact Hthrow|].
  exact (verify_errors 9 Example.g512 Example.proofJs512 (map (Z.add 1) Example.lcValues512)
           Example.exePositions512 16 _ Hthrow).
Defined.

(** X6 on two chunks of two bytes. *)
Lemma splitBuffer_round_trip_witness :
  LowDegreeProverTs.splitBuffer [1; 2; 3; 4]%Z 2 = Return [[1; 2]; [3; 4]]%Z.
Proof.
  destruct (splitBuffer_round_trip [1; 2; 3; 4]%Z 2) as (_ & _ & _ & Hjoin).
  apply (Hjoin [[1; 2]; [3; 4]]%Z); [discriminate|].
  repeat constructor.
Defined.

(** X7 on a constraint degree of 17, with no options given: the extension
    factor is 64, and the validated options are refused. *)
Lemma validated_options_given_back_witness :
  let v := {| Stark.extensionFactor := Int 64; Stark.exeSpotCheckCount := Int 80;
              Stark.friSpotCheckCount := Int 40; Stark.hashAlgorithm := "sha256" |} in
  Stark.validateSecurityOptions None 17 = Return v
  /\ Stark.validateSecurityOptions (givenOptions v) 17
     = Throw (TypeError Stark.extensionFactorRange).
Proof.
  intros v.
  assert (Hvalidated : Stark.validateSecurityOptions None 17 = Return v) by reflexivity.
  split; [exact Hvalidated|].
  destruct (validated_options_given_back None 17 v Hvalidated) as [_ Hrefused].
  apply Hrefused. split; [reflexivity|]. reflexivity.
Defined.

(** X11 on 5: the bits 1, 0, 1 and 253 zeros. *)
Lemma toBits_round_trip_witness :
  exists bits,
    PointMulExample.toBits 5 = Some bits /\ bitsValue bits = 5%Z /\ length bits = 256.
Proof.
  destruct (toBits_round_trip 5) as [Hbits _].
  destruct (Hbits ltac:(lia)) as (bits & Hrun & _ & Hvalue & Hlength).
  exists bits. split; [exact Hrun|]. split; [exact Hvalue|].
  change (Z.log2 5) with 2%Z in Hlength. lia.
Defined.

(** X12 on the proof for the 512 evaluations. *)
Lemma proved_is_verified_witness :
  LowDegreeProverJs.verify 9 Example.g512 Example.proofJs512 Example.lcValues512
    Example.exePositions512 16 = Return true.
Proof.
  destruct (proved_is_verified Example.inField Example.g512 9 16 9 Example.evaluations512
              Example.lcValues512 Example.proofJs512 example_foldContract
              example_merkleContract)
    as (_ & _ & Hverified).
  - vm_compute. reflexivity.
  - apply Forall_forall. intros x Hx. unfold Example.evaluations512 in Hx.
    apply list_elem_of_fmap in Hx as [y [-> _]]. apply example_evalPoly_range.
  - vm_compute. reflexivity.
  - vm_compute. reflexivity.
  - exact Hverified.
Defined.

(** X13 on the proof of the earlier prover for the 512 evaluations. *)
Lemma proved_is_verified_ts_witness :
  (LowDegreeProverTs.verify 9 (root (create Example.tree512)) 16 Example.g512
     Example.proofTs512).1 = Return true.
Proof.
  apply (proved_is_verified_ts Example.inField Example.g512 9 16 9 Example.values512
           Example.proofTs512 example_foldContract example_merkleContract
           example_bufferContract).
  - exact example_layerShape.
  - apply transposeVector_Forall. apply Forall_forall. intros x Hx.
    unfold Example.evaluations512 in Hx.
    apply list_elem_of_fmap in Hx as [y [-> _]]. apply example_evalPoly_range.
  - vm_compute. reflexivity.
  - vm_compute. reflexivity.
Defined.

(** ** What [Stark.verify] can end in *)

Section StarkErrors.
Context `{air : Stark.Air} `{field : FiniteField} `{hash : Hash} `{merkle : Merkle}
        `{idxGenerator : QueryIndexGenerator}.

Lemma throwsOnly_defined {A} (value : option A) :
  throwsOnly stepError (Stark.defined value).
Proof. intros e. destruct value; [discriminate|]. intros [= <-]. exact I. Qed.

Lemma throwsOnly_checkValues (checks values : list Z) (message : Message) :
  stepError (StarkError message) ->
  throwsOnly stepError (Stark.checkValues checks values message).
Proof.
  intros Hmessage. revert values. induction checks as [|check checks IH]; intros values;
    cbn [Stark.checkValues]; [apply throwsOnly_Return|].
  destruct (decide _); [apply IH|]. intros e [= <-]. exact Hmessage.
Qed.

Lemma throwsOnly_checkTransition (step : nat) (zValue : Z) (qValues dValues : list Z)
    (count : nat) :
  throwsOnly stepError (Stark.checkTransition step zValue qValues dValues count).
Proof.
  revert qValues dValues. induction count as [|count IH]; intros qValues dValues;
    cbn [Stark.checkTransition]; [apply throwsOnly_Return|].
  destruct dValues as [|dValue dValues]; [intros e [= <-]; exact I|].
  destruct (decide _); [apply IH|]. intros e [= <-]. exact I.
Qed.

Lemma throwsOnly_verifySteps this assertions totalSteps size degree G2 maps lEvaluations
    lCoefficients (positions : list nat) :
  throwsOnly stepError
    (Stark.verifySteps this assertions totalSteps size degree G2 maps lEvaluations
       lCoefficients positions).
Proof.
  induction positions as [|step positions IH]; cbn [Stark.verifySteps];
    [apply throwsOnly_Return|].
  apply throwsOnly_bind; [|intros _ _; exact IH].
  unfold Stark.verifyStep.
  apply throwsOnly_bind; [apply throwsOnly_defined|]. intros pValues _.
  apply throwsOnly_bind; [apply throwsOnly_defined|]. intros bValues _.
  apply throwsOnly_bind; [apply throwsOnly_defined|]. intros dValues _.
  apply throwsOnly_bind; [apply throwsOnly_defined|]. intros npValues _.
  apply throwsOnly_bind; [apply throwsOnly_checkTransition|]. intros _ _.
  apply throwsOnly_bind; [apply throwsOnly_checkValues; exact I|]. intros _ _.
  destruct (decide (_ !! step = _)); [apply throwsOnly_Return|].
  intros e [= <-]. exact I.
Qed.

(** X14. The [StarkError]s [Stark.verify] can throw, whatever the proof: the
    error of a check of step 7, without a cause; the error of the low-degree
    verifier wrapped as the cause of the low degree error; or what the Merkle
    library itself threw, not a [StarkError], wrapped as the cause of the
    evaluation or linear combination Merkle error. It never reports that a
    Merkle proof of the evaluations or of the linear combination failed to
    verify: no [StarkError] with one of those two messages and no cause
    leaves the function. (Nothing is said of the errors of other classes,
    which the runtime and the libraries throw.) *)
Theorem stark_verify_errors (fuel : nat) (this : Stark.StarkObject)
    (assertions : list Stark.Assertion) (proof : Stark.StarkProof) (iterations : nat)
    (e : Error) :
  Stark.verify fuel this assertions proof iterations = Throw e ->
  match e with
  | StarkError message =>
    stepError e
    /\ message <> EvaluationMerkleFailed /\ message <> LinearCombinationMerkleFailed
  | StarkErrorFrom EvaluationMerkleFailed cause
  | StarkErrorFrom LinearCombinationMerkleFailed cause => isStarkError cause = false
  | StarkErrorFrom LowDegreeVerificationFailed cause =>
    exists lRoot degree G2,
      (LowDegreeProverTs.verify fuel lRoot degree G2
         (Stark.ldProof (Stark.degree proof))).1 = Throw cause
  | StarkErrorFrom _ _ => False
  | TypeError _ | RangeError | LibraryError _ => True
  end.
Proof.
  unfold Stark.verify. destruct (decide _); [intros [= <-]; exact I|].
  intros Hrun. apply bind_Throw in Hrun as [Hrun|(_ & _ & Hrun)].
  { apply tryVerifyBatch_throws in Hrun as (reason & _ & ->). reflexivity. }
  apply bind_Throw in Hrun as [Hrun|(_ & _ & Hrun)].
  { apply tryVerifyBatch_throws in Hrun as (reason & _ & ->). reflexivity. }
  apply bind_Throw in Hrun as [Hrun|(_ & _ & Hrun)].
  { destruct (LowDegreeProverTs.verify _ _ _ _ _).1 as [ok|cause|] eqn:Hlow;
      try discriminate.
    injection Hrun as <-. eauto. }
  apply bind_Throw in Hrun as [Hrun|(_ & _ & Hrun)]; [|discriminate].
  apply throwsOnly_verifySteps in Hrun.
  destruct e as [message|message cause|text| |text]; try contradiction; try exact I.
  split; [exact Hrun|]. split; intros ->; contradiction.
Qed.

End StarkErrors.

(** X14 on the proof that wraps the proof of the earlier prover: the error
    of the low-degree verifier is the cause of the error thrown. *)
Lemma stark_verify_errors_witness :
  Stark.verify 9 Example.starkObject [Example.assertion] Example.starkProof 1
  = Throw (StarkErrorFrom LowDegreeVerificationFailed (StarkError (ColumnMerkleFailed 0)))
  /\ exists lRoot degree G2,
       (LowDegreeProverTs.verify 9 lRoot degree G2
          (Stark.ldProof (Stark.degree Example.starkProof))).1
       = Throw (StarkError (ColumnMerkleFailed 0)).
Proof.
  assert (Hthrow : Stark.verify 9 Example.starkObject [Example.assertion]
                     Example.starkProof 1
                   = Throw (StarkErrorFrom LowDegreeVerificationFailed
                              (StarkError (ColumnMerkleFailed 0))))
    by (vm_compute; reflexivity).
  split; [exact Hthrow|].
  exact (stark_verify_errors 9 Example.starkObject [Example.assertion] Example.starkProof 1
           _ Hthrow).
Defined.

(** ** The sponge of the rescue example *)

Section RescueShapes.
Context `{rescueField : RescueField}.

Lemma isState_pair (state : list Z) :
  isState state <-> exists a b, state = [a; b].
Proof.
  unfold isState, RescueUtils.registers. split.
  - destruct state as [|a [|b [|c state]]]; try discriminate. eauto.
  - intros (a & b & ->). reflexivity.
Qed.

Lemma unrollRound_shape (keyState keyInjection : list Z) (result : list (list Z)) :
  isState keyState -> isState keyInjection ->
  exists keyState' keyInjection' middle,
    RescueUtils.unrollRound keyState keyInjection result
    = Return (keyState', keyInjection', (result ++ [middle]) ++ [keyState'])
    /\ isState keyState' /\ isState keyInjection' /\ isState middle.
Proof.
  intros (a & b & ->)%isState_pair (c & d & ->)%isState_pair.
  eexists _, _, _. split; [reflexivity|]. repeat split.
Qed.

Lemma unrollRounds_shape (count : nat) :
  forall keyState keyInjection result,
  isState keyState -> isState keyInjection -> Forall isState result ->
  exists keys,
    RescueUtils.unrollRounds count keyState keyInjection result = Return keys
    /\ length keys = length result + 2 * count
    /\ Forall isState keys.
Proof.
  induction count as [|count IH]; intros keyState keyInjection result Hstate Hinjection
    Hresult; cbn [RescueUtils.unrollRounds].
  - exists result. split; [reflexivity|]. split; [lia|exact Hresult].
  - destruct (unrollRound_shape keyState keyInjection result Hstate Hinjection)
      as (keyState' & keyInjection' & middle & -> & Hstate' & Hinjection' & Hmiddle).
    cbn [mbind Outcome_bind].
    destruct (IH keyState' keyInjection' ((result ++ [middle]) ++ [keyState']))
      as (keys & -> & Hlength & Hkeys); try assumption.
    + repeat (apply Forall_app; split); try assumption; repeat constructor; assumption.
    + exists keys. split; [reflexivity|]. split; [|exact Hkeys].
      rewrite Hlength, !length_app. simpl. lia.
Qed.

Lemma spongeRound_shape (unrolledKeys : list (list Z)) (k : nat) (state : list Z)
    (trace : list (list Z)) :
  isState state ->
  (forall j, k <= j < k + 2 ->
             exists key, unrolledKeys !! j = Some key /\ isState key) ->
  exists state' middle,
    RescueUtils.spongeRound unrolledKeys k state trace
    = Return (state', (trace ++ [middle]) ++ [state'])
    /\ isState state' /\ isState middle
    /\ forall otherKeys,
         (forall j, k <= j < k + 2 -> otherKeys !! j = unrolledKeys !! j) ->
         RescueUtils.spongeRound otherKeys k state trace
         = Return (state', (trace ++ [middle]) ++ [state']).
Proof.
  intros (a & b & ->)%isState_pair Hkeys.
  destruct (Hkeys k ltac:(lia)) as (key1 & Hkey1 & (c1 & d1 & ->)%isState_pair).
  destruct (Hkeys (k + 1) ltac:(lia)) as (key2 & Hkey2 & (c2 & d2 & ->)%isState_pair).
  eexists _, _. split; [|split; [|split]].
  - unfold RescueUtils.spongeRound, RescueUtils.keyAt. rewrite Hkey1, Hkey2. reflexivity.
  - reflexivity.
  - reflexivity.
  - intros otherKeys Hsame.
    unfold RescueUtils.spongeRound, RescueUtils.keyAt.
    rewrite (Hsame k), (Hsame (k + 1)), Hkey1, Hkey2 by lia. reflexivity.
Qed.

Lemma spongeRounds_shape (unrolledKeys : list (list Z)) (count : nat) :
  forall k state trace,
  isState state -> Forall isState trace ->
  (forall j, k <= j < k + 2 * count ->
             exists key, unrolledKeys !! j = Some key /\ isState key) ->
  exists state' trace',
    RescueUtils.spongeRounds unrolledKeys count k state trace = Return (state', trace')
    /\ isState state' /\ Forall isState trace'
    /\ length trace' = length trace + 2 * count
    /\ (count = 0 \/ last trace' = Some state')
    /\ (forall i, i < length trace -> trace' !! i = trace !! i)
    /\ forall otherKeys,
         (forall j, k <= j < k + 2 * count -> otherKeys !! j = unrolledKeys !! j) ->
         RescueUtils.spongeRounds otherKeys count k state trace = Return (state', trace').
Proof.
  induction count as [|count IH]; intros k state trace Hstate Htrace Hkeys;
    cbn [RescueUtils.spongeRounds].
  - exists state, trace. split; [reflexivity|]. split; [exact Hstate|].
    split; [exact Htrace|]. split; [lia|]. split; [left; reflexivity|].
    split; [reflexivity|]. intros otherKeys _. reflexivity.
  - destruct (spongeRound_shape unrolledKeys k state trace Hstate)
      as (state1 & middle & Hround & Hstate1 & Hmiddle & Hother).
    { intros j Hj. apply Hkeys. lia. }
    rewrite Hround. cbn [mbind Outcome_bind].
    destruct (IH (k + 2) state1 ((trace ++ [middle]) ++ [state1]))
      as (state' & trace' & Hrun & Hstate' & Htrace' & Hlength & Hlast & Hprefix & Hsame).
    + exact Hstate1.
    + repeat (apply Forall_app; split); try assumption; repeat constructor; assumption.
    + intros j Hj. apply Hkeys. lia.
    + exists state', trace'. split; [exact Hrun|]. split; [exact Hstate'|].
      split; [exact Htrace'|]. split; [rewrite Hlength, !length_app; simpl; lia|].
      split; [|split].
      * right. destruct Hlast as [->|Hlast]; [|exact Hlast].
        cbn [RescueUtils.spongeRounds] in Hrun. injection Hrun as <- <-.
        rewrite last_snoc. reflexivity.
      * intros i Hi. rewrite Hprefix by (rewrite !length_app; simpl; lia).
        rewrite <- app_assoc. apply lookup_app_l. exact Hi.
      * intros otherKeys Hagree. rewrite (Hother otherKeys) by (intros j Hj; apply Hagree; lia).
        cbn [mbind Outcome_bind]. apply Hsame. intros j Hj. apply Hagree. lia.
Qed.

(** X15. The key schedule and the sponge of the rescue example fit together.
    [unrollConstants] returns [2 * rounds + 3] key states of two values each,
    whatever the field. On at most two inputs and keys that have the first
    [2 * rounds + 1] of that shape, [sponge] returns: the trace has
    [2 * rounds + 2] states of two values, the first of them the inputs
    filled up with zeros, and the hash is the first [inputs.length] values of
    the last state. It reads no key past the first [2 * rounds + 1]: the last
    two states [unrollConstants] builds are not used. *)
Theorem sponge_shape (inputs : list Z) (unrolledKeys : list (list Z)) :
  (exists keys,
     RescueUtils.unrollConstants = Return keys
     /\ length keys = 2 * RescueUtils.rounds + 3 /\ Forall isState keys)
  /\ (length inputs <= RescueUtils.registers ->
      (forall j, j < 2 * RescueUtils.rounds + 1 ->
                 exists key, unrolledKeys !! j = Some key /\ isState key) ->
      exists hash trace final,
        RescueUtils.sponge inputs unrolledKeys = Return (hash, trace)
        /\ length trace = 2 * RescueUtils.rounds + 2
        /\ Forall isState trace
        /\ trace !! 0
           = Some (inputs ++ replicate (RescueUtils.registers - length inputs) 0%Z)
        /\ last trace = Some final
        /\ hash = map Some (take (length inputs) final)
        /\ length hash = length inputs
        /\ forall otherKeys,
             (forall j, j < 2 * RescueUtils.rounds + 1 ->
                        otherKeys !! j = unrolledKeys !! j) ->
             RescueUtils.sponge inputs otherKeys = Return (hash, trace)).
Proof.
  split.
  - unfold RescueUtils.unrollConstants.
    change (RescueUtils.vadd (replicate RescueUtils.registers 0%Z)
              RescueUtils.initialConstants)
      with (Return [radd 0 1908230773479027697; radd 0 11775995824954138427]%Z).
    cbn [mbind Outcome_bind].
    destruct (unrollRounds_shape (S RescueUtils.rounds)
                [radd 0 1908230773479027697; radd 0 11775995824954138427]%Z
                RescueUtils.initialConstants
                [[radd 0 1908230773479027697; radd 0 11775995824954138427]%Z])
      as (keys & Hrun & Hlength & Hkeys); try reflexivity.
    { repeat constructor. }
    exists keys. split; [exact Hrun|]. split; [|exact Hkeys].
    rewrite Hlength. reflexivity.
  - intros Hinputs Hkeys.
    set (state0 := RescueUtils.copyInputs (replicate RescueUtils.registers 0%Z) inputs).
    assert (Hstate0 : isState state0
                      /\ state0 = inputs
                                  ++ replicate (RescueUtils.registers - length inputs) 0%Z).
    { unfold state0, RescueUtils.copyInputs, isState.
      rewrite drop_replicate. split; [|reflexivity].
      rewrite length_app, length_replicate. lia. }
    destruct Hstate0 as [Hstate0 Hpadded].
    destruct (Hkeys 0 ltac:(unfold RescueUtils.rounds; lia))
      as (key0 & Hkey0 & (c & d & ->)%isState_pair).
    pose proof Hstate0 as (a & b & Hab)%isState_pair.
    assert (Hfirst : RescueUtils.vadd state0 [c; d] = Return [radd a c; radd b d])
      by (rewrite Hab; reflexivity).
    destruct (spongeRounds_shape unrolledKeys RescueUtils.rounds 1 [radd a c; radd b d]
                ([state0] ++ [[radd a c; radd b d]]))
      as (final & trace & Hrun & Hfinal & Htrace & Hlength & Hlast & Hprefix & Hsame).
    { reflexivity. }
    { repeat constructor. exact Hstate0. }
    { intros j Hj. apply Hkeys. lia. }
    exists (map Some (take (length inputs) final)), trace, final.
    assert (Hhash : map (fun i => final !! i) (seq 0 (length inputs))
                    = map Some (take (length inputs) final)).
    { apply list_eq. intros i. map_to_fmap. rewrite !list_lookup_fmap.
      destruct (decide (i < length inputs)) as [Hi|Hi].
      - rewrite lookup_seq_lt, lookup_take_lt by exact Hi.
        cbn [fmap option_fmap option_map]. change (0 + i) with i.
        destruct (lookup_lt_is_Some_2 final i) as [x ->]; [|reflexivity].
        unfold isState in Hfinal. lia.
      - rewrite lookup_seq_ge, lookup_take_ge by lia. reflexivity. }
    split; [|split; [|split; [|split; [|split; [|split; [|split]]]]]].
    + unfold RescueUtils.sponge, RescueUtils.keyAt. rewrite Hkey0.
      cbn [mbind Outcome_bind]. fold state0. rewrite Hfirst. cbn [mbind Outcome_bind].
      rewrite Hrun. cbn [mbind Outcome_bind]. rewrite Hhash. reflexivity.
    + rewrite Hlength. reflexivity.
    + exact Htrace.
    + rewrite Hprefix by (simpl; lia). rewrite <- Hpadded. reflexivity.
    + destruct Hlast as [Hzero|Hlast]; [discriminate|exact Hlast].
    + reflexivity.
    + rewrite length_map, length_take. unfold isState in Hfinal. lia.
    + intros otherKeys Hagree.
      unfold RescueUtils.sponge, RescueUtils.keyAt.
      rewrite (Hagree 0), Hkey0 by (unfold RescueUtils.rounds; lia).
      cbn [mbind Outcome_bind]. fold state0. rewrite Hfirst. cbn [mbind Outcome_bind].
      rewrite (Hsame otherKeys) by (intros j Hj; apply Hagree; lia).
      cbn [mbind Outcome_bind]. rewrite Hhash. reflexivity.
Qed.

End RescueShapes.

(** X15 on the call the module makes when it is loaded,
    [sponge([42n], keyConstants)]. *)
Lemma sponge_shape_witness :
  exists hash trace,
    RescueUtils.sponge [42%Z] RescueExample.keyConstants = Return (hash, trace)
    /\ length trace = 66 /\ length hash = 1.
Proof.
  destruct (sponge_shape [42%Z] RescueExample.keyConstants) as [Hunrolled Hsponge].
  destruct Hunrolled as (keys & Hkeys & Hlength & Hstates).
  assert (Hconstants : RescueExample.keyConstants = keys)
    by (unfold RescueExample.keyConstants; rewrite Hkeys; reflexivity).
  destruct Hsponge as (hash & trace & final & Hrun & Htrace & _ & _ & _ & _ & Hhash & _).
  - unfold RescueUtils.registers. simpl. lia.
  - intros j Hj. rewrite Hconstants.
    destruct (lookup_lt_is_Some_2 keys j) as [key Hkey]; [rewrite Hlength; lia|].
    exists key. split; [exact Hkey|].
    rewrite Forall_forall in Hstates. apply Hstates.
    apply list_elem_of_lookup_2 in Hkey. exact Hkey.
  - exists hash, trace. split; [exact Hrun|]. split; [exact Htrace|exact Hhash].
Defined.
